(** * repo_analyzer_ai: the heuristic analysis pipeline, embedded in Rocq

    The Python modules [config], [git_analyzer], [feature_mapper],
    [developer_analyzer], [repo_analyzer] and [risk_assessor] are translated
    function by function.  Python values keep their Python types: [int] is
    [Z], [str] is [string], [float] is an IEEE-754 binary64 number in the
    Standard Library's [SpecFloat] format, a [list] is a [list], a [dict]
    whose iteration order matters is an association list in insertion order,
    and a call that may raise returns a [result]. *)

From Stdlib Require Import ZArith List String Ascii Bool Lia Arith.
From Stdlib Require Import SpecFloat Permutation Sorted.
Import ListNotations.
Local Open Scope string_scope.
Local Open Scope Z_scope.

(** ** Python semantics used by the analysed code *)

Module Py.

(** *** Exceptions *)

Inductive exn : Type :=
| TypeError
| KeyError
| ZeroDivisionError
| OverflowError
| ValueError.

Inductive result (A : Type) : Type :=
| Return (a : A)
| Raise (e : exn).
Arguments Return {A} a.
Arguments Raise {A} e.

Definition bind {A B : Type} (c : result A) (k : A -> result B) : result B :=
  match c with
  | Return a => k a
  | Raise e => Raise e
  end.

Notation "x <- c ;; k" := (bind c (fun x => k))
  (at level 61, c at next level, right associativity).

Definition returns {A : Type} (c : result A) : bool :=
  match c with Return _ => true | Raise _ => false end.

(** [for x in l: body] where the body may raise: the first exception
    leaves the loop. *)
Fixpoint for_each {A S : Type} (body : S -> A -> result S) (l : list A) (s : S)
  : result S :=
  match l with
  | [] => Return s
  | x :: l' => bind (body s x) (for_each body l')
  end.

(** [sys.maxsize]: no list or str is longer. *)
Definition maxsize : Z := 2 ^ 63 - 1.

(** [len(l)] for a list and for a str. *)
Definition len {A : Type} (l : list A) : Z := Z.of_nat (List.length l).
Definition str_len (s : string) : Z := Z.of_nat (String.length s).

(** *** float: IEEE-754 binary64 *)

Definition prec : Z := 53.
Definition emax : Z := 1024.
Definition float : Type := spec_float.

Definition fadd : float -> float -> float := SFadd prec emax.
Definition fsub : float -> float -> float := SFsub prec emax.
Definition fmul : float -> float -> float := SFmul prec emax.
Definition flt : float -> float -> bool := SFltb.
Definition fle : float -> float -> bool := SFleb.
Definition fgt (x y : float) : bool := SFltb y x.
Definition fge (x y : float) : bool := SFleb y x.
Definition feq : float -> float -> bool := SFeqb.

(** The binary64 nearest to an int, ties to even (an infinity when the
    int is out of range). *)
Definition float_of_int (n : Z) : float := binary_normalize prec emax n 0 false.

Definition is_finite (x : float) : bool :=
  match x with
  | S754_zero _ | S754_finite _ _ _ => true
  | _ => false
  end.

(** [float(n)], and the conversion of the int operand of a mixed
    int/float operation: OverflowError when the int is too large. *)
Definition to_float (n : Z) : result float :=
  let x := float_of_int n in
  if is_finite x then Return x else Raise OverflowError.

(** An int as an exact, unrounded mantissa. *)
Definition exact (n : Z) : float :=
  match n with
  | Z0 => S754_zero false
  | Zpos p => S754_finite false p 0
  | Zneg p => S754_finite true p 0
  end.

(** [a / b] on two ints (true division): the quotient of the exact
    values, rounded once. *)
Definition int_truediv (a b : Z) : result float :=
  if b =? 0 then Raise ZeroDivisionError
  else
    let q := SFdiv prec emax (exact a) (exact b) in
    if is_finite q then Return q else Raise OverflowError.

(** [x * n] with a float [x] and an int [n]. *)
Definition float_mul_int (x : float) (n : Z) : result float :=
  f <- to_float n ;; Return (SFmul prec emax x f).

(** [n * x] and [n + x] with an int [n] and a float [x]. *)
Definition int_mul_float (n : Z) (x : float) : result float :=
  f <- to_float n ;; Return (SFmul prec emax f x).
Definition int_add_float (n : Z) (x : float) : result float :=
  f <- to_float n ;; Return (SFadd prec emax f x).

(** [x / y] on two floats. *)
Definition float_truediv (x y : float) : result float :=
  match y with
  | S754_zero _ => Raise ZeroDivisionError
  | _ => Return (SFdiv prec emax x y)
  end.

(** The decimal literal [n / 10^k] as the parser reads it: the binary64
    nearest to the written decimal. *)
Definition lit (n : Z) (k : nat) : float :=
  SFdiv prec emax (exact n) (exact (10 ^ Z.of_nat k)).

(** The integer nearest to [a / b] for [0 < b], ties to even. *)
Definition round_half_even (a b : Z) : Z :=
  let q := a / b in
  match 2 * (a mod b) ?= b with
  | Lt => q
  | Gt => q + 1
  | Eq => if Z.even q then q else q + 1
  end.

(** [den * 2^t <= num], also for a negative [t]. *)
Definition ge_scaled (num den t : Z) : bool :=
  if 0 <=? t then den * 2 ^ t <=? num else den <=? num * 2 ^ (- t).

(** [floor(log2(num / den))] for positive [num] and [den]. *)
Definition floor_log2_ratio (num den : Z) : Z :=
  let d := Z.log2 num - Z.log2 den in
  if ge_scaled num den d then d else d - 1.

(** The integer nearest to [num / (den * 2^e)], ties to even. *)
Definition scaled_round (num den e : Z) : Z :=
  if 0 <=? e then round_half_even num (den * 2 ^ e)
  else round_half_even (num * 2 ^ (- e)) den.

(** The binary64 nearest to [num / den] for positive [num] and [den], ties
    to even, with sign [s]: what the conversion of a decimal string to a
    float yields. *)
Definition nearest (s : bool) (num den : Z) : float :=
  let e := Z.max (floor_log2_ratio num den - 52) (-1074) in
  let m := scaled_round num den e in
  let '(m, e) := if m =? 2 ^ 53 then (2 ^ 52, e + 1) else (m, e) in
  match m with
  | Zpos p => if e <=? 971 then S754_finite s p e else S754_infinity s
  | _ => S754_zero s
  end.

(** [round(x, 1)]: the decimal with one digit nearest to the exact value
    of [x], ties to even, converted back to the nearest binary64. *)
Definition round1 (x : float) : result float :=
  match x with
  | S754_finite s m e =>
      let n := if 0 <=? e then 10 * Z.pos m * 2 ^ e
               else round_half_even (10 * Z.pos m) (2 ^ (- e)) in
      match n with
      | Zpos p =>
          let r := nearest s n 10 in
          if is_finite r then Return r else Raise OverflowError
      | _ => Return (S754_zero s)
      end
  | _ => Return x
  end.

(** Exact comparison of an int with a float, as [int.__lt__(float)] and
    its siblings compute it. *)
Definition int_float_compare (k : Z) (x : float) : option comparison :=
  match x with
  | S754_nan => None
  | S754_infinity s => Some (if s then Gt else Lt)
  | S754_zero _ => Some (k ?= 0)
  | S754_finite s m e =>
      let v := if s then Z.neg m else Z.pos m in
      Some (if 0 <=? e then k ?= v * 2 ^ e else k * 2 ^ (- e) ?= v)
  end.

Definition int_ge_float (k : Z) (x : float) : bool :=
  match int_float_compare k x with
  | Some (Gt | Eq) => true
  | _ => false
  end.

Definition int_gt_float (k : Z) (x : float) : bool :=
  match int_float_compare k x with
  | Some Gt => true
  | _ => false
  end.

Definition int_lt_float (k : Z) (x : float) : bool :=
  match int_float_compare k x with
  | Some Lt => true
  | _ => false
  end.

(** [min(a, b)] and [max(a, b)]: the first argument unless the second is
    strictly smaller (resp. greater). *)
Definition fmin (a b : float) : float := if flt b a then b else a.
Definition fmax (a b : float) : float := if fgt b a then b else a.

(** *** Operators on values whose type is only known at run time *)

Inductive value : Type :=
| VInt (n : Z)
| VFloat (x : float)
| VStr (s : string).

(** [s * n]: [n] copies of [s], none when [n <= 0]. *)
Definition str_repeat (s : string) (n : Z) : string :=
  String.concat EmptyString (List.repeat s (Z.to_nat n)).

(** [a * b] *)
Definition mul (a b : value) : result value :=
  match a, b with
  | VInt m, VInt n => Return (VInt (m * n))
  | VInt m, VFloat x => r <- int_mul_float m x ;; Return (VFloat r)
  | VFloat x, VInt n => r <- float_mul_int x n ;; Return (VFloat r)
  | VFloat x, VFloat y => Return (VFloat (fmul x y))
  | VInt n, VStr s => Return (VStr (str_repeat s n))
  | VStr s, VInt n => Return (VStr (str_repeat s n))
  | _, _ => Raise TypeError
  end.

(** [a + b] *)
Definition add (a b : value) : result value :=
  match a, b with
  | VInt m, VInt n => Return (VInt (m + n))
  | VInt m, VFloat x => r <- int_add_float m x ;; Return (VFloat r)
  | VFloat x, VInt n => f <- to_float n ;; Return (VFloat (fadd x f))
  | VFloat x, VFloat y => Return (VFloat (fadd x y))
  | VStr s, VStr t => Return (VStr (String.append s t))
  | _, _ => Raise TypeError
  end.

(** [a / n] for an int [n] *)
Definition div_int (a : value) (n : Z) : result float :=
  match a with
  | VInt m => int_truediv m n
  | VFloat x => f <- to_float n ;; float_truediv x f
  | VStr _ => Raise TypeError
  end.

(** *** str *)

Definition lower_ascii (c : ascii) : ascii :=
  let n := nat_of_ascii c in
  if ((65 <=? n) && (n <=? 90))%nat then ascii_of_nat (n + 32) else c.

Definition upper_ascii (c : ascii) : ascii :=
  let n := nat_of_ascii c in
  if ((97 <=? n) && (n <=? 122))%nat then ascii_of_nat (n - 32) else c.

(** [s.lower()] on ASCII text. *)
Fixpoint lower (s : string) : string :=
  match s with
  | EmptyString => EmptyString
  | String c s' => String (lower_ascii c) (lower s')
  end.

(** [s.startswith(p)] *)
Fixpoint startswith (s p : string) : bool :=
  match p, s with
  | EmptyString, _ => true
  | String _ _, EmptyString => false
  | String a p', String b s' => Ascii.eqb a b && startswith s' p'
  end.

(** [p in s] *)
Fixpoint contains (s p : string) : bool :=
  startswith s p ||
  match s with
  | EmptyString => false
  | String _ s' => contains s' p
  end.

(** [any(p in s for p in patterns)] *)
Definition any_in (patterns : list string) (s : string) : bool :=
  existsb (contains s) patterns.

(** [x in l] for a list of strings. *)
Definition str_in (x : string) (l : list string) : bool :=
  existsb (String.eqb x) l.

(** [s.endswith(p)] *)
Definition endswith (s p : string) : bool :=
  let n := String.length s in
  let k := String.length p in
  (k <=? n)%nat && String.eqb (substring (n - k) k s) p.

(** The characters [str.strip()] and [str.split()] treat as white space. *)
Definition is_space (c : ascii) : bool :=
  let n := nat_of_ascii c in
  (((9 <=? n) && (n <=? 13)) || ((28 <=? n) && (n <=? 32)))%nat.

Fixpoint lstrip_by (p : ascii -> bool) (s : string) : string :=
  match s with
  | EmptyString => EmptyString
  | String c s' => if p c then lstrip_by p s' else s
  end.

Fixpoint rstrip_by (p : ascii -> bool) (s : string) : string :=
  match s with
  | EmptyString => EmptyString
  | String c s' =>
      match rstrip_by p s' with
      | EmptyString => if p c then EmptyString else String c EmptyString
      | r => String c r
      end
  end.

(** [s.strip()] *)
Definition strip (s : string) : string :=
  rstrip_by is_space (lstrip_by is_space s).

Fixpoint char_in (c : ascii) (chars : string) : bool :=
  match chars with
  | EmptyString => false
  | String c' chars' => Ascii.eqb c c' || char_in c chars'
  end.

(** [s.strip(chars)] *)
Definition strip_chars (s chars : string) : string :=
  rstrip_by (fun c => char_in c chars) (lstrip_by (fun c => char_in c chars) s).

(** [s.split()]: the maximal runs of non-space characters. *)
Fixpoint split_ws (s cur : string) : list string :=
  match s with
  | EmptyString => match cur with EmptyString => [] | _ => [cur] end
  | String c s' =>
      if is_space c then
        match cur with
        | EmptyString => split_ws s' EmptyString
        | _ => cur :: split_ws s' EmptyString
        end
      else split_ws s' (cur ++ String c EmptyString)
  end.
Definition split (s : string) : list string := split_ws s EmptyString.

(** [s.find(p)]: the first index at which [p] occurs, or -1. *)
Fixpoint find_from (s p : string) (i : Z) : Z :=
  if startswith s p then i
  else match s with
       | EmptyString => -1
       | String _ s' => find_from s' p (i + 1)
       end.
Definition find (s p : string) : Z := find_from s p 0.

(** [s[a:b]] for [0 <= a] and [0 <= b]. *)
Definition slice (s : string) (a b : Z) : string :=
  substring (Z.to_nat a) (Z.to_nat (b - a)) s.

(** [s[a:]] for [0 <= a]. *)
Definition slice_from (s : string) (a : Z) : string :=
  substring (Z.to_nat a) (String.length s - Z.to_nat a) s.

(** [l.index(x)]: ValueError when [x] is not in [l]. *)
Fixpoint index_from (l : list string) (x : string) (i : Z) : result Z :=
  match l with
  | [] => Raise ValueError
  | y :: l' => if String.eqb y x then Return i else index_from l' x (i + 1)
  end.
Definition index (l : list string) (x : string) : result Z := index_from l x 0.

(** [s.replace(a, b)] for single characters [a] and [b]. *)
Fixpoint replace_char (a b : ascii) (s : string) : string :=
  match s with
  | EmptyString => EmptyString
  | String c s' => String (if Ascii.eqb c a then b else c) (replace_char a b s')
  end.

Definition is_upper (c : ascii) : bool :=
  let n := nat_of_ascii c in ((65 <=? n) && (n <=? 90))%nat.
Definition is_lower (c : ascii) : bool :=
  let n := nat_of_ascii c in ((97 <=? n) && (n <=? 122))%nat.

(** [s.title()]: a letter that follows a letter is lower-cased, any other
    letter is upper-cased. *)
Fixpoint title_from (s : string) (previous_is_cased : bool) : string :=
  match s with
  | EmptyString => EmptyString
  | String c s' =>
      if is_lower c then
        String (if previous_is_cased then c else upper_ascii c) (title_from s' true)
      else if is_upper c then
        String (if previous_is_cased then lower_ascii c else c) (title_from s' true)
      else String c (title_from s' false)
  end.
Definition title (s : string) : string := title_from s false.

(** [" ".join(parts)] *)
Fixpoint join_space (parts : list string) : string :=
  match parts with
  | [] => EmptyString
  | [x] => x
  | x :: rest => x ++ " " ++ join_space rest
  end.

(** The group of [re.search(kw + r'\(([^)]+)\):', s)]: at the leftmost
    position where [kw(] is followed by a non-empty run without [)] and
    then by [):]. *)
Fixpoint scope_group (s : string) : option string :=
  match s with
  | EmptyString => None
  | String c s' =>
      if Ascii.eqb c ")" then
        if startswith s' ":" then Some EmptyString else None
      else option_map (String c) (scope_group s')
  end.

Definition scope_at (kw s : string) : option string :=
  if startswith s (kw ++ "(") then
    match scope_group (slice_from s (str_len kw + 1)) with
    | Some (String c g) => Some (String c g)
    | _ => None
    end
  else None.

Fixpoint search_scope (kw s : string) : option string :=
  match scope_at kw s with
  | Some g => Some g
  | None =>
      match s with
      | EmptyString => None
      | String _ s' => search_scope kw s'
      end
  end.

Definition digit_char (d : Z) : ascii := ascii_of_nat (48 + Z.to_nat d).

Fixpoint digits_fuel (fuel : nat) (n : Z) (acc : string) : string :=
  match fuel with
  | O => acc
  | S fuel' =>
      let acc' := String (digit_char (n mod 10)) acc in
      if n <? 10 then acc' else digits_fuel fuel' (n / 10) acc'
  end.

(** [str(n)] for an int. *)
Definition str_of_int (n : Z) : string :=
  let digits m := digits_fuel (S (Z.to_nat (Z.log2 m))) m EmptyString in
  if n <? 0 then String "-" (digits (- n)) else digits n.

(** ["%02d" % n] for [0 <= n]. *)
Definition two_digits (n : Z) : string :=
  if n <? 10 then String "0" (str_of_int n) else str_of_int n.

(** *** sorted: stable, equal keys keep their input order *)

Section Sorted.
Context {A K : Type} (lt : K -> K -> bool) (key : A -> K).

(** [sorted(l, key=key, reverse=True)] *)
Fixpoint insert_desc (x : A) (l : list A) : list A :=
  match l with
  | [] => [x]
  | y :: l' => if lt (key x) (key y) then y :: insert_desc x l' else x :: l
  end.

Definition sorted_desc (l : list A) : list A :=
  fold_right insert_desc [] l.

(** [sorted(l, key=key)] *)
Fixpoint insert_asc (x : A) (l : list A) : list A :=
  match l with
  | [] => [x]
  | y :: l' => if lt (key y) (key x) then y :: insert_asc x l' else x :: l
  end.

Definition sorted_asc (l : list A) : list A :=
  fold_right insert_asc [] l.
End Sorted.

(** *** datetime (naive) and timedelta *)

Record datetime : Type := {
  year : Z; month : Z; day : Z;
  hour : Z; minute : Z; second : Z; microsecond : Z
}.

Definition is_leap (y : Z) : bool :=
  (y mod 4 =? 0) && (negb (y mod 100 =? 0) || (y mod 400 =? 0)).

Definition DAYS_BEFORE_MONTH : list Z :=
  [0; 0; 31; 59; 90; 120; 151; 181; 212; 243; 273; 304; 334].
Definition DAYS_IN_MONTH : list Z :=
  [0; 31; 28; 31; 30; 31; 30; 31; 31; 30; 31; 30; 31].

Definition days_before_year (y : Z) : Z :=
  let y' := y - 1 in y' * 365 + y' / 4 - y' / 100 + y' / 400.

Definition days_before_month (y m : Z) : Z :=
  nth (Z.to_nat m) DAYS_BEFORE_MONTH 0 +
  (if (2 <? m) && is_leap y then 1 else 0).

Definition days_in_month (y m : Z) : Z :=
  if (m =? 2) && is_leap y then 29 else nth (Z.to_nat m) DAYS_IN_MONTH 0.

Definition MINYEAR : Z := 1.
Definition MAXYEAR : Z := 9999.

Definition ymd2ord (y m d : Z) : Z :=
  days_before_year y + days_before_month y m + d.

(** The field ranges that the [datetime] constructor enforces. *)
Definition valid_datetime (d : datetime) : bool :=
  (MINYEAR <=? year d) && (year d <=? MAXYEAR) &&
  (1 <=? month d) && (month d <=? 12) &&
  (1 <=? day d) && (day d <=? days_in_month (year d) (month d)) &&
  (0 <=? hour d) && (hour d <=? 23) &&
  (0 <=? minute d) && (minute d <=? 59) &&
  (0 <=? second d) && (second d <=? 59) &&
  (0 <=? microsecond d) && (microsecond d <=? 999999).

(** [d.toordinal()]: 0001-01-01 is day 1. *)
Definition toordinal (d : datetime) : Z := ymd2ord (year d) (month d) (day d).

(** [d.weekday()]: Monday is 0. *)
Definition weekday (d : datetime) : Z := (toordinal d + 6) mod 7.

Definition ord2ymd (n : Z) : Z * Z * Z :=
  let n := n - 1 in
  let n400 := n / 146097 in let n := n mod 146097 in
  let y := n400 * 400 + 1 in
  let n100 := n / 36524 in let n := n mod 36524 in
  let n4 := n / 1461 in let n := n mod 1461 in
  let n1 := n / 365 in let n := n mod 365 in
  let y := y + n100 * 100 + n4 * 4 + n1 in
  if (n1 =? 4) || (n100 =? 4) then (y - 1, 12, 31)
  else
    let leapyear := (n1 =? 3) && (negb (n4 =? 24) || (n100 =? 3)) in
    let m := Z.shiftr (n + 50) 5 in
    let preceding :=
      nth (Z.to_nat m) DAYS_BEFORE_MONTH 0 +
      (if (2 <? m) && leapyear then 1 else 0) in
    if n <? preceding then
      let m := m - 1 in
      let preceding :=
        preceding - (nth (Z.to_nat m) DAYS_IN_MONTH 0 +
                     (if (m =? 2) && leapyear then 1 else 0)) in
      (y, m, n - preceding + 1)
    else (y, m, n - preceding + 1).

Definition MAXORDINAL : Z := 3652059.

(** [d - timedelta(days=k)] *)
Definition minus_days (d : datetime) (k : Z) : result datetime :=
  let n := toordinal d - k in
  if (1 <=? n) && (n <=? MAXORDINAL) then
    let '(y, m, dd) := ord2ymd n in
    Return {| year := y; month := m; day := dd; hour := hour d;
              minute := minute d; second := second d;
              microsecond := microsecond d |}
  else Raise OverflowError.

Definition to_microseconds (d : datetime) : Z :=
  ((toordinal d * 24 + hour d) * 60 + minute d) * 60 * 1000000
  + second d * 1000000 + microsecond d.

Definition dt_lt (a b : datetime) : bool := to_microseconds a <? to_microseconds b.
Definition dt_gt (a b : datetime) : bool := dt_lt b a.

(** [(a - b).days] *)
Definition diff_days (a b : datetime) : Z :=
  (to_microseconds a - to_microseconds b) / 86400000000.

Definition DAY_NAMES : list string :=
  ["Monday"; "Tuesday"; "Wednesday"; "Thursday"; "Friday"; "Saturday"; "Sunday"].

(** [d.strftime('%A')] *)
Definition strftime_A (d : datetime) : string :=
  nth (Z.to_nat (weekday d)) DAY_NAMES "".

(** [d.strftime('%Y-%W')]: the year as the C library prints it and the
    week of the year counted from the first Monday. *)
Definition strftime_Y_W (d : datetime) : string :=
  let yday := toordinal d - ymd2ord (year d) 1 1 in
  str_of_int (year d) ++ "-" ++ two_digits ((yday + 7 - weekday d) / 7).

(** [x >= k] and [x <= k] for a float [x] and an int [k]: exact, like the
    comparisons of an int with a float. *)
Definition float_ge_int (x : float) (k : Z) : bool :=
  match int_float_compare k x with
  | Some (Lt | Eq) => true
  | _ => false
  end.

Definition float_le_int (x : float) (k : Z) : bool :=
  match int_float_compare k x with
  | Some (Gt | Eq) => true
  | _ => false
  end.

(** [a / b] on two numbers. *)
Definition truediv (a b : value) : result float :=
  match a, b with
  | VInt m, VInt n => int_truediv m n
  | VInt m, VFloat y => x <- to_float m ;; float_truediv x y
  | VFloat x, VInt n => y <- to_float n ;; float_truediv x y
  | VFloat x, VFloat y => float_truediv x y
  | _, _ => Raise TypeError
  end.

(** [s.split(sep)] for a separator of one character: [cur] is the piece
    read so far. *)
Fixpoint split_at (sep : ascii) (s cur : string) : list string :=
  match s with
  | EmptyString => [cur]
  | String c s' =>
      if Ascii.eqb c sep then cur :: split_at sep s' EmptyString
      else split_at sep s' (cur ++ String c EmptyString)
  end.

Definition split_on (sep : ascii) (s : string) : list string :=
  split_at sep s EmptyString.

(** [f"{x:.2f}"]: the decimal with two digits nearest to the exact value
    of [x], ties to even. *)
Definition format_2f (x : float) : string :=
  let digits s n :=
    (if s : bool then "-" else "") ++ str_of_int (n / 100) ++ "." ++ two_digits (n mod 100) in
  match x with
  | S754_nan => "nan"
  | S754_infinity s => if s then "-inf" else "inf"
  | S754_zero s => digits s 0
  | S754_finite s m e =>
      digits s (if 0 <=? e then 100 * Z.pos m * 2 ^ e
                else round_half_even (100 * Z.pos m) (2 ^ (- e)))
  end.

End Py.

Notation "x <- c ;; k" := (Py.bind c (fun x => k))
  (at level 61, c at next level, right associativity).

(** ** config.py *)

Module config.

Record ComplexityThresholds : Type := {
  LOW_COMPLEXITY_LOC : Z;
  MEDIUM_COMPLEXITY_LOC : Z;
  LOW_COMPLEXITY_COMMITS : Z;
  MEDIUM_COMPLEXITY_COMMITS : Z;
  LOW_COMPLEXITY_MULTIPLIER : Py.float;
  MEDIUM_COMPLEXITY_MULTIPLIER : Py.float;
  HIGH_COMPLEXITY_MULTIPLIER : Py.float;
  TESTING_BUFFER : Py.float;
  DOCUMENTATION_BUFFER : Py.float;
  TOTAL_BUFFER : Py.float
}.

Definition default_complexity : ComplexityThresholds := {|
  LOW_COMPLEXITY_LOC := 100;
  MEDIUM_COMPLEXITY_LOC := 500;
  LOW_COMPLEXITY_COMMITS := 3;
  MEDIUM_COMPLEXITY_COMMITS := 8;
  LOW_COMPLEXITY_MULTIPLIER := Py.lit 15 1;
  MEDIUM_COMPLEXITY_MULTIPLIER := Py.lit 30 1;
  HIGH_COMPLEXITY_MULTIPLIER := Py.lit 60 1;
  TESTING_BUFFER := Py.lit 15 2;
  DOCUMENTATION_BUFFER := Py.lit 5 2;
  TOTAL_BUFFER := Py.lit 20 2
|}.

Record GitAnalysisConfig : Type := {
  FEATURE_PATTERNS : list string;
  BUG_FIX_PATTERNS : list string;
  REFACTOR_PATTERNS : list string;
  DOCUMENTATION_PATTERNS : list string;
  MAX_COMMIT_HISTORY : Z;
  MIN_COMMIT_LENGTH : Z;
  IGNORE_MERGE_COMMITS : bool
}.

Definition default_git : GitAnalysisConfig := {|
  FEATURE_PATTERNS :=
    ["feat:"; "feature:"; "add:"; "implement:"; "new:"; "create:"; "build:"];
  BUG_FIX_PATTERNS :=
    ["fix:"; "bugfix:"; "bug:"; "resolve:"; "patch:"; "correct:"];
  REFACTOR_PATTERNS :=
    ["refactor:"; "refactor:"; "cleanup:"; "restructure:"; "optimize:"];
  DOCUMENTATION_PATTERNS :=
    ["docs:"; "documentation:"; "readme:"; "comment:"; "update docs:"];
  MAX_COMMIT_HISTORY := 10000;
  MIN_COMMIT_LENGTH := 10;
  IGNORE_MERGE_COMMITS := true
|}.

Record AnalysisConfig : Type := {
  complexity : ComplexityThresholds;
  git : GitAnalysisConfig
}.

Definition default : AnalysisConfig :=
  {| complexity := default_complexity; git := default_git |}.

Definition get_complexity_level (self : AnalysisConfig) (loc commit_count : Z)
  : string :=
  if (loc <=? LOW_COMPLEXITY_LOC (complexity self)) &&
     (commit_count <=? LOW_COMPLEXITY_COMMITS (complexity self))
  then "low"
  else if (loc <=? MEDIUM_COMPLEXITY_LOC (complexity self)) &&
          (commit_count <=? MEDIUM_COMPLEXITY_COMMITS (complexity self))
  then "medium"
  else "high".

Definition get_time_estimate (self : AnalysisConfig) (complexity_level : string)
           (commit_count : Z) : Py.result Py.float :=
  let multiplier :=
    if String.eqb complexity_level "low"
    then LOW_COMPLEXITY_MULTIPLIER (complexity self)
    else if String.eqb complexity_level "medium"
    then MEDIUM_COMPLEXITY_MULTIPLIER (complexity self)
    else if String.eqb complexity_level "high"
    then HIGH_COMPLEXITY_MULTIPLIER (complexity self)
    else Py.lit 30 1 in
  base_hours <- Py.float_mul_int multiplier commit_count ;;
  buffer <- Py.int_add_float 1 (TOTAL_BUFFER (complexity self)) ;;
  let total_hours := Py.fmul base_hours buffer in
  Py.round1 total_hours.

End config.

(** ** git_analyzer.py *)

Module git_analyzer.
Import Py config.

Record CommitInfo : Type := {
  hash : string;
  author : string;
  author_email : string;
  date : datetime;
  message : string;
  files_changed : Z;
  lines_added : Z;
  lines_deleted : Z;
  is_merge : bool;
  branch : string
}.

(** The fields of [CommitPattern] that the commit loop and the trend
    analysis fill in; [average_commits_per_day], [most_active_days] and
    [commit_message_quality] are computed by separate helpers that do not
    feed back into these. *)
Record CommitPattern : Type := {
  total_commits : Z;
  feature_commits : Z;
  bug_fix_commits : Z;
  refactor_commits : Z;
  documentation_commits : Z;
  merge_commits : Z;
  commit_frequency_trend : string
}.

(** [weekly_commits[week_key] += 1] on a [defaultdict(int)], kept in
    insertion order. *)
Fixpoint incr (k : string) (d : list (string * Z)) : list (string * Z) :=
  match d with
  | [] => [(k, 1)]
  | (k', v) :: d' =>
      if String.eqb k k' then (k', v + 1) :: d' else (k', v) :: incr k d'
  end.

Fixpoint lookup (k : string) (d : list (string * Z)) : Z :=
  match d with
  | [] => 0
  | (k', v) :: d' => if String.eqb k k' then v else lookup k d'
  end.

Definition sum_Z (l : list Z) : Z := fold_left Z.add l 0.

(** The key under which a commit is counted: the Monday of its week. *)
Definition week_key (d : datetime) : result string :=
  week_start <- minus_days d (weekday d) ;;
  Return (strftime_Y_W week_start).

Definition _analyze_commit_frequency_trend (commits : list CommitInfo)
  : result string :=
  if len commits <? 10 then Return "insufficient_data"
  else
    weekly_commits <-
      for_each (fun wc commit =>
                  k <- week_key (date commit) ;; Return (incr k wc))
               commits [] ;;
    if len weekly_commits <? 3 then Return "insufficient_data"
    else
      let weeks := sorted_asc String.ltb (fun k => k) (map fst weekly_commits) in
      let n := len weeks in
      let early_avg :=
        sum_Z (map (fun w => lookup w weekly_commits)
                   (firstn (Z.to_nat (n / 3)) weeks)) in
      let late_avg :=
        sum_Z (map (fun w => lookup w weekly_commits)
                   (skipn (Z.to_nat (Z.max (n + (- n) / 3) 0)) weeks)) in
      if int_gt_float late_avg (fmul (float_of_int early_avg) (lit 12 1))
      then Return "increasing"
      else if int_lt_float late_avg (fmul (float_of_int early_avg) (lit 8 1))
      then Return "decreasing"
      else Return "stable".

(** The counters of the commit loop. *)
Record Counters : Type := {
  n_feature : Z; n_bug_fix : Z; n_refactor : Z; n_documentation : Z; n_merge : Z
}.

Definition no_commits : Counters :=
  {| n_feature := 0; n_bug_fix := 0; n_refactor := 0; n_documentation := 0;
     n_merge := 0 |}.

(** One pass of [for commit in commits] in [_analyze_commit_patterns]. *)
Definition count_commit (git_config : GitAnalysisConfig) (acc : Counters)
           (commit : CommitInfo) : Counters :=
  let message_lower := lower (message commit) in
  let acc :=
    if any_in (FEATURE_PATTERNS git_config) message_lower then
      {| n_feature := n_feature acc + 1; n_bug_fix := n_bug_fix acc;
         n_refactor := n_refactor acc; n_documentation := n_documentation acc;
         n_merge := n_merge acc |}
    else if any_in (BUG_FIX_PATTERNS git_config) message_lower then
      {| n_feature := n_feature acc; n_bug_fix := n_bug_fix acc + 1;
         n_refactor := n_refactor acc; n_documentation := n_documentation acc;
         n_merge := n_merge acc |}
    else if any_in (REFACTOR_PATTERNS git_config) message_lower then
      {| n_feature := n_feature acc; n_bug_fix := n_bug_fix acc;
         n_refactor := n_refactor acc + 1; n_documentation := n_documentation acc;
         n_merge := n_merge acc |}
    else if any_in (DOCUMENTATION_PATTERNS git_config) message_lower then
      {| n_feature := n_feature acc; n_bug_fix := n_bug_fix acc;
         n_refactor := n_refactor acc; n_documentation := n_documentation acc + 1;
         n_merge := n_merge acc |}
    else acc in
  if is_merge commit then
    {| n_feature := n_feature acc; n_bug_fix := n_bug_fix acc;
       n_refactor := n_refactor acc; n_documentation := n_documentation acc;
       n_merge := n_merge acc + 1 |}
  else acc.

Definition _analyze_commit_patterns (self : AnalysisConfig)
           (commits : list CommitInfo) : result CommitPattern :=
  match commits with
  | [] =>
      Return {| total_commits := 0; feature_commits := 0; bug_fix_commits := 0;
                refactor_commits := 0; documentation_commits := 0;
                merge_commits := 0; commit_frequency_trend := "unknown" |}
  | _ :: _ =>
      let acc := fold_left (count_commit (git self)) commits no_commits in
      commit_frequency_trend <- _analyze_commit_frequency_trend commits ;;
      Return {| total_commits := len commits;
                feature_commits := n_feature acc;
                bug_fix_commits := n_bug_fix acc;
                refactor_commits := n_refactor acc;
                documentation_commits := n_documentation acc;
                merge_commits := n_merge acc;
                commit_frequency_trend := commit_frequency_trend |}
  end.

(** *** _find_most_active_days *)

(** [Counter.most_common(n)]: the first [n] entries of the stable sort by
    descending count, so that equal counts stay in insertion order. *)
Definition most_common (n : nat) (counts : list (string * Z)) : list (string * Z) :=
  firstn n (sorted_desc Z.ltb snd counts).

Definition _find_most_active_days (commits : list CommitInfo) : list string :=
  let day_counts :=
    fold_left (fun day_counts commit => incr (strftime_A (date commit)) day_counts)
              commits [] in
  map fst (most_common 3 day_counts).

(** *** analyze_developers *)

(** [first_commit] and [last_commit] hold what the dict of the author
    holds, a date or [None]. *)
Record AuthorStats : Type := {
  name : string;
  email : string;
  commit_count : Z;
  total_lines_added : Z;
  total_lines_deleted : Z;
  first_commit : option datetime;
  last_commit : option datetime;
  commit_frequency : float;
  average_commit_size : float;
  contribution_percentage : float
}.

(** The dict that the [defaultdict] keeps for an author, with the keys
    'commits', 'lines_added', 'lines_deleted', 'first_commit' and
    'last_commit'. *)
Record AuthorEntry : Type := {
  stat_commits : list CommitInfo;
  stat_lines_added : Z;
  stat_lines_deleted : Z;
  stat_first_commit : option datetime;
  stat_last_commit : option datetime
}.

Definition new_entry : AuthorEntry :=
  {| stat_commits := []; stat_lines_added := 0; stat_lines_deleted := 0;
     stat_first_commit := None; stat_last_commit := None |}.

(** The body of the first loop, on the entry of the commit's author. *)
Definition add_commit (commit : CommitInfo) (stats : AuthorEntry) : AuthorEntry :=
  {| stat_commits := stat_commits stats ++ [commit];
     stat_lines_added := stat_lines_added stats + lines_added commit;
     stat_lines_deleted := stat_lines_deleted stats + lines_deleted commit;
     stat_first_commit :=
       match stat_first_commit stats with
       | None => Some (date commit)
       | Some first =>
           if dt_lt (date commit) first then Some (date commit) else Some first
       end;
     stat_last_commit :=
       match stat_last_commit stats with
       | None => Some (date commit)
       | Some last =>
           if dt_gt (date commit) last then Some (date commit) else Some last
       end |}.

(** [author_stats[author]] updated in place; a new author gets the default
    entry first, at the end of the dict. *)
Fixpoint update_author (author : string) (f : AuthorEntry -> AuthorEntry)
         (author_stats : list (string * AuthorEntry)) : list (string * AuthorEntry) :=
  match author_stats with
  | [] => [(author, f new_entry)]
  | (a, stats) :: rest =>
      if String.eqb author a then (a, f stats) :: rest
      else (a, stats) :: update_author author f rest
  end.

Definition group_by_author (commits : list CommitInfo) : list (string * AuthorEntry) :=
  fold_left (fun author_stats commit =>
               update_author (author commit) (add_commit commit) author_stats)
            commits [].

(** The body of the second loop. A date is always true as a condition, so
    the frequency is 0.0 only for an entry without dates; the int 0 of an
    average over no commit is written as the float it would be stored as. *)
Definition author_statistics (total_commits : Z) (entry : string * AuthorEntry)
  : result AuthorStats :=
  let '(author, stats) := entry in
  let commit_count := len (stat_commits stats) in
  ratio <- int_truediv commit_count total_commits ;;
  contribution_percentage <- float_mul_int ratio 100 ;;
  commit_frequency <-
    match stat_first_commit stats, stat_last_commit stats with
    | Some first, Some last =>
        let duration := diff_days last first in
        int_truediv commit_count (Z.max duration 1)
    | _, _ => Return (S754_zero false)
    end ;;
  let total_changes := stat_lines_added stats + stat_lines_deleted stats in
  average_commit_size <-
    (if commit_count >? 0 then int_truediv total_changes commit_count
     else Return (S754_zero false)) ;;
  Return {| name := author;
            email := match stat_commits stats with
                     | first :: _ => author_email first
                     | [] => ""
                     end;
            commit_count := commit_count;
            total_lines_added := stat_lines_added stats;
            total_lines_deleted := stat_lines_deleted stats;
            first_commit := stat_first_commit stats;
            last_commit := stat_last_commit stats;
            commit_frequency := commit_frequency;
            average_commit_size := average_commit_size;
            contribution_percentage := contribution_percentage |}.

Definition analyze_developers (commits : list CommitInfo) : result (list AuthorStats) :=
  let author_stats := group_by_author commits in
  let total_commits := len commits in
  author_list <-
    for_each (fun author_list entry =>
                stats <- author_statistics total_commits entry ;;
                Return (author_list ++ [stats])%list)
             author_stats [] ;;
  Return (sorted_desc flt contribution_percentage author_list).

(** *** analyze_feature_timeline *)

(** The second loop of [_extract_feature_from_commit]: the word after the
    first of 'add', 'implement' and 'new' that has a word after it. *)
Fixpoint next_word (words : list string) : option string :=
  match words with
  | word :: ((next :: _) as rest) =>
      if str_in word ["add"; "implement"; "new"]
      then Some (strip_chars next ".,:")
      else next_word rest
  | _ => None
  end.

Definition _extract_feature_from_commit (commit : CommitInfo) : option string :=
  let message := lower (message commit) in
  let by_keyword :=
    fold_left
      (fun found keyword =>
         match found with
         | Some _ => found
         | None =>
             if contains message keyword then
               let start_idx := find message keyword + str_len keyword in
               let end_idx :=
                 if contains message (String "010" EmptyString)
                 then find message (String "010" EmptyString)
                 else str_len message in
               let feature_name := strip (slice message start_idx end_idx) in
               match feature_name with
               | EmptyString => None
               | _ => Some feature_name
               end
             else None
         end)
      ["feat:"; "feature:"; "add:"; "implement:"; "new:"] None in
  match by_keyword with
  | Some feature_name => Some feature_name
  | None =>
      if contains message "add" || contains message "implement"
         || contains message "new"
      then next_word (split message)
      else None
  end.

(** [development_duration] is a [timedelta], kept as its microseconds;
    [end_date] and [development_duration] are always set. *)
Record FeatureTimeline : Type := {
  feature_name : string;
  start_date : datetime;
  end_date : datetime;
  timeline_commit_count : Z;
  total_lines_changed : Z;
  development_duration : Z;
  development_intensity : float
}.

(** [feature_commits[feature].append(commit)] on a [defaultdict(list)]. *)
Fixpoint append_commit (feature : string) (commit : CommitInfo)
         (feature_commits : list (string * list CommitInfo))
  : list (string * list CommitInfo) :=
  match feature_commits with
  | [] => [(feature, [commit])]
  | (k, l) :: rest =>
      if String.eqb feature k then (k, (l ++ [commit])%list) :: rest
      else (k, l) :: append_commit feature commit rest
  end.

(** The body of the second loop of [analyze_feature_timeline]; a list of
    two commits or more has a first and a last commit after sorting. *)
Definition add_timeline (feature_timelines : list FeatureTimeline)
           (entry : string * list CommitInfo) : result (list FeatureTimeline) :=
  let '(feature_name, feature_commit_list) := entry in
  match feature_commit_list with
  | [] | [_] => Return feature_timelines
  | any :: _ :: _ =>
      let sorted_commits := sorted_asc dt_lt date feature_commit_list in
      let start_date := date (hd any sorted_commits) in
      let end_date := date (last sorted_commits any) in
      let development_duration := to_microseconds end_date - to_microseconds start_date in
      let total_lines_changed :=
        sum_Z (map (fun commit => lines_added commit + lines_deleted commit)
                   feature_commit_list) in
      development_intensity <-
        int_truediv total_lines_changed (Z.max (development_duration / 86400000000) 1) ;;
      Return (feature_timelines ++
              [{| feature_name := feature_name;
                  start_date := start_date;
                  end_date := end_date;
                  timeline_commit_count := len feature_commit_list;
                  total_lines_changed := total_lines_changed;
                  development_duration := development_duration;
                  development_intensity := development_intensity |}])%list
  end.

Definition analyze_feature_timeline (commits : list CommitInfo)
  : result (list FeatureTimeline) :=
  let feature_commits :=
    fold_left (fun feature_commits commit =>
                 match _extract_feature_from_commit commit with
                 | Some (String c feature) =>
                     append_commit (String c feature) commit feature_commits
                 | _ => feature_commits
                 end)
              commits [] in
  feature_timelines <- for_each add_timeline feature_commits [] ;;
  Return (sorted_asc dt_lt start_date feature_timelines).

End git_analyzer.

(** ** feature_mapper.py *)

Module feature_mapper.
Import Py.
Import git_analyzer.

Record Feature : Type := {
  name : string;
  description : string;
  complexity : string;
  status : string;
  estimated_hours : float;
  actual_hours : option float;
  commit_count : Z;
  lines_of_code : Z;
  business_value : string;
  priority : string;
  risk_level : string;
  confidence : float;
  start_date : option datetime;
  end_date : option datetime;
  dependencies : list string;
  tags : list string
}.

(** [feature.complexity = c] and [feature.estimated_hours = h] *)
Definition set_complexity (f : Feature) (c : string) : Feature :=
  {| name := name f; description := description f; complexity := c;
     status := status f; estimated_hours := estimated_hours f;
     actual_hours := actual_hours f; commit_count := commit_count f;
     lines_of_code := lines_of_code f; business_value := business_value f;
     priority := priority f; risk_level := risk_level f;
     confidence := confidence f; start_date := start_date f;
     end_date := end_date f; dependencies := dependencies f; tags := tags f |}.

Definition set_estimated_hours (f : Feature) (h : float) : Feature :=
  {| name := name f; description := description f; complexity := complexity f;
     status := status f; estimated_hours := h;
     actual_hours := actual_hours f; commit_count := commit_count f;
     lines_of_code := lines_of_code f; business_value := business_value f;
     priority := priority f; risk_level := risk_level f;
     confidence := confidence f; start_date := start_date f;
     end_date := end_date f; dependencies := dependencies f; tags := tags f |}.

Record FeatureGroup : Type := {
  group_name : string;
  features : list Feature;
  total_hours : float;
  average_complexity : string;
  business_impact : string
}.

(** The dict built for each feature candidate; its keys are exactly these
    five, so a [.get] of any other key yields the default. *)
Record FeatureData : Type := {
  data_commits : list CommitInfo;
  data_lines_changed : Z;
  data_start_date : option datetime;
  data_end_date : option datetime;
  data_tags : list string
}.

Record RepoStructure : Type := { directories : list string }.

Definition _extract_feature_name_from_commit (commit : CommitInfo)
  : option string :=
  let message := lower (message commit) in
  let conventional :=
    fold_left (fun found kw =>
                 match found with
                 | Some _ => found
                 | None => search_scope kw message
                 end)
              ["feat"; "feature"; "add"; "new"] None in
  match conventional with
  | Some group => Some (strip group)
  | None =>
      let after_prefix :=
        if contains message "feat:" then
          let start_idx := find message "feat:" + 5 in
          let end_idx :=
            if contains message (String "010" EmptyString)
            then find message (String "010" EmptyString)
            else str_len message in
          let feature_name := strip (slice message start_idx end_idx) in
          match feature_name with
          | EmptyString => None
          | _ => Some feature_name
          end
        else None in
      match after_prefix with
      | Some feature_name => Some feature_name
      | None =>
          fold_left
            (fun found keyword =>
               match found with
               | Some _ => found
               | None =>
                   if contains message keyword then
                     let words := split message in
                     match index words keyword with
                     | Return keyword_idx =>
                         if keyword_idx + 1 <? len words
                         then Some (strip_chars
                                      (nth (Z.to_nat (keyword_idx + 1)) words "")
                                      ".,:")
                         else None
                     | Raise _ => None
                     end
                   else None
               end)
            ["add"; "implement"; "new"; "create"; "build"] None
      end
  end.

Definition tag_patterns : list (string * list string) :=
  [ ("bugfix", ["bug"; "fix"; "patch"]);
    ("feature", ["feat"; "feature"; "add"; "new"]);
    ("refactor", ["refactor"; "refactor"; "cleanup"]);
    ("documentation", ["docs"; "documentation"; "readme"]);
    ("testing", ["test"; "testing"; "spec"]);
    ("performance", ["perf"; "performance"; "optimize"]);
    ("security", ["security"; "secure"; "vulnerability"]) ].

Definition _extract_tags_from_commit (commit : CommitInfo) : list string :=
  let message := lower (message commit) in
  map fst (filter (fun '(_, keywords) => any_in keywords message) tag_patterns).

Definition _is_feature_directory (directory : string) : bool :=
  any_in ["feature"; "component"; "module"; "service"; "api";
          "controller"; "model"; "view"; "page"; "screen"]
         (lower directory).

Definition _extract_feature_name_from_directory (directory : string) : string :=
  let name := directory in
  let name :=
    match filter (startswith name)
                 ["src/"; "app/"; "components/"; "features/"; "modules/"] with
    | prefix :: _ => slice_from name (str_len prefix)
    | [] => name
    end in
  let name :=
    match filter (endswith name) ["/"; "-component"; "-module"; "-feature"] with
    | suffix :: _ => slice name 0 (str_len name - str_len suffix)
    | [] => name
    end in
  title (replace_char "_" " " (replace_char "-" " " name)).

(** A [dict] from feature name to feature data, in insertion order. *)
Definition FeatureDict : Type := list (string * FeatureData).

Definition empty_data : FeatureData :=
  {| data_commits := []; data_lines_changed := 0; data_start_date := None;
     data_end_date := None; data_tags := [] |}.

(** [d[k] = f(d[k])], where a missing key starts from [empty_data]. *)
Fixpoint update (k : string) (f : FeatureData -> FeatureData) (d : FeatureDict)
  : FeatureDict :=
  match d with
  | [] => [(k, f empty_data)]
  | (k', v) :: d' =>
      if String.eqb k k' then (k', f v) :: d' else (k', v) :: update k f d'
  end.

Definition has_key (k : string) (d : FeatureDict) : bool :=
  existsb (fun '(k', _) => String.eqb k k') d.

(** [tags.update(new)] on a set of strings; the set is kept in the order
    in which its members arrived (a CPython set iterates in an order that
    depends on the hash seed). *)
Definition set_update (tags new : list string) : list string :=
  fold_left (fun acc t => if str_in t acc then acc else (acc ++ [t])%list) new tags.

Definition record_commit (commit : CommitInfo) (data : FeatureData)
  : FeatureData :=
  {| data_commits := (data_commits data ++ [commit])%list;
     data_lines_changed :=
       data_lines_changed data + (lines_added commit + lines_deleted commit);
     data_start_date :=
       match data_start_date data with
       | None => Some (date commit)
       | Some d => if dt_lt (date commit) d then Some (date commit) else Some d
       end;
     data_end_date :=
       match data_end_date data with
       | None => Some (date commit)
       | Some d => if dt_gt (date commit) d then Some (date commit) else Some d
       end;
     data_tags := set_update (data_tags data) (_extract_tags_from_commit commit) |}.

Definition _extract_features_from_commits (commits : list CommitInfo)
  : FeatureDict :=
  fold_left
    (fun features commit =>
       match _extract_feature_name_from_commit commit with
       | Some (String c rest) => update (String c rest) (record_commit commit) features
       | _ => features
       end)
    commits [].

Definition structure_data : FeatureData :=
  {| data_commits := []; data_lines_changed := 0; data_start_date := None;
     data_end_date := None; data_tags := ["structure-based"] |}.

Definition _extract_features_from_structure (repo_structure : RepoStructure)
  : FeatureDict :=
  fold_left
    (fun features directory =>
       if _is_feature_directory directory then
         match _extract_feature_name_from_directory directory with
         | EmptyString => features
         | feature_name => update feature_name (fun _ => structure_data) features
         end
       else features)
    (directories repo_structure) [].

Definition extend_tags (new : list string) (data : FeatureData) : FeatureData :=
  {| data_commits := data_commits data;
     data_lines_changed := data_lines_changed data;
     data_start_date := data_start_date data;
     data_end_date := data_end_date data;
     data_tags := (data_tags data ++ new)%list |}.

Definition _merge_features (commit_features dir_features : FeatureDict)
  : FeatureDict :=
  let merged := fold_left (fun m '(name, data) => update name (fun _ => data) m)
                          commit_features [] in
  fold_left
    (fun m '(name, data) =>
       if has_key name m then update name (extend_tags (data_tags data)) m
       else update name (fun _ => data) m)
    dir_features merged.

Definition _determine_feature_status (feature_data : FeatureData) : string :=
  match data_end_date feature_data with
  | Some _ => "completed"
  | None =>
      match data_start_date feature_data with
      | Some _ => "in_progress"
      | None => "planned"
      end
  end.

Definition _determine_business_value (feature_name : string)
           (feature_data : FeatureData) : string :=
  let name_lower := lower feature_name in
  if any_in ["auth"; "payment"; "user"; "core"; "main"; "critical"] name_lower
  then "High"
  else if any_in ["api"; "service"; "component"; "feature"] name_lower
  then "Medium"
  else "Medium".

Definition _determine_priority (feature_name : string)
           (feature_data : FeatureData) : string :=
  let business_value := _determine_business_value feature_name feature_data in
  if String.eqb business_value "High" then "High"
  else if String.eqb business_value "Medium" then "Medium"
  else "Low".

(** [feature_data.get('dependencies', [])]: the key is never set. *)
Definition data_dependencies (feature_data : FeatureData) : list string := [].

Definition _determine_risk_level (feature_data : FeatureData) : string :=
  if data_lines_changed feature_data >? 1000 then "High"
  else if len (data_dependencies feature_data) >? 5 then "High"
  else if data_lines_changed feature_data >? 500 then "Medium"
  else if len (data_dependencies feature_data) >? 2 then "Medium"
  else "Low".

Definition _calculate_feature_confidence (feature_data : FeatureData) : float :=
  let confidence := lit 5 1 in
  let confidence :=
    match data_commits feature_data with
    | [] => confidence
    | _ :: _ => fadd confidence (lit 2 1)
    end in
  let confidence :=
    match data_start_date feature_data, data_end_date feature_data with
    | Some _, Some _ => fadd confidence (lit 1 1)
    | _, _ => confidence
    end in
  let confidence :=
    if data_lines_changed feature_data >? 0
    then fadd confidence (lit 1 1) else confidence in
  let confidence :=
    match data_tags feature_data with
    | [] => confidence
    | _ :: _ => fadd confidence (lit 1 1)
    end in
  fmin confidence (lit 10 1).

Definition _generate_feature_description (feature_name : string)
           (feature_data : FeatureData) : string :=
  let kind :=
    match data_tags feature_data with
    | [] => "Development work"
    | _ :: _ =>
        if str_in "feature" (data_tags feature_data) then "Feature implementation"
        else if str_in "bugfix" (data_tags feature_data) then "Bug fix"
        else if str_in "refactor" (data_tags feature_data) then "Code refactoring"
        else "Development work"
    end in
  let scope :=
    if data_lines_changed feature_data >? 0
    then ["affecting " ++ str_of_int (data_lines_changed feature_data)
          ++ " lines of code"]
    else [] in
  let commit_part :=
    match data_commits feature_data with
    | [] => []
    | _ :: _ =>
        ["with " ++ str_of_int (len (data_commits feature_data)) ++ " commits"]
    end in
  join_space ([kind] ++ scope ++ commit_part)%list.

Definition _extract_dependencies (feature_data : FeatureData) : list string :=
  ((if str_in "api" (data_tags feature_data) then ["Backend API"] else []) ++
   (if str_in "database" (data_tags feature_data) then ["Database"] else []) ++
   (if str_in "ui" (data_tags feature_data) then ["UI Components"] else []))%list.

Definition _determine_feature_group (feature : Feature) : string :=
  let name_lower := lower (name feature) in
  if any_in ["ui"; "component"; "page"; "screen"; "view"] name_lower
  then "User Interface"
  else if any_in ["api"; "service"; "controller"; "model"] name_lower
  then "Backend Services"
  else if any_in ["config"; "setup"; "deploy"; "docker"] name_lower
  then "Infrastructure"
  else if any_in ["database"; "data"; "storage"; "cache"] name_lower
  then "Data Management"
  else "Core Features".

Definition impact_score (business_value : string) : Z :=
  if String.eqb business_value "Critical" then 5
  else if String.eqb business_value "High" then 4
  else if String.eqb business_value "Medium" then 3
  else if String.eqb business_value "Low" then 2
  else if String.eqb business_value "Minimal" then 1
  else 3.

Definition _determine_group_business_impact (features : list Feature)
  : result string :=
  match features with
  | [] => Return "Low"
  | _ :: _ =>
      let total_score :=
        fold_left Z.add (map (fun f => impact_score (business_value f)) features) 0 in
      average_score <- int_truediv total_score (len features) ;;
      if fge average_score (lit 45 1) then Return "Critical"
      else if fge average_score (lit 35 1) then Return "High"
      else if fge average_score (lit 25 1) then Return "Medium"
      else if fge average_score (lit 15 1) then Return "Low"
      else Return "Minimal"
  end.

(** [complexity_scores[c]] for the table [{'low': 1, 'medium': 2, 'high': 3}] *)
Definition complexity_scores (c : string) : result Z :=
  if String.eqb c "low" then Return 1
  else if String.eqb c "medium" then Return 2
  else if String.eqb c "high" then Return 3
  else Raise KeyError.

(** [groups[group_name].append(feature)] on a [defaultdict(list)] *)
Fixpoint append_to (k : string) (f : Feature) (groups : list (string * list Feature))
  : list (string * list Feature) :=
  match groups with
  | [] => [(k, [f])]
  | (k', fs) :: groups' =>
      if String.eqb k k' then (k', (fs ++ [f])%list) :: groups'
      else (k', fs) :: append_to k f groups'
  end.

Section WithConfig.
Variable self : config.AnalysisConfig.

Definition assess_complexity (feature : Feature) : string :=
  let complexity :=
    config.get_complexity_level self (lines_of_code feature) (commit_count feature) in
  let complexity :=
    match dependencies feature with
    | [] => complexity
    | _ :: _ =>
        if len (dependencies feature) >? 3 then
          if String.eqb complexity "low" then "medium"
          else if String.eqb complexity "medium" then "high"
          else complexity
        else complexity
    end in
  let complexity :=
    if String.eqb (risk_level feature) "high" then
      if String.eqb complexity "low" then "medium"
      else if String.eqb complexity "medium" then "high"
      else complexity
    else complexity in
  complexity.

Definition estimate_development_time (feature : Feature) : result float :=
  base_hours <-
    config.get_time_estimate self (complexity feature) (commit_count feature) ;;
  let adjustments := lit 10 1 in
  let adjustments :=
    if String.eqb (business_value feature) "Critical"
    then fmul adjustments (lit 12 1)
    else if String.eqb (business_value feature) "Minimal"
    then fmul adjustments (lit 8 1)
    else adjustments in
  let adjustments :=
    if String.eqb (risk_level feature) "High"
    then fmul adjustments (lit 13 1)
    else if String.eqb (risk_level feature) "Low"
    then fmul adjustments (lit 9 1)
    else adjustments in
  adjustments <-
    match dependencies feature with
    | [] => Return adjustments
    | _ :: _ =>
        t <- int_mul_float (len (dependencies feature)) (lit 1 1) ;;
        u <- int_add_float 1 t ;;
        Return (fmul adjustments u)
    end ;;
  round1 (fmul base_hours adjustments).

(** The body of the [try] block of [_create_feature_object]. *)
Definition create_feature (feature_name : string) (feature_data : FeatureData)
           (commits : list CommitInfo) : result Feature :=
  let commit_count := len (data_commits feature_data) in
  let lines_of_code := data_lines_changed feature_data in
  let status := _determine_feature_status feature_data in
  let business_value := _determine_business_value feature_name feature_data in
  let priority := _determine_priority feature_name feature_data in
  let risk_level := _determine_risk_level feature_data in
  let confidence := _calculate_feature_confidence feature_data in
  let feature :=
    {| name := feature_name;
       description := _generate_feature_description feature_name feature_data;
       complexity := "medium";
       status := status;
       estimated_hours := S754_zero false;
       actual_hours := None;
       commit_count := commit_count;
       lines_of_code := lines_of_code;
       business_value := business_value;
       priority := priority;
       risk_level := risk_level;
       confidence := confidence;
       start_date := data_start_date feature_data;
       end_date := data_end_date feature_data;
       dependencies := _extract_dependencies feature_data;
       tags := data_tags feature_data |} in
  let feature := set_complexity feature (assess_complexity feature) in
  hours <- estimate_development_time feature ;;
  Return (set_estimated_hours feature hours).

(** [except Exception] turns any exception into [None]. *)
Definition _create_feature_object (feature_name : string)
           (feature_data : FeatureData) (commits : list CommitInfo)
  : option Feature :=
  match create_feature feature_name feature_data commits with
  | Return feature => Some feature
  | Raise _ => None
  end.

Definition identify_features (commits : list CommitInfo)
           (repo_structure : RepoStructure) : list Feature :=
  let commit_features := _extract_features_from_commits commits in
  let dir_features := _extract_features_from_structure repo_structure in
  let all_features := _merge_features commit_features dir_features in
  let features :=
    fold_left
      (fun features '(feature_name, feature_data) =>
         match _create_feature_object feature_name feature_data commits with
         | Some feature => (features ++ [feature])%list
         | None => features
         end)
      all_features [] in
  sorted_desc flt estimated_hours features.

(** The body of the second loop of [group_features], for one group.
    [sum] adds from left to right. *)
Definition make_group (group_name : string) (group_features : list Feature)
  : result FeatureGroup :=
  let total_hours :=
    fold_left fadd (map estimated_hours group_features) (S754_zero false) in
  score_sum <-
    for_each (fun acc f => score <- complexity_scores (complexity f) ;;
                           Return (acc + score))
             group_features 0 ;;
  avg_complexity_score <- int_truediv score_sum (len group_features) ;;
  let avg_complexity :=
    if fle avg_complexity_score (lit 15 1) then "low"
    else if fle avg_complexity_score (lit 25 1) then "medium"
    else "high" in
  business_impact <- _determine_group_business_impact group_features ;;
  Return {| group_name := group_name;
            features := group_features;
            total_hours := total_hours;
            average_complexity := avg_complexity;
            business_impact := business_impact |}.

Definition group_features (features : list Feature) : result (list FeatureGroup) :=
  let groups :=
    fold_left (fun groups feature =>
                 append_to (_determine_feature_group feature) feature groups)
              features [] in
  feature_groups <-
    for_each (fun acc '(group_name, group_features) =>
                g <- make_group group_name group_features ;;
                Return (acc ++ [g])%list)
             groups [] ;;
  Return (sorted_desc flt total_hours feature_groups).

End WithConfig.

End feature_mapper.

(** ** developer_analyzer.py *)

Module developer_analyzer.
Import Py.
Import git_analyzer.

Record DeveloperProfile : Type := {
  name : string;
  email : string;
  role : string;
  company : string;
  expertise_areas : list string;
  skill_level : string;
  skill_description : string;
  contribution_pattern : string;
  commit_frequency : float;
  last_contribution : datetime;
  business_value : string;
  knowledge_areas : list string;
  collaboration_score : float;
  code_quality_score : float
}.

Record TeamDynamics : Type := {
  team_size : Z;
  collaboration_model : string;
  knowledge_distribution : string;
  bus_factor : Z;
  primary_contributors : list string;
  secondary_contributors : list string;
  knowledge_concentration : float;
  team_stability : string;
  communication_patterns : list string
}.

(** [_assess_business_value] reads only the contribution percentage of
    the author's statistics. *)
Definition _assess_business_value (contribution_percentage : float) : string :=
  if fge contribution_percentage (lit 40 0) then "Critical"
  else if fge contribution_percentage (lit 20 0) then "High"
  else if fge contribution_percentage (lit 10 0) then "Medium"
  else if fge contribution_percentage (lit 5 0) then "Low"
  else "Minimal".

Definition with_value (values : list string) (profiles : list DeveloperProfile)
  : list DeveloperProfile :=
  filter (fun p => str_in (business_value p) values) profiles.

Definition _determine_collaboration_model (developer_profiles : list DeveloperProfile)
           (commits : list CommitInfo) : string :=
  match developer_profiles with
  | [] => "Unknown"
  | _ :: _ =>
      let primary_contributors := with_value ["Critical"; "High"] developer_profiles in
      let secondary_contributors := with_value ["Medium"; "Low"] developer_profiles in
      if (len primary_contributors =? 1) && (len secondary_contributors <=? 2)
      then "Single Lead with Support"
      else if (len primary_contributors <=? 2) && (len secondary_contributors >=? 3)
      then "Small Core Team with Extended Support"
      else if len primary_contributors >=? 3
      then "Collaborative Team"
      else "Distributed Team"
  end.

Definition _analyze_knowledge_distribution (developer_profiles : list DeveloperProfile)
  : result string :=
  match developer_profiles with
  | [] => Return "Unknown"
  | _ :: _ =>
      let total_contributors := len developer_profiles in
      let primary_contributors := with_value ["Critical"; "High"] developer_profiles in
      concentration_ratio <- int_truediv (len primary_contributors) total_contributors ;;
      if fle concentration_ratio (lit 3 1) then Return "Well Distributed"
      else if fle concentration_ratio (lit 5 1) then Return "Moderately Distributed"
      else Return "Highly Concentrated"
  end.

(** [{'Critical': 5, 'High': 4, 'Medium': 3, 'Low': 2, 'Minimal': 1}[v]] *)
Definition value_weight (v : string) : result Z :=
  if String.eqb v "Critical" then Return 5
  else if String.eqb v "High" then Return 4
  else if String.eqb v "Medium" then Return 3
  else if String.eqb v "Low" then Return 2
  else if String.eqb v "Minimal" then Return 1
  else Raise KeyError.

(** The loop of [_calculate_bus_factor], with its [break]. *)
Fixpoint bus_factor_loop (total_contributors : Z)
         (sorted_profiles : list DeveloperProfile) (bus_factor : Z) : result Z :=
  match sorted_profiles with
  | [] => Return bus_factor
  | _ :: rest =>
      let bus_factor := bus_factor + 1 in
      threshold <- int_mul_float total_contributors (lit 7 1) ;;
      if int_ge_float bus_factor threshold then Return bus_factor
      else bus_factor_loop total_contributors rest bus_factor
  end.

Definition _calculate_bus_factor (developer_profiles : list DeveloperProfile)
  : result Z :=
  match developer_profiles with
  | [] => Return 0
  | _ :: _ =>
      (* [sorted] calls the key function on every element first *)
      keyed <-
        for_each (fun acc p => w <- value_weight (business_value p) ;;
                               Return (acc ++ [(w, p)])%list)
                 developer_profiles [] ;;
      let sorted_profiles := map snd (sorted_desc Z.ltb fst keyed) in
      let total_contributors := len developer_profiles in
      bus_factor_loop total_contributors sorted_profiles 0
  end.

Definition _categorize_contributors (developer_profiles : list DeveloperProfile)
  : list string * list string :=
  (map name (with_value ["Critical"; "High"] developer_profiles),
   map name (with_value ["Medium"; "Low"; "Minimal"] developer_profiles)).

(** One pass of the loop of [_calculate_knowledge_concentration] over the
    pair [(total_weight, weighted_sum)]. *)
Definition concentration_step (acc : Z * value) (profile : DeveloperProfile)
  : result (Z * value) :=
  let '(total_weight, weighted_sum) := acc in
  weight <- value_weight (business_value profile) ;;
  let total_weight := total_weight + weight in
  term <- mul (VInt weight) (VStr (contribution_pattern profile)) ;;
  weighted_sum <- add weighted_sum term ;;
  Return (total_weight, weighted_sum).

Definition _calculate_knowledge_concentration
           (developer_profiles : list DeveloperProfile) : result float :=
  match developer_profiles with
  | [] => Return (S754_zero false)
  | _ :: _ =>
      acc <- for_each concentration_step developer_profiles (0, VInt 0) ;;
      let '(total_weight, weighted_sum) := acc in
      if total_weight >? 0 then div_int weighted_sum total_weight
      else Return (S754_zero false)
  end.

(** [len(set(c.author for c in commits))] *)
Definition count_authors (commits : list CommitInfo) : Z :=
  len (fold_left (fun seen c => if str_in (author c) seen then seen
                                else (seen ++ [author c])%list)
                 commits []).

Section Clock.
(** [datetime.now()] *)
Variable now : datetime.

Definition _assess_team_stability (developer_profiles : list DeveloperProfile)
           (commits : list CommitInfo) : result string :=
  match developer_profiles, commits with
  | [], _ | _, [] => Return "Unknown"
  | _ :: _, _ :: _ =>
      recent_cutoff <- minus_days now 30 ;;
      let recent_commits := filter (fun c => dt_gt (date c) recent_cutoff) commits in
      match recent_commits with
      | [] => Return "Inactive"
      | _ :: _ =>
          let total_developers := len developer_profiles in
          active_ratio <- int_truediv (count_authors recent_commits) total_developers ;;
          if fge active_ratio (lit 8 1) then Return "Very Stable"
          else if fge active_ratio (lit 6 1) then Return "Stable"
          else if fge active_ratio (lit 4 1) then Return "Moderately Stable"
          else Return "Unstable"
      end
  end.

Definition _analyze_communication_patterns (commits : list CommitInfo)
  : result (list string) :=
  match commits with
  | [] => Return []
  | _ :: _ =>
      let message_lengths := map (fun c => str_len (message c)) commits in
      avg_message_length <-
        int_truediv (fold_left Z.add message_lengths 0) (len message_lengths) ;;
      let patterns :=
        if fge avg_message_length (lit 50 0) then ["Detailed Communication"]
        else if fge avg_message_length (lit 20 0) then ["Standard Communication"]
        else ["Minimal Communication"] in
      let conventional_commits :=
        len (filter (fun c => any_in ["feat:"; "fix:"; "docs:"; "refactor:"]
                                     (lower (message c))) commits) in
      conventional_ratio <- int_truediv conventional_commits (len commits) ;;
      if fge conventional_ratio (lit 7 1)
      then Return (patterns ++ ["Structured Commit Messages"])%list
      else if fge conventional_ratio (lit 4 1)
      then Return (patterns ++ ["Mixed Commit Styles"])%list
      else Return (patterns ++ ["Informal Commit Messages"])%list
  end.

Definition analyze_team_dynamics (developer_profiles : list DeveloperProfile)
           (commits : list CommitInfo) : result TeamDynamics :=
  let team_size := len developer_profiles in
  let collaboration_model :=
    _determine_collaboration_model developer_profiles commits in
  knowledge_distribution <- _analyze_knowledge_distribution developer_profiles ;;
  bus_factor <- _calculate_bus_factor developer_profiles ;;
  let '(primary_contributors, secondary_contributors) :=
    _categorize_contributors developer_profiles in
  knowledge_concentration <- _calculate_knowledge_concentration developer_profiles ;;
  team_stability <- _assess_team_stability developer_profiles commits ;;
  communication_patterns <- _analyze_communication_patterns commits ;;
  Return {| team_size := team_size;
            collaboration_model := collaboration_model;
            knowledge_distribution := knowledge_distribution;
            bus_factor := bus_factor;
            primary_contributors := primary_contributors;
            secondary_contributors := secondary_contributors;
            knowledge_concentration := knowledge_concentration;
            team_stability := team_stability;
            communication_patterns := communication_patterns |}.

End Clock.

(** [_assess_skill_level] reads only the statistics of the author. *)
Definition _assess_skill_level (author_stat : AuthorStats) (commits : list CommitInfo)
  : string * string :=
  let total_commits := git_analyzer.commit_count author_stat in
  let avg_commit_size := git_analyzer.average_commit_size author_stat in
  let contribution_percentage := git_analyzer.contribution_percentage author_stat in
  let skill_score := 0 in
  let skill_score :=
    if total_commits >=? 100 then skill_score + 3
    else if total_commits >=? 50 then skill_score + 2
    else if total_commits >=? 20 then skill_score + 1
    else skill_score in
  let skill_score :=
    if float_ge_int contribution_percentage 50 then skill_score + 2
    else if float_ge_int contribution_percentage 20 then skill_score + 1
    else skill_score in
  let skill_score :=
    if float_le_int avg_commit_size 50 then skill_score + 2
    else if float_le_int avg_commit_size 100 then skill_score + 1
    else skill_score in
  if skill_score >=? 6 then
    ("Expert",
     "Highly experienced developer with deep technical knowledge and excellent practices")
  else if skill_score >=? 4 then
    ("Senior",
     "Experienced developer with strong technical skills and good development practices")
  else if skill_score >=? 2 then
    ("Mid-level", "Developer with solid technical foundation and growing expertise")
  else
    ("Junior", "Early-career developer learning and building technical skills").

(** [tech_keywords], a dict in insertion order. *)
Definition tech_keywords : list (string * list string) :=
  [ ("frontend", ["react"; "vue"; "angular"; "javascript"; "typescript"; "css"; "html"]);
    ("backend", ["api"; "server"; "database"; "sql"; "nosql"; "rest"; "graphql"]);
    ("devops", ["docker"; "kubernetes"; "ci/cd"; "deployment"; "infrastructure"]);
    ("testing", ["test"; "testing"; "spec"; "unit"; "integration"; "e2e"]);
    ("security", ["security"; "auth"; "authentication"; "encryption"; "vulnerability"]);
    ("performance", ["performance"; "optimization"; "caching"; "scalability"]) ].

(** The inner loop over the commits: it appends [area], unless it is
    listed already, at the first commit whose message has a keyword, and
    stops there. *)
Fixpoint note_area (area : string) (keywords : list string)
         (commits : list CommitInfo) (knowledge_areas : list string) : list string :=
  match commits with
  | [] => knowledge_areas
  | commit :: rest =>
      let message_lower := lower (message commit) in
      if any_in keywords message_lower then
        if negb (str_in area knowledge_areas)
        then (knowledge_areas ++ [area])%list
        else knowledge_areas
      else note_area area keywords rest knowledge_areas
  end.

Definition _identify_knowledge_areas (commits : list CommitInfo) : list string :=
  let knowledge_areas :=
    fold_left (fun knowledge_areas '(area, keywords) =>
                 note_area area keywords commits knowledge_areas)
              tech_keywords [] in
  match knowledge_areas with
  | [] => ["General Software Development"]
  | _ :: _ => knowledge_areas
  end.

(** [[(dates[i] - dates[i-1]).days for i in range(1, len(dates))]] *)
Fixpoint gaps_between (dates : list datetime) : list Z :=
  match dates with
  | earlier :: ((later :: _) as rest) => diff_days later earlier :: gaps_between rest
  | _ => []
  end.

Definition _determine_contribution_pattern (author_stat : AuthorStats)
           (commits : list CommitInfo) : result string :=
  match commits with
  | [] => Return "No contributions"
  | _ :: _ =>
      let dates := map date commits in
      let dates := sorted_asc dt_lt (fun d => d) dates in
      if len dates <? 2 then Return "Single contribution"
      else
        let gaps := gaps_between dates in
        avg_gap <- int_truediv (sum_Z gaps) (len gaps) ;;
        let pattern :=
          if fge (git_analyzer.commit_frequency author_stat) (lit 10 1)
          then "High frequency"
          else if fge (git_analyzer.commit_frequency author_stat) (lit 5 1)
          then "Regular"
          else if fge (git_analyzer.commit_frequency author_stat) (lit 2 1)
          then "Occasional"
          else "Infrequent" in
        let consistency :=
          if float_le_int avg_gap 3 then "consistent"
          else if float_le_int avg_gap 7 then "moderately consistent"
          else "sporadic" in
        Return (pattern ++ ", " ++ consistency ++ " contributor")
  end.

End developer_analyzer.

(** ** repo_analyzer.py *)

Module repo_analyzer.
Import Py.

Record FileInfo : Type := {
  path : string;
  size : Z;
  lines : Z;
  extension : string;
  is_config : bool;
  is_documentation : bool;
  is_source : bool
}.

Record TechnologyInfo : Type := {
  name : string;
  category : string;
  confidence : float;
  evidence : list string;
  version : option string
}.

(** [ext_counts[ext] = ext_counts.get(ext, 0) + 1] *)
Fixpoint count_ext (ext : string) (ext_counts : list (string * Z))
  : list (string * Z) :=
  match ext_counts with
  | [] => [(ext, 1)]
  | (e, n) :: rest =>
      if String.eqb ext e then (e, n + 1) :: rest else (e, n) :: count_ext ext rest
  end.

Definition source_entry (name category kind : string) (count : Z) : TechnologyInfo :=
  {| name := name; category := category; confidence := lit 7 1;
     evidence := ["Found " ++ str_of_int count ++ " " ++ kind ++ " files"];
     version := None |}.

Definition _analyze_source_files (file_info_list : list FileInfo)
  : list TechnologyInfo :=
  let ext_counts :=
    fold_left (fun counts f => if is_source f then count_ext (extension f) counts
                               else counts)
              file_info_list [] in
  flat_map
    (fun '(ext, count) =>
       if String.eqb ext ".py" && (count >? 0)
       then [source_entry "Python" "Backend" "Python" count]
       else if str_in ext [".js"; ".jsx"] && (count >? 0)
       then [source_entry "JavaScript/JSX" "Frontend" "JavaScript/JSX" count]
       else if str_in ext [".ts"; ".tsx"] && (count >? 0)
       then [source_entry "TypeScript" "Frontend" "TypeScript" count]
       else if String.eqb ext ".java" && (count >? 0)
       then [source_entry "Java" "Backend" "Java" count]
       else if String.eqb ext ".go" && (count >? 0)
       then [source_entry "Go" "Backend" "Go" count]
       else [])
    ext_counts.

Definition build_entry (name file_path : string) : TechnologyInfo :=
  {| name := name; category := "Build Tools"; confidence := lit 9 1;
     evidence := ["Found " ++ file_path]; version := None |}.

Definition _analyze_build_files (file_info_list : list FileInfo)
  : list TechnologyInfo :=
  flat_map
    (fun f =>
       if negb (is_config f) then []
       else if endswith (path f) "Makefile" then [build_entry "Make" (path f)]
       else if endswith (path f) "webpack.config.js"
       then [build_entry "Webpack" (path f)]
       else if endswith (path f) "vite.config.js" then [build_entry "Vite" (path f)]
       else [])
    file_info_list.

Definition key_eqb (k k' : string * string) : bool :=
  String.eqb (fst k) (fst k') && String.eqb (snd k) (snd k').

(** The body of the loop of [_deduplicate_technologies] on [tech_dict], a
    dict in insertion order.  Every entry that reaches the function is an
    object of its own with an evidence list of its own, so the in-place
    [extend] and assignment are an update of the stored entry. *)
Fixpoint merge_entry (tech : TechnologyInfo)
         (tech_dict : list ((string * string) * TechnologyInfo))
  : list ((string * string) * TechnologyInfo) :=
  match tech_dict with
  | [] => [((name tech, category tech), tech)]
  | (key, existing) :: rest =>
      if key_eqb (name tech, category tech) key then
        (key, {| name := name existing; category := category existing;
                 confidence := fmax (confidence existing) (confidence tech);
                 evidence := (evidence existing ++ evidence tech)%list;
                 version := version existing |}) :: rest
      else (key, existing) :: merge_entry tech rest
  end.

Definition _deduplicate_technologies (tech_list : list TechnologyInfo)
  : list TechnologyInfo :=
  map snd (fold_left (fun tech_dict tech => merge_entry tech tech_dict) tech_list []).

(** [config_tech] is what [_analyze_config_files] found by reading the
    configuration files of the repository. *)
Definition _identify_technology_stack (config_tech : list TechnologyInfo)
           (file_info_list : list FileInfo) : list TechnologyInfo :=
  let tech_stack := config_tech in
  let source_tech := _analyze_source_files file_info_list in
  let tech_stack := (tech_stack ++ source_tech)%list in
  let build_tech := _analyze_build_files file_info_list in
  let tech_stack := (tech_stack ++ build_tech)%list in
  let unique_tech := _deduplicate_technologies tech_stack in
  sorted_desc flt confidence unique_tech.

(** [Path(p).name] for a relative path [p]: what follows its last '/'. *)
Fixpoint file_name (p : string) : string :=
  match p with
  | EmptyString => EmptyString
  | String c p' =>
      if contains p' "/" then file_name p'
      else if Ascii.eqb c "/" then p' else p
  end.

(** [_is_config_file] reads only the name of the path it is given, which
    is the name of the file's path in the repository. *)
Definition _is_config_file (file_path : string) : bool :=
  str_in (file_name file_path)
         ["package.json"; "requirements.txt"; "pom.xml"; "build.gradle";
          "go.mod"; "Cargo.toml"; "docker-compose.yml"; "Dockerfile";
          ".gitignore"; ".env"; "config.yml"; "config.yaml"; "tsconfig.json";
          "webpack.config.js"; "vite.config.js"; "jest.config.js"].

Definition _detect_microservices_pattern (file_info_list : list FileInfo) : bool :=
  let service_dirs :=
    filter (fun f => contains (lower (path f)) "service"
                     || contains (lower (path f)) "api") file_info_list in
  let docker_files :=
    filter (fun f => endswith (path f) "Dockerfile"
                     || contains (path f) "docker-compose") file_info_list in
  (len service_dirs >? 1) || (len docker_files >? 1).

Definition _detect_monorepo_pattern (file_info_list : list FileInfo) : bool :=
  let package_files :=
    filter (fun f => endswith (path f) "package.json") file_info_list in
  let py_files := filter (fun f => endswith (path f) ".py") file_info_list in
  let java_files := filter (fun f => endswith (path f) ".java") file_info_list in
  (len package_files >? 1) || ((len py_files >? 0) && (len java_files >? 0)).

(** [sum(1 for d in dirs for f in file_info_list if d in f.path.lower())] *)
Definition count_matches (dirs : list string) (file_info_list : list FileInfo) : Z :=
  len (flat_map (fun d => filter (fun f => contains (lower (path f)) d) file_info_list)
                dirs).

Definition _detect_layered_architecture (file_info_list : list FileInfo) : bool :=
  let layer_dirs := ["controllers"; "services"; "repositories"; "models"; "views"] in
  let found_layers := count_matches layer_dirs file_info_list in
  found_layers >=? 3.

Definition _detect_mvc_pattern (file_info_list : list FileInfo) : bool :=
  let mvc_dirs := ["models"; "views"; "controllers"] in
  let found_mvc := count_matches mvc_dirs file_info_list in
  found_mvc >=? 2.

Definition _detect_event_driven_pattern (file_info_list : list FileInfo) : bool :=
  let event_files :=
    filter (fun f => contains (lower (path f)) "event"
                     || contains (lower (path f)) "listener") file_info_list in
  len event_files >? 0.

Definition _detect_architecture_patterns (file_info_list : list FileInfo)
           (tech_stack : list TechnologyInfo) : list string :=
  let patterns := [] in
  let patterns :=
    if _detect_microservices_pattern file_info_list
    then (patterns ++ ["Microservices"])%list else patterns in
  let patterns :=
    if _detect_monorepo_pattern file_info_list
    then (patterns ++ ["Monorepo"])%list else patterns in
  let patterns :=
    if _detect_layered_architecture file_info_list
    then (patterns ++ ["Layered Architecture"])%list else patterns in
  let patterns :=
    if _detect_mvc_pattern file_info_list
    then (patterns ++ ["Model-View-Controller (MVC)"])%list else patterns in
  let patterns :=
    if _detect_event_driven_pattern file_info_list
    then (patterns ++ ["Event-Driven Architecture"])%list else patterns in
  patterns.

End repo_analyzer.

(** ** risk_assessor.py *)

Module risk_assessor.
Import Py.
Import git_analyzer.
Import feature_mapper.

Record Risk : Type := {
  id : string;
  risk_name : string;
  category : string;
  probability : string;
  impact : string;
  business_impact : string;
  risk_description : string;
  mitigation_strategy : string;
  risk_score : float;
  detection_date : datetime;
  risk_status : string
}.


Definition _assess_timeline_risks (features : list Feature)
           (commits : list CommitInfo) : result float :=
  match features with
  | [] => Return (S754_zero false)
  | _ :: _ =>
      let high_complexity_features :=
        filter (fun f => String.eqb (complexity f) "high") features in
      let total_features := len features in
      if total_features =? 0 then Return (S754_zero false)
      else
        complexity_risk <- int_truediv (len high_complexity_features) total_features ;;
        let additional_risk := S754_zero false in
        let high_risk_features :=
          filter (fun f => String.eqb (risk_level f) "High") features in
        let additional_risk :=
          match high_risk_features with
          | [] => additional_risk
          | _ :: _ => fadd additional_risk (lit 2 1)
          end in
        let features_with_deps :=
          filter (fun f => match dependencies f with [] => false | _ => true end)
                 features in
        let additional_risk :=
          match features_with_deps with
          | [] => additional_risk
          | _ :: _ => fadd additional_risk (lit 1 1)
          end in
        Return (fmin (fadd complexity_risk additional_risk) (lit 10 1))
  end.


Section Clock.
(** [datetime.now()] *)
Variable now : datetime.


End Clock.

(** *** technical risks *)

(** The keys of [repo_structure] that the assessor reads; a key that is
    missing reads as the empty list or dict. *)
Record Structure : Type := {
  structure_directories : list string;
  structure_technology_stack : list repo_analyzer.TechnologyInfo;
  structure_file_types : list (string * Z)
}.

(** The body of the loop of [_assess_technical_debt]: [debt_indicators] is
    an int until the first 0.5 or 0.3 is added. *)
Definition debt_step (debt_indicators : value) (commit : CommitInfo) : result value :=
  let message_lower := lower (message commit) in
  debt_indicators <-
    (if any_in ["refactor"; "cleanup"; "technical debt"; "legacy"] message_lower
     then add debt_indicators (VInt 1) else Return debt_indicators) ;;
  debt_indicators <-
    (if lines_added commit + lines_deleted commit >? 500
     then add debt_indicators (VFloat (lit 5 1)) else Return debt_indicators) ;;
  if any_in ["fix"; "bug"; "patch"; "hotfix"] message_lower
  then add debt_indicators (VFloat (lit 3 1)) else Return debt_indicators.

Definition _assess_technical_debt (commits : list CommitInfo) : result float :=
  match commits with
  | [] => Return (S754_zero false)
  | _ :: _ =>
      let total_commits := len commits in
      debt_indicators <- for_each debt_step commits (VInt 0) ;;
      scaled <- int_mul_float total_commits (lit 3 1) ;;
      (* max(total_commits * 0.3, 1) *)
      let divisor := if int_gt_float 1 scaled then VInt 1 else VFloat scaled in
      ratio <- truediv debt_indicators divisor ;;
      Return (fmin (lit 10 1) ratio)
  end.

Definition _assess_architecture_complexity (repo_structure : Structure) : float :=
  let complexity_score := S754_zero false in
  let directories := structure_directories repo_structure in
  let max_depth :=
    match map (fun d => len (split_on "/" d)) directories with
    | [] => 1
    | depth :: depths => fold_left Z.max depths depth
    end in
  let complexity_score :=
    if max_depth >? 5 then fadd complexity_score (lit 4 1)
    else if max_depth >? 3 then fadd complexity_score (lit 2 1)
    else complexity_score in
  let tech_stack := structure_technology_stack repo_structure in
  let complexity_score :=
    if len tech_stack >? 5 then fadd complexity_score (lit 3 1)
    else if len tech_stack >? 3 then fadd complexity_score (lit 2 1)
    else complexity_score in
  let file_types := structure_file_types repo_structure in
  let complexity_score :=
    if len file_types >? 10 then fadd complexity_score (lit 3 1)
    else if len file_types >? 5 then fadd complexity_score (lit 2 1)
    else complexity_score in
  fmin complexity_score (lit 10 1).

Definition _assess_testing_coverage (commits : list CommitInfo)
           (repo_structure : Structure) : result float :=
  match commits with
  | [] => Return (S754_zero false)
  | _ :: _ =>
      let test_commits :=
        len (filter (fun commit =>
                       any_in ["test"; "testing"; "spec"; "unit"; "integration"]
                              (lower (message commit))) commits) in
      let total_commits := len commits in
      test_coverage <-
        (if total_commits >? 0 then int_truediv test_commits total_commits
         else Return (S754_zero false)) ;;
      scaled <- float_mul_int test_coverage 3 ;;
      Return (fmin scaled (lit 10 1))
  end.

Definition _assess_dependency_risks (repo_structure : Structure) : bool := false.

Section TechnicalRisks.
(** [datetime.now()] *)
Variable now : datetime.

Definition _identify_technical_risks (commits : list CommitInfo)
           (features : list Feature) (repo_structure : Structure)
  : result (list Risk) :=
  let risks := [] in
  let high_complexity_features :=
    filter (fun f => String.eqb (complexity f) "high") features in
  risks <-
    match high_complexity_features with
    | [] => Return risks
    | _ :: _ =>
        scaled <- int_mul_float (len high_complexity_features) (lit 2 1) ;;
        let risk_score := fmin (lit 8 1) scaled in
        Return (risks ++ [{| id := "TECH_001";
                    risk_name := "High Complexity Features";
                    category := "technical";
                    probability := "medium";
                    impact := "high";
                    business_impact :=
                      "Delayed delivery and increased maintenance costs";
                    risk_description :=
                      "Project contains "
                      ++ str_of_int (len high_complexity_features)
                      ++ " high-complexity features that may cause delays and quality issues";
                    mitigation_strategy :=
                      "Break down complex features, increase testing coverage, allocate senior developers";
                    risk_score := risk_score;
                    detection_date := now;
                    risk_status := "identified" |}])%list
    end ;;
  technical_debt_score <- _assess_technical_debt commits ;;
  let risks :=
    if fgt technical_debt_score (lit 6 1) then
      (risks ++ [{| id := "TECH_002";
                    risk_name := "High Technical Debt";
                    category := "technical";
                    probability := "high";
                    impact := "medium";
                    business_impact :=
                      "Reduced development velocity and increased bug frequency";
                    risk_description :=
                      "Technical debt score of " ++ format_2f technical_debt_score
                      ++ " indicates accumulated technical issues";
                    mitigation_strategy :=
                      "Implement refactoring sprints, improve code review process, establish coding standards";
                    risk_score := technical_debt_score;
                    detection_date := now;
                    risk_status := "identified" |}])%list
    else risks in
  let arch_complexity := _assess_architecture_complexity repo_structure in
  let risks :=
    if fgt arch_complexity (lit 7 1) then
      (risks ++ [{| id := "TECH_003";
                    risk_name := "Complex Architecture";
                    category := "technical";
                    probability := "medium";
                    impact := "high";
                    business_impact :=
                      "Difficult maintenance and onboarding challenges";
                    risk_description :=
                      "Project architecture shows high complexity that may impact maintainability";
                    mitigation_strategy :=
                      "Document architecture decisions, create onboarding guides, simplify complex components";
                    risk_score := arch_complexity;
                    detection_date := now;
                    risk_status := "identified" |}])%list
    else risks in
  testing_coverage <- _assess_testing_coverage commits repo_structure ;;
  let risks :=
    if flt testing_coverage (lit 5 1) then
      (risks ++ [{| id := "TECH_004";
                    risk_name := "Low Testing Coverage";
                    category := "technical";
                    probability := "high";
                    impact := "medium";
                    business_impact :=
                      "Increased bug frequency and deployment risks";
                    risk_description :=
                      "Testing coverage of " ++ format_2f testing_coverage
                      ++ " indicates insufficient testing";
                    mitigation_strategy :=
                      "Implement automated testing, establish testing requirements, increase test coverage";
                    risk_score := fsub (lit 10 1) testing_coverage;
                    detection_date := now;
                    risk_status := "identified" |}])%list
    else risks in
  let dependency_risks := _assess_dependency_risks repo_structure in
  let risks :=
    if dependency_risks then
      (risks ++ [{| id := "TECH_005";
                    risk_name := "Dependency Vulnerabilities";
                    category := "technical";
                    probability := "medium";
                    impact := "medium";
                    business_impact :=
                      "Security vulnerabilities and maintenance overhead";
                    risk_description :=
                      "Project has potential dependency and security risks";
                    mitigation_strategy :=
                      "Regular dependency updates, security scanning, vulnerability monitoring";
                    risk_score := lit 6 1;
                    detection_date := now;
                    risk_status := "identified" |}])%list
    else risks in
  Return risks.

End TechnicalRisks.

(** *** mitigation coverage *)

Definition _calculate_mitigation_coverage (risks : list Risk) : result float :=
  match risks with
  | [] => Return (lit 10 1)
  | _ :: _ =>
      let risks_with_mitigation :=
        len (filter (fun r => match mitigation_strategy r with
                              | EmptyString => false
                              | _ => true
                              end) risks) in
      int_truediv risks_with_mitigation (len risks)
  end.

End risk_assessor.

(** ** Orders and reference functions that the statements below use *)

Module spec.
Import Py.

(** The order low < medium < high on complexity levels. *)
Definition tier (c : string) : option Z :=
  if String.eqb c "low" then Some 1
  else if String.eqb c "medium" then Some 2
  else if String.eqb c "high" then Some 3
  else None.

(** The order Low < Medium < High on risk levels. *)
Definition risk_rank (r : string) : option Z :=
  if String.eqb r "Low" then Some 1
  else if String.eqb r "Medium" then Some 2
  else if String.eqb r "High" then Some 3
  else None.

(** One step up: low to medium, medium to high, high stays. *)
Definition escalate (c : string) : string :=
  if String.eqb c "low" then "medium"
  else if String.eqb c "medium" then "high"
  else c.

(** More than three dependencies. *)
Definition many_dependencies (deps : list string) : bool :=
  match deps with [] => false | _ :: _ => len deps >? 3 end.

(** The commit classifier, in the words of the specification: the
    lower-cased message is tested against the feature table first, then
    bugfix, then refactor, then documentation; the first match wins. *)
Inductive commit_kind : Type :=
| Feature_commit | Bug_fix_commit | Refactor_commit | Documentation_commit | Other_commit.

Definition commit_kind_eqb (a b : commit_kind) : bool :=
  match a, b with
  | Feature_commit, Feature_commit
  | Bug_fix_commit, Bug_fix_commit
  | Refactor_commit, Refactor_commit
  | Documentation_commit, Documentation_commit
  | Other_commit, Other_commit => true
  | _, _ => false
  end.

Definition classify (git_config : config.GitAnalysisConfig)
           (commit : git_analyzer.CommitInfo) : commit_kind :=
  let message_lower := lower (git_analyzer.message commit) in
  if any_in (config.FEATURE_PATTERNS git_config) message_lower then Feature_commit
  else if any_in (config.BUG_FIX_PATTERNS git_config) message_lower then Bug_fix_commit
  else if any_in (config.REFACTOR_PATTERNS git_config) message_lower then Refactor_commit
  else if any_in (config.DOCUMENTATION_PATTERNS git_config) message_lower
  then Documentation_commit
  else Other_commit.

(** How many commits of a list are of a given kind. *)
Definition count_kind (git_config : config.GitAnalysisConfig) (k : commit_kind)
           (commits : list git_analyzer.CommitInfo) : Z :=
  len (filter (fun c => commit_kind_eqb (classify git_config c) k) commits).

(** The week a commit falls in, as the trend analysis names it. *)
Definition week_of (commit : git_analyzer.CommitInfo) : string :=
  match git_analyzer.week_key (git_analyzer.date commit) with
  | Return k => k
  | Raise _ => EmptyString
  end.

(** The number of distinct weeks that a commit list spans. *)
Definition distinct_weeks (commits : list git_analyzer.CommitInfo) : Z :=
  len (nodup string_dec (map week_of commits)).

Definition trend_labels : list string :=
  ["increasing"; "decreasing"; "stable"; "insufficient_data"].

Definition valid_dates (commits : list git_analyzer.CommitInfo) : Prop :=
  Forall (fun c => valid_datetime (git_analyzer.date c) = true) commits.

(** The five business-value tiers of a developer profile. *)
Definition is_tier (v : string) : bool :=
  str_in v ["Critical"; "High"; "Medium"; "Low"; "Minimal"].

Definition tiers_valid (profiles : list developer_analyzer.DeveloperProfile) : Prop :=
  Forall (fun p => is_tier (developer_analyzer.business_value p) = true) profiles.

(** Knowledge concentration in the words of the specification: the number
    of profiles whose business value is Critical or High, and the team
    size it is divided by. *)
Definition primary_count (profiles : list developer_analyzer.DeveloperProfile) : Z :=
  len (filter (fun p => str_in (developer_analyzer.business_value p)
                               ["Critical"; "High"]) profiles).

(** A feature whose complexity field is one of the three levels. *)
Definition has_level (f : feature_mapper.Feature) : Prop :=
  feature_mapper.complexity f = "low" \/
  feature_mapper.complexity f = "medium" \/
  feature_mapper.complexity f = "high".

(** Groups as [group_features] builds them: none is empty. *)
Definition groups_ok (groups : list (string * list feature_mapper.Feature)) : Prop :=
  Forall (fun '(_, fs) => fs <> [] /\ Forall has_level fs) groups.

(** A float that is a number. *)
Definition is_number (x : float) : bool :=
  match x with S754_nan => false | _ => true end.

(** A number seen as a triple of integers that compares as it does. *)
Definition rank (x : float) : Z * Z * Z :=
  match x with
  | S754_nan => (0, 0, 0)
  | S754_infinity true => (-2, 0, 0)
  | S754_infinity false => (2, 0, 0)
  | S754_zero _ => (0, 0, 0)
  | S754_finite true m e => (-1, - e, Z.neg m)
  | S754_finite false m e => (1, e, Z.pos m)
  end.

Definition le3 (a b : Z * Z * Z) : Prop :=
  let '(a1, a2, a3) := a in
  let '(b1, b2, b3) := b in
  a1 < b1 \/ (a1 = b1 /\ (a2 < b2 \/ (a2 = b2 /\ a3 <= b3))).

(** The pair that identifies a technology entry. *)
Definition tech_key (t : repo_analyzer.TechnologyInfo) : string * string :=
  (repo_analyzer.name t, repo_analyzer.category t).

(** The entries of a list that share a key, in the order of the list. *)
Definition same_key (k : string * string) (l : list repo_analyzer.TechnologyInfo)
  : list repo_analyzer.TechnologyInfo :=
  filter (fun t => repo_analyzer.key_eqb (tech_key t) k) l.

(** The greatest of a non-empty list of confidences, found as Python's
    [max] finds it. *)
Definition max_confidence (first : float) (rest : list float) : float :=
  fold_left fmax rest first.

(** [k in keys] for a list of keys. *)
Definition str_in_keys (k : string * string) (keys : list (string * string)) : bool :=
  existsb (repo_analyzer.key_eqb k) keys.

(** What merging a first entry with the later entries of its key gives. *)
Definition merged (first : repo_analyzer.TechnologyInfo)
           (rest : list repo_analyzer.TechnologyInfo) : repo_analyzer.TechnologyInfo :=
  {| repo_analyzer.name := repo_analyzer.name first;
     repo_analyzer.category := repo_analyzer.category first;
     repo_analyzer.confidence :=
       max_confidence (repo_analyzer.confidence first)
                      (map repo_analyzer.confidence rest);
     repo_analyzer.evidence :=
       List.concat (map repo_analyzer.evidence (first :: rest));
     repo_analyzer.version := repo_analyzer.version first |}.

(** The state of the dict of [_deduplicate_technologies] once the entries
    [processed] have gone through the loop. *)
Definition dedup_state (d : list ((string * string) * repo_analyzer.TechnologyInfo))
           (processed : list repo_analyzer.TechnologyInfo) : Prop :=
  NoDup (map fst d) /\
  (forall k e, In (k, e) d ->
               exists first rest,
                 same_key k processed = first :: rest /\ e = merged first rest) /\
  (forall t, In t processed -> In (tech_key t) (map fst d)).

Definition confidences_valid (l : list repo_analyzer.TechnologyInfo) : Prop :=
  Forall (fun t => is_number (repo_analyzer.confidence t) = true) l.

(** Descending confidence: no entry is followed, at any distance, by one
    of greater confidence. *)
Definition descending (l : list repo_analyzer.TechnologyInfo) : Prop :=
  StronglySorted
    (fun a b => fge (repo_analyzer.confidence a) (repo_analyzer.confidence b) = true) l.

(** A positive normal binary64 number: a mantissa of 53 bits with an
    exponent between [lo] and [hi]. *)
Definition normal_between (lo hi : Z) (x : float) : Prop :=
  match x with
  | S754_finite false m e => 2 ^ 52 <= Z.pos m < 2 ^ 53 /\ lo <= e <= hi
  | _ => False
  end.

(** Zero, a positive normal number of exponent at least [lo], or the
    positive infinity. *)
Definition nonneg_from (lo : Z) (x : float) : Prop :=
  match x with
  | S754_zero false | S754_infinity false => True
  | S754_finite false m e => 2 ^ 52 <= Z.pos m < 2 ^ 53 /\ lo <= e <= 971
  | _ => False
  end.

(** A binary64 number that is not negative: a zero, a positive number,
    normal or subnormal, or the positive infinity. *)
Definition nonneg_number (x : float) : Prop :=
  match x with
  | S754_zero _ | S754_infinity false => True
  | S754_finite false m e => bounded prec emax m e = true
  | _ => False
  end.

(** A positive finite binary64 number, normal or subnormal. *)
Definition positive_number (x : float) : Prop :=
  match x with
  | S754_finite false m e => bounded prec emax m e = true
  | _ => False
  end.

(** A finite number that is not negative. *)
Definition finite_nonneg (x : float) : Prop :=
  is_finite x = true /\ fge x (S754_zero false) = true.

(** The thresholds that [get_time_estimate] can work with: the three
    multipliers are finite and not negative, and [1 + TOTAL_BUFFER] is a
    positive finite number. *)
Definition config_valid (self : config.AnalysisConfig) : Prop :=
  let thresholds := config.complexity self in
  finite_nonneg (config.LOW_COMPLEXITY_MULTIPLIER thresholds) /\
  finite_nonneg (config.MEDIUM_COMPLEXITY_MULTIPLIER thresholds) /\
  finite_nonneg (config.HIGH_COMPLEXITY_MULTIPLIER thresholds) /\
  exists b, int_add_float 1 (config.TOTAL_BUFFER thresholds) = Return b /\
            positive_number b.

(** The tags that [_extract_tags_from_commit] and
    [_extract_features_from_structure] can give to a feature candidate. *)
Definition candidate_tags : list string :=
  ["bugfix"; "feature"; "refactor"; "documentation"; "testing"; "performance";
   "security"; "structure-based"].

(** What holds of every feature candidate that the extraction builds: its
    tags are candidate tags, and it has its two dates exactly when it has
    commits. *)
Definition candidate (d : feature_mapper.FeatureData) : Prop :=
  Forall (fun t => str_in t candidate_tags = true) (feature_mapper.data_tags d) /\
  match feature_mapper.data_commits d with
  | [] => feature_mapper.data_start_date d = None /\
          feature_mapper.data_end_date d = None
  | _ :: _ => feature_mapper.data_start_date d <> None /\
              feature_mapper.data_end_date d <> None
  end.

(** The invariant of the dicts of candidates: distinct keys, and every
    value a candidate. *)
Definition candidates (d : feature_mapper.FeatureDict) : Prop :=
  NoDup (map fst d) /\ Forall (fun e => candidate (snd e)) d.

(** The feature name under which [_extract_features_from_commits] files
    a commit, if any: an empty name is no name. *)
Definition commit_feature (c : git_analyzer.CommitInfo) : option string :=
  match feature_mapper._extract_feature_name_from_commit c with
  | Some (String a rest) => Some (String a rest)
  | _ => None
  end.

Definition filed_under (k : string) (c : git_analyzer.CommitInfo) : bool :=
  match commit_feature c with
  | Some n => String.eqb n k
  | None => false
  end.

(** The lines that a list of commits changed. *)
Definition lines_changed (commits : list git_analyzer.CommitInfo) : Z :=
  fold_left Z.add
    (map (fun c => git_analyzer.lines_added c + git_analyzer.lines_deleted c) commits) 0.

(** The dict of [_extract_features_from_commits] once the commits [seen]
    have gone through its loop. *)
Definition gathered (seen : list git_analyzer.CommitInfo)
           (d : feature_mapper.FeatureDict) : Prop :=
  NoDup (map fst d) /\
  (forall k v, In (k, v) d ->
               feature_mapper.data_commits v = filter (filed_under k) seen /\
               feature_mapper.data_commits v <> [] /\
               feature_mapper.data_lines_changed v
               = lines_changed (feature_mapper.data_commits v)) /\
  (forall k, feature_mapper.has_key k d = false -> filter (filed_under k) seen = []).

(** Two candidates with the same commits, changed lines and dates. *)
Definition same_history (v v' : feature_mapper.FeatureData) : Prop :=
  feature_mapper.data_commits v' = feature_mapper.data_commits v /\
  feature_mapper.data_lines_changed v' = feature_mapper.data_lines_changed v /\
  feature_mapper.data_start_date v' = feature_mapper.data_start_date v /\
  feature_mapper.data_end_date v' = feature_mapper.data_end_date v.

(** The tags of a commit-based candidate after the merge: its own,
    followed by those of the directory-based candidate of the same name
    when there is one. *)
Definition merged_tags (dir_features : feature_mapper.FeatureDict)
           (k : string) (v v' : feature_mapper.FeatureData) : Prop :=
  (exists w, In (k, w) dir_features /\
             feature_mapper.data_tags v'
             = (feature_mapper.data_tags v ++ feature_mapper.data_tags w)%list) \/
  (~ In k (map fst dir_features) /\
   feature_mapper.data_tags v' = feature_mapper.data_tags v).

(** The dict of [group_features] once the features [processed] have gone
    through its first loop. *)
Definition grouped (processed : list feature_mapper.Feature)
           (groups : list (string * list feature_mapper.Feature)) : Prop :=
  NoDup (map fst groups) /\
  Forall (fun e => Forall (fun f => feature_mapper._determine_feature_group f = fst e)
                          (snd e)) groups /\
  Permutation (List.concat (map snd groups)) processed.

(** The features of [fs] that [_determine_feature_group] files under
    [group_name], in the order of [fs]. *)
Definition features_of_group (group_name : string) (fs : list feature_mapper.Feature)
  : list feature_mapper.Feature :=
  filter (fun f => String.eqb (feature_mapper._determine_feature_group f) group_name) fs.

(** The dict of [group_features] holds, once the features [processed] have
    gone through its first loop, a key for the group of each of them, and
    under each key the features of that group in the order they came. *)
Definition grouped_in_order (processed : list feature_mapper.Feature)
           (groups : list (string * list feature_mapper.Feature)) : Prop :=
  (forall f, In f processed ->
             In (feature_mapper._determine_feature_group f) (map fst groups)) /\
  Forall (fun e => snd e = features_of_group (fst e) processed) groups.

(** Zero, a positive finite number or the positive infinity. *)
Definition nonnegative (x : float) : bool :=
  match x with
  | S754_zero false | S754_finite false _ _ | S754_infinity false => true
  | _ => false
  end.

(** Zero or a positive finite number. *)
Definition nonnegative_finite (x : float) : bool :=
  match x with
  | S754_zero false | S754_finite false _ _ => true
  | _ => false
  end.

(** The number of source files with a given extension. *)
Definition source_count (ext : string) (files : list repo_analyzer.FileInfo) : Z :=
  len (filter (fun f => repo_analyzer.is_source f
                        && String.eqb (repo_analyzer.extension f) ext) files).

(** The name, category and wording that [_analyze_source_files] has for
    an extension. *)
Definition source_technology (ext : string) : option (string * string * string) :=
  if String.eqb ext ".py" then Some ("Python", "Backend", "Python")
  else if str_in ext [".js"; ".jsx"]
  then Some ("JavaScript/JSX", "Frontend", "JavaScript/JSX")
  else if str_in ext [".ts"; ".tsx"] then Some ("TypeScript", "Frontend", "TypeScript")
  else if String.eqb ext ".java" then Some ("Java", "Backend", "Java")
  else if String.eqb ext ".go" then Some ("Go", "Backend", "Go")
  else None.

(** The dict [ext_counts] once the files [seen] have gone through the
    first loop of [_analyze_source_files]. *)
Definition counted (seen : list repo_analyzer.FileInfo) (counts : list (string * Z))
  : Prop :=
  NoDup (map fst counts) /\
  (forall e n, In (e, n) counts -> n = source_count e seen /\ 0 < n) /\
  (forall e, ~ In e (map fst counts) -> source_count e seen = 0).

(** The commits of an author, in list order. *)
Definition commits_of (a : string) (commits : list git_analyzer.CommitInfo)
  : list git_analyzer.CommitInfo :=
  filter (fun c => String.eqb (git_analyzer.author c) a) commits.

(** Added and deleted lines as [git log --numstat] can report them. *)
Definition lines_bounded (commits : list git_analyzer.CommitInfo) : Prop :=
  Forall (fun c => 0 <= git_analyzer.lines_added c <= maxsize /\
                   0 <= git_analyzer.lines_deleted c <= maxsize) commits.

(** The counters of an author's statistics are those of the commits
    [mine]. *)
Definition totals_of (mine : list git_analyzer.CommitInfo)
           (s : git_analyzer.AuthorStats) : Prop :=
  0 < len mine /\
  git_analyzer.commit_count s = len mine /\
  git_analyzer.total_lines_added s
  = git_analyzer.sum_Z (map git_analyzer.lines_added mine) /\
  git_analyzer.total_lines_deleted s
  = git_analyzer.sum_Z (map git_analyzer.lines_deleted mine) /\
  Some (git_analyzer.email s) = option_map git_analyzer.author_email (hd_error mine).

(** [first] and [last] are dates of commits of [mine], none of which is
    earlier than [first] or later than [last]. *)
Definition period_of (mine : list git_analyzer.CommitInfo)
           (first last : datetime) : Prop :=
  In first (map git_analyzer.date mine) /\
  In last (map git_analyzer.date mine) /\
  Forall (fun c => dt_lt (git_analyzer.date c) first = false /\
                   dt_gt (git_analyzer.date c) last = false) mine.

(** The entry that the first loop of [analyze_developers] builds from the
    commits of one author. *)
Definition entry_of (mine : list git_analyzer.CommitInfo) : git_analyzer.AuthorEntry :=
  fold_left (fun stats c => git_analyzer.add_commit c stats) mine
            git_analyzer.new_entry.

(** The dict of [analyze_developers] once the commits [seen] are filed. *)
Definition filed (seen : list git_analyzer.CommitInfo)
           (d : list (string * git_analyzer.AuthorEntry)) : Prop :=
  NoDup (map fst d) /\
  (forall a e, In (a, e) d -> commits_of a seen <> [] /\ e = entry_of (commits_of a seen)) /\
  (forall c, In c seen -> In (git_analyzer.author c) (map fst d)).

(** The number of commits made on a day of the week. *)
Definition commits_on (day : string) (commits : list git_analyzer.CommitInfo) : Z :=
  len (filter (fun c => String.eqb (strftime_A (git_analyzer.date c)) day) commits).

(** The counter of [_find_most_active_days] once the commits [seen] are
    counted. *)
Definition tallied (seen : list git_analyzer.CommitInfo) (counts : list (string * Z))
  : Prop :=
  NoDup (map fst counts) /\
  (forall d n, In (d, n) counts -> n = commits_on d seen /\ 0 < n) /\
  (forall d, ~ In d (map fst counts) -> commits_on d seen = 0).



(** The feature under which [analyze_feature_timeline] files a commit: the
    extracted name when there is one and it is not empty. *)
Definition timeline_feature (c : git_analyzer.CommitInfo) : option string :=
  match git_analyzer._extract_feature_from_commit c with
  | Some (String a s) => Some (String a s)
  | _ => None
  end.

(** The commits filed under a feature, in list order. *)
Definition timeline_commits (feature : string) (commits : list git_analyzer.CommitInfo)
  : list git_analyzer.CommitInfo :=
  filter (fun c => match timeline_feature c with
                   | Some k => String.eqb k feature
                   | None => false
                   end) commits.

(** A timeline entry summarises the commits [mine]. *)
Definition timeline_of (mine : list git_analyzer.CommitInfo)
           (t : git_analyzer.FeatureTimeline) : Prop :=
  git_analyzer.timeline_commit_count t = len mine /\
  git_analyzer.total_lines_changed t
  = git_analyzer.sum_Z
      (map (fun c => git_analyzer.lines_added c + git_analyzer.lines_deleted c) mine) /\
  In (git_analyzer.start_date t) (map git_analyzer.date mine) /\
  In (git_analyzer.end_date t) (map git_analyzer.date mine) /\
  Forall (fun c => dt_lt (git_analyzer.date c) (git_analyzer.start_date t) = false /\
                   dt_lt (git_analyzer.end_date t) (git_analyzer.date c) = false) mine /\
  git_analyzer.development_duration t
  = to_microseconds (git_analyzer.end_date t)
    - to_microseconds (git_analyzer.start_date t).

(** The dict of [analyze_feature_timeline] once the commits [seen] are
    filed. *)
Definition listed (seen : list git_analyzer.CommitInfo)
           (d : list (string * list git_analyzer.CommitInfo)) : Prop :=
  NoDup (map fst d) /\
  (forall k l, In (k, l) d -> l <> [] /\ l = timeline_commits k seen) /\
  (forall c k, In c seen -> timeline_feature c = Some k -> In k (map fst d)).

(** Some commit message has one of the keywords, in any case of the
    letters. *)
Definition mentions (keywords : list string) (commits : list git_analyzer.CommitInfo)
  : bool :=
  existsb (fun c => any_in keywords (lower (git_analyzer.message c))) commits.

(** The whole days between consecutive instants given in microseconds. *)
Fixpoint day_gaps (times : list Z) : list Z :=
  match times with
  | earlier :: ((later :: _) as rest) =>
      (later - earlier) / 86400000000 :: day_gaps rest
  | _ => []
  end.

(** A positive normal number that is at most the normal number
    [b * 2^eb]. *)
Definition normal_up_to (b : positive) (eb : Z) (x : float) : Prop :=
  match x with
  | S754_finite false m e =>
      2 ^ 52 <= Z.pos m < 2 ^ 53 /\ -1074 <= e /\
      (e < eb \/ (e = eb /\ Z.pos m <= Z.pos b))
  | _ => False
  end.

(** A share: zero, or a positive normal number that is at most 1. *)
Definition share (x : float) : Prop :=
  x = S754_zero false \/ normal_up_to 4503599627370496 (-52) x.

End spec.

(** ** Sample inputs *)

(** A feature with 50 changed lines in one commit, no dependency and risk
    level High. *)
Definition risky_small_feature : feature_mapper.Feature :=
  {| feature_mapper.name := "login";
     feature_mapper.description := "Development work";
     feature_mapper.complexity := "medium";
     feature_mapper.status := "planned";
     feature_mapper.estimated_hours := S754_zero false;
     feature_mapper.actual_hours := None;
     feature_mapper.commit_count := 1;
     feature_mapper.lines_of_code := 50;
     feature_mapper.business_value := "Medium";
     feature_mapper.priority := "Medium";
     feature_mapper.risk_level := "High";
     feature_mapper.confidence := Py.lit 5 1;
     feature_mapper.start_date := None;
     feature_mapper.end_date := None;
     feature_mapper.dependencies := [];
     feature_mapper.tags := [] |}.

(** The same feature once its risk level was Low and it had no
    dependency, and later with four dependencies. *)
Definition calm_small_feature : feature_mapper.Feature :=
  {| feature_mapper.name := "login";
     feature_mapper.description := "Development work";
     feature_mapper.complexity := "medium";
     feature_mapper.status := "planned";
     feature_mapper.estimated_hours := S754_zero false;
     feature_mapper.actual_hours := None;
     feature_mapper.commit_count := 1;
     feature_mapper.lines_of_code := 50;
     feature_mapper.business_value := "Medium";
     feature_mapper.priority := "Medium";
     feature_mapper.risk_level := "Low";
     feature_mapper.confidence := Py.lit 5 1;
     feature_mapper.start_date := None;
     feature_mapper.end_date := None;
     feature_mapper.dependencies := [];
     feature_mapper.tags := [] |}.

Definition risky_dependent_feature : feature_mapper.Feature :=
  {| feature_mapper.name := "login";
     feature_mapper.description := "Development work";
     feature_mapper.complexity := "medium";
     feature_mapper.status := "planned";
     feature_mapper.estimated_hours := S754_zero false;
     feature_mapper.actual_hours := None;
     feature_mapper.commit_count := 1;
     feature_mapper.lines_of_code := 50;
     feature_mapper.business_value := "Medium";
     feature_mapper.priority := "Medium";
     feature_mapper.risk_level := "High";
     feature_mapper.confidence := Py.lit 5 1;
     feature_mapper.start_date := None;
     feature_mapper.end_date := None;
     feature_mapper.dependencies :=
       ["Backend API"; "Database"; "UI Components"; "Cache"];
     feature_mapper.tags := [] |}.

(** A high-complexity payment feature of seven commits with two
    dependencies. *)
Definition payments_feature : feature_mapper.Feature :=
  {| feature_mapper.name := "payments";
     feature_mapper.description := "Development work";
     feature_mapper.complexity := "high";
     feature_mapper.status := "in_progress";
     feature_mapper.estimated_hours := S754_zero false;
     feature_mapper.actual_hours := None;
     feature_mapper.commit_count := 7;
     feature_mapper.lines_of_code := 1200;
     feature_mapper.business_value := "Critical";
     feature_mapper.priority := "High";
     feature_mapper.risk_level := "High";
     feature_mapper.confidence := Py.lit 9 1;
     feature_mapper.start_date := None;
     feature_mapper.end_date := None;
     feature_mapper.dependencies := ["Backend API"; "Database"];
     feature_mapper.tags := [] |}.

(** A Feature object whose commit count is 2^1024, one more than any
    float can hold. *)
Definition countless_feature : feature_mapper.Feature :=
  {| feature_mapper.name := "payments";
     feature_mapper.description := "Development work";
     feature_mapper.complexity := "high";
     feature_mapper.status := "in_progress";
     feature_mapper.estimated_hours := S754_zero false;
     feature_mapper.actual_hours := None;
     feature_mapper.commit_count := 2 ^ 1024;
     feature_mapper.lines_of_code := 1200;
     feature_mapper.business_value := "Critical";
     feature_mapper.priority := "High";
     feature_mapper.risk_level := "High";
     feature_mapper.confidence := Py.lit 9 1;
     feature_mapper.start_date := None;
     feature_mapper.end_date := None;
     feature_mapper.dependencies := ["Backend API"; "Database"];
     feature_mapper.tags := [] |}.

Definition monday_noon (d : Z) : Py.datetime :=
  {| Py.year := 2024; Py.month := 1; Py.day := d;
     Py.hour := 12; Py.minute := 0; Py.second := 0; Py.microsecond := 0 |}.

Definition commit_by (who msg : string) (d : Z) : git_analyzer.CommitInfo :=
  {| git_analyzer.hash := "0000000";
     git_analyzer.author := who;
     git_analyzer.author_email := who ++ "@example.com";
     git_analyzer.date := monday_noon d;
     git_analyzer.message := msg;
     git_analyzer.files_changed := 1;
     git_analyzer.lines_added := 10;
     git_analyzer.lines_deleted := 2;
     git_analyzer.is_merge := false;
     git_analyzer.branch := "main" |}.

(** The three commits of the classification scenario. *)
Definition scenario_commits : list git_analyzer.CommitInfo :=
  [ commit_by "ana" "feat: add login" 1;
    commit_by "ben" "fix: null pointer" 2;
    commit_by "ana" "docs: update readme" 3 ].

Definition profile_of (who pattern value : string)
  : developer_analyzer.DeveloperProfile :=
  {| developer_analyzer.name := who;
     developer_analyzer.email := who ++ "@example.com";
     developer_analyzer.role := "Developer";
     developer_analyzer.company := "Example";
     developer_analyzer.expertise_areas := ["General Development"];
     developer_analyzer.skill_level := "Junior";
     developer_analyzer.skill_description :=
       "Early-career developer learning and building technical skills";
     developer_analyzer.contribution_pattern := pattern;
     developer_analyzer.commit_frequency := Py.lit 10 1;
     developer_analyzer.last_contribution := monday_noon 3;
     developer_analyzer.business_value := value;
     developer_analyzer.knowledge_areas := ["General Software Development"];
     developer_analyzer.collaboration_score := Py.lit 5 1;
     developer_analyzer.code_quality_score := Py.lit 5 1 |}.

(** A team of two: one Critical and one High contributor. *)
Definition scenario_profiles : list developer_analyzer.DeveloperProfile :=
  [ profile_of "ana" "High frequency, consistent contributor" "Critical";
    profile_of "ben" "Single contribution" "High" ].

(** A team of ten Medium contributors. *)
Definition ten_profiles : list developer_analyzer.DeveloperProfile :=
  List.repeat (profile_of "dev" "Single contribution" "Medium") 10.

(** The configuration of [run_custom_analysis] in example_usage.py: the
    default one with other size thresholds, 8.0 hours for a commit of a
    complex feature, a longer history and the merge commits kept. *)
Definition custom_config : config.AnalysisConfig :=
  {| config.complexity :=
       {| config.LOW_COMPLEXITY_LOC := 200;
          config.MEDIUM_COMPLEXITY_LOC := 800;
          config.LOW_COMPLEXITY_COMMITS := 3;
          config.MEDIUM_COMPLEXITY_COMMITS := 8;
          config.LOW_COMPLEXITY_MULTIPLIER := Py.lit 15 1;
          config.MEDIUM_COMPLEXITY_MULTIPLIER := Py.lit 30 1;
          config.HIGH_COMPLEXITY_MULTIPLIER := Py.lit 80 1;
          config.TESTING_BUFFER := Py.lit 15 2;
          config.DOCUMENTATION_BUFFER := Py.lit 5 2;
          config.TOTAL_BUFFER := Py.lit 20 2 |};
     config.git :=
       {| config.FEATURE_PATTERNS := config.FEATURE_PATTERNS config.default_git;
          config.BUG_FIX_PATTERNS := config.BUG_FIX_PATTERNS config.default_git;
          config.REFACTOR_PATTERNS := config.REFACTOR_PATTERNS config.default_git;
          config.DOCUMENTATION_PATTERNS :=
            config.DOCUMENTATION_PATTERNS config.default_git;
          config.MAX_COMMIT_HISTORY := 15000;
          config.MIN_COMMIT_LENGTH := 10;
          config.IGNORE_MERGE_COMMITS := false |} |}.

(** A team of two, one of them with a business value that is none of the
    five tiers. *)
Definition untiered_profiles : list developer_analyzer.DeveloperProfile :=
  [ profile_of "ana" "Single contribution" "Critical";
    profile_of "guest" "Single contribution" "Unknown" ].

Definition source_file (p ext : string) : repo_analyzer.FileInfo :=
  {| repo_analyzer.path := p; repo_analyzer.size := 100; repo_analyzer.lines := 10;
     repo_analyzer.extension := ext; repo_analyzer.is_config := false;
     repo_analyzer.is_documentation := false; repo_analyzer.is_source := true |}.

(** A repository with Python, JavaScript and JSX sources. *)
Definition scenario_files : list repo_analyzer.FileInfo :=
  [ source_file "app/main.py" ".py"; source_file "web/index.js" ".js";
    source_file "web/App.jsx" ".jsx"; source_file "app/util.py" ".py" ].

(** What the configuration pass found: Python through requirements.txt and
    React through package.json. *)
Definition scenario_config_tech : list repo_analyzer.TechnologyInfo :=
  [ {| repo_analyzer.name := "Python"; repo_analyzer.category := "Backend";
       repo_analyzer.confidence := Py.lit 8 1;
       repo_analyzer.evidence := ["Found requirements.txt"];
       repo_analyzer.version := None |};
    {| repo_analyzer.name := "React"; repo_analyzer.category := "Frontend";
       repo_analyzer.confidence := Py.lit 9 1;
       repo_analyzer.evidence := ["Found in package.json"];
       repo_analyzer.version := Some "18.2.0" |} ].

Definition scenario_tech_list : list repo_analyzer.TechnologyInfo :=
  (scenario_config_tech ++ repo_analyzer._analyze_source_files scenario_files)%list.

(** A team of five: one Critical, one High, two Medium and one Minimal
    contributor; and the same team in another order. *)
Definition mixed_team : list developer_analyzer.DeveloperProfile :=
  [ profile_of "eve" "Occasional, sporadic contributor" "Medium";
    profile_of "ana" "High frequency, consistent contributor" "Critical";
    profile_of "gus" "Single contribution" "Minimal";
    profile_of "ben" "Regular, consistent contributor" "High";
    profile_of "kim" "Occasional, sporadic contributor" "Medium" ].

Definition five_newcomers : list developer_analyzer.DeveloperProfile :=
  List.repeat (profile_of "new" "Single contribution" "Minimal") 5.

(** Five commits: two on the login form, one on payments, one on the
    yearly report and a fix that names no feature; and a tree with a
    directory for the search feature and one for the yearly report. *)
Definition feature_commits : list git_analyzer.CommitInfo :=
  [ commit_by "ana" "feat(login): add form" 1;
    commit_by "ben" "feat: payments api" 2;
    commit_by "ana" "fix: typo" 3;
    commit_by "ana" "feat(login): validate password" 4;
    commit_by "ben" "feat(2024): yearly report" 5 ].

Definition feature_tree : feature_mapper.RepoStructure :=
  {| feature_mapper.directories := ["docs"; "features/search-feature"; "modules/2024"] |}.

(** The candidates found in the five commits and in the tree. *)
Definition commit_candidates_found : feature_mapper.FeatureDict :=
  feature_mapper._extract_features_from_commits feature_commits.

Definition tree_candidates_found : feature_mapper.FeatureDict :=
  feature_mapper._extract_features_from_structure feature_tree.

(** The four features found in the five commits and the tree. *)
Definition features_to_group : list feature_mapper.Feature :=
  feature_mapper.identify_features config.default feature_commits feature_tree.

(** A small web project as the scanner flags it, and the files of a
    second service added to it. *)
Definition scanned (p ext : string) (config source : bool) : repo_analyzer.FileInfo :=
  {| repo_analyzer.path := p; repo_analyzer.size := 100; repo_analyzer.lines := 10;
     repo_analyzer.extension := ext; repo_analyzer.is_config := config;
     repo_analyzer.is_documentation := false; repo_analyzer.is_source := source |}.

Definition web_project : list repo_analyzer.FileInfo :=
  [ scanned "Makefile" "" false false;
    scanned "webpack.config.js" ".js" true true;
    scanned "app/models/user.py" ".py" false true;
    scanned "app/views/user.py" ".py" false true;
    scanned "app/events/signup.py" ".py" false true ].

Definition second_service : list repo_analyzer.FileInfo :=
  [ scanned "billing/service/Dockerfile" "" true false;
    scanned "billing/api/Invoice.java" ".java" false true ].

(** The statistics of an author with 120 small commits, 60 % of all. *)
Definition lead_author : git_analyzer.AuthorStats :=
  {| git_analyzer.name := "ana";
     git_analyzer.email := "ana@example.com";
     git_analyzer.commit_count := 120;
     git_analyzer.total_lines_added := 1200;
     git_analyzer.total_lines_deleted := 240;
     git_analyzer.first_commit := Some (monday_noon 1);
     git_analyzer.last_commit := Some (monday_noon 31);
     git_analyzer.commit_frequency := Py.lit 40 1;
     git_analyzer.average_commit_size := Py.lit 120 1;
     git_analyzer.contribution_percentage := Py.lit 600 1 |}.

(** The structure of a repository with a deep tree, six technologies and
    eleven file types. *)
Definition deep_structure : risk_assessor.Structure :=
  {| risk_assessor.structure_directories :=
       ["src"; "src/main/java/com/example/billing"; "docs/api"];
     risk_assessor.structure_technology_stack :=
       List.repeat (repo_analyzer.source_entry "Go" "Backend" "Go" 1) 6;
     risk_assessor.structure_file_types :=
       map (fun ext => (ext, 1))
           [".go"; ".py"; ".js"; ".ts"; ".java"; ".md"; ".yml"; ".json"; ".toml";
            ".sh"; ".sql"] |}.

(** The four features of the five commits and one of high complexity. *)
Definition risky_features : list feature_mapper.Feature :=
  feature_mapper.set_complexity payments_feature "high" :: features_to_group.

(** Five commits on two features: the login form on the first and the
    ninth day, the search on the second and the third. *)
Definition timeline_sample : list git_analyzer.CommitInfo :=
  [ commit_by "ben" "add search" 2;
    commit_by "ana" "feat: login form" 1;
    commit_by "ana" "Feat: Login form" 9;
    commit_by "ben" "new: search" 3;
    commit_by "ana" "fix: typo" 4 ].

(** The technical risks of the five commits, and the same risks after the
    strategy of the first one was removed. *)
Definition risks_found : list risk_assessor.Risk :=
  match risk_assessor._identify_technical_risks
          (monday_noon 8) feature_commits risky_features deep_structure with
  | Py.Return risks => risks
  | Py.Raise _ => []
  end.

Definition without_strategy (r : risk_assessor.Risk) : risk_assessor.Risk :=
  {| risk_assessor.id := risk_assessor.id r;
     risk_assessor.risk_name := risk_assessor.risk_name r;
     risk_assessor.category := risk_assessor.category r;
     risk_assessor.probability := risk_assessor.probability r;
     risk_assessor.impact := risk_assessor.impact r;
     risk_assessor.business_impact := risk_assessor.business_impact r;
     risk_assessor.risk_description := risk_assessor.risk_description r;
     risk_assessor.mitigation_strategy := "";
     risk_assessor.risk_score := risk_assessor.risk_score r;
     risk_assessor.detection_date := risk_assessor.detection_date r;
     risk_assessor.risk_status := risk_assessor.risk_status r |}.

Definition risks_partly_covered : list risk_assessor.Risk :=
  match risks_found with
  | [] => []
  | r :: rest => without_strategy r :: rest
  end.

(** * Properties *)

(** ** Complexity levels (feature_mapper.assess_complexity) *)

Section Complexity.
Import Py feature_mapper.
Variable self : config.AnalysisConfig.

Lemma get_complexity_level_cases loc n :
  let c := config.get_complexity_level self loc n in
  c = "low" \/ c = "medium" \/ c = "high".
Proof.
  unfold config.get_complexity_level.
  destruct (_ && _); [now left|].
  destruct (_ && _); [right; now left | right; now right].
Qed.

Lemma risk_rank_cases r a :
  spec.risk_rank r = Some a ->
  (r = "Low" /\ a = 1) \/ (r = "Medium" /\ a = 2) \/ (r = "High" /\ a = 3).
Proof.
  unfold spec.risk_rank.
  destruct (String.eqb_spec r "Low"); [intros [= <-]; now left|].
  destruct (String.eqb_spec r "Medium"); [intros [= <-]; right; now left|].
  destruct (String.eqb_spec r "High"); [intros [= <-]; right; now right|discriminate].
Qed.

(** For the risk levels Low, Medium and High the result is the base level,
    raised once when there are more than three dependencies: the risk
    level plays no part. *)
Lemma assess_complexity_by_dependencies f a :
  spec.risk_rank (risk_level f) = Some a ->
  assess_complexity self f =
  let base := config.get_complexity_level self (lines_of_code f) (commit_count f) in
  if spec.many_dependencies (dependencies f) then spec.escalate base else base.
Proof.
  intros Hr. apply risk_rank_cases in Hr.
  unfold assess_complexity, spec.many_dependencies, spec.escalate.
  assert (String.eqb (risk_level f) "high" = false) as ->
      by (destruct Hr as [[-> _] | [[-> _] | [-> _]]]; reflexivity).
  destruct (dependencies f); reflexivity.
Qed.

Lemma assess_complexity_cases f :
  let c := assess_complexity self f in
  c = "low" \/ c = "medium" \/ c = "high".
Proof.
  unfold assess_complexity.
  destruct (get_complexity_level_cases (lines_of_code f) (commit_count f))
    as [-> | [-> | ->]];
    destruct (dependencies f); try destruct (len _ >? 3);
    destruct (String.eqb (risk_level f) "high"); cbn; auto.
Qed.

Lemma many_dependencies_app deps extra :
  spec.many_dependencies deps = true ->
  spec.many_dependencies (deps ++ extra)%list = true.
Proof.
  unfold spec.many_dependencies, len.
  destruct deps as [|d deps]; [discriminate|]. cbn [app].
  rewrite !Z.gtb_ltb, !Z.ltb_lt. cbn [List.length].
  rewrite length_app. lia.
Qed.

(** C6. Adding dependencies or raising the risk level (Low < Medium <
    High), all other fields unchanged, never lowers the complexity tier
    (low < medium < high) that assess_complexity returns. *)
Theorem assess_complexity_monotone (f g : Feature) (extra : list string) (a b : Z) :
  lines_of_code g = lines_of_code f ->
  commit_count g = commit_count f ->
  dependencies g = (dependencies f ++ extra)%list ->
  spec.risk_rank (risk_level f) = Some a ->
  spec.risk_rank (risk_level g) = Some b ->
  a <= b ->
  exists tf tg,
    spec.tier (assess_complexity self f) = Some tf /\
    spec.tier (assess_complexity self g) = Some tg /\
    tf <= tg.
Proof.
  intros Hloc Hcount Hdeps Ha Hb _.
  rewrite (assess_complexity_by_dependencies f a Ha),
          (assess_complexity_by_dependencies g b Hb).
  rewrite Hloc, Hcount, Hdeps. cbv zeta.
  pose proof (many_dependencies_app (dependencies f) extra) as Happ.
  destruct (get_complexity_level_cases (lines_of_code f) (commit_count f))
    as [-> | [-> | ->]];
    destruct (spec.many_dependencies (dependencies f));
    try rewrite (Happ eq_refl);
    try destruct (spec.many_dependencies _);
    cbn; do 2 eexists; (split; [reflexivity | split; [reflexivity | lia]]).
Qed.

End Complexity.

(** C3. With the default thresholds the base level of this High-risk
    feature is low, and assess_complexity returns low: the High risk level
    does not raise it to medium. *)
Theorem assess_complexity_high_risk_not_escalated :
  spec.risk_rank (feature_mapper.risk_level risky_small_feature) = Some 3 /\
  config.get_complexity_level config.default 50 1 = "low" /\
  feature_mapper.assess_complexity config.default risky_small_feature = "low".
Proof. repeat split. Qed.

(** C6, from no dependency and Low risk to four dependencies and High
    risk: the tier goes from low (1) to medium (2). *)
Lemma assess_complexity_monotone_witness :
  exists tf tg,
    spec.tier (feature_mapper.assess_complexity config.default calm_small_feature)
    = Some tf /\
    spec.tier (feature_mapper.assess_complexity config.default risky_dependent_feature)
    = Some tg /\
    tf <= tg.
Proof.
  apply (assess_complexity_monotone config.default calm_small_feature
           risky_dependent_feature
           ["Backend API"; "Database"; "UI Components"; "Cache"] 1 3);
    try reflexivity. lia.
Defined.

(** ** binary64: when an operation yields a finite number *)

Section FloatFinite.
Import Py.

Lemma digits2_pos_size p : digits2_pos p = Pos.size p.
Proof. induction p; cbn; congruence. Qed.

Lemma digits2_pos_log2 p : Z.pos (digits2_pos p) = Z.log2 (Z.pos p) + 1.
Proof.
  rewrite digits2_pos_size.
  destruct p; cbn [Z.log2 Pos.size]; rewrite ?Pos2Z.inj_succ; lia.
Qed.

Lemma Zdigits2_nonneg m : 0 <= Zdigits2 m.
Proof. destruct m; cbn; lia. Qed.

Lemma Zdigits2_bounds m :
  0 < m -> 2 ^ (Zdigits2 m - 1) <= m < 2 ^ Zdigits2 m.
Proof.
  destruct m as [|p|p]; try lia. intros _.
  cbn [Zdigits2]. rewrite digits2_pos_log2.
  replace (Z.log2 (Z.pos p) + 1 - 1) with (Z.log2 (Z.pos p)) by lia.
  replace (Z.log2 (Z.pos p) + 1) with (Z.succ (Z.log2 (Z.pos p))) by lia.
  apply Z.log2_spec. lia.
Qed.

Lemma Zdigits2_le m k : 0 <= m -> 0 <= k -> m < 2 ^ k -> Zdigits2 m <= k.
Proof.
  intros Hm Hk Hlt.
  destruct (Z.eq_dec m 0) as [-> | Hne]; [cbn; lia|].
  destruct (Zdigits2_bounds m) as [Hlo _]; [lia|].
  assert (2 ^ (Zdigits2 m - 1) < 2 ^ k) as H by lia.
  apply Z.pow_lt_mono_r_iff in H; lia.
Qed.

Lemma Zdigits2_mono a b : 0 <= a <= b -> Zdigits2 a <= Zdigits2 b.
Proof.
  intros H. destruct (Z.eq_dec b 0) as [-> | Hb].
  - assert (a = 0) as -> by lia. lia.
  - apply Zdigits2_le; [lia | apply Zdigits2_nonneg|].
    destruct (Zdigits2_bounds b); lia.
Qed.

Lemma shr_1_m mrs : 0 <= shr_m mrs -> shr_m (shr_1 mrs) = shr_m mrs / 2.
Proof.
  destruct mrs as [m r s]. cbn [shr_m]. intros Hm.
  destruct m as [|p|p]; [reflexivity | | lia].
  destruct p as [p|p|]; cbn [shr_1 shr_m].
  - rewrite Pos2Z.inj_xI. Z.div_mod_to_equations. lia.
  - rewrite Pos2Z.inj_xO. Z.div_mod_to_equations. lia.
  - reflexivity.
Qed.

Lemma iter_shr_1_m p mrs :
  0 <= shr_m mrs ->
  shr_m (iter_pos shr_1 p mrs) = shr_m mrs / 2 ^ Z.pos p.
Proof.
  revert mrs. induction p as [p IH|p IH|]; intros mrs Hm; cbn [iter_pos].
  - assert (0 <= shr_m (shr_1 mrs)) as H1
        by (rewrite shr_1_m by assumption; apply Z.div_pos; lia).
    assert (0 <= shr_m (iter_pos shr_1 p (shr_1 mrs))) as H2
        by (rewrite IH by assumption; apply Z.div_pos; lia).
    rewrite IH, IH, shr_1_m by assumption.
    replace (Z.pos p~1) with (1 + Z.pos p + Z.pos p) by lia.
    rewrite !Z.pow_add_r by lia. change (2 ^ 1) with 2.
    assert (0 < 2 ^ Z.pos p) by (apply Z.pow_pos_nonneg; lia).
    rewrite !Z.div_div by lia. f_equal; lia.
  - assert (0 <= shr_m (iter_pos shr_1 p mrs)) as H2
        by (rewrite IH by assumption; apply Z.div_pos; lia).
    rewrite IH, IH by assumption.
    replace (Z.pos p~0) with (Z.pos p + Z.pos p) by lia.
    rewrite !Z.pow_add_r by lia.
    assert (0 < 2 ^ Z.pos p) by (apply Z.pow_pos_nonneg; lia).
    rewrite !Z.div_div by lia. f_equal; lia.
  - rewrite shr_1_m by assumption. reflexivity.
Qed.

Lemma shr_record_of_loc_m m l : shr_m (shr_record_of_loc m l) = m.
Proof. destruct l as [|[]]; reflexivity. Qed.

(** What [shr_fexp] returns: the mantissa divided by the power of two that
    brings the exponent up to [fexp]. *)
Lemma shr_fexp_spec m e l :
  0 <= m ->
  let target := fexp prec emax (Zdigits2 m + e) in
  let '(mrs, e') := shr_fexp prec emax m e l in
  (target <= e /\ e' = e /\ shr_m mrs = m) \/
  (e < target /\ e' = target /\ shr_m mrs = m / 2 ^ (target - e)).
Proof.
  intros Hm. cbv zeta. unfold shr_fexp, shr.
  destruct (fexp prec emax (Zdigits2 m + e) - e) as [|p|p] eqn:Hd.
  - left. rewrite shr_record_of_loc_m. lia.
  - right. rewrite iter_shr_1_m by (rewrite shr_record_of_loc_m; assumption).
    rewrite shr_record_of_loc_m, <- Hd. repeat split; lia.
  - left. rewrite shr_record_of_loc_m. lia.
Qed.

Lemma round_nearest_even_bounds m l :
  m <= round_nearest_even m l <= m + 1.
Proof.
  unfold round_nearest_even. destruct l as [|[]]; try lia.
  destruct (Z.even m); lia.
Qed.

Lemma fexp_eq x : fexp prec emax x = Z.max (x - 53) (-1074).
Proof. reflexivity. Qed.

Lemma Zdigits2_div_pow2 m k :
  0 <= m -> 0 <= k -> Zdigits2 (m / 2 ^ k) <= Z.max (Zdigits2 m - k) 0.
Proof.
  intros Hm Hk.
  assert (0 < 2 ^ k) as Hpow by (apply Z.pow_pos_nonneg; lia).
  assert (0 <= m / 2 ^ k) as Hq by (apply Z.div_pos; lia).
  apply Zdigits2_le; [assumption | lia |].
  destruct (Z.eq_dec m 0) as [-> | Hne].
  - rewrite Z.div_0_l by lia. apply Z.pow_pos_nonneg; lia.
  - destruct (Zdigits2_bounds m) as [_ Hhi]; [lia|].
    destruct (Z_le_gt_dec k (Zdigits2 m)) as [Hle | Hgt].
    + rewrite Z.max_l by lia.
      apply Z.div_lt_upper_bound; [assumption|].
      rewrite <- Z.pow_add_r by lia.
      replace (k + (Zdigits2 m - k)) with (Zdigits2 m) by lia. assumption.
    + rewrite Z.max_r by lia.
      rewrite Z.div_small; [lia|]. split; [lia|].
      apply Z.lt_le_trans with (1 := Hhi).
      apply Z.pow_le_mono_r; lia.
Qed.

Lemma Zdigits2_succ m : 0 <= m -> Zdigits2 (m + 1) <= Zdigits2 m + 1.
Proof.
  intros Hm. pose proof (Zdigits2_nonneg m).
  apply Zdigits2_le; [lia | lia |].
  destruct (Z.eq_dec m 0) as [-> | Hne]; [reflexivity|].
  destruct (Zdigits2_bounds m) as [_ Hhi]; [lia|].
  rewrite Z.pow_add_r by lia. change (2 ^ 1) with 2. lia.
Qed.

(** Rounding a non-negative mantissa yields a finite number as soon as the
    value is below 2^1023. *)
Lemma binary_round_aux_finite sx mx ex lx :
  0 <= mx -> ex <= 971 -> Zdigits2 mx + ex <= 1023 ->
  is_finite (binary_round_aux prec emax sx mx ex lx) = true.
Proof.
  intros Hm He Hd. unfold binary_round_aux.
  pose proof (shr_fexp_spec mx ex lx Hm) as H1. cbv zeta in H1.
  destruct (shr_fexp prec emax mx ex lx) as [mrs' e'].
  set (m1 := round_nearest_even (shr_m mrs') (loc_of_shr_record mrs')).
  pose proof (round_nearest_even_bounds (shr_m mrs') (loc_of_shr_record mrs')) as Hr.
  fold m1 in Hr.
  rewrite fexp_eq in H1.
  assert (0 <= shr_m mrs' /\ e' <= 971 /\ Zdigits2 m1 + e' <= 1024) as (Hm' & He' & Hd').
  { destruct H1 as [(Ht & -> & Hs) | (Ht & -> & Hs)].
    - rewrite Hs in *. repeat split; try lia.
      pose proof (Zdigits2_succ mx Hm).
      pose proof (Zdigits2_mono m1 (mx + 1)). lia.
    - assert (0 <= shr_m mrs') by (rewrite Hs; apply Z.div_pos;
                                     [lia | apply Z.pow_pos_nonneg; lia]).
      repeat split; try lia.
      pose proof (Zdigits2_div_pow2 mx (Z.max (Zdigits2 mx + ex - 53) (-1074) - ex) Hm).
      rewrite <- Hs in H0.
      pose proof (Zdigits2_succ (shr_m mrs') H).
      pose proof (Zdigits2_mono m1 (shr_m mrs' + 1)). lia. }
  assert (0 <= m1) as Hm1 by lia.
  pose proof (shr_fexp_spec m1 e' loc_Exact Hm1) as H2. cbv zeta in H2.
  destruct (shr_fexp prec emax m1 e' loc_Exact) as [mrs'' e''].
  rewrite fexp_eq in H2.
  assert (0 <= shr_m mrs'' /\ e'' <= 971) as (Hm'' & He'').
  { destruct H2 as [(Ht & -> & Hs) | (Ht & -> & Hs)].
    - rewrite Hs. lia.
    - split; [|lia]. rewrite Hs. apply Z.div_pos; [lia | apply Z.pow_pos_nonneg; lia]. }
  destruct (shr_m mrs'') as [|p|p]; [reflexivity | | lia].
  change (emax - prec) with 971.
  destruct (Z.leb_spec e'' 971); [reflexivity | lia].
Qed.

Lemma digits2_pos_iter_xO m d :
  Z.pos (digits2_pos (Pos.iter xO m d)) = Z.pos (digits2_pos m) + Z.pos d.
Proof.
  induction d using Pos.peano_ind.
  - cbn. lia.
  - rewrite Pos.iter_succ. cbn [digits2_pos]. lia.
Qed.

Lemma shl_align_spec m e e' :
  let '(mz, ez) := shl_align m e e' in
  ez <= e /\ Z.pos (digits2_pos mz) + ez = Z.pos (digits2_pos m) + e.
Proof.
  unfold shl_align. destruct (e' - e) as [|p|p] eqn:Hd; try lia.
  rewrite digits2_pos_iter_xO. lia.
Qed.

Lemma binary_round_finite s m e :
  e <= 971 -> Z.pos (digits2_pos m) + e <= 1023 ->
  is_finite (binary_round prec emax s m e) = true.
Proof.
  intros He Hd. unfold binary_round.
  pose proof (shl_align_spec m e (fexp prec emax (Z.pos (digits2_pos m) + e))) as H.
  destruct (shl_align m e _) as [mz ez].
  apply binary_round_aux_finite; cbn [Zdigits2]; lia.
Qed.

(** [float(n)] does not overflow below 2^1023. *)
Lemma to_float_returns n :
  Z.abs n < 2 ^ 1023 -> to_float n = Return (float_of_int n).
Proof.
  intros Hn. unfold to_float.
  assert (is_finite (float_of_int n) = true) as ->; [|reflexivity].
  unfold float_of_int, binary_normalize.
  destruct n as [|p|p]; [reflexivity | |];
    (apply binary_round_finite; [lia|];
     assert (Zdigits2 (Z.pos p) <= 1023) as H
         by (apply Zdigits2_le; lia);
     cbn [Zdigits2] in H; lia).
Qed.

(** The quotient of two positive mantissas is finite when the dividend has
    at most 1022 digits more than the divisor. *)
Lemma SFdiv_pos_finite s a b :
  Z.pos (digits2_pos a) - Z.pos (digits2_pos b) <= 1022 ->
  is_finite (SFdiv prec emax (S754_finite s a 0) (S754_finite false b 0)) = true.
Proof.
  intros Hd. unfold SFdiv, SFdiv_core_binary.
  cbn [Zdigits2]. rewrite !Z.add_0_r, Z.sub_0_r. rewrite fexp_eq.
  set (d1 := Z.pos (digits2_pos a)) in *. set (d2 := Z.pos (digits2_pos b)) in *.
  set (e' := Z.min (Z.max (d1 - d2 - 53) (-1074)) 0).
  assert (e' <= 0) as He' by (subst e'; lia).
  assert (exists m', m' = Z.pos a * 2 ^ (- e') /\
                     match 0 - e' with
                     | 0 => Z.pos a
                     | Z.pos _ => Z.shiftl (Z.pos a) (0 - e')
                     | Z.neg _ => 0
                     end = m') as (m' & Hm' & ->).
  { eexists; split; [reflexivity|].
    destruct (0 - e') as [|p|p] eqn:Hs; try lia.
    - replace (- e') with 0 by lia. lia.
    - rewrite Z.shiftl_mul_pow2 by lia. f_equal. f_equal. lia. }
  pose proof (Z.div_eucl_eq m' (Z.pos b)) as Heucl.
  pose proof (Z.mod_pos_bound m' (Z.pos b)) as Hmod.
  unfold Z.modulo in Hmod.
  destruct (Z.div_eucl m' (Z.pos b)) as [q r].
  specialize (Heucl ltac:(lia)). specialize (Hmod ltac:(lia)).
  assert (0 < 2 ^ (- e')) as Hpow by (apply Z.pow_pos_nonneg; lia).
  assert (0 <= q) as Hq by nia.
  destruct (Zdigits2_bounds (Z.pos a)) as [_ Ha]; [lia|].
  destruct (Zdigits2_bounds (Z.pos b)) as [Hb _]; [lia|].
  cbn [Zdigits2] in Ha, Hb. fold d1 in Ha. fold d2 in Hb.
  assert (0 < d1 /\ 0 < d2) as [Hd1 Hd2] by (subst d1 d2; lia).
  clearbody d1 d2 e'.
  apply binary_round_aux_finite; [assumption | lia |].
  assert (Zdigits2 q <= Z.max (d1 - e' - (d2 - 1)) 0); [|lia].
  apply Zdigits2_le; [assumption | lia |].
  assert (q * 2 ^ (d2 - 1) < 2 ^ d1 * 2 ^ (- e')) as Hlt by nia.
  rewrite <- Z.pow_add_r in Hlt by lia.
  assert (0 < 2 ^ (d2 - 1)) by (apply Z.pow_pos_nonneg; lia).
  destruct (Z_le_gt_dec 0 (d1 - e' - (d2 - 1))) as [Hge | Hneg].
  - rewrite Z.max_l by lia.
    assert (2 ^ (d1 + - e') = 2 ^ (d1 - e' - (d2 - 1)) * 2 ^ (d2 - 1)) as Hsplit.
    { rewrite <- Z.pow_add_r by lia. f_equal. lia. }
    rewrite Hsplit in Hlt. nia.
  - rewrite Z.max_r by lia. change (2 ^ 0) with 1.
    assert (2 ^ (d1 + - e') <= 2 ^ (d2 - 1)) by (apply Z.pow_le_mono_r; lia).
    nia.
Qed.

(** [a / b] on ints returns when [0 <= a <= b] and [b] is not zero. *)
Lemma int_truediv_returns a b :
  0 <= a <= b -> 0 < b -> exists q, int_truediv a b = Return q.
Proof.
  intros Ha Hb. unfold int_truediv.
  destruct (Z.eqb_spec b 0); [lia|].
  destruct b as [|pb|pb]; try lia.
  destruct a as [|pa|pa]; try lia.
  - eexists. reflexivity.
  - cbn [exact]. rewrite SFdiv_pos_finite; [eexists; reflexivity|].
    pose proof (Zdigits2_mono (Z.pos pa) (Z.pos pb) ltac:(lia)) as H.
    cbn [Zdigits2] in H. lia.
Qed.

Lemma Zdigits2_mul8 b : 0 <= b -> Zdigits2 (8 * b) <= Zdigits2 b + 3.
Proof.
  intros Hb. pose proof (Zdigits2_nonneg b).
  apply Zdigits2_le; [lia | lia |].
  rewrite Z.pow_add_r by lia. change (2 ^ 3) with 8.
  destruct (Z.eq_dec b 0) as [-> | Hne].
  - cbn. lia.
  - destruct (Zdigits2_bounds b); lia.
Qed.

(** [a / b] on ints also returns for an average of small terms. *)
Lemma int_truediv_returns_average a b :
  0 <= a <= 8 * b -> 0 < b -> exists q, int_truediv a b = Return q.
Proof.
  intros Ha Hb. unfold int_truediv.
  destruct (Z.eqb_spec b 0); [lia|].
  destruct b as [|pb|pb]; try lia.
  destruct a as [|pa|pa]; try lia.
  - eexists. reflexivity.
  - cbn [exact]. rewrite SFdiv_pos_finite; [eexists; reflexivity|].
    pose proof (Zdigits2_mono (Z.pos pa) (8 * Z.pos pb) ltac:(lia)) as H.
    pose proof (Zdigits2_mul8 (Z.pos pb) ltac:(lia)) as H8.
    cbn [Zdigits2] in H, H8. cbn [Zdigits2]. lia.
Qed.

End FloatFinite.

(** ** binary64: the order of the numbers *)

Section FloatOrder.
Import Py.

Lemma le3_trans a b c : spec.le3 a b -> spec.le3 b c -> spec.le3 a c.
Proof. destruct a as [[? ?] ?], b as [[? ?] ?], c as [[? ?] ?]. cbn. lia. Qed.

Lemma le3_total a b : spec.le3 a b \/ spec.le3 b a.
Proof. destruct a as [[? ?] ?], b as [[? ?] ?]. cbn. lia. Qed.

Ltac compare_cases :=
  repeat match goal with
         | |- context [Z.compare ?a ?b] => destruct (Z.compare_spec a b)
         | |- context [Pos.compare_cont Eq ?a ?b] =>
             change (Pos.compare_cont Eq a b) with (Pos.compare a b);
             destruct (Pos.compare_spec a b)
         end.

Lemma SFleb_rank x y :
  spec.is_number x = true -> spec.is_number y = true ->
  (SFleb x y = true <-> spec.le3 (spec.rank x) (spec.rank y)).
Proof.
  destruct x as [sx|sx| |sx mx ex], y as [sy|sy| |sy my ey]; try discriminate;
    intros _ _; unfold SFleb, SFcompare, spec.rank, spec.le3;
    repeat match goal with s : bool |- _ => destruct s end;
    compare_cases; cbn [CompOpp]; split; intros Hgoal; try discriminate;
    try reflexivity; try lia.
Qed.

Lemma SFltb_rank x y :
  spec.is_number x = true -> spec.is_number y = true ->
  (SFltb x y = false <-> spec.le3 (spec.rank y) (spec.rank x)).
Proof.
  destruct x as [sx|sx| |sx mx ex], y as [sy|sy| |sy my ey]; try discriminate;
    intros _ _; unfold SFltb, SFcompare, spec.rank, spec.le3;
    repeat match goal with s : bool |- _ => destruct s end;
    compare_cases; cbn [CompOpp]; split; intros Hgoal; try discriminate;
    try reflexivity; try lia.
Qed.

Lemma fge_trans x y z :
  spec.is_number x = true -> spec.is_number y = true -> spec.is_number z = true ->
  fge x y = true -> fge y z = true -> fge x z = true.
Proof.
  unfold fge. intros Hx Hy Hz.
  rewrite !SFleb_rank by assumption. intros H1 H2.
  eapply le3_trans; eassumption.
Qed.

Lemma fge_refl x : spec.is_number x = true -> fge x x = true.
Proof.
  intros Hx. unfold fge. rewrite SFleb_rank by assumption.
  destruct (le3_total (spec.rank x) (spec.rank x)); assumption.
Qed.

Lemma flt_false_fge x y :
  spec.is_number x = true -> spec.is_number y = true ->
  flt x y = false -> fge x y = true.
Proof.
  unfold flt, fge. intros Hx Hy.
  rewrite SFltb_rank, SFleb_rank by assumption. trivial.
Qed.

Lemma flt_true_fge x y :
  spec.is_number x = true -> spec.is_number y = true ->
  flt x y = true -> fge y x = true.
Proof.
  unfold flt, fge. intros Hx Hy Hlt.
  rewrite SFleb_rank by assumption.
  destruct (le3_total (spec.rank x) (spec.rank y)) as [H | H]; [assumption|].
  apply SFltb_rank in H; [congruence | assumption | assumption].
Qed.

(** [max(a, b)] is one of its arguments and no smaller than either. *)
Lemma fmax_cases a b : fmax a b = a \/ fmax a b = b.
Proof. unfold fmax. destruct (fgt b a); auto. Qed.

Lemma fmax_ge a b :
  spec.is_number a = true -> spec.is_number b = true ->
  fge (fmax a b) a = true /\ fge (fmax a b) b = true.
Proof.
  intros Ha Hb. unfold fmax, fgt.
  destruct (SFltb a b) eqn:Hlt.
  - split; [apply flt_true_fge; assumption | apply fge_refl; assumption].
  - split; [apply fge_refl; assumption | apply flt_false_fge; assumption].
Qed.

End FloatOrder.

(** ** Rounding to the nearest integer and to the nearest binary64 *)

Section Nearest.
Import Py.

Lemma round_half_even_bound a b :
  0 < b -> 2 * Z.abs (a - b * round_half_even a b) <= b.
Proof.
  intros Hb. unfold round_half_even.
  pose proof (Z.div_mod a b ltac:(lia)) as Hdm.
  pose proof (Z.mod_pos_bound a b Hb) as Hr.
  destruct (Z.compare_spec (2 * (a mod b)) b); [destruct (Z.even (a / b))| |]; nia.
Qed.

Lemma round_half_even_unique a b q :
  0 < b -> 2 * Z.abs (a - b * q) < b -> round_half_even a b = q.
Proof.
  intros Hb Hq. unfold round_half_even.
  destruct (Z_le_gt_dec 0 (a - b * q)) as [Hpos | Hneg].
  - assert (a / b = q) as Hdiv
        by (symmetry; apply Z.div_unique with (a - b * q); lia).
    assert (a mod b = a - b * q) as Hmod
        by (symmetry; apply Z.mod_unique with q; lia).
    rewrite Hdiv, Hmod.
    destruct (Z.compare_spec (2 * (a - b * q)) b); lia.
  - assert (a / b = q - 1) as Hdiv
        by (symmetry; apply Z.div_unique with (a - b * q + b); lia).
    assert (a mod b = a - b * q + b) as Hmod
        by (symmetry; apply Z.mod_unique with (q - 1); lia).
    rewrite Hdiv, Hmod.
    destruct (Z.compare_spec (2 * (a - b * q + b)) b); lia.
Qed.

Lemma pow2_pos x : 0 < 2 ^ x \/ x < 0.
Proof.
  destruct (Z_lt_le_dec x 0); [now right | left; apply Z.pow_pos_nonneg; lia].
Qed.

Lemma pow2_gt0 x : 0 <= x -> 0 < 2 ^ x.
Proof. intros. apply Z.pow_pos_nonneg; lia. Qed.

(** [ge_scaled] with both sides brought to a common power of two. *)
Lemma ge_scaled_spec num den t K :
  0 <= K -> 0 <= t + K ->
  (ge_scaled num den t = true <-> den * 2 ^ (t + K) <= num * 2 ^ K).
Proof.
  intros HK HtK. unfold ge_scaled.
  pose proof (pow2_gt0 K HK) as HpK.
  destruct (Z.leb_spec 0 t) as [Ht | Ht]; rewrite Z.leb_le.
  - rewrite Z.pow_add_r by lia. split; intros H; nia.
  - pose proof (pow2_gt0 (t + K) HtK) as Hp.
    replace (2 ^ K) with (2 ^ (- t) * 2 ^ (t + K))
      by (rewrite <- Z.pow_add_r by lia; f_equal; lia).
    split; intros H; nia.
Qed.

Lemma log2_bounds n : 0 < n -> 2 ^ Z.log2 n <= n < 2 ^ (Z.log2 n + 1).
Proof.
  intros Hn. replace (Z.log2 n + 1) with (Z.succ (Z.log2 n)) by lia.
  now apply Z.log2_spec.
Qed.

(** The exponent that [floor_log2_ratio] finds. *)
Lemma floor_log2_ratio_spec num den K :
  0 < num -> 0 < den ->
  let t := floor_log2_ratio num den in
  0 <= K -> 0 <= t - 1 + K ->
  den * 2 ^ (t + K) <= num * 2 ^ K < den * 2 ^ (t + 1 + K).
Proof.
  intros Hn Hd. cbv zeta. unfold floor_log2_ratio.
  set (d := Z.log2 num - Z.log2 den).
  pose proof (log2_bounds num Hn) as [Hn1 Hn2].
  pose proof (log2_bounds den Hd) as [Hd1 Hd2].
  pose proof (Z.log2_nonneg num) as HL1. pose proof (Z.log2_nonneg den) as HL2.
  assert (forall K, 0 <= K -> 0 <= d + 1 + K -> num * 2 ^ K < den * 2 ^ (d + 1 + K))
    as Hupper.
  { intros K0 HK0 Hd0. pose proof (pow2_gt0 K0 HK0).
    assert (2 ^ (Z.log2 num + 1) * 2 ^ K0 <= 2 ^ Z.log2 den * 2 ^ (d + 1 + K0)).
    { rewrite <- !Z.pow_add_r by lia. apply Z.pow_le_mono_r; lia. }
    pose proof (pow2_gt0 (d + 1 + K0) Hd0). nia. }
  assert (forall K, 0 <= K -> 0 <= d - 1 + K -> den * 2 ^ (d - 1 + K) <= num * 2 ^ K)
    as Hlower.
  { intros K0 HK0 Hd0. pose proof (pow2_gt0 K0 HK0).
    assert (2 ^ (Z.log2 den + 1) * 2 ^ (d - 1 + K0) <= 2 ^ Z.log2 num * 2 ^ K0).
    { rewrite <- !Z.pow_add_r by lia. apply Z.pow_le_mono_r; lia. }
    pose proof (pow2_gt0 (d - 1 + K0) Hd0). nia. }
  destruct (ge_scaled num den d) eqn:Htest; intros HK HtK.
  - split; [apply ge_scaled_spec; [lia | lia | assumption]|].
    apply Hupper; lia.
  - split; [apply Hlower; lia|].
    replace (d - 1 + 1 + K) with (d + K) by lia.
    destruct (Z_lt_le_dec (num * 2 ^ K) (den * 2 ^ (d + K))) as [Hlt | Hge];
      [assumption|].
    apply ge_scaled_spec in Hge; [congruence | lia | lia].
Qed.

Lemma floor_log2_ratio_unique num den T K :
  0 < num -> 0 < den -> 0 <= K -> 0 <= T - 1 + K ->
  den * 2 ^ (T + K) <= num * 2 ^ K < den * 2 ^ (T + 1 + K) ->
  floor_log2_ratio num den = T.
Proof.
  intros Hn Hd HK HTK HT.
  set (t := floor_log2_ratio num den).
  set (D := Z.abs t + 1). set (K' := K + D).
  assert (0 <= D /\ 0 <= K' /\ 0 <= t - 1 + K' /\ 0 <= T - 1 + K')
    as (H0 & H1 & H2 & H3) by (subst K' D; lia).
  pose proof (floor_log2_ratio_spec num den K' Hn Hd H1 H2) as Ht. fold t in Ht.
  assert (den * 2 ^ (T + K') <= num * 2 ^ K' < den * 2 ^ (T + 1 + K')) as HT'.
  { assert (2 ^ (T + K') = 2 ^ (T + K) * 2 ^ D) as ->
        by (rewrite <- Z.pow_add_r by lia; f_equal; subst K'; lia).
    assert (2 ^ (T + 1 + K') = 2 ^ (T + 1 + K) * 2 ^ D) as ->
        by (rewrite <- Z.pow_add_r by lia; f_equal; subst K'; lia).
    assert (2 ^ K' = 2 ^ K * 2 ^ D) as ->
        by (rewrite <- Z.pow_add_r by lia; reflexivity).
    pose proof (pow2_gt0 D H0). nia. }
  destruct (Z.lt_trichotomy t T) as [Hlt | [Heq | Hgt]]; [|assumption|].
  - exfalso.
    assert (2 ^ (t + 1 + K') <= 2 ^ (T + K')) by (apply Z.pow_le_mono_r; lia).
    nia.
  - exfalso.
    assert (2 ^ (T + 1 + K') <= 2 ^ (t + K')) by (apply Z.pow_le_mono_r; lia).
    nia.
Qed.

(** [scaled_round] with both sides brought to a common power of two. *)
Lemma scaled_round_spec num den e K :
  0 < den -> 0 <= K -> 0 <= e + K ->
  2 * Z.abs (num * 2 ^ K - den * 2 ^ (e + K) * scaled_round num den e)
  <= den * 2 ^ (e + K).
Proof.
  intros Hd HK HeK. unfold scaled_round.
  destruct (Z.leb_spec 0 e) as [He | He].
  - pose proof (round_half_even_bound num (den * 2 ^ e)) as H.
    pose proof (pow2_gt0 e He). pose proof (pow2_gt0 K HK).
    specialize (H ltac:(nia)).
    rewrite Z.pow_add_r by lia.
    set (q := round_half_even num (den * 2 ^ e)) in *.
    replace (num * 2 ^ K - den * (2 ^ e * 2 ^ K) * q)
      with ((num - den * 2 ^ e * q) * 2 ^ K) by ring.
    rewrite Z.abs_mul, (Z.abs_eq (2 ^ K)) by lia. nia.
  - pose proof (round_half_even_bound (num * 2 ^ (- e)) den Hd) as H.
    pose proof (pow2_gt0 (e + K) HeK).
    set (q := round_half_even (num * 2 ^ (- e)) den) in *.
    replace (2 ^ K) with (2 ^ (- e) * 2 ^ (e + K))
      by (rewrite <- Z.pow_add_r by lia; f_equal; lia).
    replace (num * (2 ^ (- e) * 2 ^ (e + K)) - den * 2 ^ (e + K) * q)
      with ((num * 2 ^ (- e) - den * q) * 2 ^ (e + K)) by ring.
    rewrite Z.abs_mul, (Z.abs_eq (2 ^ (e + K))) by lia. nia.
Qed.

Lemma scaled_round_unique num den e K q :
  0 < den -> 0 <= K -> 0 <= e + K ->
  2 * Z.abs (num * 2 ^ K - den * 2 ^ (e + K) * q) < den * 2 ^ (e + K) ->
  scaled_round num den e = q.
Proof.
  intros Hd HK HeK Hq. unfold scaled_round.
  destruct (Z.leb_spec 0 e) as [He | He].
  - pose proof (pow2_gt0 e He). pose proof (pow2_gt0 K HK).
    apply round_half_even_unique; [nia|].
    rewrite Z.pow_add_r in Hq by lia.
    replace (num * 2 ^ K - den * (2 ^ e * 2 ^ K) * q)
      with ((num - den * 2 ^ e * q) * 2 ^ K) in Hq by ring.
    rewrite Z.abs_mul, (Z.abs_eq (2 ^ K)) in Hq by lia. nia.
  - pose proof (pow2_gt0 (e + K) HeK).
    apply round_half_even_unique; [assumption|].
    replace (2 ^ K) with (2 ^ (- e) * 2 ^ (e + K)) in Hq
      by (rewrite <- Z.pow_add_r by lia; f_equal; lia).
    replace (num * (2 ^ (- e) * 2 ^ (e + K)) - den * 2 ^ (e + K) * q)
      with ((num * 2 ^ (- e) - den * q) * 2 ^ (e + K)) in Hq by ring.
    rewrite Z.abs_mul, (Z.abs_eq (2 ^ (e + K))) in Hq by lia. nia.
Qed.

(** A quotient in the binade of exponent [e1] whose scaled rounding is the
    53-bit mantissa [m] is rounded to [m * 2^e1]. *)
Lemma nearest_normal s N m e1 K :
  0 < N -> 2 ^ 52 <= Z.pos m < 2 ^ 53 -> -1074 <= e1 <= 971 ->
  0 <= K -> 0 <= e1 + K ->
  10 * 2 ^ (52 + e1 + K) <= N * 2 ^ K < 10 * 2 ^ (53 + e1 + K) ->
  scaled_round N 10 e1 = Z.pos m ->
  nearest s N 10 = S754_finite s m e1.
Proof.
  intros HN Hm He HK HeK Hexp Hround. unfold nearest.
  assert (floor_log2_ratio N 10 = 52 + e1) as ->.
  { apply floor_log2_ratio_unique with K; try lia.
    replace (52 + e1 + 1 + K) with (53 + e1 + K) by lia. exact Hexp. }
  replace (52 + e1 - 52) with e1 by lia. rewrite Z.max_l by lia.
  rewrite Hround.
  destruct (Z.eqb_spec (Z.pos m) (2 ^ 53)) as [Heq | _]; [lia|].
  destruct (Z.leb_spec e1 971); [reflexivity | lia].
Qed.

(** What a finite non-zero result of [nearest s n 10] is made of. *)
Lemma nearest_inv s n s' p e' :
  0 < n -> nearest s n 10 = S754_finite s' p e' ->
  let e := floor_log2_ratio n 10 - 52 in
  s' = s /\ -56 <= e /\ e' <= 971 /\ 2 ^ 52 <= Z.pos p < 2 ^ 53 /\
  ((e' = e /\ scaled_round n 10 e = Z.pos p) \/
   (e' = e + 1 /\ Z.pos p = 2 ^ 52 /\ scaled_round n 10 e = 2 ^ 53)).
Proof.
  intros Hn Hy. cbv zeta.
  set (t := floor_log2_ratio n 10) in *.
  set (K := Z.abs t + 60).
  assert (0 <= K /\ 0 <= t - 1 + K /\ 0 <= t - 52 + K) as (HK & HtK & HeK)
      by (subst K; lia).
  pose proof (floor_log2_ratio_spec n 10 K Hn ltac:(lia) HK HtK) as Hexp.
  fold t in Hexp.
  assert (-4 <= t) as Ht.
  { destruct (Z_le_gt_dec (-4) t) as [|Hlow]; [assumption | exfalso].
    pose proof (pow2_gt0 K HK) as HpK.
    assert (2 ^ (t + 1 + K) * 2 ^ 4 <= 2 ^ K)
      by (rewrite <- Z.pow_add_r by lia; apply Z.pow_le_mono_r; lia).
    change (2 ^ 4) with 16 in *. nia. }
  pose proof (scaled_round_spec n 10 (t - 52) K ltac:(lia) HK HeK) as Hm0.
  set (m0 := scaled_round n 10 (t - 52)) in *.
  assert (2 ^ 52 <= m0 <= 2 ^ 53) as Hrange.
  { pose proof (pow2_gt0 (t - 52 + K) HeK) as HP.
    assert (2 ^ (t + K) = 2 ^ 52 * 2 ^ (t - 52 + K)) as E1
        by (rewrite <- Z.pow_add_r by lia; f_equal; lia).
    assert (2 ^ (t + 1 + K) = 2 ^ 53 * 2 ^ (t - 52 + K)) as E2
        by (rewrite <- Z.pow_add_r by lia; f_equal; lia).
    rewrite E1, E2 in Hexp.
    change (2 ^ 52) with 4503599627370496 in *.
    change (2 ^ 53) with 9007199254740992 in *.
    set (P := 2 ^ (t - 52 + K)) in *. clearbody P m0. nia. }
  unfold nearest in Hy. fold t in Hy. rewrite Z.max_l in Hy by lia.
  fold m0 in Hy.
  destruct (Z.eqb_spec m0 (2 ^ 53)) as [Hc | Hnc].
  - cbn match in Hy. change (2 ^ 52) with (Z.pos 4503599627370496) in Hy.
    cbn match in Hy.
    destruct (Z.leb_spec (t - 52 + 1) 971); [|discriminate].
    injection Hy as <- <- <-.
    repeat split; lia.
  - destruct m0 as [|q|q]; try (exfalso; lia).
    destruct (Z.leb_spec (t - 52) 971); [|discriminate].
    injection Hy as <- <- <-.
    repeat split; lia.
Qed.

(** A binary64 integer is kept by [round(x, 1)]: ten times it, divided by
    ten, is rounded to itself. *)
Lemma nearest_of_integer s p e :
  2 ^ 52 <= Z.pos p < 2 ^ 53 -> 0 <= e <= 971 ->
  nearest s (10 * Z.pos p * 2 ^ e) 10 = S754_finite s p e.
Proof.
  intros Hp He. pose proof (pow2_gt0 e ltac:(lia)) as Hpow.
  assert (0 < 10 * Z.pos p * 2 ^ e) as Hpos by nia.
  assert (10 * 2 ^ (52 + e + 0) <= 10 * Z.pos p * 2 ^ e * 2 ^ 0
          < 10 * 2 ^ (53 + e + 0)) as Hexp.
  { rewrite !Z.add_0_r. change (2 ^ 0) with 1. rewrite Z.mul_1_r.
    rewrite !Z.pow_add_r by lia.
    change (2 ^ 52) with 4503599627370496 in *.
    change (2 ^ 53) with 9007199254740992 in *. nia. }
  assert (scaled_round (10 * Z.pos p * 2 ^ e) 10 e = Z.pos p) as Hround.
  { unfold scaled_round. destruct (Z.leb_spec 0 e); [|lia].
    apply round_half_even_unique; [nia|].
    replace (10 * Z.pos p * 2 ^ e - 10 * 2 ^ e * Z.pos p) with 0 by ring.
    change (Z.abs 0) with 0. nia. }
  apply nearest_normal with (K := 0); assumption || lia.
Qed.

(** Near the integers, where binary64 numbers are 1/2, 1/4 or 1/8 apart:
    the decimal nearest to ten times the number, divided by ten, is closer
    to the number than to any other binary64. *)
Lemma nearest_of_coarse s p k :
  2 ^ 52 <= Z.pos p < 2 ^ 53 -> 1 <= k <= 3 ->
  let n' := round_half_even (10 * Z.pos p) (2 ^ k) in
  0 < n' /\ nearest s n' 10 = S754_finite s p (- k).
Proof.
  intros Hp Hk. cbv zeta.
  assert (0 < 2 ^ k <= 8) as Hpow.
  { split; [apply pow2_gt0; lia|].
    change 8 with (2 ^ 3). apply Z.pow_le_mono_r; lia. }
  pose proof (round_half_even_bound (10 * Z.pos p) (2 ^ k) ltac:(lia)) as Hb.
  set (n' := round_half_even (10 * Z.pos p) (2 ^ k)) in *.
  change (2 ^ 52) with 4503599627370496 in *.
  change (2 ^ 53) with 9007199254740992 in *.
  assert (10 * 4503599627370496 <= 2 ^ k * n') as Hlow.
  { destruct (Z.eq_dec (Z.pos p) 4503599627370496) as [Heq | Hne].
    - assert (n' = 10 * 2 ^ (52 - k)) as ->.
      { subst n'. apply round_half_even_unique; [lia|].
        rewrite Heq.
        replace (10 * 4503599627370496 - 2 ^ k * (10 * 2 ^ (52 - k))) with 0;
          [change (Z.abs 0) with 0; lia|].
        replace (2 ^ k * (10 * 2 ^ (52 - k))) with (10 * (2 ^ k * 2 ^ (52 - k))) by ring.
        rewrite <- Z.pow_add_r by lia.
        replace (k + (52 - k)) with 52 by lia. reflexivity. }
      replace (2 ^ k * (10 * 2 ^ (52 - k))) with (10 * (2 ^ k * 2 ^ (52 - k))) by ring.
      rewrite <- Z.pow_add_r by lia.
      replace (k + (52 - k)) with 52 by lia. reflexivity.
    - lia. }
  assert (0 < n') as Hpos by nia.
  split; [assumption|].
  assert (10 * 2 ^ (52 + - k + k) <= n' * 2 ^ k < 10 * 2 ^ (53 + - k + k)) as Hexp.
  { replace (52 + - k + k) with 52 by lia. replace (53 + - k + k) with 53 by lia.
    change (2 ^ 52) with 4503599627370496.
    change (2 ^ 53) with 9007199254740992. lia. }
  assert (scaled_round n' 10 (- k) = Z.pos p) as Hround.
  { apply scaled_round_unique with (K := k); try lia.
    replace (- k + k) with 0 by lia. change (2 ^ 0) with 1. lia. }
  apply nearest_normal with (K := k); assumption || lia.
Qed.

(** Away from the integers, where binary64 numbers are at most 1/16 apart:
    the number that [nearest] yields for [n / 10] is closer to [n / 10]
    than to any other decimal with one digit. *)
Lemma nearest_of_fine s n p e' :
  0 < n -> nearest s n 10 = S754_finite s p e' -> e' <= -4 ->
  round_half_even (10 * Z.pos p) (2 ^ (- e')) = n.
Proof.
  intros Hn Hy He'.
  destruct (nearest_inv s n s p e' Hn Hy) as (_ & Hlow & _ & Hp & Hcases).
  cbv zeta in *. set (e := floor_log2_ratio n 10 - 52) in *.
  assert (16 <= 2 ^ (- e')) as Hpow
      by (change 16 with (2 ^ 4); apply Z.pow_le_mono_r; lia).
  apply round_half_even_unique; [lia|].
  destruct Hcases as [[-> Hm] | (-> & Hp52 & Hm)].
  - pose proof (scaled_round_spec n 10 e (- e) ltac:(lia) ltac:(lia) ltac:(lia)) as Hb.
    rewrite Hm in Hb. replace (e + - e) with 0 in Hb by lia.
    change (2 ^ 0) with 1 in Hb. lia.
  - pose proof (scaled_round_spec n 10 e (- e) ltac:(lia) ltac:(lia) ltac:(lia)) as Hb.
    rewrite Hm in Hb. replace (e + - e) with 0 in Hb by lia.
    change (2 ^ 0) with 1 in Hb. rewrite Hp52.
    replace (- e) with (- (e + 1) + 1) in Hb by lia.
    rewrite Z.pow_add_r in Hb by lia. change (2 ^ 1) with 2 in Hb.
    change (2 ^ 52) with 4503599627370496 in *.
    change (2 ^ 53) with 9007199254740992 in *. lia.
Qed.

(** Rounding to one decimal twice is rounding once. *)
Lemma round1_nearest s n :
  0 < n -> is_finite (nearest s n 10) = true ->
  round1 (nearest s n 10) = Return (nearest s n 10).
Proof.
  intros Hn Hfin.
  destruct (nearest s n 10) as [sz | si | | s' p e'] eqn:Hy;
    try discriminate; [reflexivity|].
  destruct (nearest_inv s n s' p e' Hn Hy) as (-> & Hlow & He' & Hp & Hcases).
  cbv zeta in Hlow, Hcases.
  unfold round1.
  destruct (Z.leb_spec 0 e') as [Hpos | Hneg].
  - assert (0 < 10 * Z.pos p * 2 ^ e') as Hn'
        by (pose proof (pow2_gt0 e' Hpos); nia).
    rewrite nearest_of_integer by lia.
    destruct (10 * Z.pos p * 2 ^ e'); try lia. reflexivity.
  - destruct (Z_le_gt_dec e' (-4)) as [Hfine | Hcoarse].
    + rewrite (nearest_of_fine s n p e' Hn Hy Hfine).
      destruct n; try lia. rewrite Hy. reflexivity.
    + destruct (nearest_of_coarse s p (- e') Hp ltac:(lia)) as [Hn' Hr].
      cbv zeta in Hr.
      replace (- - e') with e' in Hr by lia.
      destruct (round_half_even (10 * Z.pos p) (2 ^ (- e'))); try lia.
      rewrite Hr. reflexivity.
Qed.

(** [nearest] does not overflow on a quotient below 2^1022. *)
Lemma nearest_finite s n B :
  0 < n -> n <= 10 * 2 ^ B -> 0 <= B <= 1022 ->
  exists p e', nearest s n 10 = S754_finite s p e' /\
               2 ^ 52 <= Z.pos p < 2 ^ 53 /\ e' <= B - 51.
Proof.
  intros Hn HB HBr.
  set (t := floor_log2_ratio n 10).
  set (K := Z.abs t + 60).
  assert (0 <= K /\ 0 <= t - 1 + K /\ 0 <= t - 52 + K) as (HK & HtK & HeK)
      by (subst K; lia).
  pose proof (floor_log2_ratio_spec n 10 K Hn ltac:(lia) HK HtK) as Hexp.
  fold t in Hexp.
  assert (t <= B) as HtB.
  { destruct (Z_le_gt_dec t B) as [|Hbig]; [assumption | exfalso].
    pose proof (pow2_gt0 K HK).
    assert (2 ^ B * 2 ^ K < 2 ^ (t + K)).
    { rewrite <- Z.pow_add_r by lia. apply Z.pow_lt_mono_r; lia. }
    nia. }
  assert (-4 <= t) as Ht.
  { destruct (Z_le_gt_dec (-4) t) as [|Hlow]; [assumption | exfalso].
    pose proof (pow2_gt0 K HK) as HpK.
    assert (2 ^ (t + 1 + K) * 2 ^ 4 <= 2 ^ K)
      by (rewrite <- Z.pow_add_r by lia; apply Z.pow_le_mono_r; lia).
    change (2 ^ 4) with 16 in *. nia. }
  pose proof (scaled_round_spec n 10 (t - 52) K ltac:(lia) HK HeK) as Hm0.
  assert (2 ^ 52 <= scaled_round n 10 (t - 52) <= 2 ^ 53) as Hrange.
  { pose proof (pow2_gt0 (t - 52 + K) HeK) as HP.
    assert (2 ^ (t + K) = 2 ^ 52 * 2 ^ (t - 52 + K)) as E1
        by (rewrite <- Z.pow_add_r by lia; f_equal; lia).
    assert (2 ^ (t + 1 + K) = 2 ^ 53 * 2 ^ (t - 52 + K)) as E2
        by (rewrite <- Z.pow_add_r by lia; f_equal; lia).
    rewrite E1, E2 in Hexp.
    change (2 ^ 52) with 4503599627370496 in *.
    change (2 ^ 53) with 9007199254740992 in *.
    set (P := 2 ^ (t - 52 + K)) in *.
    set (m0 := scaled_round n 10 (t - 52)) in *. clearbody P m0. nia. }
  unfold nearest. fold t. rewrite Z.max_l by lia.
  set (m0 := scaled_round n 10 (t - 52)) in *.
  destruct (Z.eqb_spec m0 (2 ^ 53)) as [Hc | Hnc].
  - change (2 ^ 52) with (Z.pos 4503599627370496).
    destruct (Z.leb_spec (t - 52 + 1) 971); [|lia].
    do 2 eexists. split; [reflexivity|].
    change (2 ^ 52) with 4503599627370496.
    change (2 ^ 53) with 9007199254740992. lia.
  - destruct m0 as [|q|q]; try (exfalso; lia).
    destruct (Z.leb_spec (t - 52) 971); [|lia].
    do 2 eexists. split; [reflexivity|]. lia.
Qed.

End Nearest.

(** ** binary64: the exponent of a product and of a sum of normal numbers *)

Section FloatNormal.
Import Py.

Lemma Zdigits2_unique m d :
  0 < m -> 2 ^ (d - 1) <= m < 2 ^ d -> Zdigits2 m = d.
Proof.
  intros Hm [Hlo Hhi].
  assert (0 < d) as Hd.
  { destruct (Z_lt_le_dec 0 d) as [|Hneg]; [assumption | exfalso].
    destruct (Z.eq_dec d 0) as [-> | Hne].
    - change (2 ^ 0) with 1 in Hhi. lia.
    - rewrite (Z.pow_neg_r 2 d) in Hhi by lia. lia. }
  destruct (Zdigits2_bounds m Hm) as [Blo Bhi].
  pose proof (Zdigits2_nonneg m) as Hnn.
  assert (Zdigits2 m <= d) by (apply Zdigits2_le; lia).
  assert (2 ^ (d - 1) < 2 ^ Zdigits2 m) as Hlt by lia.
  apply Z.pow_lt_mono_r_iff in Hlt; lia.
Qed.

Lemma Zdigits2_div_pow2_eq m k :
  0 < m -> 0 <= k < Zdigits2 m -> Zdigits2 (m / 2 ^ k) = Zdigits2 m - k.
Proof.
  intros Hm Hk.
  destruct (Zdigits2_bounds m Hm) as [Blo Bhi].
  assert (0 < 2 ^ k) as Hpow by (apply Z.pow_pos_nonneg; lia).
  assert (2 ^ (Zdigits2 m - 1) = 2 ^ (Zdigits2 m - k - 1) * 2 ^ k) as E1
      by (rewrite <- Z.pow_add_r by lia; f_equal; lia).
  assert (2 ^ Zdigits2 m = 2 ^ (Zdigits2 m - k) * 2 ^ k) as E2
      by (rewrite <- Z.pow_add_r by lia; f_equal; lia).
  assert (0 < 2 ^ (Zdigits2 m - k - 1)) as Hp1 by (apply Z.pow_pos_nonneg; lia).
  assert (2 ^ (Zdigits2 m - k - 1) <= m / 2 ^ k).
  { apply Z.div_le_lower_bound; lia. }
  assert (m / 2 ^ k < 2 ^ (Zdigits2 m - k)).
  { apply Z.div_lt_upper_bound; lia. }
  apply Zdigits2_unique; lia.
Qed.

(** Rounding a mantissa of at least 53 bits whose value is in the normal
    range: the result has 53 bits, its exponent is the one that leaves 53
    bits or the next one, and it overflows to the infinity only from the
    last binade. *)
Lemma binary_round_aux_normal s mx ex lx :
  0 < mx -> 53 <= Zdigits2 mx -> -1074 <= Zdigits2 mx + ex - 53 ->
  match binary_round_aux prec emax s mx ex lx with
  | S754_finite s' m e =>
      s' = s /\ 2 ^ 52 <= Z.pos m < 2 ^ 53 /\
      Zdigits2 mx + ex - 53 <= e <= Zdigits2 mx + ex - 52 /\ e <= 971
  | S754_infinity s' => s' = s /\ 971 <= Zdigits2 mx + ex - 53
  | _ => False
  end.
Proof.
  intros Hm HD HE. unfold binary_round_aux.
  set (D := Zdigits2 mx) in *. set (E := D + ex - 53) in *.
  pose proof (shr_fexp_spec mx ex lx ltac:(lia)) as H1. cbv zeta in H1.
  destruct (shr_fexp prec emax mx ex lx) as [mrs' e'].
  set (m1 := round_nearest_even (shr_m mrs') (loc_of_shr_record mrs')).
  pose proof (round_nearest_even_bounds (shr_m mrs') (loc_of_shr_record mrs')) as Hr.
  fold m1 in Hr. rewrite fexp_eq in H1. fold D in H1.
  assert (e' = E /\ Zdigits2 (shr_m mrs') = 53 /\ 0 <= shr_m mrs') as (-> & Hd' & Hnn).
  { destruct H1 as [(Ht & -> & Hs) | (Ht & -> & Hs)].
    - rewrite Hs. fold D. subst E. lia.
    - split; [subst E; lia|]. rewrite Hs.
      replace (Z.max (D + ex - 53) (-1074) - ex) with (D - 53) by lia.
      split; [subst D; rewrite Zdigits2_div_pow2_eq; lia|].
      apply Z.div_pos; [lia | apply Z.pow_pos_nonneg; lia]. }
  assert (0 < shr_m mrs') as Hpos'.
  { destruct (shr_m mrs') as [|q|q]; cbn [Zdigits2] in Hd'; lia. }
  destruct (Zdigits2_bounds (shr_m mrs') Hpos') as [Blo Bhi].
  rewrite Hd' in Blo, Bhi. change (53 - 1) with 52 in Blo.
  assert (2 ^ 52 <= m1 <= 2 ^ 53) as Hm1 by lia.
  pose proof (shr_fexp_spec m1 E loc_Exact ltac:(lia)) as H2. cbv zeta in H2.
  destruct (shr_fexp prec emax m1 E loc_Exact) as [mrs'' e''].
  rewrite fexp_eq in H2.
  destruct (Z.eq_dec m1 (2 ^ 53)) as [Htop | Hnot].
  - rewrite Htop in H2. change (Zdigits2 (2 ^ 53)) with 54 in H2.
    destruct H2 as [(Ht & _) | (_ & -> & Hs)]; [lia|].
    replace (Z.max (54 + E - 53) (-1074) - E) with 1 in Hs by lia.
    change (2 ^ 53 / 2 ^ 1) with 4503599627370496 in Hs. rewrite Hs.
    change (emax - prec) with 971.
    destruct (Z.leb_spec (Z.max (54 + E - 53) (-1074)) 971).
    + change (2 ^ 52) with 4503599627370496.
      change (2 ^ 53) with 9007199254740992. repeat split; lia.
    + split; [reflexivity | lia].
  - assert (Zdigits2 m1 = 53) as Hd1 by (apply Zdigits2_unique; lia).
    rewrite Hd1 in H2.
    destruct H2 as [(_ & -> & Hs) | (Ht & _)]; [|lia].
    rewrite Hs. destruct m1 as [|q|q]; try lia.
    change (emax - prec) with 971.
    destruct (Z.leb_spec E 971).
    + repeat split; lia.
    + split; [reflexivity | lia].
Qed.

Lemma shl_align_min m e e' :
  let '(mz, ez) := shl_align m e e' in
  ez = Z.min e e' /\ Z.pos (digits2_pos mz) + ez = Z.pos (digits2_pos m) + e.
Proof.
  unfold shl_align. destruct (e' - e) as [|p|p] eqn:Hd; try lia.
  rewrite digits2_pos_iter_xO. lia.
Qed.

(** Rounding any positive mantissa whose value is in the normal range. *)
Lemma binary_round_normal s m e :
  -1074 <= Z.pos (digits2_pos m) + e - 53 ->
  match binary_round prec emax s m e with
  | S754_finite s' m' e' =>
      s' = s /\ 2 ^ 52 <= Z.pos m' < 2 ^ 53 /\
      Z.pos (digits2_pos m) + e - 53 <= e' <= Z.pos (digits2_pos m) + e - 52 /\
      e' <= 971
  | S754_infinity s' => s' = s /\ 971 <= Z.pos (digits2_pos m) + e - 53
  | _ => False
  end.
Proof.
  intros HE. unfold binary_round.
  pose proof (shl_align_min m e (fexp prec emax (Z.pos (digits2_pos m) + e))) as H.
  destruct (shl_align m e _) as [mz ez]. rewrite fexp_eq in H.
  destruct H as [Hez Hsum].
  pose proof (binary_round_aux_normal s (Z.pos mz) ez loc_Exact) as Hr.
  cbn [Zdigits2] in Hr. rewrite Hsum in Hr.
  apply Hr; lia.
Qed.

(** The product of two positive normal numbers. *)
Lemma fmul_normal m1 e1 m2 e2 :
  2 ^ 52 <= Z.pos m1 < 2 ^ 53 -> 2 ^ 52 <= Z.pos m2 < 2 ^ 53 ->
  -1074 <= e1 + e2 + 52 ->
  match fmul (S754_finite false m1 e1) (S754_finite false m2 e2) with
  | S754_finite false m e =>
      2 ^ 52 <= Z.pos m < 2 ^ 53 /\ e1 + e2 + 52 <= e <= e1 + e2 + 54 /\ e <= 971
  | S754_infinity false => 971 <= e1 + e2 + 53
  | _ => False
  end.
Proof.
  intros H1 H2 HE. unfold fmul, SFmul. cbn [xorb].
  assert (2 ^ 104 <= Z.pos m1 * Z.pos m2 < 2 ^ 106) as Hprod.
  { change (2 ^ 104) with (2 ^ 52 * 2 ^ 52). change (2 ^ 106) with (2 ^ 53 * 2 ^ 53).
    change (2 ^ 52) with 4503599627370496 in *.
    change (2 ^ 53) with 9007199254740992 in *. nia. }
  change (Z.pos (m1 * m2)) with (Z.pos m1 * Z.pos m2).
  assert (105 <= Zdigits2 (Z.pos m1 * Z.pos m2) <= 106) as HD.
  { destruct (Z_lt_le_dec (Z.pos m1 * Z.pos m2) (2 ^ 105)) as [Hlow | Hhigh].
    - rewrite (Zdigits2_unique _ 105); [lia | lia |].
      change (105 - 1) with 104. lia.
    - rewrite (Zdigits2_unique _ 106); [lia | lia |].
      change (106 - 1) with 105. lia. }
  pose proof (binary_round_aux_normal false (Z.pos m1 * Z.pos m2) (e1 + e2) loc_Exact
                ltac:(lia) ltac:(lia) ltac:(lia)) as Hr.
  destruct (binary_round_aux prec emax false (Z.pos m1 * Z.pos m2) (e1 + e2) loc_Exact)
    as [sz | si | | sf m e]; try contradiction.
  - destruct Hr as [-> Hr]. lia.
  - destruct Hr as (-> & Hm & He & Hmax). repeat split; lia.
Qed.

Lemma fmul_normal_normal lo1 hi1 lo2 hi2 x y :
  spec.normal_between lo1 hi1 x -> spec.normal_between lo2 hi2 y ->
  -1074 <= lo1 + lo2 + 52 -> hi1 + hi2 + 54 <= 971 ->
  spec.normal_between (lo1 + lo2 + 52) (hi1 + hi2 + 54) (fmul x y).
Proof.
  intros Hx Hy Hlo Hhi.
  destruct x as [[] | [] | | [] m1 e1]; try contradiction.
  destruct y as [[] | [] | | [] m2 e2]; try contradiction.
  destruct Hx as [Hm1 He1], Hy as [Hm2 He2].
  pose proof (fmul_normal m1 e1 m2 e2 Hm1 Hm2 ltac:(lia)) as H.
  destruct (fmul (S754_finite false m1 e1) (S754_finite false m2 e2))
    as [[] | [] | | [] m e]; try contradiction; cbn [spec.normal_between]; lia.
Qed.

Lemma fmul_nonneg_normal lo1 lo2 hi2 x y :
  spec.nonneg_from lo1 x -> spec.normal_between lo2 hi2 y ->
  -1074 <= lo1 + lo2 + 52 ->
  spec.nonneg_from (lo1 + lo2 + 52) (fmul x y).
Proof.
  intros Hx Hy Hlo.
  destruct y as [[] | [] | | [] m2 e2]; try contradiction.
  destruct Hy as [Hm2 He2].
  destruct x as [[] | [] | | [] m1 e1]; try contradiction;
    [exact I | exact I |].
  destruct Hx as [Hm1 He1].
  pose proof (fmul_normal m1 e1 m2 e2 Hm1 Hm2 ltac:(lia)) as H.
  destruct (fmul (S754_finite false m1 e1) (S754_finite false m2 e2))
    as [[] | [] | | [] m e]; try contradiction; cbn [spec.nonneg_from];
    [exact I | lia].
Qed.

Lemma fmul_normal_nonneg lo1 hi1 lo2 x y :
  spec.normal_between lo1 hi1 x -> spec.nonneg_from lo2 y ->
  -1074 <= lo1 + lo2 + 52 ->
  spec.nonneg_from (lo1 + lo2 + 52) (fmul x y).
Proof.
  intros Hx Hy Hlo.
  destruct x as [[] | [] | | [] m1 e1]; try contradiction.
  destruct Hx as [Hm1 He1].
  destruct y as [[] | [] | | [] m2 e2]; try contradiction;
    [exact I | exact I |].
  destruct Hy as [Hm2 He2].
  pose proof (fmul_normal m1 e1 m2 e2 Hm1 Hm2 ltac:(lia)) as H.
  destruct (fmul (S754_finite false m1 e1) (S754_finite false m2 e2))
    as [[] | [] | | [] m e]; try contradiction; cbn [spec.nonneg_from];
    [exact I | lia].
Qed.

Lemma normal_between_weaken lo hi lo' hi' x :
  spec.normal_between lo hi x -> lo' <= lo -> hi <= hi' ->
  spec.normal_between lo' hi' x.
Proof.
  destruct x as [[] | [] | | [] m e]; cbn [spec.normal_between]; try tauto. lia.
Qed.

Lemma nonneg_from_weaken lo lo' x :
  spec.nonneg_from lo x -> lo' <= lo -> spec.nonneg_from lo' x.
Proof.
  destruct x as [[] | [] | | [] m e]; cbn [spec.nonneg_from]; try tauto. lia.
Qed.

(** A non-negative number is at least zero. *)
Lemma nonneg_from_fge lo x :
  spec.nonneg_from lo x -> fge x (S754_zero false) = true.
Proof.
  destruct x as [[] | [] | | [] m e]; cbn [spec.nonneg_from];
    try contradiction; reflexivity.
Qed.

(** The float of a positive int. *)
Lemma float_of_int_normal n :
  0 < n ->
  match float_of_int n with
  | S754_finite false m e =>
      2 ^ 52 <= Z.pos m < 2 ^ 53 /\
      Zdigits2 n - 53 <= e <= Zdigits2 n - 52 /\ e <= 971
  | S754_infinity false => 971 <= Zdigits2 n - 53
  | _ => False
  end.
Proof.
  intros Hn. destruct n as [|p|p]; try lia.
  unfold float_of_int, binary_normalize. cbn [Zdigits2].
  pose proof (binary_round_normal false p 0 ltac:(lia)) as H.
  rewrite Z.add_0_r in H.
  destruct (binary_round prec emax false p 0) as [sz | si | | sf m e];
    try contradiction.
  - destruct H as [-> H]. exact H.
  - destruct H as (-> & H). exact H.
Qed.

(** [float(n)] for a count that float can hold. *)
Lemma to_float_nonneg n :
  0 <= n -> is_finite (float_of_int n) = true ->
  exists x, to_float n = Return x /\ spec.nonneg_from (-52) x.
Proof.
  intros Hn Hfin. unfold to_float. rewrite Hfin.
  exists (float_of_int n). split; [reflexivity|].
  destruct (Z.eq_dec n 0) as [-> | Hne]; [exact I|].
  pose proof (float_of_int_normal n ltac:(lia)) as H.
  assert (1 <= Zdigits2 n).
  { destruct n as [|p|p]; try lia. cbn [Zdigits2]. lia. }
  destruct (float_of_int n) as [[] | [] | | [] m e]; try contradiction;
    cbn [spec.nonneg_from]; [exact I | lia].
Qed.

(** [float(n)] for the length of a non-empty list. *)
Lemma to_float_normal n :
  1 <= n <= maxsize ->
  exists x, to_float n = Return x /\ spec.normal_between (-52) 11 x.
Proof.
  intros Hn. unfold to_float.
  pose proof (float_of_int_normal n ltac:(lia)) as H.
  assert (1 <= Zdigits2 n <= 63) as Hd.
  { split.
    - destruct n as [|p|p]; try lia. cbn [Zdigits2]. lia.
    - apply Zdigits2_le; [lia | lia |]. unfold maxsize in Hn. lia. }
  destruct (float_of_int n) as [[] | [] | | [] m e]; try contradiction;
    [lia|].
  cbn [is_finite]. eexists. split; [reflexivity|].
  cbn [spec.normal_between]. lia.
Qed.

Lemma Zdigits2_shl_align m e ez :
  ez <= e ->
  Zdigits2 (Z.pos (fst (shl_align m e ez))) = Z.pos (digits2_pos m) + e - ez.
Proof.
  intros Hez. pose proof (shl_align_min m e ez) as H.
  destruct (shl_align m e ez) as [mz ez']. cbn [fst Zdigits2]. lia.
Qed.

(** The sum of two positive normal numbers. *)
Lemma fadd_normal_normal lo1 hi1 lo2 hi2 x y :
  spec.normal_between lo1 hi1 x -> spec.normal_between lo2 hi2 y ->
  -1074 <= Z.max lo1 lo2 -> Z.max hi1 hi2 + 2 <= 971 ->
  spec.normal_between (Z.max lo1 lo2) (Z.max hi1 hi2 + 2) (fadd x y).
Proof.
  intros Hx Hy Hlo Hhi.
  destruct x as [[] | [] | | [] m1 e1]; try contradiction.
  destruct y as [[] | [] | | [] m2 e2]; try contradiction.
  destruct Hx as [Hm1 He1], Hy as [Hm2 He2].
  unfold fadd, SFadd. cbn [cond_Zopp].
  set (ez := Z.min e1 e2).
  pose proof (Zdigits2_shl_align m1 e1 ez ltac:(lia)) as Hd1.
  pose proof (Zdigits2_shl_align m2 e2 ez ltac:(lia)) as Hd2.
  set (a := fst (shl_align m1 e1 ez)) in *.
  set (b := fst (shl_align m2 e2 ez)) in *.
  assert (Z.pos (digits2_pos m1) = 53) as D1
      by (apply (Zdigits2_unique (Z.pos m1) 53); [lia | exact Hm1]).
  assert (Z.pos (digits2_pos m2) = 53) as D2
      by (apply (Zdigits2_unique (Z.pos m2) 53); [lia | exact Hm2]).
  rewrite D1 in Hd1. rewrite D2 in Hd2.
  destruct (Zdigits2_bounds (Z.pos a) ltac:(lia)) as [Alo Ahi].
  destruct (Zdigits2_bounds (Z.pos b) ltac:(lia)) as [Blo Bhi].
  rewrite Hd1 in Alo, Ahi. rewrite Hd2 in Blo, Bhi.
  set (M := Z.max e1 e2) in *.
  assert (53 + M - ez <= Zdigits2 (Z.pos a + Z.pos b) <= 54 + M - ez) as HD.
  { split.
    - destruct (Z_le_gt_dec e1 e2).
      + pose proof (Zdigits2_mono (Z.pos b) (Z.pos a + Z.pos b) ltac:(lia)). lia.
      + pose proof (Zdigits2_mono (Z.pos a) (Z.pos a + Z.pos b) ltac:(lia)). lia.
    - apply Zdigits2_le; [lia | lia |].
      assert (2 ^ (53 + e1 - ez) <= 2 ^ (53 + M - ez))
        by (apply Z.pow_le_mono_r; lia).
      assert (2 ^ (53 + e2 - ez) <= 2 ^ (53 + M - ez))
        by (apply Z.pow_le_mono_r; lia).
      replace (54 + M - ez) with (1 + (53 + M - ez)) by lia.
      rewrite Z.pow_add_r by lia. change (2 ^ 1) with 2. lia. }
  change (Z.pos a + Z.pos b) with (Z.pos (a + b)) in *.
  cbn [binary_normalize]. cbn [Zdigits2] in HD.
  pose proof (binary_round_normal false (a + b) ez ltac:(lia)) as H.
  destruct (binary_round prec emax false (a + b) ez) as [s0 | s0 | | s0 m e];
    try contradiction.
  - destruct H as [-> H]. lia.
  - destruct H as (-> & Hm & He & Hmax). cbn [spec.normal_between]. lia.
Qed.

(** [round(x, 1)] keeps a binary64 integer. *)
Lemma round1_integer s m e :
  2 ^ 52 <= Z.pos m < 2 ^ 53 -> 0 <= e <= 971 ->
  round1 (S754_finite s m e) = Return (S754_finite s m e).
Proof.
  intros Hm He. unfold round1.
  destruct (Z.leb_spec 0 e); [|lia].
  assert (0 < 10 * Z.pos m * 2 ^ e) as Hn
      by (pose proof (pow2_gt0 e ltac:(lia)); nia).
  rewrite nearest_of_integer by lia.
  destruct (10 * Z.pos m * 2 ^ e); try lia. reflexivity.
Qed.

(** [round(x, 1)] of a non-negative number returns a non-negative number
    that rounds to itself. *)
Lemma round1_nonneg lo x :
  spec.nonneg_from lo x ->
  exists v, round1 x = Return v /\ spec.nonneg_from (Z.min lo (-56)) v /\
            round1 v = Return v.
Proof.
  intros Hx.
  destruct x as [[] | [] | | [] m e]; try contradiction.
  - exists (S754_zero false). repeat split.
  - exists (S754_infinity false). repeat split.
  - destruct Hx as [Hm He].
    destruct (Z_le_gt_dec 0 e) as [Hpos | Hneg].
    + exists (S754_finite false m e).
      rewrite round1_integer by lia.
      split; [reflexivity|]. split; [|reflexivity].
      cbn [spec.nonneg_from]. lia.
    + unfold round1 at 1. destruct (Z.leb_spec 0 e); [lia|].
      assert (2 <= 2 ^ (- e)) as Hpow
          by (change 2 with (2 ^ 1) at 1; apply Z.pow_le_mono_r; lia).
      pose proof (round_half_even_bound (10 * Z.pos m) (2 ^ (- e)) ltac:(lia)) as Hb.
      set (n := round_half_even (10 * Z.pos m) (2 ^ (- e))) in *.
      assert (0 <= n <= 10 * 2 ^ 53) as Hn.
      { change (2 ^ 53) with 9007199254740992 in *. nia. }
      destruct (Z.eq_dec n 0) as [Hz | Hnz].
      * rewrite Hz. exists (S754_zero false). repeat split.
      * destruct (nearest_finite false n 53 ltac:(lia) ltac:(lia) ltac:(lia))
          as (p & e' & Hr & Hp & He').
        destruct (nearest_inv false n false p e' ltac:(lia) Hr)
          as (_ & Hlow & _ & _ & Hcases).
        cbv zeta in Hlow, Hcases.
        pose proof (round1_nearest false n ltac:(lia)) as Hidem.
        rewrite Hr in Hidem. specialize (Hidem eq_refl).
        exists (S754_finite false p e').
        destruct n as [|q|q]; try lia.
        rewrite Hr. cbn [is_finite].
        split; [reflexivity|]. split; [|exact Hidem].
        cbn [spec.nonneg_from]. lia.
Qed.

End FloatNormal.
(** ** binary64: products and roundings of numbers that are not negative *)

Section FloatNonneg.
Import Py.

(** The mantissa and the exponent of a binary64 number: 53 bits from
    exponent -1074 to 971, or fewer bits at exponent -1074. *)
Lemma bounded_spec m e :
  bounded prec emax m e = true <->
  Z.pos m < 2 ^ 53 /\ -1074 <= e <= 971 /\ (2 ^ 52 <= Z.pos m \/ e = -1074).
Proof.
  unfold bounded, canonical_mantissa.
  rewrite andb_true_iff, Z.eqb_eq, Z.leb_le, fexp_eq.
  change (emax - prec) with 971.
  destruct (Zdigits2_bounds (Z.pos m) ltac:(lia)) as [Blo Bhi].
  cbn [Zdigits2] in Blo, Bhi. set (d := Z.pos (digits2_pos m)) in *.
  assert (1 <= d) as Hd by (subst d; lia).
  split.
  - intros [Hc He].
    destruct (Z_le_gt_dec (-1074) (d + e - 53)) as [Hn | Hs].
    + assert (d = 53) as E by lia. rewrite E in Blo, Bhi.
      change (53 - 1) with 52 in Blo. lia.
    + assert (2 ^ d <= 2 ^ 52) by (apply Z.pow_le_mono_r; lia).
      assert (2 ^ 52 < 2 ^ 53) by (apply Z.pow_lt_mono_r; lia). lia.
  - intros (Hm & He & [Hn | Hs]).
    + assert (d = 53) as E.
      { pose proof (Zdigits2_unique (Z.pos m) 53 ltac:(lia)) as H.
        cbn [Zdigits2] in H. apply H. change (53 - 1) with 52. lia. }
      lia.
    + assert (d <= 53).
      { pose proof (Zdigits2_le (Z.pos m) 53 ltac:(lia) ltac:(lia) Hm) as H.
        cbn [Zdigits2] in H. exact H. }
      lia.
Qed.

(** Rounding a positive mantissa that has 53 bits or more, or one with an
    exponent below the least one: the result is a binary64 number, a zero
    or the infinity. *)
Lemma binary_round_aux_number mx ex lx :
  0 < mx -> 53 <= Zdigits2 mx \/ ex <= -1074 ->
  spec.nonneg_number (binary_round_aux prec emax false mx ex lx).
Proof.
  intros Hm Hc. unfold binary_round_aux.
  set (D := Zdigits2 mx) in *.
  pose proof (shr_fexp_spec mx ex lx ltac:(lia)) as H1. cbv zeta in H1.
  destruct (shr_fexp prec emax mx ex lx) as [mrs' e'].
  set (m1 := round_nearest_even (shr_m mrs') (loc_of_shr_record mrs')).
  pose proof (round_nearest_even_bounds (shr_m mrs') (loc_of_shr_record mrs')) as Hr.
  fold m1 in Hr. rewrite fexp_eq in H1. fold D in H1.
  set (T := Z.max (D + ex - 53) (-1074)) in *.
  assert (e' = T /\ shr_m mrs' = mx / 2 ^ (T - ex) /\ ex <= T) as (-> & Hs & HT).
  { destruct H1 as [(Ht & -> & Hs) | (Ht & -> & Hs)].
    - assert (T = ex) as E by lia. split; [lia|]. split; [|lia].
      rewrite Hs, E, Z.sub_diag. change (2 ^ 0) with 1. now rewrite Z.div_1_r.
    - split; [reflexivity|]. split; [exact Hs | lia]. }
  set (m' := shr_m mrs') in *.
  destruct (Zdigits2_bounds mx Hm) as [Blo Bhi]. fold D in Blo, Bhi.
  assert (1 <= D) as HD.
  { subst D. destruct mx as [|q|q]; try lia. cbn [Zdigits2]. lia. }
  assert (0 < 2 ^ (T - ex)) as Hpow by (apply Z.pow_pos_nonneg; lia).
  assert (0 <= m' < 2 ^ 53) as Hm'.
  { rewrite Hs. split; [apply Z.div_pos; lia|].
    apply Z.div_lt_upper_bound; [lia|].
    rewrite <- Z.pow_add_r by lia.
    assert (2 ^ D <= 2 ^ (T - ex + 53)) by (apply Z.pow_le_mono_r; lia). lia. }
  assert (-1074 < T -> 2 ^ 52 <= m') as Hnormal.
  { intros Hlow. rewrite Hs. apply Z.div_le_lower_bound; [lia|].
    rewrite <- Z.pow_add_r by lia.
    replace (T - ex + 52) with (D - 1) by lia. lia. }
  assert (-1074 <= T) as Hmin by lia.
  clearbody T m'. clear Hs H1 Hc Blo Bhi.
  pose proof (shr_fexp_spec m1 T loc_Exact ltac:(lia)) as H2. cbv zeta in H2.
  destruct (shr_fexp prec emax m1 T loc_Exact) as [mrs'' e''].
  rewrite fexp_eq in H2. change (emax - prec) with 971.
  destruct (Z.eq_dec m1 (2 ^ 53)) as [Htop | Hnot].
  - rewrite Htop in H2. change (Zdigits2 (2 ^ 53)) with 54 in H2.
    destruct H2 as [(Ht & _) | (_ & -> & Hs)]; [lia|].
    replace (Z.max (54 + T - 53) (-1074) - T) with 1 in Hs by lia.
    change (2 ^ 53 / 2 ^ 1) with 4503599627370496 in Hs. rewrite Hs.
    destruct (Z.leb_spec (Z.max (54 + T - 53) (-1074)) 971); [|exact I].
    cbn [spec.nonneg_number]. apply bounded_spec.
    change (2 ^ 52) with 4503599627370496.
    change (2 ^ 53) with 9007199254740992. lia.
  - assert (Zdigits2 m1 <= 53) as Hd1 by (apply Zdigits2_le; lia).
    destruct H2 as [(_ & -> & Hs) | (Ht & _)]; [|lia].
    rewrite Hs. destruct m1 as [|q|q]; try lia; [exact I|].
    destruct (Z.leb_spec T 971); [|exact I].
    cbn [spec.nonneg_number]. apply bounded_spec.
    split; [lia|]. split; [lia|].
    destruct (Z.eq_dec T (-1074)); [now right | left]. lia.
Qed.

Lemma Zdigits2_product a b :
  2 ^ 52 <= a -> 0 < b -> 53 <= Zdigits2 (a * b).
Proof.
  intros Ha Hb.
  assert (0 < 2 ^ 52) by (apply Z.pow_pos_nonneg; lia).
  pose proof (Zdigits2_mono (2 ^ 52) (a * b) ltac:(nia)) as Hd.
  change (Zdigits2 (2 ^ 52)) with 53 in Hd. exact Hd.
Qed.

(** The product of a number that is not negative and a positive one. *)
Lemma fmul_nonneg_positive x y :
  spec.nonneg_number x -> spec.positive_number y -> spec.nonneg_number (fmul x y).
Proof.
  intros Hx Hy.
  destruct y as [[] | [] | | [] m2 e2]; try contradiction.
  destruct x as [s | [] | | [] m1 e1]; try contradiction; [exact I | exact I |].
  cbn [spec.nonneg_number spec.positive_number] in Hx, Hy.
  apply bounded_spec in Hx, Hy.
  unfold fmul, SFmul. cbn [xorb].
  change (Z.pos (m1 * m2)) with (Z.pos m1 * Z.pos m2).
  apply binary_round_aux_number; [lia|].
  destruct Hx as (_ & He1 & [Hn1 | Hs1]).
  - left. apply Zdigits2_product; lia.
  - destruct Hy as (_ & He2 & [Hn2 | Hs2]).
    + left. rewrite Z.mul_comm. apply Zdigits2_product; lia.
    + right. lia.
Qed.

(** The product of a multiplier and the float of a count. *)
Lemma fmul_finite_count multiplier x :
  spec.finite_nonneg multiplier -> spec.nonneg_from (-52) x -> is_finite x = true ->
  spec.nonneg_number (fmul multiplier x).
Proof.
  intros [Hfin Hge] Hx Hxf.
  destruct x as [[] | [] | | [] m2 e2]; try contradiction; try discriminate;
    destruct multiplier as [s | s | | [] m1 e1]; try discriminate; try exact I.
  destruct Hx as [Hm2 _].
  unfold fmul, SFmul. cbn [xorb].
  change (Z.pos (m1 * m2)) with (Z.pos m1 * Z.pos m2).
  apply binary_round_aux_number; [lia|].
  left. rewrite Z.mul_comm. apply Zdigits2_product; lia.
Qed.

Lemma normal_positive lo hi x :
  spec.normal_between lo hi x -> -1074 <= lo -> hi <= 971 -> spec.positive_number x.
Proof.
  destruct x as [[] | [] | | [] m e]; cbn [spec.normal_between]; try tauto.
  intros [Hm He] Hlo Hhi. cbn [spec.positive_number]. apply bounded_spec. lia.
Qed.

Lemma nonneg_number_fge x :
  spec.nonneg_number x -> fge x (S754_zero false) = true.
Proof.
  destruct x as [[] | [] | | [] m e]; cbn [spec.nonneg_number];
    try contradiction; reflexivity.
Qed.

(** [round(x, 1)] of a number that is not negative returns such a number,
    one that rounds to itself; a subnormal number rounds to zero. *)
Lemma round1_number x :
  spec.nonneg_number x ->
  exists v, round1 x = Return v /\ spec.nonneg_number v /\ round1 v = Return v.
Proof.
  intros Hx.
  destruct x as [s | [] | | [] m e]; try contradiction.
  - exists (S754_zero s). repeat split.
  - exists (S754_infinity false). repeat split.
  - cbn [spec.nonneg_number] in Hx. pose proof Hx as Hb.
    apply bounded_spec in Hx. destruct Hx as (Hm & He & Hc).
    destruct (Z_le_gt_dec 0 e) as [Hpos | Hneg].
    + exists (S754_finite false m e).
      rewrite round1_integer by lia.
      split; [reflexivity|]. split; [exact Hb | reflexivity].
    + unfold round1 at 1. destruct (Z.leb_spec 0 e); [lia|].
      assert (2 <= 2 ^ (- e)) as Hpow
          by (change 2 with (2 ^ 1) at 1; apply Z.pow_le_mono_r; lia).
      pose proof (round_half_even_bound (10 * Z.pos m) (2 ^ (- e)) ltac:(lia)) as Hrb.
      set (n := round_half_even (10 * Z.pos m) (2 ^ (- e))) in *.
      assert (0 <= n <= 10 * 2 ^ 53) as Hn.
      { change (2 ^ 53) with 9007199254740992 in *. nia. }
      destruct (Z.eq_dec n 0) as [Hz | Hnz].
      * rewrite Hz. exists (S754_zero false). repeat split.
      * destruct (nearest_finite false n 53 ltac:(lia) ltac:(lia) ltac:(lia))
          as (p & e' & Hr & Hp & He').
        destruct (nearest_inv false n false p e' ltac:(lia) Hr)
          as (_ & Hlow & _ & _ & Hcases).
        cbv zeta in Hlow, Hcases.
        pose proof (round1_nearest false n ltac:(lia)) as Hidem.
        rewrite Hr in Hidem. specialize (Hidem eq_refl).
        exists (S754_finite false p e').
        destruct n as [|q|q]; try lia.
        rewrite Hr. cbn [is_finite].
        split; [reflexivity|]. split; [|exact Hidem].
        cbn [spec.nonneg_number]. apply bounded_spec. lia.
Qed.

End FloatNonneg.


(** ** Dates *)

Section Dates.
Import Py.

Lemma days_before_year_bounds y :
  1 <= y <= 9999 ->
  0 <= days_before_year y /\
  days_before_year y + 365 + (if is_leap y then 1 else 0) <= MAXORDINAL.
Proof.
  intros Hy. unfold days_before_year, MAXORDINAL. cbv zeta.
  destruct (Z.eq_dec y 9999) as [-> | Hne]; [cbn; lia|].
  split; [Z.div_mod_to_equations; lia|].
  destruct (is_leap y); Z.div_mod_to_equations; lia.
Qed.

Ltac month_case :=
  repeat match goal with
         | |- context [Z.to_nat ?k] =>
             let v := eval vm_compute in (Z.to_nat k) in
             change (Z.to_nat k) with v
         end;
  cbn [nth Z.eqb Pos.eqb Z.ltb Z.compare Pos.compare Pos.compare_cont andb];
  lia.

Lemma days_before_month_bounds y m d :
  1 <= m <= 12 -> 1 <= d <= days_in_month y m ->
  1 <= days_before_month y m + d <= 365 + (if is_leap y then 1 else 0).
Proof.
  intros Hm. unfold days_before_month, days_in_month.
  assert (m = 1 \/ m = 2 \/ m = 3 \/ m = 4 \/ m = 5 \/ m = 6 \/
          m = 7 \/ m = 8 \/ m = 9 \/ m = 10 \/ m = 11 \/ m = 12) as Hcases by lia.
  unfold DAYS_BEFORE_MONTH, DAYS_IN_MONTH.
  destruct (is_leap y).
  all: do 11 (destruct Hcases as [Hc | Hcases]; [subst m; month_case|]).
  all: subst m; month_case.
Qed.

Lemma toordinal_range d :
  valid_datetime d = true -> 1 <= toordinal d <= MAXORDINAL.
Proof.
  unfold valid_datetime, MINYEAR, MAXYEAR. rewrite !andb_true_iff, !Z.leb_le.
  intros H. unfold toordinal, ymd2ord.
  pose proof (days_before_year_bounds (year d)).
  pose proof (days_before_month_bounds (year d) (month d) (day d)).
  lia.
Qed.

Lemma weekday_range d : 1 <= toordinal d -> 0 <= weekday d <= toordinal d - 1.
Proof. unfold weekday. intros H. Z.div_mod_to_equations. lia. Qed.

Lemma week_key_returns d :
  valid_datetime d = true -> exists k, git_analyzer.week_key d = Return k.
Proof.
  intros Hv. apply toordinal_range in Hv.
  pose proof (weekday_range d) as Hw.
  unfold git_analyzer.week_key, minus_days.
  assert ((1 <=? toordinal d - weekday d) &&
          (toordinal d - weekday d <=? MAXORDINAL) = true) as ->
      by (rewrite andb_true_iff, !Z.leb_le; lia).
  destruct (ord2ymd _) as [[y m] dd]. eexists. reflexivity.
Qed.

End Dates.

(** ** The commit classifier (git_analyzer._analyze_commit_patterns) *)

Section CommitPatterns.
Import Py git_analyzer.
Variable self : config.AnalysisConfig.

Lemma len_cons {A : Type} (x : A) (l : list A) : len (x :: l) = len l + 1.
Proof. unfold len. cbn [List.length]. lia. Qed.

Lemma len_nonneg {A : Type} (l : list A) : 0 <= len l.
Proof. unfold len. lia. Qed.

Lemma count_kind_cons k c l :
  spec.count_kind (config.git self) k (c :: l) =
  spec.count_kind (config.git self) k l +
  (if spec.commit_kind_eqb (spec.classify (config.git self) c) k then 1 else 0).
Proof.
  unfold spec.count_kind. cbn [filter].
  destruct (spec.commit_kind_eqb _ k); rewrite ?len_cons; lia.
Qed.

(** The counters after the loop are the counters before it plus the number
    of commits of each kind. *)
Lemma count_commit_fold commits acc :
  let final := fold_left (count_commit (config.git self)) commits acc in
  n_feature final =
    n_feature acc + spec.count_kind (config.git self) spec.Feature_commit commits /\
  n_bug_fix final =
    n_bug_fix acc + spec.count_kind (config.git self) spec.Bug_fix_commit commits /\
  n_refactor final =
    n_refactor acc + spec.count_kind (config.git self) spec.Refactor_commit commits /\
  n_documentation final =
    n_documentation acc
    + spec.count_kind (config.git self) spec.Documentation_commit commits.
Proof.
  revert acc. induction commits as [|c l IH]; intros acc; cbv zeta.
  - unfold spec.count_kind, len. cbn. lia.
  - cbn [fold_left]. specialize (IH (count_commit (config.git self) acc c)).
    cbv zeta in IH. destruct IH as (IH1 & IH2 & IH3 & IH4).
    rewrite IH1, IH2, IH3, IH4, !count_kind_cons.
    unfold count_commit, spec.classify.
    destruct (any_in (config.FEATURE_PATTERNS _) _);
      [|destruct (any_in (config.BUG_FIX_PATTERNS _) _);
        [|destruct (any_in (config.REFACTOR_PATTERNS _) _);
          [|destruct (any_in (config.DOCUMENTATION_PATTERNS _) _)]]];
      destruct (is_merge c); cbn; lia.
Qed.

(** Every commit is of exactly one kind. *)
Lemma count_kind_partition commits :
  spec.count_kind (config.git self) spec.Feature_commit commits
  + spec.count_kind (config.git self) spec.Bug_fix_commit commits
  + spec.count_kind (config.git self) spec.Refactor_commit commits
  + spec.count_kind (config.git self) spec.Documentation_commit commits
  + spec.count_kind (config.git self) spec.Other_commit commits
  = len commits.
Proof.
  induction commits as [|c l IH].
  - reflexivity.
  - rewrite !count_kind_cons, len_cons.
    destruct (spec.classify (config.git self) c); cbn; lia.
Qed.

Lemma str_in_In x l : str_in x l = true <-> In x l.
Proof.
  unfold str_in. rewrite existsb_exists. split.
  - intros (y & Hy & Heq). apply String.eqb_eq in Heq. now subst.
  - intros H. exists x. split; [assumption | apply String.eqb_refl].
Qed.

Lemma incr_keys k d :
  map fst (incr k d) =
  if str_in k (map fst d) then map fst d else (map fst d ++ [k])%list.
Proof.
  induction d as [|[k' v] d IH]; [reflexivity|].
  cbn [incr map fst str_in existsb]. unfold str_in in IH.
  destruct (String.eqb k k'); cbn [orb map fst]; [reflexivity|].
  rewrite IH. destruct (existsb _ _); reflexivity.
Qed.

(** The keys of the week table: in no particular multiplicity, the weeks of
    the commits counted so far. *)
Lemma weekly_keys commits wc :
  NoDup (map fst wc) ->
  let final := fold_left (fun wc c => incr (spec.week_of c) wc) commits wc in
  NoDup (map fst final) /\
  (forall k, In k (map fst final) <->
             In k (map fst wc) \/ In k (map spec.week_of commits)).
Proof.
  revert wc. induction commits as [|c l IH]; intros wc Hnd; cbv zeta.
  - cbn. split; [assumption | tauto].
  - cbn [fold_left map].
    assert (NoDup (map fst (incr (spec.week_of c) wc)) /\
            forall k, In k (map fst (incr (spec.week_of c) wc)) <->
                      In k (map fst wc) \/ k = spec.week_of c) as [Hnd' Hin'].
    { rewrite incr_keys.
      destruct (str_in (spec.week_of c) (map fst wc)) eqn:Hin.
      - apply str_in_In in Hin. split; [assumption|].
        intros k. split; [tauto | intros [H | ->]; assumption].
      - assert (~ In (spec.week_of c) (map fst wc)) as Hnot
            by (rewrite <- str_in_In, Hin; discriminate).
        split.
        + apply NoDup_app; [assumption | repeat constructor; intros [] |].
          intros x Hx [<- | []]. contradiction.
        + intros k. rewrite in_app_iff. cbn. intuition congruence. }
    destruct (IH _ Hnd') as [IH1 IH2]. split; [assumption|].
    intros k. rewrite IH2, Hin'. cbn. intuition congruence.
Qed.

Lemma weekly_commits_len commits :
  len (fold_left (fun wc c => incr (spec.week_of c) wc) commits [])
  = spec.distinct_weeks commits.
Proof.
  destruct (weekly_keys commits [] (NoDup_nil _)) as [Hnd Hin]. cbv zeta in *.
  unfold spec.distinct_weeks, len. f_equal.
  rewrite <- (length_map fst).
  apply Permutation_length, NoDup_Permutation.
  - assumption.
  - apply NoDup_nodup.
  - intros k. rewrite Hin, nodup_In. cbn. tauto.
Qed.

Lemma weekly_commits_returns commits wc :
  spec.valid_dates commits ->
  for_each (fun wc commit => k <- week_key (date commit) ;; Return (incr k wc))
           commits wc
  = Return (fold_left (fun wc c => incr (spec.week_of c) wc) commits wc).
Proof.
  revert wc. induction commits as [|c l IH]; intros wc Hv; [reflexivity|].
  inversion Hv as [|? ? Hc Hl]; subst.
  cbn [for_each fold_left].
  destruct (week_key_returns _ Hc) as [k Hk].
  assert (spec.week_of c = k) as -> by (unfold spec.week_of; now rewrite Hk).
  rewrite Hk. cbn [bind]. apply IH. assumption.
Qed.

(** The trend of a commit list with valid dates: always one of the four
    labels, and insufficient_data below 10 commits or 3 weeks. *)
Lemma trend_cases commits :
  spec.valid_dates commits ->
  exists t, _analyze_commit_frequency_trend commits = Return t /\
            In t spec.trend_labels /\
            (len commits < 10 \/ spec.distinct_weeks commits < 3 ->
             t = "insufficient_data").
Proof.
  intros Hv. unfold _analyze_commit_frequency_trend, spec.trend_labels.
  destruct (Z.ltb_spec (len commits) 10) as [Hlt | Hge].
  - eexists. split; [reflexivity|]. cbn. tauto.
  - rewrite weekly_commits_returns by assumption. cbn [bind].
    rewrite weekly_commits_len.
    destruct (Z.ltb_spec (spec.distinct_weeks commits) 3) as [Hw | Hw].
    + eexists. split; [reflexivity|]. cbn. tauto.
    + destruct (int_gt_float _ _);
        [|destruct (int_lt_float _ _)];
        (eexists; split; [reflexivity|]; split; [cbn; tauto | lia]).
Qed.

(** C2. The four category counters count the commits that the classifier
    puts in the feature, bugfix, refactor and documentation kinds (tables
    tried in that order on the lower-cased message, first match wins), so
    together with the unclassified commits they add up to total_commits. *)
Theorem commit_counts_partition (commits : list CommitInfo) :
  spec.valid_dates commits ->
  exists p,
    _analyze_commit_patterns self commits = Return p /\
    total_commits p = len commits /\
    feature_commits p
    = spec.count_kind (config.git self) spec.Feature_commit commits /\
    bug_fix_commits p
    = spec.count_kind (config.git self) spec.Bug_fix_commit commits /\
    refactor_commits p
    = spec.count_kind (config.git self) spec.Refactor_commit commits /\
    documentation_commits p
    = spec.count_kind (config.git self) spec.Documentation_commit commits /\
    feature_commits p + bug_fix_commits p + refactor_commits p
    + documentation_commits p
    + spec.count_kind (config.git self) spec.Other_commit commits
    = total_commits p.
Proof.
  intros Hv. unfold _analyze_commit_patterns.
  destruct commits as [|c l].
  - eexists. split; [reflexivity|]. cbn. repeat split.
  - destruct (trend_cases (c :: l) Hv) as (t & -> & _). cbn [bind].
    eexists. split; [reflexivity|]. cbn [total_commits feature_commits
      bug_fix_commits refactor_commits documentation_commits].
    destruct (count_commit_fold (c :: l) no_commits) as (H1 & H2 & H3 & H4).
    cbv zeta in *. rewrite H1, H2, H3, H4. cbn [n_feature n_bug_fix n_refactor
      n_documentation no_commits].
    pose proof (count_kind_partition (c :: l)).
    repeat split; lia.
Qed.

(** C4, as the code has it. A commit pattern is always produced; for the
    empty list its trend is unknown; for a non-empty list the trend is one
    of increasing, decreasing, stable and insufficient_data, and it is
    insufficient_data when there are fewer than 10 commits or fewer than 3
    distinct weeks. *)
Theorem commit_frequency_trend_labels (commits : list CommitInfo) :
  spec.valid_dates commits ->
  exists p,
    _analyze_commit_patterns self commits = Return p /\
    (commits = [] -> commit_frequency_trend p = "unknown") /\
    (commits <> [] ->
     In (commit_frequency_trend p) spec.trend_labels /\
     (len commits < 10 \/ spec.distinct_weeks commits < 3 ->
      commit_frequency_trend p = "insufficient_data")).
Proof.
  intros Hv. unfold _analyze_commit_patterns.
  destruct commits as [|c l].
  - eexists. split; [reflexivity|]. split; [reflexivity | congruence].
  - destruct (trend_cases (c :: l) Hv) as (t & -> & Hin & Hfew). cbn [bind].
    eexists. split; [reflexivity|]. split; [discriminate|].
    intros _. cbn [commit_frequency_trend]. tauto.
Qed.

End CommitPatterns.

(** The scenario of the specification: one feature, one bugfix and one
    documentation commit, no merge. *)
Example scenario_counts :
  exists p,
    git_analyzer._analyze_commit_patterns config.default scenario_commits
    = Py.Return p /\
    git_analyzer.feature_commits p = 1 /\
    git_analyzer.bug_fix_commits p = 1 /\
    git_analyzer.refactor_commits p = 0 /\
    git_analyzer.documentation_commits p = 1 /\
    git_analyzer.merge_commits p = 0 /\
    git_analyzer.commit_frequency_trend p = "insufficient_data".
Proof. eexists. split; [vm_compute; reflexivity|]. repeat split. Qed.

Lemma scenario_dates_valid : spec.valid_dates scenario_commits.
Proof. repeat constructor. Qed.

(** C2 on the three scenario commits. *)
Lemma commit_counts_partition_witness :
  exists p,
    git_analyzer._analyze_commit_patterns config.default scenario_commits
    = Py.Return p /\
    git_analyzer.total_commits p = Py.len scenario_commits /\
    git_analyzer.feature_commits p
    = spec.count_kind config.default_git spec.Feature_commit scenario_commits /\
    git_analyzer.bug_fix_commits p
    = spec.count_kind config.default_git spec.Bug_fix_commit scenario_commits /\
    git_analyzer.refactor_commits p
    = spec.count_kind config.default_git spec.Refactor_commit scenario_commits /\
    git_analyzer.documentation_commits p
    = spec.count_kind config.default_git spec.Documentation_commit scenario_commits /\
    git_analyzer.feature_commits p + git_analyzer.bug_fix_commits p
    + git_analyzer.refactor_commits p + git_analyzer.documentation_commits p
    + spec.count_kind config.default_git spec.Other_commit scenario_commits
    = git_analyzer.total_commits p.
Proof.
  apply (commit_counts_partition config.default scenario_commits).
  repeat constructor.
Defined.

(** C4 as claimed fails on the empty list: its trend is unknown, which is
    none of the four labels. *)
Lemma commit_frequency_trend_unknown_on_empty :
  exists p,
    git_analyzer._analyze_commit_patterns config.default [] = Py.Return p /\
    ~ In (git_analyzer.commit_frequency_trend p) spec.trend_labels.
Proof.
  eexists. split; [reflexivity|]. cbn.
  intros [H | [H | [H | [H | []]]]]; discriminate.
Qed.

(** C4 on the three scenario commits. *)
Lemma commit_frequency_trend_labels_witness :
  exists p,
    git_analyzer._analyze_commit_patterns config.default scenario_commits
    = Py.Return p /\
    (scenario_commits = [] -> git_analyzer.commit_frequency_trend p = "unknown") /\
    (scenario_commits <> [] ->
     In (git_analyzer.commit_frequency_trend p) spec.trend_labels /\
     (Py.len scenario_commits < 10 \/ spec.distinct_weeks scenario_commits < 3 ->
      git_analyzer.commit_frequency_trend p = "insufficient_data")).
Proof.
  apply (commit_frequency_trend_labels config.default scenario_commits).
  repeat constructor.
Defined.

(** ** Team dynamics (developer_analyzer) *)

Section TeamDynamics.
Import Py developer_analyzer.

Lemma value_weight_tier v :
  spec.is_tier v = true -> exists w, value_weight v = Return w.
Proof.
  unfold spec.is_tier, str_in, value_weight. cbn [existsb].
  rewrite !orb_true_iff. rewrite !String.eqb_eq.
  intros [-> | [-> | [-> | [-> | [-> | H]]]]]; try discriminate;
    eexists; reflexivity.
Qed.

Lemma keyed_returns profiles acc :
  spec.tiers_valid profiles ->
  exists keyed,
    for_each (fun acc p => w <- value_weight (business_value p) ;;
                           Return (acc ++ [(w, p)])%list)
             profiles acc = Return keyed /\
    len keyed = len acc + len profiles.
Proof.
  revert acc. induction profiles as [|p l IH]; intros acc Hv.
  - exists acc. split; [reflexivity | unfold len; cbn; lia].
  - inversion Hv as [|? ? Hp Hl]; subst. cbn [for_each].
    destruct (value_weight_tier _ Hp) as [w ->]. cbn [bind].
    destruct (IH (acc ++ [(w, p)])%list Hl) as (keyed & -> & Hlen).
    exists keyed. split; [reflexivity|].
    rewrite Hlen. unfold len. rewrite length_app. cbn [List.length]. lia.
Qed.

Lemma value_weight_other v :
  spec.is_tier v = false -> value_weight v = Raise KeyError.
Proof.
  unfold spec.is_tier, str_in, value_weight. cbn [existsb].
  rewrite !orb_false_iff. intros (-> & -> & -> & -> & -> & _). reflexivity.
Qed.

(** The sort key raises KeyError at the first profile whose business value
    is no tier. *)
Lemma keyed_raises profiles acc :
  ~ spec.tiers_valid profiles ->
  for_each (fun acc p => w <- value_weight (business_value p) ;;
                         Return (acc ++ [(w, p)])%list)
           profiles acc = Raise KeyError.
Proof.
  revert acc. induction profiles as [|p l IH]; intros acc Hv.
  - exfalso. apply Hv. constructor.
  - cbn [for_each]. destruct (spec.is_tier (business_value p)) eqn:Hp.
    + destruct (value_weight_tier _ Hp) as [w ->]. cbn [bind].
      apply IH. intros Hl. apply Hv. now constructor.
    + rewrite (value_weight_other _ Hp). reflexivity.
Qed.

Lemma insert_desc_length {A K : Type} (lt : K -> K -> bool) (key : A -> K) x l :
  List.length (insert_desc lt key x l) = S (List.length l).
Proof.
  induction l as [|y l IH]; [reflexivity|]. cbn [insert_desc].
  destruct (lt _ _); cbn [List.length]; congruence.
Qed.

Lemma sorted_desc_length {A K : Type} (lt : K -> K -> bool) (key : A -> K) l :
  List.length (sorted_desc lt key l) = List.length l.
Proof.
  induction l as [|x l IH]; [reflexivity|].
  unfold sorted_desc in *. cbn [fold_right List.length].
  rewrite insert_desc_length. f_equal. exact IH.
Qed.

(** The loop counts at least one profile when there is one, and never more
    than there are. *)
Lemma bus_factor_loop_bounds total sorted_profiles k0 :
  Z.abs total < 2 ^ 1023 ->
  exists k,
    bus_factor_loop total sorted_profiles k0 = Return k /\
    k0 + (match sorted_profiles with [] => 0 | _ :: _ => 1 end) <= k
    <= k0 + len sorted_profiles.
Proof.
  intros Ht. revert k0.
  induction sorted_profiles as [|p l IH]; intros k0.
  - exists k0. split; [reflexivity | unfold len; cbn; lia].
  - cbn [bus_factor_loop]. unfold int_mul_float.
    rewrite (to_float_returns total Ht). cbn [bind].
    pose proof (len_nonneg l) as Hl.
    destruct (int_ge_float _ _).
    + eexists. split; [reflexivity|]. rewrite len_cons. lia.
    + destruct (IH (k0 + 1)) as (k & -> & Hk).
      exists k. split; [reflexivity|]. rewrite len_cons.
      destruct l; lia.
Qed.

(** C7. The bus factor of the empty list is 0, and for a non-empty list of
    profiles whose business values are among the five tiers it is an
    integer between 1 and the number of profiles; for a list with a
    profile of another business value the sort key raises KeyError, and
    no bus factor is returned. *)
Theorem bus_factor_bounds (profiles : list DeveloperProfile) :
  len profiles <= maxsize ->
  (spec.tiers_valid profiles ->
   exists k,
     _calculate_bus_factor profiles = Return k /\
     (profiles = [] -> k = 0) /\
     (profiles <> [] -> 1 <= k <= len profiles)) /\
  (~ spec.tiers_valid profiles ->
   profiles <> [] /\ _calculate_bus_factor profiles = Raise KeyError).
Proof.
  intros Hlen. split.
  - intros Hv. unfold _calculate_bus_factor.
    destruct profiles as [|p l].
    + exists 0. split; [reflexivity|]. split; [reflexivity | congruence].
    + destruct (keyed_returns (p :: l) [] Hv) as (keyed & -> & Hk). cbn [bind].
      pose proof (len_nonneg (p :: l)) as Hpos.
      assert (Z.abs (len (p :: l)) < 2 ^ 1023) as Hbig.
      { unfold maxsize in Hlen.
        assert (2 ^ 63 < 2 ^ 1023) by (apply Z.pow_lt_mono_r; lia). lia. }
      destruct (bus_factor_loop_bounds (len (p :: l))
                  (map snd (sorted_desc Z.ltb fst keyed)) 0 Hbig) as (k & -> & Hb).
      exists k. split; [reflexivity|]. split; [discriminate|]. intros _.
      assert (len (map snd (sorted_desc Z.ltb fst keyed)) = len (p :: l)) as Hsame.
      { unfold len in *. rewrite length_map, sorted_desc_length.
        cbn [List.length] in Hk |- *. lia. }
      rewrite Hsame in Hb.
      destruct (map snd (sorted_desc Z.ltb fst keyed)) eqn:Hs.
      * unfold len in Hsame. cbn [List.length] in Hsame. lia.
      * lia.
  - intros Hv. unfold _calculate_bus_factor.
    destruct profiles as [|p l]; [exfalso; apply Hv; constructor|].
    split; [discriminate|].
    rewrite (keyed_raises (p :: l) [] Hv). reflexivity.
Qed.

(** The first pass of the knowledge-concentration loop already fails: the
    weight times the contribution pattern is a str, and adding it to the
    int 0 is a TypeError (a KeyError when the business value has no
    weight). *)
Lemma concentration_step_raises total_weight profile :
  returns (concentration_step (total_weight, VInt 0) profile) = false.
Proof.
  unfold concentration_step.
  destruct (value_weight (business_value profile)); reflexivity.
Qed.

Lemma knowledge_concentration_raises profiles :
  profiles <> [] ->
  returns (_calculate_knowledge_concentration profiles) = false.
Proof.
  destruct profiles as [|p l]; [congruence|]. intros _.
  unfold _calculate_knowledge_concentration. cbn [for_each].
  pose proof (concentration_step_raises 0 p) as H.
  destruct (concentration_step (0, VInt 0) p); [discriminate | reflexivity].
Qed.

(** For every non-empty profile list [analyze_team_dynamics] raises: no
    TeamDynamics, and so no knowledge_concentration, is returned. *)
Lemma analyze_team_dynamics_raises now profiles commits :
  profiles <> [] ->
  returns (analyze_team_dynamics now profiles commits) = false.
Proof.
  intros Hne. unfold analyze_team_dynamics.
  destruct (_analyze_knowledge_distribution profiles); [|reflexivity].
  cbn [bind].
  destruct (_calculate_bus_factor profiles); [|reflexivity]. cbn [bind].
  destruct (_categorize_contributors profiles).
  pose proof (knowledge_concentration_raises profiles Hne) as H.
  destruct (_calculate_knowledge_concentration profiles);
    [discriminate | reflexivity].
Qed.

End TeamDynamics.

(** C1. On a team of one Critical and one High contributor, where the
    fraction of Critical or High profiles is 2/2, no TeamDynamics is
    returned: computing the knowledge concentration raises TypeError. *)
Theorem knowledge_concentration_type_error :
  spec.primary_count scenario_profiles = 2 /\
  Py.len scenario_profiles = 2 /\
  developer_analyzer._calculate_knowledge_concentration scenario_profiles
  = Py.Raise Py.TypeError /\
  developer_analyzer.analyze_team_dynamics (monday_noon 4) scenario_profiles
                                           scenario_commits
  = Py.Raise Py.TypeError.
Proof. repeat split; vm_compute; reflexivity. Qed.

Lemma ten_profiles_valid : spec.tiers_valid ten_profiles.
Proof. repeat constructor. Qed.

(** C7 on a team of ten. *)
Lemma bus_factor_bounds_witness :
  exists k,
    developer_analyzer._calculate_bus_factor ten_profiles = Py.Return k /\
    (ten_profiles = [] -> k = 0) /\
    (ten_profiles <> [] -> 1 <= k <= Py.len ten_profiles).
Proof.
  apply (bus_factor_bounds ten_profiles).
  - vm_compute. discriminate.
  - repeat constructor.
Defined.

(** C7, as stated for every non-empty list, fails on a team with a
    profile whose business value is 'Unknown': the list is not empty, and
    no integer is returned. *)
Lemma bus_factor_unknown_tier :
  untiered_profiles <> [] /\
  developer_analyzer._calculate_bus_factor untiered_profiles = Py.Raise Py.KeyError /\
  ~ exists k, developer_analyzer._calculate_bus_factor untiered_profiles = Py.Return k.
Proof.
  split; [discriminate|]. split; [vm_compute; reflexivity|].
  intros [k Hk]. vm_compute in Hk. discriminate.
Qed.

(** The bus factor of ten profiles is 7: ten times 0.7 rounds to 7.0. *)
Example bus_factor_of_ten :
  developer_analyzer._calculate_bus_factor ten_profiles = Py.Return 7.
Proof. vm_compute. reflexivity. Qed.

(** ** Business risks (risk_assessor._identify_business_risks) *)

Section BusinessRisks.
Import Py feature_mapper risk_assessor.

Lemma len_filter_le {A : Type} (f : A -> bool) (l : list A) :
  0 <= len (filter f l) <= len l.
Proof. unfold len. pose proof (List.filter_length_le f l). lia. Qed.



End BusinessRisks.

(** ** Features and their groups (feature_mapper) *)

Section Features.
Import Py feature_mapper.
Variable self : config.AnalysisConfig.

Lemma In_insert_desc {A K : Type} (lt : K -> K -> bool) (key : A -> K) x y l :
  In y (insert_desc lt key x l) <-> y = x \/ In y l.
Proof.
  induction l as [|z l IH]; cbn [insert_desc In].
  - intuition congruence.
  - destruct (lt _ _); cbn [In]; rewrite ?IH; intuition congruence.
Qed.

Lemma In_sorted_desc {A K : Type} (lt : K -> K -> bool) (key : A -> K) y l :
  In y (sorted_desc lt key l) <-> In y l.
Proof.
  induction l as [|x l IH]; [reflexivity|].
  unfold sorted_desc in *. cbn [fold_right In].
  rewrite In_insert_desc, IH. intuition congruence.
Qed.

(** A feature that [_create_feature_object] builds carries the level that
    [assess_complexity] gave it. *)
Lemma created_feature_has_level feature_name feature_data commits f :
  _create_feature_object self feature_name feature_data commits = Some f ->
  spec.has_level f.
Proof.
  unfold _create_feature_object, create_feature.
  destruct (estimate_development_time _ _) as [h|]; cbn [bind]; [|discriminate].
  intros [= <-]. unfold spec.has_level. cbn [complexity set_estimated_hours set_complexity].
  apply assess_complexity_cases.
Qed.

Lemma collected_features_have_level all_features commits acc :
  Forall spec.has_level acc ->
  Forall spec.has_level
    (fold_left
       (fun features '(feature_name, feature_data) =>
          match _create_feature_object self feature_name feature_data commits with
          | Some feature => (features ++ [feature])%list
          | None => features
          end)
       all_features acc).
Proof.
  revert acc. induction all_features as [|[n d] l IH]; intros acc Hacc;
    [assumption|].
  cbn [fold_left]. apply IH.
  destruct (_create_feature_object self n d commits) as [f|] eqn:Hf; [|assumption].
  apply Forall_app. split; [assumption|].
  constructor; [|constructor]. eapply created_feature_has_level; eassumption.
Qed.

Lemma identified_features_have_level commits repo_structure :
  Forall spec.has_level (identify_features self commits repo_structure).
Proof.
  unfold identify_features. apply Forall_forall. intros f Hin.
  apply In_sorted_desc in Hin. revert f Hin. apply Forall_forall.
  apply collected_features_have_level. constructor.
Qed.

Lemma complexity_scores_level f :
  spec.has_level f ->
  exists score, complexity_scores (complexity f) = Return score /\ 1 <= score <= 3.
Proof.
  unfold complexity_scores.
  intros [-> | [-> | ->]]; eexists; (split; [reflexivity | lia]).
Qed.

Lemma score_sum_returns fs acc :
  Forall spec.has_level fs ->
  exists total,
    for_each (fun acc f => score <- complexity_scores (complexity f) ;;
                           Return (acc + score)) fs acc = Return total /\
    acc <= total <= acc + 3 * len fs.
Proof.
  revert acc. induction fs as [|f l IH]; intros acc Hl.
  - exists acc. split; [reflexivity | unfold len; cbn; lia].
  - inversion Hl as [|? ? Hf Hrest]; subst. cbn [for_each].
    destruct (complexity_scores_level f Hf) as (score & -> & Hs). cbn [bind].
    destruct (IH (acc + score) Hrest) as (total & -> & Ht).
    exists total. split; [reflexivity|]. rewrite len_cons. lia.
Qed.

Lemma impact_score_bounds v : 1 <= impact_score v <= 5.
Proof.
  unfold impact_score.
  repeat (destruct (String.eqb v _); [lia|]). lia.
Qed.

Lemma impact_sum_bounds fs acc :
  acc <= fold_left Z.add (map (fun f => impact_score (business_value f)) fs) acc
  <= acc + 5 * len fs.
Proof.
  revert acc. induction fs as [|f l IH]; intros acc.
  - unfold len. cbn. lia.
  - cbn [map fold_left]. rewrite len_cons.
    pose proof (impact_score_bounds (business_value f)).
    specialize (IH (acc + impact_score (business_value f))). lia.
Qed.

Lemma group_business_impact_returns fs :
  exists impact, _determine_group_business_impact fs = Return impact.
Proof.
  unfold _determine_group_business_impact. destruct fs as [|f l].
  - eexists. reflexivity.
  - set (fs := f :: l).
    assert (0 < len fs) as Hpos
        by (subst fs; rewrite len_cons; pose proof (len_nonneg l); lia).
    pose proof (impact_sum_bounds fs 0) as Hb.
    destruct (int_truediv_returns_average
                (fold_left Z.add (map (fun f => impact_score (business_value f)) fs) 0)
                (len fs)) as [q ->]; [lia | assumption |].
    cbn [bind].
    repeat (destruct (fge q _); [eexists; reflexivity|]).
    eexists. reflexivity.
Qed.

Lemma make_group_returns group_name fs :
  fs <> [] -> Forall spec.has_level fs ->
  exists g, make_group group_name fs = Return g.
Proof.
  intros Hne Hl. unfold make_group.
  destruct (score_sum_returns fs 0 Hl) as (total & -> & Ht). cbn [bind].
  assert (0 < len fs) as Hpos
      by (destruct fs; [congruence|]; rewrite len_cons;
          pose proof (len_nonneg fs); lia).
  destruct (int_truediv_returns_average total (len fs)) as [q ->];
    [lia | assumption |].
  cbn [bind].
  destruct (group_business_impact_returns fs) as [impact ->]. cbn [bind].
  eexists. reflexivity.
Qed.

Lemma append_to_ok k f groups :
  spec.has_level f -> spec.groups_ok groups -> spec.groups_ok (append_to k f groups).
Proof.
  intros Hf. induction groups as [|[k' fs] l IH]; intros Hg; cbn [append_to].
  - constructor; [|constructor].
    split; [discriminate | constructor; [assumption | constructor]].
  - inversion Hg as [|? ? Hhd Hl]; subst.
    cbn beta iota in Hhd. destruct Hhd as [Hne Hfs].
    destruct (String.eqb k k').
    + constructor; [|assumption]. split.
      * destruct fs; discriminate.
      * apply Forall_app. split; [assumption|].
        constructor; [assumption | constructor].
    + constructor; [split; assumption | apply IH; assumption].
Qed.

Lemma grouped_ok features groups :
  Forall spec.has_level features -> spec.groups_ok groups ->
  spec.groups_ok
    (fold_left (fun groups feature =>
                  append_to (_determine_feature_group feature) feature groups)
               features groups).
Proof.
  revert groups. induction features as [|f l IH]; intros groups Hl Hg;
    [assumption|].
  inversion Hl; subst. cbn [fold_left]. apply IH; [assumption|].
  apply append_to_ok; assumption.
Qed.

Lemma groups_made groups acc :
  spec.groups_ok groups ->
  exists made,
    for_each (fun acc '(group_name, group_features) =>
                g <- make_group group_name group_features ;;
                Return (acc ++ [g])%list)
             groups acc = Return made.
Proof.
  revert acc. induction groups as [|[k fs] l IH]; intros acc Hg.
  - eexists. reflexivity.
  - inversion Hg as [|? ? Hhd Hl]; subst.
    cbn beta iota in Hhd. destruct Hhd as [Hne Hfs]. cbn [for_each].
    destruct (make_group_returns k fs Hne Hfs) as [g ->]. cbn [bind].
    apply IH. assumption.
Qed.

(** [group_features] returns on every feature list whose complexity fields
    are levels. *)
Lemma group_features_returns features :
  Forall spec.has_level features ->
  exists groups, group_features features = Return groups.
Proof.
  intros Hl. unfold group_features.
  destruct (groups_made
              (fold_left (fun groups feature =>
                            append_to (_determine_feature_group feature) feature groups)
                         features []) []) as [made ->].
  - apply grouped_ok; [assumption | constructor].
  - cbn [bind]. eexists. reflexivity.
Qed.

(** C10. Every feature that identify_features produces has complexity low,
    medium or high, its lookup in the complexity-score table succeeds, and
    group_features returns on the whole list. *)
Theorem identified_features_group (commits : list git_analyzer.CommitInfo)
        (repo_structure : RepoStructure) :
  (forall f, In f (identify_features self commits repo_structure) ->
             (complexity f = "low" \/ complexity f = "medium" \/
              complexity f = "high") /\
             exists score, complexity_scores (complexity f) = Return score) /\
  exists groups,
    group_features (identify_features self commits repo_structure) = Return groups.
Proof.
  pose proof (identified_features_have_level commits repo_structure) as Hl.
  split.
  - intros f Hin. rewrite Forall_forall in Hl. specialize (Hl f Hin).
    split; [exact Hl|].
    destruct (complexity_scores_level f Hl) as (score & Hs & _). eauto.
  - apply group_features_returns. assumption.
Qed.

End Features.

(** ** The technology stack (repo_analyzer) *)

Section TechnologyStack.
Import Py repo_analyzer.

Lemma key_eqb_eq k k' : key_eqb k k' = true <-> k = k'.
Proof.
  destruct k as [a b], k' as [a' b']. unfold key_eqb. cbn [fst snd].
  rewrite andb_true_iff, !String.eqb_eq. split; [intros []|intros [= ]]; subst; auto.
Qed.

Lemma key_eqb_refl k : key_eqb k k = true.
Proof. now apply key_eqb_eq. Qed.

Lemma key_eqb_neq k k' : k <> k' -> key_eqb k k' = false.
Proof.
  intros Hne. destruct (key_eqb k k') eqn:H; [|reflexivity].
  apply key_eqb_eq in H. contradiction.
Qed.

Lemma str_in_keys_In k keys : spec.str_in_keys k keys = true <-> In k keys.
Proof.
  unfold spec.str_in_keys. rewrite existsb_exists. split.
  - intros (k' & Hin & Heq). apply key_eqb_eq in Heq. now subst.
  - intros Hin. exists k. split; [assumption | apply key_eqb_refl].
Qed.

Lemma same_key_app k l1 l2 :
  spec.same_key k (l1 ++ l2) = (spec.same_key k l1 ++ spec.same_key k l2)%list.
Proof. apply filter_app. Qed.

Lemma same_key_In k l t : In t (spec.same_key k l) <-> In t l /\ spec.tech_key t = k.
Proof. unfold spec.same_key. rewrite filter_In, key_eqb_eq. reflexivity. Qed.

Lemma same_key_none k l :
  (forall t, In t l -> spec.tech_key t <> k) -> spec.same_key k l = [].
Proof.
  intros H. destruct (spec.same_key k l) as [|t rest] eqn:Hs; [reflexivity|].
  assert (In t (spec.same_key k l)) as Hin by (rewrite Hs; now left).
  apply same_key_In in Hin. destruct Hin as [Hin Hk]. now apply H in Hin.
Qed.

Lemma merged_single t : spec.merged t [] = t.
Proof.
  destruct t. unfold spec.merged, spec.max_confidence. cbn.
  now rewrite app_nil_r.
Qed.

(** Merging one more entry of the same key into a merged entry. *)
Lemma merged_snoc first rest t :
  {| name := name (spec.merged first rest);
     category := category (spec.merged first rest);
     confidence := fmax (confidence (spec.merged first rest)) (confidence t);
     evidence := (evidence (spec.merged first rest) ++ evidence t)%list;
     version := version (spec.merged first rest) |}
  = spec.merged first (rest ++ [t]).
Proof.
  unfold spec.merged, spec.max_confidence.
  cbn [name category confidence evidence version]. f_equal.
  - rewrite map_app, fold_left_app. reflexivity.
  - cbn [map List.concat]. rewrite map_app, List.concat_app. cbn [map List.concat].
    rewrite app_nil_r, app_assoc. reflexivity.
Qed.

(** One pass of the loop keeps the dict in the state the reference
    describes. *)
Lemma merge_entry_state t d processed :
  spec.dedup_state d processed ->
  spec.dedup_state (merge_entry t d) (processed ++ [t]).
Proof.
  intros (Hnd & Hent & Hkeys).
  assert (forall d0,
             (forall k e, In (k, e) d0 -> In (k, e) d) ->
             NoDup (map fst d0) ->
             (In (spec.tech_key t) (map fst d0) \/
              forall t', In t' processed -> spec.tech_key t' <> spec.tech_key t) ->
             map fst (merge_entry t d0) =
             (if spec.str_in_keys (spec.tech_key t) (map fst d0)
              then map fst d0 else map fst d0 ++ [spec.tech_key t])%list /\
             forall k e, In (k, e) (merge_entry t d0) ->
                         exists first rest,
                           spec.same_key k (processed ++ [t]) = first :: rest /\
                           e = spec.merged first rest) as Hgen.
  { induction d0 as [|[k0 e0] d0 IH]; intros Hsub Hnd0 Hcase.
    - cbn [merge_entry]. change (name t, category t) with (spec.tech_key t).
      cbn [map fst app]. unfold spec.str_in_keys at 1. cbn [existsb].
      split; [reflexivity|].
      intros k e [[= <- <-] | []].
      destruct Hcase as [[] | Hfresh].
      exists t, []. split; [|symmetry; apply merged_single].
      rewrite same_key_app, (same_key_none _ _ Hfresh).
      unfold spec.same_key. cbn [filter app]. now rewrite key_eqb_refl.
    - cbn [merge_entry]. change (name t, category t) with (spec.tech_key t).
      cbn [map fst]. unfold spec.str_in_keys at 1. cbn [existsb].
      fold (spec.str_in_keys (spec.tech_key t) (map fst d0)).
      destruct (key_eqb (spec.tech_key t) k0) eqn:Hk.
      + apply key_eqb_eq in Hk. subst k0. cbn [orb map fst]. split; [reflexivity|].
        intros k e [[= <- <-] | Hin].
        * destruct (Hent (spec.tech_key t) e0) as (first & rest & Hs & ->);
            [apply Hsub; now left|].
          exists first, (rest ++ [t])%list. split; [|apply merged_snoc].
          rewrite same_key_app, Hs. cbn. now rewrite key_eqb_refl.
        * assert (k <> spec.tech_key t) as Hne.
          { intros ->. inversion Hnd0 as [|? ? Hnot _]; subst.
            apply Hnot. apply (in_map fst) in Hin. exact Hin. }
          destruct (Hent k e) as (first & rest & Hs & ->);
            [apply Hsub; now right|].
          exists first, rest. split; [|reflexivity].
          rewrite same_key_app, Hs. cbn.
          rewrite key_eqb_neq by congruence. now rewrite app_nil_r.
      + cbn [orb map fst].
        inversion Hnd0 as [|? ? Hnot Hnd1]; subst.
        destruct (IH (fun k e H => Hsub k e (or_intror H)) Hnd1) as [IHk IHe].
        { destruct Hcase as [[Heq | Hin] | Hfresh]; [| now left | now right].
          cbn in Heq. subst k0. now rewrite key_eqb_refl in Hk. }
        split; [rewrite IHk; destruct (spec.str_in_keys _ _); reflexivity|].
        intros k e [[= <- <-] | Hin]; [|now apply IHe].
        destruct (Hent k0 e0) as (first & rest & Hs & ->); [apply Hsub; now left|].
        exists first, rest. split; [|reflexivity].
        rewrite same_key_app, Hs. cbn.
        assert (key_eqb (spec.tech_key t) k0 = false) as -> by exact Hk.
        now rewrite app_nil_r. }
  assert (In (spec.tech_key t) (map fst d) \/
          forall t', In t' processed -> spec.tech_key t' <> spec.tech_key t) as Hcase.
  { destruct (spec.str_in_keys (spec.tech_key t) (map fst d)) eqn:Hin.
    - left. apply str_in_keys_In. assumption.
    - right. intros t' Ht' Heq. apply Hkeys in Ht'. rewrite Heq in Ht'.
      apply str_in_keys_In in Ht'. congruence. }
  destruct (Hgen d (fun k e H => H) Hnd Hcase) as [Hk He].
  split; [|split].
  - rewrite Hk. destruct (spec.str_in_keys _ _) eqn:Hin; [assumption|].
    apply NoDup_app; [assumption | repeat constructor; intros [] |].
    intros x Hx [<- | []]. apply str_in_keys_In in Hx. congruence.
  - exact He.
  - intros t' Hin. rewrite Hk. apply in_app_iff in Hin.
    destruct Hin as [Hin | [<- | []]].
    + apply Hkeys in Hin. destruct (spec.str_in_keys _ _); [assumption|].
      apply in_app_iff. now left.
    + destruct (spec.str_in_keys _ _) eqn:Hs; [now apply str_in_keys_In|].
      apply in_app_iff. right. now left.
Qed.

Lemma dedup_loop_state rest :
  forall d processed,
    spec.dedup_state d processed ->
    spec.dedup_state (fold_left (fun tech_dict tech => merge_entry tech tech_dict) rest d)
                     (processed ++ rest).
Proof.
  induction rest as [|t rest IH]; intros d processed Hs.
  - now rewrite app_nil_r.
  - cbn [fold_left].
    replace (processed ++ t :: rest)%list with ((processed ++ [t]) ++ rest)%list
      by (rewrite <- app_assoc; reflexivity).
    apply IH, merge_entry_state, Hs.
Qed.

Lemma dedup_final_state tech_list :
  spec.dedup_state
    (fold_left (fun tech_dict tech => merge_entry tech tech_dict) tech_list [])
    tech_list.
Proof.
  apply (dedup_loop_state tech_list [] []).
  split; [constructor | split; intros; contradiction].
Qed.

Lemma merged_key first rest : spec.tech_key (spec.merged first rest) = spec.tech_key first.
Proof. reflexivity. Qed.

Lemma max_confidence_In first rest :
  In (spec.max_confidence first rest) (first :: rest).
Proof.
  unfold spec.max_confidence. revert first.
  induction rest as [|c rest IH]; intros first; [now left|].
  cbn [fold_left]. specialize (IH (fmax first c)).
  destruct IH as [IH | IH]; [|right; now right].
  rewrite <- IH. destruct (fmax_cases first c) as [-> | ->];
    [now left | right; now left].
Qed.

Lemma max_confidence_ge first rest :
  Forall (fun c => spec.is_number c = true) (first :: rest) ->
  Forall (fun c => fge (spec.max_confidence first rest) c = true) (first :: rest).
Proof.
  unfold spec.max_confidence. revert first.
  induction rest as [|c rest IH]; intros first Hv.
  - inversion Hv; subst. constructor; [now apply fge_refl | constructor].
  - inversion Hv as [|? ? Hf Hrest]; subst. inversion Hrest as [|? ? Hc Hrest']; subst.
    cbn [fold_left].
    assert (spec.is_number (fmax first c) = true) as Hm
        by (destruct (fmax_cases first c) as [-> | ->]; assumption).
    specialize (IH (fmax first c) (Forall_cons _ Hm Hrest')).
    inversion IH as [|? ? Htop Hothers]; subst.
    assert (spec.is_number (fold_left fmax rest (fmax first c)) = true) as Hnum.
    { pose proof (max_confidence_In (fmax first c) rest) as Hin.
      unfold spec.max_confidence in Hin.
      rewrite Forall_forall in Hrest'.
      destruct Hin as [<- | Hin]; [assumption | now apply Hrest']. }
    destruct (fmax_ge first c Hf Hc) as [H1 H2].
    constructor; [|constructor; [|assumption]].
    + eapply fge_trans; [| | | exact Htop | exact H1]; assumption.
    + eapply fge_trans; [| | | exact Htop | exact H2]; assumption.
Qed.

(** [sorted(..., reverse=True)] on numbers yields a descending list. *)
Lemma insert_desc_descending x l :
  spec.is_number (confidence x) = true ->
  spec.confidences_valid l ->
  spec.descending l ->
  spec.descending (insert_desc flt confidence x l).
Proof.
  unfold spec.descending, spec.confidences_valid. intros Hx.
  induction l as [|y l IH]; intros Hv Hs; cbn [insert_desc].
  - repeat constructor.
  - inversion Hv as [|? ? Hy Hl]; subst.
    apply StronglySorted_inv in Hs. destruct Hs as [Hs Hall].
    destruct (flt (confidence x) (confidence y)) eqn:Hlt.
    + constructor; [apply IH; assumption|].
      apply Forall_forall. intros z Hz. apply In_insert_desc in Hz.
      destruct Hz as [-> | Hz].
      * apply flt_true_fge; assumption.
      * rewrite Forall_forall in Hall. now apply Hall.
    + constructor; [constructor; assumption|].
      assert (fge (confidence x) (confidence y) = true) as Hxy
          by (apply flt_false_fge; assumption).
      constructor; [assumption|].
      rewrite Forall_forall in Hall, Hl |- *. intros z Hz.
      eapply fge_trans; [| | | exact Hxy | apply Hall; exact Hz]; auto.
Qed.

Lemma sorted_desc_valid l :
  spec.confidences_valid l -> spec.confidences_valid (sorted_desc flt confidence l).
Proof.
  unfold spec.confidences_valid. rewrite !Forall_forall.
  intros H t Ht. apply In_sorted_desc in Ht. now apply H.
Qed.

Lemma sorted_desc_descending l :
  spec.confidences_valid l -> spec.descending (sorted_desc flt confidence l).
Proof.
  induction l as [|x l IH]; intros Hv.
  - constructor.
  - inversion Hv; subst. unfold sorted_desc. cbn [fold_right].
    apply insert_desc_descending; [assumption | | now apply IH].
    now apply sorted_desc_valid.
Qed.

Lemma source_files_valid file_info_list :
  spec.confidences_valid (_analyze_source_files file_info_list).
Proof.
  unfold spec.confidences_valid, _analyze_source_files.
  apply Forall_forall. intros t Hin. apply in_flat_map in Hin.
  destruct Hin as ([ext count] & _ & Hin).
  repeat (destruct (_ && _); [destruct Hin as [<- | []]; reflexivity|]).
  destruct Hin.
Qed.

Lemma build_files_valid file_info_list :
  spec.confidences_valid (_analyze_build_files file_info_list).
Proof.
  unfold spec.confidences_valid, _analyze_build_files.
  apply Forall_forall. intros t Hin. apply in_flat_map in Hin.
  destruct Hin as (f & _ & Hin).
  destruct (negb _); [destruct Hin|].
  repeat (destruct (endswith _ _); [destruct Hin as [<- | []]; reflexivity|]).
  destruct Hin.
Qed.

(** What [_deduplicate_technologies] returns, entry by entry. *)
Lemma deduplicated_entries tech_list :
  let unique := _deduplicate_technologies tech_list in
  NoDup (map spec.tech_key unique) /\
  forall o, In o unique ->
            exists first rest,
              spec.same_key (spec.tech_key o) tech_list = first :: rest /\
              o = spec.merged first rest.
Proof.
  cbv zeta. unfold _deduplicate_technologies.
  destruct (dedup_final_state tech_list) as (Hnd & Hent & _).
  set (d := fold_left _ tech_list []) in *.
  assert (forall k e, In (k, e) d -> spec.tech_key e = k) as Hkey.
  { intros k e Hin. destruct (Hent k e Hin) as (first & rest & Hs & ->).
    rewrite merged_key.
    assert (In first (spec.same_key k tech_list)) as Hf by (rewrite Hs; now left).
    apply same_key_In in Hf. tauto. }
  split.
  - rewrite map_map.
    replace (map (fun x => spec.tech_key (snd x)) d) with (map fst d); [assumption|].
    apply map_ext_in. intros [k e] Hin. symmetry. now apply Hkey.
  - intros o Hin. apply in_map_iff in Hin. destruct Hin as ([k e] & <- & Hin).
    cbn [snd]. rewrite (Hkey k e Hin). now apply Hent.
Qed.

(** No input entry is lost: the key of each one is the key of an entry
    that [_deduplicate_technologies] returns. *)
Lemma deduplicated_covers tech_list t :
  In t tech_list ->
  In (spec.tech_key t) (map spec.tech_key (_deduplicate_technologies tech_list)).
Proof.
  intros Hin. unfold _deduplicate_technologies.
  destruct (dedup_final_state tech_list) as (_ & Hent & Hkeys).
  set (d := fold_left _ tech_list []) in *.
  apply Hkeys in Hin. apply in_map_iff in Hin. destruct Hin as ([k e] & Hk & Hin).
  cbn [fst] in Hk. subst k.
  apply in_map_iff. exists e. split; [|apply in_map_iff; now exists (spec.tech_key t, e)].
  destruct (Hent _ e Hin) as (first & rest & Hs & ->).
  rewrite merged_key.
  assert (In first (spec.same_key (spec.tech_key t) tech_list)) as Hf
      by (rewrite Hs; now left).
  apply same_key_In in Hf. tauto.
Qed.

Lemma insert_desc_perm {A K : Type} (lt : K -> K -> bool) (key : A -> K) x l :
  Permutation (insert_desc lt key x l) (x :: l).
Proof.
  induction l as [|y l IH]; cbn [insert_desc]; [reflexivity|].
  destruct (lt _ _); [|reflexivity].
  rewrite IH. apply perm_swap.
Qed.

Lemma sorted_desc_perm {A K : Type} (lt : K -> K -> bool) (key : A -> K) l :
  Permutation (sorted_desc lt key l) l.
Proof.
  induction l as [|x l IH]; [reflexivity|].
  unfold sorted_desc in *. cbn [fold_right].
  rewrite insert_desc_perm. now constructor.
Qed.

Lemma deduplicated_valid tech_list :
  spec.confidences_valid tech_list ->
  spec.confidences_valid (_deduplicate_technologies tech_list).
Proof.
  intros Hv. unfold spec.confidences_valid in *. rewrite Forall_forall in *.
  intros o Hin.
  destruct (deduplicated_entries tech_list) as [_ Hent]. cbv zeta in Hent.
  destruct (Hent o Hin) as (first & rest & Hs & ->).
  cbn [confidence spec.merged].
  pose proof (max_confidence_In (confidence first) (map confidence rest)) as Hmax.
  change (confidence first :: map confidence rest)
    with (map confidence (first :: rest)) in Hmax.
  apply in_map_iff in Hmax. destruct Hmax as (t & <- & Ht).
  apply Hv. rewrite <- Hs in Ht. apply same_key_In in Ht. tauto.
Qed.

(** C5. After deduplication no two entries share (name, category); each
    entry stands for the input entries of its key: its confidence is their
    maximum and its evidence is the concatenation of their evidence lists
    in input order; every input entry is stood for, by the entry of its
    key; and the technology stack is the deduplicated list of all the
    entries found, sorted by descending confidence. *)
Theorem technology_stack_deduplicated
        (tech_list config_tech : list TechnologyInfo)
        (file_info_list : list FileInfo) :
  let unique := _deduplicate_technologies tech_list in
  NoDup (map spec.tech_key unique) /\
  (forall o, In o unique ->
     exists first rest,
       spec.same_key (spec.tech_key o) tech_list = first :: rest /\
       evidence o = List.concat (map evidence (first :: rest)) /\
       In (confidence o) (map confidence (first :: rest)) /\
       (spec.confidences_valid tech_list ->
        Forall (fun t => fge (confidence o) (confidence t) = true) (first :: rest))) /\
  (forall t, In t tech_list ->
     exists o, In o unique /\ spec.tech_key o = spec.tech_key t /\
               In t (spec.same_key (spec.tech_key o) tech_list)) /\
  (spec.confidences_valid config_tech ->
   let stack := _identify_technology_stack config_tech file_info_list in
   let found := (config_tech ++ _analyze_source_files file_info_list
                 ++ _analyze_build_files file_info_list)%list in
   spec.descending stack /\
   NoDup (map spec.tech_key stack) /\
   Permutation stack (_deduplicate_technologies found) /\
   forall t, In t found -> In (spec.tech_key t) (map spec.tech_key stack)).
Proof.
  cbv zeta. destruct (deduplicated_entries tech_list) as [Hnd Hent].
  cbv zeta in Hent. split; [assumption|]. split; [|split].
  - intros o Hin. destruct (Hent o Hin) as (first & rest & Hs & ->).
    exists first, rest. split; [assumption|]. split; [reflexivity|].
    cbn [confidence spec.merged]. split.
    + apply (max_confidence_In (confidence first) (map confidence rest)).
    + intros Hv.
      assert (Forall (fun c => spec.is_number c = true)
                     (map confidence (first :: rest))) as Hnum.
      { apply Forall_forall. intros c Hc. apply in_map_iff in Hc.
        destruct Hc as (t & <- & Ht). unfold spec.confidences_valid in Hv.
        rewrite Forall_forall in Hv. apply Hv.
        rewrite <- Hs in Ht. apply same_key_In in Ht. tauto. }
      pose proof (max_confidence_ge (confidence first) (map confidence rest) Hnum)
        as Hge.
      change (confidence first :: map confidence rest)
        with (map confidence (first :: rest)) in Hge.
      rewrite Forall_map in Hge. exact Hge.
  - intros t Hin. pose proof (deduplicated_covers tech_list t Hin) as Hc.
    apply in_map_iff in Hc. destruct Hc as (o & Hk & Ho).
    exists o. split; [assumption|]. split; [assumption|].
    apply same_key_In. split; [assumption | now symmetry].
  - intros Hv. unfold _identify_technology_stack.
    rewrite <- app_assoc.
    set (tech_stack := (config_tech ++ _analyze_source_files file_info_list
                        ++ _analyze_build_files file_info_list)%list).
    assert (spec.confidences_valid tech_stack) as Hall.
    { unfold spec.confidences_valid, tech_stack. rewrite !Forall_app.
      repeat split; [assumption | apply source_files_valid | apply build_files_valid]. }
    pose proof (sorted_desc_perm flt confidence (_deduplicate_technologies tech_stack))
      as Hperm.
    split; [|split; [|split]].
    + apply sorted_desc_descending, deduplicated_valid, Hall.
    + destruct (deduplicated_entries tech_stack) as [Hnd' _]. cbv zeta in Hnd'.
      eapply Permutation_NoDup; [|exact Hnd'].
      apply Permutation_map. symmetry. exact Hperm.
    + exact Hperm.
    + intros t Hin.
      apply (Permutation_in (l := map spec.tech_key (_deduplicate_technologies tech_stack))).
      * apply Permutation_map. symmetry. exact Hperm.
      * now apply deduplicated_covers.
Qed.

End TechnologyStack.


(** The stack of the sample repository: React (0.9), then Python (0.8, its
    two pieces of evidence merged), then JavaScript/JSX (0.7, merged from
    the .js and the .jsx entries). *)
Example scenario_stack :
  map (fun t => (repo_analyzer.name t, repo_analyzer.confidence t,
                 repo_analyzer.evidence t))
      (repo_analyzer._identify_technology_stack scenario_config_tech scenario_files)
  = [ ("React", Py.lit 9 1, ["Found in package.json"]);
      ("Python", Py.lit 8 1, ["Found requirements.txt"; "Found 2 Python files"]);
      ("JavaScript/JSX", Py.lit 7 1,
       ["Found 1 JavaScript/JSX files"; "Found 1 JavaScript/JSX files"]) ].
Proof. vm_compute. reflexivity. Qed.

(** C5 on the sample repository. *)
Lemma technology_stack_deduplicated_witness :
  let stack :=
    repo_analyzer._identify_technology_stack scenario_config_tech scenario_files in
  let found :=
    (scenario_config_tech ++ repo_analyzer._analyze_source_files scenario_files
     ++ repo_analyzer._analyze_build_files scenario_files)%list in
  spec.descending stack /\
  NoDup (map spec.tech_key stack) /\
  Permutation stack (repo_analyzer._deduplicate_technologies found) /\
  forall t, In t found -> In (spec.tech_key t) (map spec.tech_key stack).
Proof.
  apply (technology_stack_deduplicated scenario_tech_list scenario_config_tech
                                       scenario_files).
  repeat constructor.
Defined.

(** ** feature_mapper.py: the effort estimate *)

Section Estimate.
Import Py feature_mapper.

(** Closes [spec.normal_between lo hi c] for a constant [c]. *)
Ltac normal_const :=
  match goal with
  | |- spec.normal_between _ _ ?c =>
      let v := eval vm_compute in c in
      replace c with v by (vm_compute; reflexivity)
  end;
  cbn [spec.normal_between];
  change (2 ^ 52) with 4503599627370496;
  change (2 ^ 53) with 9007199254740992; lia.

(** [1 + TOTAL_BUFFER] with the default thresholds. *)
Lemma default_buffer_normal :
  exists b,
    int_add_float 1 (config.TOTAL_BUFFER (config.complexity config.default))
    = Return b /\ spec.normal_between (-52) (-52) b.
Proof.
  eexists. split; [vm_compute; reflexivity|]. normal_const.
Qed.

(** [get_time_estimate] on a count that float can hold. *)
Lemma time_estimate_nonneg (complexity_level : string) (n : Z) :
  0 <= n -> is_finite (float_of_int n) = true ->
  exists base_hours,
    config.get_time_estimate config.default complexity_level n = Return base_hours /\
    spec.nonneg_from (-56) base_hours.
Proof.
  intros Hn Hfin. unfold config.get_time_estimate.
  set (multiplier := if String.eqb complexity_level "low" then _ else _).
  assert (spec.normal_between (-52) (-50) multiplier) as Hmul.
  { subst multiplier.
    destruct (String.eqb complexity_level "low"); [normal_const|].
    destruct (String.eqb complexity_level "medium"); [normal_const|].
    destruct (String.eqb complexity_level "high"); normal_const. }
  clearbody multiplier.
  destruct (to_float_nonneg n Hn Hfin) as (x & Hx & Hxn).
  unfold float_mul_int. rewrite Hx. cbn [bind].
  destruct default_buffer_normal as (b & -> & Hb). cbn [bind].
  pose proof (fmul_normal_nonneg _ _ _ _ _ Hmul Hxn ltac:(lia)) as Hbase.
  pose proof (fmul_nonneg_normal _ _ _ _ _ Hbase Hb ltac:(lia)) as Htotal.
  destruct (round1_nonneg _ _ Htotal) as (v & Hv & Hvn & _).
  exists v. split; [exact Hv|].
  apply nonneg_from_weaken with (1 := Hvn). lia.
Qed.

(** [1 + len(dependencies) * 0.1] for a non-empty list. *)
Lemma dependency_factor_normal (k : Z) :
  1 <= k <= maxsize ->
  exists u,
    (t <- int_mul_float k (lit 1 1) ;; int_add_float 1 t) = Return u /\
    spec.normal_between (-52) 11 u.
Proof.
  intros Hk. destruct (to_float_normal k Hk) as (x & Hx & Hxn).
  unfold int_mul_float. rewrite Hx. cbn [bind].
  assert (exists one, to_float 1 = Return one /\ spec.normal_between (-52) (-52) one)
    as (one & Hone & Honen)
      by (eexists; split; [vm_compute; reflexivity | normal_const]).
  unfold int_add_float. rewrite Hone. cbn [bind].
  eexists. split; [reflexivity|].
  assert (spec.normal_between (-56) (-56) (lit 1 1)) as Htenth by normal_const.
  pose proof (fmul_normal_normal _ _ _ _ _ _ Hxn Htenth ltac:(lia) ltac:(lia)) as Ht.
  pose proof (fadd_normal_normal _ _ _ _ _ _ Honen Ht ltac:(lia) ltac:(lia)) as Hu.
  apply normal_between_weaken with (1 := Hu); lia.
Qed.

(** [get_time_estimate] with any thresholds that [spec.config_valid]
    admits, on a count that float can hold. *)
Lemma time_estimate_number (self : config.AnalysisConfig)
      (complexity_level : string) (n : Z) :
  spec.config_valid self ->
  0 <= n -> is_finite (float_of_int n) = true ->
  exists base_hours,
    config.get_time_estimate self complexity_level n = Return base_hours /\
    spec.nonneg_number base_hours.
Proof.
  intros (Hlow & Hmedium & Hhigh & b & Hb & Hbp) Hn Hfin.
  unfold config.get_time_estimate.
  set (multiplier := if String.eqb complexity_level "low" then _ else _).
  assert (spec.finite_nonneg multiplier) as Hmul.
  { subst multiplier.
    destruct (String.eqb complexity_level "low"); [assumption|].
    destruct (String.eqb complexity_level "medium"); [assumption|].
    destruct (String.eqb complexity_level "high"); [assumption|].
    split; vm_compute; reflexivity. }
  clearbody multiplier.
  destruct (to_float_nonneg n Hn Hfin) as (x & Hx & Hxn).
  assert (is_finite x = true) as Hxf.
  { unfold to_float in Hx. rewrite Hfin in Hx. injection Hx as <-. exact Hfin. }
  unfold float_mul_int. rewrite Hx. cbn [bind].
  rewrite Hb. cbn [bind].
  pose proof (fmul_finite_count _ _ Hmul Hxn Hxf) as Hbase.
  pose proof (fmul_nonneg_positive _ _ Hbase Hbp) as Htotal.
  destruct (round1_number _ Htotal) as (v & Hv & Hvn & _).
  exists v. split; [exact Hv | exact Hvn].
Qed.

(** A count that float cannot hold stops [get_time_estimate] at its first
    product, whatever the thresholds. *)
Lemma time_estimate_overflow (self : config.AnalysisConfig)
      (complexity_level : string) (n : Z) :
  is_finite (float_of_int n) = false ->
  config.get_time_estimate self complexity_level n = Raise OverflowError.
Proof.
  intros Hinf. unfold config.get_time_estimate, float_mul_int, to_float.
  rewrite Hinf. reflexivity.
Qed.

(** C8, as amended. The thresholds are any that [spec.config_valid]
    admits: multipliers that are finite and not negative, and a total
    buffer that, added to 1, gives a positive finite number; the default
    thresholds and those of example_usage.py are such. For every Feature
    whose commit count is not negative and whose dependency list has a
    length that a list can have: when the count is one that float can hold
    (any count below 2^1023 is, see [to_float_returns]),
    estimate_development_time returns; what it returns is the same at
    every call on this Feature, is at least zero, and is left unchanged by
    round(., 1); for a count of some 300 digits it is the positive
    infinity, which is at least zero and which round(., 1) leaves as it
    is. When float cannot hold the count, the product of the multiplier
    and the count raises OverflowError, and nothing is returned. *)
Theorem estimate_development_time_rounded
        (self : config.AnalysisConfig) (feature : Feature) :
  spec.config_valid self ->
  0 <= commit_count feature ->
  len (dependencies feature) <= maxsize ->
  (is_finite (float_of_int (commit_count feature)) = true ->
   exists hours,
     estimate_development_time self feature = Return hours /\
     (forall again,
         estimate_development_time self feature = Return again ->
         again = hours) /\
     fge hours (S754_zero false) = true /\
     round1 hours = Return hours) /\
  (is_finite (float_of_int (commit_count feature)) = false ->
   estimate_development_time self feature = Raise OverflowError).
Proof.
  intros Hconfig Hcount Hdeps. split.
  - intros Hfits.
    enough (exists hours,
               estimate_development_time self feature = Return hours /\
               fge hours (S754_zero false) = true /\
               round1 hours = Return hours) as (hours & Hr & Hge & Hidem).
    { exists hours. split; [exact Hr|]. split; [|split; assumption].
      intros again Hagain. congruence. }
    unfold estimate_development_time.
    destruct (time_estimate_number self (complexity feature) (commit_count feature)
                Hconfig Hcount Hfits) as (base_hours & -> & Hbase).
    cbn [bind].
    set (adjustments := if String.eqb (risk_level feature) "High" then _ else _).
    assert (spec.normal_between (-53) (-52) adjustments) as Hadj.
    { subst adjustments.
      destruct (String.eqb (business_value feature) "Critical"),
               (String.eqb (business_value feature) "Minimal"),
               (String.eqb (risk_level feature) "High"),
               (String.eqb (risk_level feature) "Low"); normal_const. }
    clearbody adjustments.
    assert (exists a,
               match dependencies feature with
               | [] => Return adjustments
               | _ :: _ =>
                   t <- int_mul_float (len (dependencies feature)) (lit 1 1) ;;
                   u <- int_add_float 1 t ;;
                   Return (fmul adjustments u)
               end = Return a /\ spec.normal_between (-53) 13 a)
      as (a & -> & Ha).
    { destruct (dependencies feature) as [|d ds] eqn:Hd.
      - exists adjustments. split; [reflexivity|].
        apply normal_between_weaken with (1 := Hadj); lia.
      - pose proof (len_nonneg ds) as Hds. rewrite len_cons in Hdeps.
        destruct (dependency_factor_normal (len (d :: ds))
                    ltac:(rewrite len_cons; lia)) as (u & Hu & Hun).
        destruct (int_mul_float (len (d :: ds)) (lit 1 1)) as [t | err];
          [|discriminate Hu].
        cbn [bind] in Hu |- *. rewrite Hu. cbn [bind].
        eexists. split; [reflexivity|].
        pose proof (fmul_normal_normal _ _ _ _ _ _ Hadj Hun ltac:(lia) ltac:(lia))
          as H.
        apply normal_between_weaken with (1 := H); lia. }
    cbn [bind].
    pose proof (normal_positive _ _ _ Ha ltac:(lia) ltac:(lia)) as Hap.
    pose proof (fmul_nonneg_positive _ _ Hbase Hap) as Hprod.
    destruct (round1_number _ Hprod) as (hours & Hr & Hn & Hidem).
    exists hours. split; [exact Hr|]. split; [|exact Hidem].
    apply nonneg_number_fge with (1 := Hn).
  - intros Hinf. unfold estimate_development_time.
    rewrite (time_estimate_overflow self _ _ Hinf). reflexivity.
Qed.

End Estimate.

(** The estimate of the payment feature: 6.0 * 7 * 1.2 is 50.4 hours, and
    the adjustments 1.2 * 1.3 * 1.2 bring it to 94.3 hours. *)
Example payments_estimate :
  feature_mapper.estimate_development_time config.default payments_feature
  = Py.Return (Py.lit 943 1).
Proof. vm_compute. reflexivity. Qed.

(** The thresholds of example_usage.py are among those that C8 is about,
    and so are the default ones. *)
Lemma custom_config_valid : spec.config_valid custom_config.
Proof.
  repeat split; try (vm_compute; reflexivity).
  eexists. split; vm_compute; reflexivity.
Qed.

Lemma default_config_valid : spec.config_valid config.default.
Proof.
  repeat split; try (vm_compute; reflexivity).
  eexists. split; vm_compute; reflexivity.
Qed.

(** With 8.0 hours for a commit of a complex feature the estimate of the
    payment feature is 8.0 * 7 * 1.2, 67.2 hours, brought by the
    adjustments to 125.8 hours. *)
Example payments_estimate_custom :
  feature_mapper.estimate_development_time custom_config payments_feature
  = Py.Return (Py.lit 1258 1).
Proof. vm_compute. reflexivity. Qed.

(** C8 on the payment feature, with the thresholds of example_usage.py. *)
Lemma estimate_development_time_rounded_witness :
  exists hours,
    feature_mapper.estimate_development_time custom_config payments_feature
    = Py.Return hours /\
    (forall again,
        feature_mapper.estimate_development_time custom_config payments_feature
        = Py.Return again -> again = hours) /\
    Py.fge hours (S754_zero false) = true /\
    Py.round1 hours = Py.Return hours.
Proof.
  apply (estimate_development_time_rounded custom_config payments_feature).
  - repeat split; try (vm_compute; reflexivity).
    eexists. split; vm_compute; reflexivity.
  - vm_compute. discriminate.
  - vm_compute. discriminate.
  - vm_compute. reflexivity.
Defined.

(** C8, as stated, fails on a Feature whose commit count float cannot
    hold: the product of the multiplier and the count raises
    OverflowError, and nothing is returned. *)
Lemma estimate_development_time_overflow :
  0 <= feature_mapper.commit_count countless_feature /\
  feature_mapper.estimate_development_time config.default countless_feature
  = Py.Raise Py.OverflowError.
Proof. split; [vm_compute; discriminate | vm_compute; reflexivity]. Qed.

(** ** Further properties: thresholds, team size, contributors *)

Section ComplexityLevel.
Import Py.

(** X1. The complexity level of [get_complexity_level] never goes down
    when the lines of code or the commit count go up, whatever the
    thresholds are. *)
Theorem get_complexity_level_monotone (self : config.AnalysisConfig)
        (loc loc' commit_count commit_count' : Z) :
  loc <= loc' -> commit_count <= commit_count' ->
  exists t t',
    spec.tier (config.get_complexity_level self loc commit_count) = Some t /\
    spec.tier (config.get_complexity_level self loc' commit_count') = Some t' /\
    t <= t'.
Proof.
  intros Hloc Hcc. unfold config.get_complexity_level.
  destruct (Z.leb_spec loc (config.LOW_COMPLEXITY_LOC (config.complexity self)));
    destruct (Z.leb_spec commit_count
                (config.LOW_COMPLEXITY_COMMITS (config.complexity self)));
    destruct (Z.leb_spec loc' (config.LOW_COMPLEXITY_LOC (config.complexity self)));
    destruct (Z.leb_spec commit_count'
                (config.LOW_COMPLEXITY_COMMITS (config.complexity self)));
    destruct (Z.leb_spec loc (config.MEDIUM_COMPLEXITY_LOC (config.complexity self)));
    destruct (Z.leb_spec commit_count
                (config.MEDIUM_COMPLEXITY_COMMITS (config.complexity self)));
    destruct (Z.leb_spec loc' (config.MEDIUM_COMPLEXITY_LOC (config.complexity self)));
    destruct (Z.leb_spec commit_count'
                (config.MEDIUM_COMPLEXITY_COMMITS (config.complexity self)));
    cbn [andb]; try lia;
    do 2 eexists; (split; [reflexivity | split; [reflexivity | lia]]).
Qed.

End ComplexityLevel.

(** X1 from 50 lines in 2 commits to 200 lines in 5 commits. *)
Lemma get_complexity_level_monotone_witness :
  exists t t',
    spec.tier (config.get_complexity_level config.default 50 2) = Some t /\
    spec.tier (config.get_complexity_level config.default 200 5) = Some t' /\
    t <= t'.
Proof.
  apply (get_complexity_level_monotone config.default 50 200 2 5); lia.
Defined.

Section TeamSize.
Import Py developer_analyzer.

Lemma bus_factor_loop_length total (l l' : list DeveloperProfile) k :
  List.length l = List.length l' ->
  bus_factor_loop total l k = bus_factor_loop total l' k.
Proof.
  revert l' k. induction l as [|p l IH]; intros [|p' l'] k Hlen;
    try discriminate; [reflexivity|].
  cbn [bus_factor_loop].
  destruct (int_mul_float total (lit 7 1)) as [threshold|]; [|reflexivity].
  cbn [bind]. destruct (int_ge_float _ _); [reflexivity|].
  apply IH. cbn [List.length] in Hlen. congruence.
Qed.

Lemma keyed_length profiles acc keyed :
  for_each (fun acc p => w <- value_weight (business_value p) ;;
                         Return (acc ++ [(w, p)])%list)
           profiles acc = Return keyed ->
  List.length keyed = (List.length acc + List.length profiles)%nat.
Proof.
  revert acc. induction profiles as [|p l IH]; intros acc; cbn [for_each].
  - intros [= <-]. cbn. lia.
  - destruct (value_weight (business_value p)) as [w|]; [|discriminate].
    cbn [bind]. intros H. apply IH in H. rewrite H, length_app. cbn. lia.
Qed.

(** X2. The bus factor is a function of the team size alone: two teams
    of the same size whose profiles carry business-value tiers have the
    same bus factor, so that the sort by business value has no effect on
    it. *)
Theorem bus_factor_by_team_size (team team' : list DeveloperProfile) :
  spec.tiers_valid team -> spec.tiers_valid team' ->
  len team = len team' ->
  _calculate_bus_factor team = _calculate_bus_factor team'.
Proof.
  intros Hv Hv' Hlen.
  assert (List.length team = List.length team') as Hn by (unfold len in Hlen; lia).
  unfold _calculate_bus_factor.
  destruct team as [|p l], team' as [|p' l']; try discriminate; [reflexivity|].
  destruct (keyed_returns (p :: l) [] Hv) as (keyed & Hk & _).
  destruct (keyed_returns (p' :: l') [] Hv') as (keyed' & Hk' & _).
  rewrite Hk, Hk'. cbn [bind]. rewrite Hlen.
  apply bus_factor_loop_length.
  apply keyed_length in Hk. apply keyed_length in Hk'.
  rewrite !length_map, !sorted_desc_length. cbn [List.length] in *. lia.
Qed.

Lemma tier_primary_or_secondary v :
  spec.is_tier v = true ->
  str_in v ["Medium"; "Low"; "Minimal"] = negb (str_in v ["Critical"; "High"]).
Proof.
  unfold spec.is_tier, str_in. cbn [existsb].
  rewrite !orb_true_iff, !String.eqb_eq.
  intros [-> | [-> | [-> | [-> | [-> | H]]]]]; try discriminate; reflexivity.
Qed.

(** X3. With business-value tiers on every profile, the primary and the
    secondary contributors of [_categorize_contributors] are, together,
    the names of the team: nobody is left out and nobody is in both. *)
Theorem contributors_partition (team : list DeveloperProfile) :
  spec.tiers_valid team ->
  Permutation (fst (_categorize_contributors team)
               ++ snd (_categorize_contributors team))%list
              (map name team).
Proof.
  unfold _categorize_contributors, with_value. cbn [fst snd].
  induction team as [|p l IH]; intros Hv; [reflexivity|].
  inversion Hv as [|? ? Hp Hl]; subst. specialize (IH Hl).
  cbn [filter]. rewrite (tier_primary_or_secondary _ Hp).
  destruct (str_in (business_value p) ["Critical"; "High"]); cbn [negb map app].
  - apply perm_skip. exact IH.
  - rewrite <- Permutation_middle. apply perm_skip. exact IH.
Qed.

End TeamSize.

(** X2 on two teams of five. *)
Lemma bus_factor_by_team_size_witness :
  developer_analyzer._calculate_bus_factor mixed_team
  = developer_analyzer._calculate_bus_factor five_newcomers.
Proof.
  apply (bus_factor_by_team_size mixed_team five_newcomers).
  - repeat constructor.
  - repeat constructor.
  - reflexivity.
Defined.

(** X3 on the team of five. *)
Lemma contributors_partition_witness :
  Permutation (fst (developer_analyzer._categorize_contributors mixed_team)
               ++ snd (developer_analyzer._categorize_contributors mixed_team))%list
              (map developer_analyzer.name mixed_team).
Proof.
  apply (contributors_partition mixed_team). repeat constructor.
Defined.

Example mixed_team_contributors :
  developer_analyzer._categorize_contributors mixed_team
  = (["ana"; "ben"], ["eve"; "gus"; "kim"]) /\
  developer_analyzer._calculate_bus_factor mixed_team = Py.Return 4.
Proof. split; vm_compute; reflexivity. Qed.

Section Confidence.
Import Py feature_mapper.

(** X4. The confidence of a feature candidate is at least 0.5 and at most
    1.0, whatever the candidate holds. *)
Theorem feature_confidence_range (feature_data : FeatureData) :
  fge (_calculate_feature_confidence feature_data) (lit 5 1) = true /\
  fle (_calculate_feature_confidence feature_data) (lit 10 1) = true.
Proof.
  unfold _calculate_feature_confidence.
  destruct (data_commits feature_data), (data_start_date feature_data),
    (data_end_date feature_data), (data_lines_changed feature_data >? 0),
    (data_tags feature_data); split; vm_compute; reflexivity.
Qed.

End Confidence.

(** ** Further properties: the feature candidates *)

Section Candidates.
Import Py git_analyzer feature_mapper.

Lemma update_keys k f d :
  map fst (update k f d)
  = if has_key k d then map fst d else (map fst d ++ [k])%list.
Proof.
  unfold has_key. induction d as [|[k' v] d IH]; cbn [update existsb map fst app].
  - reflexivity.
  - destruct (String.eqb k k'); cbn [orb map fst]; [reflexivity|].
    rewrite IH. destruct (existsb _ d); reflexivity.
Qed.

Lemma has_key_In k d : has_key k d = true <-> In k (map fst d).
Proof.
  unfold has_key. rewrite existsb_exists. split.
  - intros ([k' v] & Hin & Heq). apply String.eqb_eq in Heq. subst k'.
    apply in_map_iff. exists (k, v). split; [reflexivity | assumption].
  - intros Hin. apply in_map_iff in Hin. destruct Hin as ([k' v] & Hk & Hin).
    cbn [fst] in Hk. subst k'. exists (k, v). split; [assumption|].
    apply String.eqb_refl.
Qed.

Lemma update_NoDup k f d : NoDup (map fst d) -> NoDup (map fst (update k f d)).
Proof.
  intros Hd. rewrite update_keys. destruct (has_key k d) eqn:Hk; [assumption|].
  apply NoDup_app; [assumption | repeat constructor; intros [] |].
  intros x Hx [<- | []]. apply has_key_In in Hx. congruence.
Qed.

Lemma update_values (P : FeatureData -> Prop) k f d :
  P (f empty_data) -> (forall v, P v -> P (f v)) ->
  Forall (fun e => P (snd e)) d -> Forall (fun e => P (snd e)) (update k f d).
Proof.
  intros Hnew Hf. induction d as [|[k' v] d IH]; intros Hd; cbn [update].
  - repeat constructor. exact Hnew.
  - inversion Hd as [|? ? Hv Hrest]; subst.
    destruct (String.eqb k k'); constructor; cbn [snd] in *; auto.
Qed.

Lemma tags_of_commit_candidate commit :
  Forall (fun t => str_in t spec.candidate_tags = true)
         (_extract_tags_from_commit commit).
Proof.
  unfold _extract_tags_from_commit, tag_patterns. cbn [filter].
  repeat match goal with
         | |- context [any_in ?ks ?m] => destruct (any_in ks m)
         end; cbn [map fst]; repeat constructor.
Qed.

Lemma set_update_candidate tags new :
  Forall (fun t => str_in t spec.candidate_tags = true) tags ->
  Forall (fun t => str_in t spec.candidate_tags = true) new ->
  Forall (fun t => str_in t spec.candidate_tags = true) (set_update tags new).
Proof.
  unfold set_update. revert tags.
  induction new as [|t new IH]; intros tags Ht Hn; cbn [fold_left]; [assumption|].
  inversion Hn; subst. apply IH; [|assumption].
  destruct (str_in t tags); [assumption|].
  apply Forall_app. split; [assumption | repeat constructor; assumption].
Qed.

Lemma record_commit_candidate commit data :
  spec.candidate data -> spec.candidate (record_commit commit data).
Proof.
  intros [Ht Hd]. split; cbn [record_commit data_tags data_commits
                               data_start_date data_end_date].
  - apply set_update_candidate; [assumption | apply tags_of_commit_candidate].
  - destruct (data_commits data ++ [commit])%list eqn:Happ;
      [destruct (data_commits data); discriminate|].
    split.
    + destruct (data_start_date data); [destruct (dt_lt _ _)|]; discriminate.
    + destruct (data_end_date data); [destruct (dt_gt _ _)|]; discriminate.
Qed.

Lemma empty_data_candidate : spec.candidate empty_data.
Proof. split; cbn; [constructor | split; reflexivity]. Qed.

Lemma structure_data_candidate : spec.candidate structure_data.
Proof. split; cbn; [repeat constructor | split; reflexivity]. Qed.

Lemma extend_tags_candidate new data :
  Forall (fun t => str_in t spec.candidate_tags = true) new ->
  spec.candidate data -> spec.candidate (extend_tags new data).
Proof.
  intros Hn [Ht Hd]. split; cbn [extend_tags data_tags data_commits
                                  data_start_date data_end_date].
  - apply Forall_app. split; assumption.
  - exact Hd.
Qed.

Lemma commit_candidates commits d :
  spec.candidates d ->
  spec.candidates
    (fold_left
       (fun features commit =>
          match _extract_feature_name_from_commit commit with
          | Some (String c rest) =>
              update (String c rest) (record_commit commit) features
          | _ => features
          end)
       commits d).
Proof.
  revert d. induction commits as [|c l IH]; intros d Hd; cbn [fold_left];
    [assumption|].
  apply IH. destruct (_extract_feature_name_from_commit c) as [[|a rest]|];
    try assumption.
  destruct Hd as [Hk Hv]. split; [now apply update_NoDup|].
  apply update_values; [| |assumption].
  - apply record_commit_candidate, empty_data_candidate.
  - intros v. apply record_commit_candidate.
Qed.

Lemma structure_candidates dirs d :
  spec.candidates d ->
  spec.candidates
    (fold_left
       (fun features directory =>
          if _is_feature_directory directory then
            match _extract_feature_name_from_directory directory with
            | EmptyString => features
            | feature_name => update feature_name (fun _ => structure_data) features
            end
          else features)
       dirs d).
Proof.
  revert d. induction dirs as [|x l IH]; intros d Hd; cbn [fold_left];
    [assumption|].
  apply IH. destruct (_is_feature_directory x); [|assumption].
  destruct (_extract_feature_name_from_directory x) as [|a rest]; [assumption|].
  destruct Hd as [Hk Hv]. split; [now apply update_NoDup|].
  apply update_values; [| |assumption]; intros; apply structure_data_candidate.
Qed.

Lemma merge_candidates commit_features dir_features :
  spec.candidates commit_features -> spec.candidates dir_features ->
  spec.candidates (_merge_features commit_features dir_features).
Proof.
  intros [_ Hc] [_ Hd]. unfold _merge_features.
  assert (forall l d,
             Forall (fun e => spec.candidate (snd e)) l -> spec.candidates d ->
             spec.candidates (fold_left (fun m '(name, data) =>
                                      update name (fun _ => data) m) l d)) as Hfirst.
  { induction l as [|[k v] l IH]; intros d Hl Hm; cbn [fold_left]; [assumption|].
    inversion Hl; subst; cbn [snd] in *. apply IH; [assumption|].
    destruct Hm as [Hk Hv]. split; [now apply update_NoDup|].
    apply update_values; auto. }
  assert (forall l d,
             Forall (fun e => spec.candidate (snd e)) l -> spec.candidates d ->
             spec.candidates
               (fold_left
                  (fun m '(name, data) =>
                     if has_key name m
                     then update name (extend_tags (data_tags data)) m
                     else update name (fun _ => data) m) l d)) as Hsecond.
  { induction l as [|[k v] l IH]; intros d Hl Hm; cbn [fold_left]; [assumption|].
    inversion Hl as [|? ? Hv' Hrest]; subst; cbn [snd] in *.
    apply IH; [assumption|].
    destruct Hm as [Hk Hv]. destruct (has_key k d).
    - split; [now apply update_NoDup|].
      apply update_values; [| |assumption].
      + apply extend_tags_candidate; [apply Hv' | apply empty_data_candidate].
      + intros w. apply extend_tags_candidate, Hv'.
    - split; [now apply update_NoDup|].
      apply update_values; auto. }
  apply Hsecond; [assumption|].
  apply Hfirst; [assumption|]. split; constructor.
Qed.

(** The candidates that [identify_features] turns into features. *)
Lemma all_candidates commits repo_structure :
  spec.candidates (_merge_features (_extract_features_from_commits commits)
                              (_extract_features_from_structure repo_structure)).
Proof.
  apply merge_candidates.
  - apply commit_candidates. split; constructor.
  - apply structure_candidates. split; constructor.
Qed.

End Candidates.

Section Identified.
Import Py git_analyzer feature_mapper.
Variable self : config.AnalysisConfig.

(** What [_create_feature_object] copies from the candidate. *)
Lemma created_feature_fields feature_name feature_data commits f :
  _create_feature_object self feature_name feature_data commits = Some f ->
  name f = feature_name /\
  commit_count f = len (data_commits feature_data) /\
  lines_of_code f = data_lines_changed feature_data /\
  status f = _determine_feature_status feature_data /\
  business_value f = _determine_business_value feature_name feature_data /\
  priority f = _determine_priority feature_name feature_data /\
  risk_level f = _determine_risk_level feature_data /\
  start_date f = data_start_date feature_data /\
  end_date f = data_end_date feature_data /\
  dependencies f = _extract_dependencies feature_data /\
  tags f = data_tags feature_data.
Proof.
  unfold _create_feature_object, create_feature.
  destruct (estimate_development_time _ _) as [h|]; cbn [bind]; [|discriminate].
  intros [= <-]. cbn. repeat split; reflexivity.
Qed.

(** Every feature that the loop of [identify_features] collects was there
    before or comes from a candidate. *)
Lemma collected_from all_features commits acc f :
  In f (fold_left
          (fun features '(feature_name, feature_data) =>
             match _create_feature_object self feature_name feature_data commits with
             | Some feature => (features ++ [feature])%list
             | None => features
             end)
          all_features acc) ->
  In f acc \/
  exists feature_name feature_data,
    In (feature_name, feature_data) all_features /\
    _create_feature_object self feature_name feature_data commits = Some f.
Proof.
  revert acc. induction all_features as [|[n d] l IH]; intros acc; cbn [fold_left].
  - auto.
  - intros Hin. apply IH in Hin.
    destruct Hin as [Hin | (n' & d' & Hin & Hc)].
    + destruct (_create_feature_object self n d commits) as [g|] eqn:Hg;
        [|now left].
      apply in_app_iff in Hin. destruct Hin as [Hin | [<- | []]]; [now left|].
      right. exists n, d. split; [now left | assumption].
    + right. exists n', d'. split; [now right | assumption].
Qed.

Lemma identified_from commits repo_structure f :
  In f (identify_features self commits repo_structure) ->
  exists feature_name feature_data,
    spec.candidate feature_data /\
    _create_feature_object self feature_name feature_data commits = Some f.
Proof.
  unfold identify_features. intros Hin. apply In_sorted_desc in Hin.
  apply collected_from in Hin. destruct Hin as [[] | (n & d & Hin & Hc)].
  exists n, d. split; [|assumption].
  destruct (all_candidates commits repo_structure) as [_ Hv].
  rewrite Forall_forall in Hv. apply (Hv (n, d) Hin).
Qed.

Lemma candidate_tag_in x tags :
  Forall (fun t => str_in t spec.candidate_tags = true) tags ->
  str_in x tags = true -> str_in x spec.candidate_tags = true.
Proof.
  intros Ht Hx. unfold str_in in Hx. apply existsb_exists in Hx.
  destruct Hx as (t & Hin & Heq). apply String.eqb_eq in Heq. subst t.
  rewrite Forall_forall in Ht. now apply Ht.
Qed.

Lemma candidate_no_dependencies feature_data :
  spec.candidate feature_data -> _extract_dependencies feature_data = [].
Proof.
  intros [Ht _]. unfold _extract_dependencies.
  destruct (str_in "api" (data_tags feature_data)) eqn:H1;
    [apply (candidate_tag_in _ _ Ht) in H1; discriminate|].
  destruct (str_in "database" (data_tags feature_data)) eqn:H2;
    [apply (candidate_tag_in _ _ Ht) in H2; discriminate|].
  destruct (str_in "ui" (data_tags feature_data)) eqn:H3;
    [apply (candidate_tag_in _ _ Ht) in H3; discriminate|].
  reflexivity.
Qed.

(** X5. No feature that [identify_features] returns has a dependency:
    the tags that the extraction gives are never 'api', 'database' or
    'ui', the only ones [_extract_dependencies] looks for. *)
Theorem identified_features_no_dependencies
        (commits : list CommitInfo) (repo_structure : RepoStructure) :
  Forall (fun f => dependencies f = [])
         (identify_features self commits repo_structure).
Proof.
  apply Forall_forall. intros f Hin.
  destruct (identified_from _ _ _ Hin) as (n & d & Hd & Hc).
  apply created_feature_fields in Hc.
  destruct Hc as (_ & _ & _ & _ & _ & _ & _ & _ & _ & -> & _).
  now apply candidate_no_dependencies.
Qed.

(** X6. A feature that [identify_features] returns is 'completed', with
    commits and both dates, or 'planned', with no commit and no date; it
    is never 'in_progress', as the first commit of a feature sets both of
    its dates. *)
Theorem identified_features_status
        (commits : list CommitInfo) (repo_structure : RepoStructure) :
  Forall (fun f =>
            (status f = "completed" /\ 0 < commit_count f /\
             start_date f <> None /\ end_date f <> None) \/
            (status f = "planned" /\ commit_count f = 0 /\
             start_date f = None /\ end_date f = None))
         (identify_features self commits repo_structure).
Proof.
  apply Forall_forall. intros f Hin.
  destruct (identified_from _ _ _ Hin) as (n & d & [_ Hd] & Hc).
  apply created_feature_fields in Hc.
  destruct Hc as (_ & -> & _ & -> & _ & _ & _ & -> & -> & _).
  unfold _determine_feature_status.
  destruct (data_commits d) as [|c l].
  - right. destruct Hd as [-> ->]. repeat split; reflexivity.
  - left. destruct Hd as [Hs He].
    destruct (data_end_date d); [|congruence].
    rewrite len_cons. pose proof (len_nonneg l). repeat split; auto; lia.
Qed.

(** X7. The business value of a feature that [identify_features] returns
    is 'High' or 'Medium', and its priority is the same word. *)
Theorem identified_features_value_and_priority
        (commits : list CommitInfo) (repo_structure : RepoStructure) :
  Forall (fun f =>
            (business_value f = "High" \/ business_value f = "Medium") /\
            priority f = business_value f)
         (identify_features self commits repo_structure).
Proof.
  apply Forall_forall. intros f Hin.
  destruct (identified_from _ _ _ Hin) as (n & d & _ & Hc).
  apply created_feature_fields in Hc.
  destruct Hc as (_ & _ & _ & _ & -> & -> & _).
  unfold _determine_priority, _determine_business_value.
  destruct (any_in _ _); [split; [now left | reflexivity]|].
  destruct (any_in _ _); split; auto.
Qed.

Lemma collected_names all_features commits acc :
  NoDup (map name acc ++ map fst all_features)%list ->
  NoDup (map name
           (fold_left
              (fun features '(feature_name, feature_data) =>
                 match _create_feature_object self feature_name feature_data commits with
                 | Some feature => (features ++ [feature])%list
                 | None => features
                 end)
              all_features acc)).
Proof.
  revert acc. induction all_features as [|[n d] l IH]; intros acc Hnd;
    cbn [fold_left].
  - cbn [map] in Hnd. now rewrite app_nil_r in Hnd.
  - cbn [map fst] in Hnd. apply IH.
    destruct (_create_feature_object self n d commits) as [g|] eqn:Hg.
    + apply created_feature_fields in Hg. destruct Hg as [Hname _].
      rewrite map_app. cbn [map]. rewrite Hname, <- app_assoc. exact Hnd.
    + now apply NoDup_remove_1 in Hnd.
Qed.

(** X8. The features that [identify_features] returns have names that
    differ from one another. *)
Theorem identified_features_distinct_names
        (commits : list CommitInfo) (repo_structure : RepoStructure) :
  NoDup (map name (identify_features self commits repo_structure)).
Proof.
  unfold identify_features.
  eapply Permutation_NoDup.
  - apply Permutation_map. symmetry. apply sorted_desc_perm.
  - apply collected_names. cbn [map app].
    apply (all_candidates commits repo_structure).
Qed.

End Identified.

(** ** Further properties: which commits a feature gathers *)

Section Gather.
Import Py git_analyzer feature_mapper.

Lemma update_In k v n f d :
  NoDup (map fst d) -> In (k, v) (update n f d) ->
  (k = n /\ ((exists v0, In (n, v0) d /\ v = f v0) \/
             (has_key n d = false /\ v = f empty_data))) \/
  (k <> n /\ In (k, v) d).
Proof.
  induction d as [|[k' v'] d IH]; intros Hnd; cbn [update].
  - intros [[= <- <-] | []]. left. split; [reflexivity|]. right. now split.
  - inversion Hnd as [|? ? Hk' Hd]; subst.
    destruct (String.eqb_spec n k') as [<- | Hne].
    + intros [[= <- <-] | Hin].
      * left. split; [reflexivity|]. left. exists v'. split; [now left | reflexivity].
      * right. split; [|now right].
        intros ->. apply Hk'. apply in_map_iff. now exists (n, v).
    + intros [[= <- <-] | Hin].
      * right. split; [congruence | now left].
      * destruct (IH Hd Hin) as [[-> [(v0 & Hv0 & ->) | [Hno ->]]] | [Hkn Hin']].
        -- left. split; [reflexivity|]. left. exists v0. split; [now right | reflexivity].
        -- left. split; [reflexivity|]. right. split; [|reflexivity].
           unfold has_key in *. cbn [existsb].
           destruct (String.eqb_spec n k'); [contradiction | exact Hno].
        -- right. split; [assumption | now right].
Qed.

Lemma has_key_update k n f d :
  has_key k (update n f d) = has_key k d || String.eqb k n.
Proof.
  destruct (has_key k (update n f d)) eqn:H1.
  - apply has_key_In in H1. rewrite update_keys in H1. symmetry.
    destruct (has_key n d) eqn:Hn.
    + apply has_key_In in H1. now rewrite H1.
    + apply in_app_iff in H1. destruct H1 as [H1 | [<- | []]].
      * apply has_key_In in H1. now rewrite H1.
      * rewrite String.eqb_refl. apply orb_true_r.
  - symmetry. apply orb_false_iff. split.
    + destruct (has_key k d) eqn:H2; [|reflexivity].
      apply has_key_In in H2.
      assert (In k (map fst (update n f d))) as H3.
      { rewrite update_keys. destruct (has_key n d); [assumption|].
        apply in_app_iff. now left. }
      apply has_key_In in H3. congruence.
    + destruct (String.eqb_spec k n) as [-> | Hne]; [|reflexivity].
      assert (In n (map fst (update n f d))) as H3.
      { rewrite update_keys. destruct (has_key n d) eqn:Hn.
        - now apply has_key_In.
        - apply in_app_iff. right. now left. }
      apply has_key_In in H3. congruence.
Qed.

Lemma lines_changed_snoc l c :
  spec.lines_changed (l ++ [c])
  = spec.lines_changed l + (lines_added c + lines_deleted c).
Proof.
  unfold spec.lines_changed. rewrite map_app, fold_left_app. reflexivity.
Qed.

Lemma filed_under_name c k :
  spec.filed_under k c = true <-> spec.commit_feature c = Some k.
Proof.
  unfold spec.filed_under. destruct (spec.commit_feature c) as [n|].
  - rewrite String.eqb_eq. split; congruence.
  - split; discriminate.
Qed.

(** The state of the dict of [_extract_features_from_commits] once the
    commits [seen] have gone through the loop. *)
Lemma gathered_step seen c d :
  spec.gathered seen d ->
  spec.gathered (seen ++ [c])
    (match _extract_feature_name_from_commit c with
     | Some (String a rest) => update (String a rest) (record_commit c) d
     | _ => d
     end).
Proof.
  intros (Hnd & Hval & Hmiss).
  assert (spec.commit_feature c = None ->
          spec.gathered (seen ++ [c]) d) as Hnone.
  { intros Hc. split; [assumption|]. split.
    - intros k v Hin. destruct (Hval k v Hin) as (Hc1 & Hc2 & Hc3).
      rewrite filter_app. cbn [filter]. unfold spec.filed_under at 2.
      rewrite Hc, app_nil_r. auto.
    - intros k Hk. rewrite filter_app, (Hmiss k Hk). cbn [filter app].
      unfold spec.filed_under. now rewrite Hc. }
  unfold spec.commit_feature in Hnone.
  destruct (_extract_feature_name_from_commit c) as [[|a rest]|] eqn:Hname;
    try (apply Hnone; reflexivity).
  clear Hnone. set (n := String a rest) in *.
  assert (spec.commit_feature c = Some n) as Hc
      by (unfold spec.commit_feature; now rewrite Hname).
  assert (forall k, spec.filed_under k c = String.eqb n k) as Hf
      by (intros k; unfold spec.filed_under; now rewrite Hc).
  split; [now apply update_NoDup|]. split.
  - intros k v Hin. apply update_In in Hin; [|assumption].
    rewrite filter_app. cbn [filter]. rewrite Hf.
    destruct Hin as [[-> [(v0 & Hv0 & ->) | [Hno ->]]] | [Hkn Hin]].
    + rewrite String.eqb_refl. destruct (Hval n v0 Hv0) as (Hc1 & Hc2 & Hc3).
      cbn [record_commit data_commits data_lines_changed].
      rewrite Hc1 at 1. split; [reflexivity|]. split.
      * destruct (data_commits v0); discriminate.
      * rewrite Hc3. symmetry. apply lines_changed_snoc.
    + rewrite String.eqb_refl, (Hmiss n Hno).
      cbn [record_commit empty_data data_commits data_lines_changed app].
      split; [reflexivity|]. split; [discriminate|].
      unfold spec.lines_changed. cbn. lia.
    + destruct (String.eqb_spec n k) as [E | _]; [congruence|].
      rewrite app_nil_r. apply (Hval k v Hin).
  - intros k Hk. rewrite has_key_update in Hk. apply orb_false_iff in Hk.
    destruct Hk as [Hk Hkn]. rewrite filter_app, (Hmiss k Hk). cbn [filter app].
    rewrite Hf, String.eqb_sym, Hkn. reflexivity.
Qed.

Lemma gathered_all rest seen d :
  spec.gathered seen d ->
  spec.gathered (seen ++ rest)
    (fold_left
       (fun features commit =>
          match _extract_feature_name_from_commit commit with
          | Some (String a r) => update (String a r) (record_commit commit) features
          | _ => features
          end)
       rest d).
Proof.
  revert seen d. induction rest as [|c rest IH]; intros seen d Hd; cbn [fold_left].
  - now rewrite app_nil_r.
  - replace (seen ++ c :: rest)%list with ((seen ++ [c]) ++ rest)%list
      by (rewrite <- app_assoc; reflexivity).
    apply IH. now apply gathered_step.
Qed.

(** X9. [_extract_features_from_commits] files every commit under the
    feature name extracted from its message, if there is one: a feature
    holds exactly the commits with its name, in the order of the list,
    there is at least one, and its changed lines are the total of theirs;
    and every name extracted from a commit is a feature. *)
Theorem extracted_features_gather (commits : list CommitInfo) :
  let features := _extract_features_from_commits commits in
  NoDup (map fst features) /\
  (forall k v, In (k, v) features ->
               data_commits v = filter (spec.filed_under k) commits /\
               data_commits v <> [] /\
               data_lines_changed v = spec.lines_changed (data_commits v)) /\
  (forall c k, In c commits -> spec.commit_feature c = Some k ->
               In k (map fst features)).
Proof.
  cbv zeta. unfold _extract_features_from_commits.
  assert (spec.gathered [] []) as Hinit.
  { split; [constructor|]. split; [intros k v []|reflexivity]. }
  pose proof (gathered_all commits [] [] Hinit) as (Hnd & Hval & Hmiss).
  cbn [app] in *. split; [assumption|]. split; [assumption|].
  intros c k Hin Hc.
  match goal with |- In k (map fst ?d) => destruct (has_key k d) eqn:Hk end.
  - now apply has_key_In.
  - apply Hmiss in Hk.
    assert (In c (filter (spec.filed_under k) commits)) as Hf.
    { apply filter_In. split; [assumption|]. now apply filed_under_name. }
    rewrite Hk in Hf. destruct Hf.
Qed.

End Gather.

(** ** Further properties: merging the two kinds of candidates *)

Section Merge.
Import Py git_analyzer feature_mapper.

Lemma update_In_same n f v0 d :
  NoDup (map fst d) -> In (n, v0) d -> In (n, f v0) (update n f d).
Proof.
  induction d as [|[k' v'] d IH]; intros Hnd Hin; [destruct Hin|].
  inversion Hnd as [|? ? Hk' Hd]; subst. cbn [update].
  destruct (String.eqb_spec n k') as [<- | Hne].
  - destruct Hin as [[= <-] | Hin]; [now left|].
    exfalso. apply Hk'. apply in_map_iff. now exists (n, v0).
  - destruct Hin as [[= <- <-] | Hin]; [congruence|].
    right. now apply IH.
Qed.

Lemma update_In_other k v n f d :
  k <> n -> In (k, v) d -> In (k, v) (update n f d).
Proof.
  intros Hkn. induction d as [|[k' v'] d IH]; intros Hin; [destruct Hin|].
  cbn [update]. destruct (String.eqb_spec n k') as [<- | Hne].
  - destruct Hin as [[= <- <-] | Hin]; [congruence | now right].
  - destruct Hin as [[= <- <-] | Hin]; [now left | right; now apply IH].
Qed.

Lemma update_absent n f d :
  has_key n d = false -> update n f d = (d ++ [(n, f empty_data)])%list.
Proof.
  unfold has_key. induction d as [|[k' v'] d IH]; cbn [update existsb app];
    [reflexivity|].
  intros H. apply orb_false_iff in H. destruct H as [-> H].
  now rewrite IH.
Qed.

(** The first loop of [_merge_features] copies a dict with distinct keys. *)
Lemma merge_copy l d :
  NoDup (map fst d ++ map fst l)%list ->
  fold_left (fun m '(name, data) => update name (fun _ => data) m) l d
  = (d ++ l)%list.
Proof.
  revert d. induction l as [|[k v] l IH]; intros d Hnd; cbn [fold_left].
  - now rewrite app_nil_r.
  - cbn [map fst] in Hnd.
    assert (has_key k d = false) as Hk.
    { destruct (has_key k d) eqn:H; [|reflexivity].
      apply has_key_In in H. apply NoDup_remove_2 in Hnd.
      exfalso. apply Hnd. apply in_app_iff. now left. }
    rewrite update_absent by assumption. rewrite IH.
    + now rewrite <- app_assoc.
    + rewrite map_app. cbn [map fst]. now rewrite <- app_assoc.
Qed.

Lemma data_eq v w :
  spec.same_history v w -> data_tags w = data_tags v -> w = v.
Proof.
  destruct v, w. unfold spec.same_history. cbn. intros (-> & -> & -> & ->) ->.
  reflexivity.
Qed.

(** The second loop of [_merge_features]. *)
Lemma merge_second dir_features m :
  NoDup (map fst m) -> NoDup (map fst dir_features) ->
  let merged :=
    fold_left
      (fun m '(name, data) =>
         if has_key name m then update name (extend_tags (data_tags data)) m
         else update name (fun _ => data) m)
      dir_features m in
  (forall k v, In (k, v) m ->
               exists v', In (k, v') merged /\ spec.same_history v v' /\
                          spec.merged_tags dir_features k v v') /\
  (forall k w, In (k, w) dir_features -> has_key k m = false -> In (k, w) merged) /\
  (forall k, In k (map fst merged) <-> In k (map fst m) \/ In k (map fst dir_features)).
Proof.
  revert m. induction dir_features as [|[k0 w0] l IH]; intros m Hm Hl; cbv zeta;
    cbn [fold_left].
  - split; [|split].
    + intros k v Hin. exists v. split; [assumption|].
      split; [repeat split | right; split; [intros [] | reflexivity]].
    + intros k w [].
    + intros k. cbn. tauto.
  - inversion Hl as [|? ? Hk0 Hl']; subst.
    set (m1 := if has_key k0 m then update k0 (extend_tags (data_tags w0)) m
               else update k0 (fun _ => w0) m).
    assert (NoDup (map fst m1)) as Hm1
        by (subst m1; destruct (has_key k0 m); now apply update_NoDup).
    assert (forall k, has_key k m1 = has_key k m || String.eqb k k0) as Hkeys
        by (intros k; subst m1; destruct (has_key k0 m); apply has_key_update).
    destruct (IH m1 Hm1 Hl') as (Ha & Hb & Hc). cbv zeta in Ha, Hb, Hc.
    split; [|split].
    + intros k v Hin.
      assert (has_key k m = true) as Hk
          by (apply has_key_In, in_map_iff; now exists (k, v)).
      destruct (String.eqb_spec k k0) as [-> | Hne].
      * assert (In (k0, extend_tags (data_tags w0) v) m1) as Hin1
            by (subst m1; rewrite Hk; now apply update_In_same).
        destruct (Ha _ _ Hin1) as (v' & Hv' & Hsame & Htags).
        exists v'. split; [assumption|]. split; [exact Hsame|].
        left. exists w0. split; [now left|].
        destruct Htags as [(w & Hw & _) | [_ ->]]; [|reflexivity].
        exfalso. apply Hk0. apply in_map_iff. now exists (k0, w).
      * assert (In (k, v) m1) as Hin1
            by (subst m1; destruct (has_key k0 m); now apply update_In_other).
        destruct (Ha _ _ Hin1) as (v' & Hv' & Hsame & Htags).
        exists v'. split; [assumption|]. split; [assumption|].
        destruct Htags as [(w & Hw & Ht) | [Hno Ht]].
        -- left. exists w. split; [now right | assumption].
        -- right. split; [|assumption]. cbn [map fst]. intros [E | H]; auto.
    + intros k w [[= <- <-] | Hin] Hk.
      * assert (In (k0, w0) m1) as Hin1.
        { subst m1. rewrite Hk. rewrite update_absent by assumption.
          apply in_app_iff. right. now left. }
        destruct (Ha _ _ Hin1) as (v' & Hv' & Hsame & Htags).
        destruct Htags as [(w & Hw & _) | [_ Ht]].
        -- exfalso. apply Hk0. apply in_map_iff. now exists (k0, w).
        -- now rewrite <- (data_eq _ _ Hsame Ht).
      * apply Hb; [assumption|]. rewrite Hkeys, Hk.
        destruct (String.eqb_spec k k0) as [-> | _]; [|reflexivity].
        exfalso. apply Hk0. apply in_map_iff. now exists (k0, w).
    + intros k. rewrite Hc. cbn [map fst In].
      rewrite <- (has_key_In k m1), Hkeys, orb_true_iff, String.eqb_eq, has_key_In.
      intuition congruence.
Qed.

(** X10. When a name is a candidate of both kinds, [_merge_features]
    keeps the commits, changed lines and dates of the commit-based one
    and appends the tags of the directory-based one to its tags; a
    candidate of one kind only is kept as it is, and the merged names are
    the names of both dicts. *)
Theorem merge_features_keeps_history (commit_features dir_features : FeatureDict) :
  NoDup (map fst commit_features) -> NoDup (map fst dir_features) ->
  let merged := _merge_features commit_features dir_features in
  (forall k v, In (k, v) commit_features ->
               exists v', In (k, v') merged /\ spec.same_history v v' /\
                          spec.merged_tags dir_features k v v') /\
  (forall k w, In (k, w) dir_features -> ~ In k (map fst commit_features) ->
               In (k, w) merged) /\
  (forall k, In k (map fst merged)
             <-> In k (map fst commit_features) \/ In k (map fst dir_features)).
Proof.
  intros Hc Hd. cbv zeta. unfold _merge_features.
  rewrite merge_copy by (cbn [map app]; assumption). cbn [app].
  destruct (merge_second dir_features commit_features Hc Hd) as (Ha & Hb & Hk).
  cbv zeta in Ha, Hb, Hk. split; [exact Ha|]. split; [|exact Hk].
  intros k w Hin Hno. apply Hb; [assumption|].
  destruct (has_key k commit_features) eqn:H; [|reflexivity].
  apply has_key_In in H. contradiction.
Qed.

End Merge.

(** ** Further properties: the features found with the default thresholds *)

Section SortedByFloat.
Import Py.
Context {A : Type} (key : A -> float).

Lemma insert_desc_by_float x l :
  spec.is_number (key x) = true ->
  Forall (fun a => spec.is_number (key a) = true) l ->
  StronglySorted (fun a b => fge (key a) (key b) = true) l ->
  StronglySorted (fun a b => fge (key a) (key b) = true) (insert_desc flt key x l).
Proof.
  intros Hx. induction l as [|y l IH]; intros Hv Hs; cbn [insert_desc].
  - repeat constructor.
  - inversion Hv as [|? ? Hy Hl]; subst.
    apply StronglySorted_inv in Hs. destruct Hs as [Hs Hall].
    destruct (flt (key x) (key y)) eqn:Hlt.
    + constructor; [apply IH; assumption|].
      apply Forall_forall. intros z Hz. apply In_insert_desc in Hz.
      destruct Hz as [-> | Hz].
      * apply flt_true_fge; assumption.
      * rewrite Forall_forall in Hall. now apply Hall.
    + constructor; [constructor; assumption|].
      assert (fge (key x) (key y) = true) as Hxy
          by (apply flt_false_fge; assumption).
      constructor; [assumption|].
      rewrite Forall_forall in Hall, Hl |- *. intros z Hz.
      eapply fge_trans; [| | | exact Hxy | apply Hall; exact Hz]; auto.
Qed.

(** [sorted(l, key=key, reverse=True)] on keys that are numbers. *)
Lemma sorted_desc_by_float l :
  Forall (fun a => spec.is_number (key a) = true) l ->
  StronglySorted (fun a b => fge (key a) (key b) = true) (sorted_desc flt key l).
Proof.
  induction l as [|x l IH]; intros Hv.
  - constructor.
  - inversion Hv; subst. unfold sorted_desc. cbn [fold_right].
    apply insert_desc_by_float; [assumption | | now apply IH].
    apply Forall_forall. intros a Ha. apply In_sorted_desc in Ha.
    rewrite Forall_forall in H2. now apply H2.
Qed.

End SortedByFloat.

Section DefaultEstimate.
Import Py git_analyzer feature_mapper.

Ltac normal_value :=
  match goal with
  | |- spec.normal_between _ _ ?c =>
      let v := eval vm_compute in c in
      replace c with v by (vm_compute; reflexivity)
  end;
  cbn [spec.normal_between];
  change (2 ^ 52) with 4503599627370496;
  change (2 ^ 53) with 9007199254740992; lia.

Lemma nonneg_from_number lo x : spec.nonneg_from lo x -> spec.is_number x = true.
Proof. destruct x as [[] | [] | | [] m e]; cbn; tauto. Qed.

(** The estimate of a feature without dependencies, with the default
    thresholds. *)
Lemma estimate_without_dependencies feature :
  0 <= commit_count feature <= maxsize -> dependencies feature = [] ->
  exists hours,
    estimate_development_time config.default feature = Return hours /\
    spec.nonneg_from (-57) hours.
Proof.
  intros Hcount Hdeps. unfold estimate_development_time.
  assert (is_finite (float_of_int (commit_count feature)) = true) as Hfits.
  { pose proof (to_float_returns (commit_count feature)) as H.
    unfold to_float in H.
    destruct (is_finite (float_of_int (commit_count feature))); [reflexivity|].
    assert (Z.abs (commit_count feature) < 2 ^ 1023) as Hb.
    { unfold maxsize in Hcount.
      assert (2 ^ 63 < 2 ^ 1023) by (apply Z.pow_lt_mono_r; lia). lia. }
    specialize (H Hb). discriminate. }
  destruct (time_estimate_nonneg (complexity feature) (commit_count feature)
              ltac:(lia) Hfits) as (base_hours & -> & Hbase).
  cbn [bind]. rewrite Hdeps. cbn [bind].
  set (adjustments := if String.eqb (risk_level feature) "High" then _ else _).
  assert (spec.normal_between (-53) (-52) adjustments) as Hadj.
  { subst adjustments.
    destruct (String.eqb (business_value feature) "Critical"),
             (String.eqb (business_value feature) "Minimal"),
             (String.eqb (risk_level feature) "High"),
             (String.eqb (risk_level feature) "Low"); normal_value. }
  clearbody adjustments.
  pose proof (fmul_nonneg_normal _ _ _ _ _ Hbase Hadj ltac:(lia)) as Hprod.
  destruct (round1_nonneg _ _ Hprod) as (hours & Hr & Hn & _).
  exists hours. split; [exact Hr|].
  apply nonneg_from_weaken with (1 := Hn). lia.
Qed.

Lemma create_feature_default feature_name feature_data commits :
  spec.candidate feature_data ->
  len (data_commits feature_data) <= maxsize ->
  exists f,
    _create_feature_object config.default feature_name feature_data commits = Some f /\
    spec.is_number (estimated_hours f) = true.
Proof.
  intros Hc Hlen. unfold _create_feature_object, create_feature.
  match goal with
  | |- context [estimate_development_time _ ?g] =>
      destruct (estimate_without_dependencies g) as (hours & -> & Hn)
  end.
  - cbn [commit_count set_complexity]. pose proof (len_nonneg (data_commits feature_data)).
    lia.
  - cbn [dependencies set_complexity]. now apply candidate_no_dependencies.
  - cbn [bind]. eexists. split; [reflexivity|].
    cbn [estimated_hours set_estimated_hours].
    now apply nonneg_from_number in Hn.
Qed.

Lemma structure_values (P : FeatureData -> Prop) dirs d :
  P structure_data -> Forall (fun e => P (snd e)) d ->
  Forall (fun e => P (snd e))
    (fold_left
       (fun features directory =>
          if _is_feature_directory directory then
            match _extract_feature_name_from_directory directory with
            | EmptyString => features
            | feature_name => update feature_name (fun _ => structure_data) features
            end
          else features)
       dirs d).
Proof.
  intros Hs. revert d. induction dirs as [|x l IH]; intros d Hd; cbn [fold_left];
    [assumption|].
  apply IH. destruct (_is_feature_directory x); [|assumption].
  destruct (_extract_feature_name_from_directory x) as [|a rest]; [assumption|].
  apply update_values; auto.
Qed.

Lemma merge_values (P : FeatureData -> Prop) commit_features dir_features :
  P empty_data -> (forall new v, P v -> P (extend_tags new v)) ->
  Forall (fun e => P (snd e)) commit_features ->
  Forall (fun e => P (snd e)) dir_features ->
  Forall (fun e => P (snd e)) (_merge_features commit_features dir_features).
Proof.
  intros He Hx Hc Hd. unfold _merge_features.
  assert (forall l d,
             Forall (fun e => P (snd e)) l -> Forall (fun e => P (snd e)) d ->
             Forall (fun e => P (snd e))
                    (fold_left (fun m '(name, data) =>
                                  update name (fun _ => data) m) l d)) as Hfirst.
  { induction l as [|[k v] l IH]; intros d Hl Hm; cbn [fold_left]; [assumption|].
    inversion Hl; subst; cbn [snd] in *. apply IH; [assumption|].
    apply update_values; auto. }
  assert (forall l d,
             Forall (fun e => P (snd e)) l -> Forall (fun e => P (snd e)) d ->
             Forall (fun e => P (snd e))
               (fold_left
                  (fun m '(name, data) =>
                     if has_key name m
                     then update name (extend_tags (data_tags data)) m
                     else update name (fun _ => data) m) l d)) as Hsecond.
  { induction l as [|[k v] l IH]; intros d Hl Hm; cbn [fold_left]; [assumption|].
    inversion Hl as [|? ? Hv' Hrest]; subst; cbn [snd] in *.
    apply IH; [assumption|].
    destruct (has_key k d); apply update_values; auto. }
  apply Hsecond; [assumption|]. apply Hfirst; [assumption | constructor].
Qed.

(** No candidate has more commits than there are. *)
Lemma candidate_commits_bounded commits repo_structure :
  Forall (fun e => len (data_commits (snd e)) <= len commits)
         (_merge_features (_extract_features_from_commits commits)
                          (_extract_features_from_structure repo_structure)).
Proof.
  apply (merge_values (fun v => len (data_commits v) <= len commits)).
  - apply len_nonneg.
  - intros new v H. exact H.
  - assert (spec.gathered [] []) as Hinit.
    { split; [constructor|]. split; [intros k v []|reflexivity]. }
    pose proof (gathered_all commits [] [] Hinit) as (_ & Hval & _).
    cbn [app] in Hval. apply Forall_forall. intros [k v] Hin. cbn [snd].
    destruct (Hval k v Hin) as (-> & _). apply len_filter_le.
  - unfold _extract_features_from_structure.
    apply (structure_values (fun v => len (data_commits v) <= len commits));
      [apply len_nonneg | constructor].
Qed.

Lemma collected_all all_features commits acc :
  Forall (fun e => exists f,
              _create_feature_object config.default (fst e) (snd e) commits = Some f /\
              spec.is_number (estimated_hours f) = true) all_features ->
  Forall (fun f => spec.is_number (estimated_hours f) = true) acc ->
  let features :=
    fold_left
      (fun features '(feature_name, feature_data) =>
         match _create_feature_object config.default feature_name feature_data commits with
         | Some feature => (features ++ [feature])%list
         | None => features
         end)
      all_features acc in
  map name features = (map name acc ++ map fst all_features)%list /\
  Forall (fun f => spec.is_number (estimated_hours f) = true) features.
Proof.
  cbv zeta. revert acc. induction all_features as [|[n d] l IH]; intros acc Hall Hacc;
    cbn [fold_left].
  - cbn [map]. now rewrite app_nil_r.
  - inversion Hall as [|? ? (f & Hf & Hnum) Hrest]; subst. cbn [fst snd] in Hf.
    rewrite Hf. destruct (IH (acc ++ [f])%list Hrest) as [Hnames Hnums].
    + apply Forall_app. split; [assumption | repeat constructor; assumption].
    + split; [|assumption]. rewrite Hnames, map_app. cbn [map fst].
      apply created_feature_fields in Hf. destruct Hf as [-> _].
      now rewrite <- app_assoc.
Qed.

Lemma identified_default commits repo_structure :
  len commits <= maxsize ->
  let all_features :=
    _merge_features (_extract_features_from_commits commits)
                    (_extract_features_from_structure repo_structure) in
  Permutation (map name (identify_features config.default commits repo_structure))
              (map fst all_features) /\
  Forall (fun f => spec.is_number (estimated_hours f) = true)
         (identify_features config.default commits repo_structure).
Proof.
  intros Hlen. cbv zeta. unfold identify_features.
  match goal with
  | |- context [fold_left ?step ?l []] =>
      destruct (collected_all l commits []) as [Hnames Hnums]
  end.
  - destruct (all_candidates commits repo_structure) as [_ Hc].
    pose proof (candidate_commits_bounded commits repo_structure) as Hb.
    rewrite Forall_forall in Hc, Hb |- *. intros [n d] Hin. cbn [fst snd].
    apply create_feature_default; [apply (Hc _ Hin)|].
    specialize (Hb _ Hin). cbn [snd] in Hb. lia.
  - constructor.
  - cbv zeta in Hnames, Hnums. cbn [map app] in Hnames. split.
    + rewrite <- Hnames. apply Permutation_map. apply sorted_desc_perm.
    + apply Forall_forall. intros f Hin. apply In_sorted_desc in Hin.
      rewrite Forall_forall in Hnums. now apply Hnums.
Qed.

(** X11. With the default thresholds [identify_features] drops no
    candidate: the names of the features it returns are the names of the
    merged candidates, each once. *)
Theorem identified_features_complete
        (commits : list CommitInfo) (repo_structure : RepoStructure) :
  len commits <= maxsize ->
  Permutation
    (map name (identify_features config.default commits repo_structure))
    (map fst (_merge_features (_extract_features_from_commits commits)
                              (_extract_features_from_structure repo_structure))).
Proof.
  intros Hlen. apply (identified_default commits repo_structure Hlen).
Qed.

(** X12. With the default thresholds the features of [identify_features]
    come in descending order of estimated hours: no feature is followed,
    at any distance, by one with more hours. *)
Theorem identified_features_descending
        (commits : list CommitInfo) (repo_structure : RepoStructure) :
  len commits <= maxsize ->
  StronglySorted
    (fun a b => fge (estimated_hours a) (estimated_hours b) = true)
    (identify_features config.default commits repo_structure).
Proof.
  intros Hlen. unfold identify_features.
  apply sorted_desc_by_float.
  destruct (identified_default commits repo_structure Hlen) as [_ Hnums].
  unfold identify_features in Hnums.
  apply Forall_forall. intros f Hin.
  rewrite Forall_forall in Hnums. apply Hnums. now apply In_sorted_desc.
Qed.

End DefaultEstimate.

(** ** The feature pipeline on the five commits *)

(** Three candidates come from the commits and two from the tree; the
    yearly report is in both.  The four features, by descending hours: *)
Example features_found :
  map (fun f => (feature_mapper.name f, feature_mapper.status f,
                 feature_mapper.commit_count f, feature_mapper.tags f,
                 feature_mapper.estimated_hours f))
      (feature_mapper.identify_features config.default feature_commits feature_tree)
  = [ ("login", "completed", 2, ["feature"], Py.lit 32 1);
      ("payments api", "completed", 1, ["feature"], Py.lit 16 1);
      ("2024", "completed", 1, ["feature"; "structure-based"], Py.lit 16 1);
      ("Search", "planned", 0, ["structure-based"], S754_zero false) ].
Proof. vm_compute. reflexivity. Qed.

(** X10 on the candidates of the five commits and of the tree. *)
Lemma merge_features_keeps_history_witness :
  let merged :=
    feature_mapper._merge_features commit_candidates_found tree_candidates_found in
  (forall k v, In (k, v) commit_candidates_found ->
               exists v', In (k, v') merged /\ spec.same_history v v' /\
                          spec.merged_tags tree_candidates_found k v v') /\
  (forall k w, In (k, w) tree_candidates_found ->
               ~ In k (map fst commit_candidates_found) -> In (k, w) merged) /\
  (forall k, In k (map fst merged)
             <-> In k (map fst commit_candidates_found) \/
                 In k (map fst tree_candidates_found)).
Proof.
  apply (merge_features_keeps_history commit_candidates_found tree_candidates_found).
  - vm_compute. repeat (constructor; [cbn; intuition discriminate|]). constructor.
  - vm_compute. repeat (constructor; [cbn; intuition discriminate|]). constructor.
Defined.

(** X11 on the five commits. *)
Lemma identified_features_complete_witness :
  Permutation
    (map feature_mapper.name
         (feature_mapper.identify_features config.default feature_commits feature_tree))
    (map fst (feature_mapper._merge_features
                (feature_mapper._extract_features_from_commits feature_commits)
                (feature_mapper._extract_features_from_structure feature_tree))).
Proof.
  apply (identified_features_complete feature_commits feature_tree).
  vm_compute. discriminate.
Defined.

(** X12 on the five commits. *)
Lemma identified_features_descending_witness :
  StronglySorted
    (fun a b => Py.fge (feature_mapper.estimated_hours a)
                       (feature_mapper.estimated_hours b) = true)
    (feature_mapper.identify_features config.default feature_commits feature_tree).
Proof.
  apply (identified_features_descending feature_commits feature_tree).
  vm_compute. discriminate.
Defined.

(** ** Further properties: the feature groups *)

Section Groups.
Import Py feature_mapper.
Variable self : config.AnalysisConfig.

Lemma append_to_keys k f groups :
  map fst (append_to k f groups)
  = if existsb (fun e => String.eqb k (fst e)) groups
    then map fst groups else (map fst groups ++ [k])%list.
Proof.
  induction groups as [|[k' fs] l IH]; cbn [append_to existsb map fst app];
    [reflexivity|].
  destruct (String.eqb k k'); cbn [orb map fst]; [reflexivity|].
  rewrite IH. destruct (existsb _ l); reflexivity.
Qed.

Lemma append_to_concat k f groups :
  Permutation (List.concat (map snd (append_to k f groups)))
              (f :: List.concat (map snd groups)).
Proof.
  induction groups as [|[k' fs] l IH]; cbn [append_to map snd List.concat app].
  - reflexivity.
  - destruct (String.eqb k k'); cbn [map snd List.concat].
    + rewrite <- app_assoc. cbn [app].
      symmetry. apply Permutation_middle.
    + rewrite IH. symmetry. apply Permutation_middle.
Qed.

Lemma append_to_grouped f processed groups :
  spec.grouped processed groups ->
  spec.grouped (processed ++ [f]) (append_to (_determine_feature_group f) f groups).
Proof.
  intros (Hnd & Hall & Hperm). split; [|split].
  - rewrite append_to_keys. destruct (existsb _ groups) eqn:Hk; [assumption|].
    apply NoDup_app; [assumption | repeat constructor; intros [] |].
    intros x Hx [<- | []].
    assert (existsb (fun e => String.eqb (_determine_feature_group f) (fst e)) groups
            = true); [|congruence].
    apply existsb_exists. apply in_map_iff in Hx. destruct Hx as (e & He & Hin).
    exists e. split; [assumption|]. rewrite He. apply String.eqb_refl.
  - clear Hnd Hperm. induction groups as [|[k' fs] l IH]; cbn [append_to].
    + repeat constructor.
    + inversion Hall as [|? ? Hhd Hl]; subst. cbn [fst snd] in Hhd.
      destruct (String.eqb_spec (_determine_feature_group f) k') as [E | _].
      * constructor; [|assumption]. cbn [fst snd].
        apply Forall_app. split; [assumption | repeat constructor; assumption].
      * constructor; [assumption | now apply IH].
  - rewrite append_to_concat, Hperm. apply Permutation_cons_append.
Qed.

Lemma grouped_all rest processed groups :
  spec.grouped processed groups ->
  spec.grouped (processed ++ rest)
    (fold_left (fun groups feature =>
                  append_to (_determine_feature_group feature) feature groups)
               rest groups).
Proof.
  revert processed groups. induction rest as [|f rest IH]; intros processed groups Hg;
    cbn [fold_left].
  - now rewrite app_nil_r.
  - replace (processed ++ f :: rest)%list with ((processed ++ [f]) ++ rest)%list
      by (rewrite <- app_assoc; reflexivity).
    apply IH. now apply append_to_grouped.
Qed.

Lemma features_of_group_snoc k f processed :
  spec.features_of_group k (processed ++ [f])
  = (spec.features_of_group k processed
     ++ (if String.eqb (_determine_feature_group f) k then [f] else []))%list.
Proof. unfold spec.features_of_group. rewrite filter_app. reflexivity. Qed.

Lemma features_of_group_none k processed :
  (forall f, In f processed -> _determine_feature_group f <> k) ->
  spec.features_of_group k processed = [].
Proof.
  unfold spec.features_of_group.
  induction processed as [|f l IH]; intros Hk; cbn [filter]; [reflexivity|].
  destruct (String.eqb_spec (_determine_feature_group f) k) as [E | _].
  - exfalso. apply (Hk f); [now left | assumption].
  - apply IH. intros x Hx. apply Hk. now right.
Qed.

(** One turn of the first loop keeps the features of every key in the
    order they came. *)
Lemma append_to_in_order f processed groups :
  NoDup (map fst groups) ->
  spec.grouped_in_order processed groups ->
  spec.grouped_in_order (processed ++ [f])
    (append_to (_determine_feature_group f) f groups).
Proof.
  intros Hnd (Hcov & Hall). split.
  - intros f' Hin. rewrite append_to_keys.
    apply in_app_iff in Hin. destruct Hin as [Hin | [<- | []]].
    + destruct (existsb _ groups); [|apply in_app_iff; left]; now apply Hcov.
    + destruct (existsb _ groups) eqn:Hk; [|apply in_app_iff; right; now left].
      apply existsb_exists in Hk. destruct Hk as (e & He & Hk).
      apply String.eqb_eq in Hk. rewrite Hk. now apply in_map.
  - assert (~ In (_determine_feature_group f) (map fst groups) ->
            spec.features_of_group (_determine_feature_group f) processed = []) as Hnew.
    { intros Hk. apply features_of_group_none. intros f' Hin E.
      apply Hk. rewrite <- E. now apply Hcov. }
    clear Hcov. induction groups as [|[k' fs] l IH]; cbn [append_to].
    + constructor; [|constructor]. cbn [fst snd].
      rewrite features_of_group_snoc, String.eqb_refl, Hnew; [reflexivity | intros []].
    + apply Forall_cons_iff in Hall. destruct Hall as [Hhd Hl].
      cbn [fst snd] in Hhd. cbn [map fst] in Hnd.
      apply NoDup_cons_iff in Hnd. destruct Hnd as [Hx Hnd'].
      destruct (String.eqb_spec (_determine_feature_group f) k') as [E | E].
      * constructor; cbn [fst snd].
        -- rewrite features_of_group_snoc, Hhd, E, String.eqb_refl. reflexivity.
        -- rewrite Forall_forall in Hl. apply Forall_forall. intros e He.
           rewrite features_of_group_snoc, (Hl e He).
           destruct (String.eqb_spec (_determine_feature_group f) (fst e)) as [E' | _];
             [|now rewrite app_nil_r].
           exfalso. apply Hx. rewrite <- E, E'. now apply in_map.
      * constructor; cbn [fst snd].
        -- rewrite features_of_group_snoc, Hhd.
           destruct (String.eqb_spec (_determine_feature_group f) k') as [E' | _];
             [contradiction | now rewrite app_nil_r].
        -- apply IH; [assumption | assumption |].
           intros Hk. apply Hnew. cbn [map fst]. intros [E' | Hin];
             [now apply E | now apply Hk].
Qed.

Lemma grouped_in_order_all rest processed groups :
  spec.grouped processed groups ->
  spec.grouped_in_order processed groups ->
  spec.grouped_in_order (processed ++ rest)
    (fold_left (fun groups feature =>
                  append_to (_determine_feature_group feature) feature groups)
               rest groups).
Proof.
  revert processed groups. induction rest as [|f rest IH];
    intros processed groups Hg Ho; cbn [fold_left].
  - now rewrite app_nil_r.
  - replace (processed ++ f :: rest)%list with ((processed ++ [f]) ++ rest)%list
      by (rewrite <- app_assoc; reflexivity).
    apply IH; [now apply append_to_grouped|].
    apply append_to_in_order; [apply Hg | assumption].
Qed.

Lemma make_group_fields k fs g :
  make_group k fs = Return g -> group_name g = k /\ features g = fs.
Proof.
  unfold make_group.
  destruct (for_each _ fs 0) as [score_sum|]; cbn [bind]; [|discriminate].
  destruct (int_truediv _ _) as [avg|]; cbn [bind]; [|discriminate].
  destruct (_determine_group_business_impact fs) as [impact|]; cbn [bind];
    [|discriminate].
  intros [= <-]. split; reflexivity.
Qed.

Lemma groups_made_entries groups acc made :
  for_each (fun acc '(group_name, group_features) =>
              g <- make_group group_name group_features ;;
              Return (acc ++ [g])%list)
           groups acc = Return made ->
  map (fun g => (group_name g, features g)) made
  = (map (fun g => (group_name g, features g)) acc ++ groups)%list.
Proof.
  revert acc. induction groups as [|[k fs] l IH]; intros acc; cbn [for_each].
  - intros [= <-]. now rewrite app_nil_r.
  - destruct (make_group k fs) as [g|] eqn:Hg; cbn [bind]; [|discriminate].
    intros H. apply IH in H. rewrite H, map_app. cbn [map].
    apply make_group_fields in Hg. destruct Hg as [-> ->].
    now rewrite <- app_assoc.
Qed.

(** X13. [group_features], on features whose complexity is a level, puts
    every feature in exactly one group, the one that
    [_determine_feature_group] names: the groups have distinct names, none
    is empty, together they hold the features of the list, each once, and
    each group holds the features of its name in the order of the list. *)
Theorem group_features_partition (fs : list Feature) :
  Forall spec.has_level fs ->
  exists groups,
    group_features fs = Return groups /\
    Permutation (List.concat (map features groups)) fs /\
    NoDup (map group_name groups) /\
    Forall (fun g => features g <> [] /\
                     Forall (fun f => _determine_feature_group f = group_name g)
                            (features g) /\
                     features g
                     = filter (fun f => String.eqb (_determine_feature_group f)
                                                   (group_name g)) fs) groups.
Proof.
  intros Hl. unfold group_features.
  set (dict := fold_left (fun groups feature =>
                            append_to (_determine_feature_group feature) feature groups)
                         fs []).
  assert (spec.grouped [] []) as Hstart.
  { split; [constructor|]. split; constructor. }
  assert (spec.grouped fs dict) as (Hnd & Hall & Hperm)
      by apply (grouped_all fs [] [] Hstart).
  assert (spec.grouped_in_order fs dict) as (_ & Hord).
  { apply (grouped_in_order_all fs [] [] Hstart). split; [intros f []|constructor]. }
  assert (spec.groups_ok dict) as Hok
      by (apply grouped_ok; [assumption | constructor]).
  destruct (groups_made dict [] Hok) as [made Hmade]. rewrite Hmade. cbn [bind].
  apply groups_made_entries in Hmade. cbn [map app] in Hmade.
  eexists. split; [reflexivity|].
  set (sorted := sorted_desc flt total_hours made).
  assert (Permutation sorted made) as Hs by apply sorted_desc_perm.
  assert (map features made = map snd dict) as Hf.
  { rewrite <- Hmade, map_map. reflexivity. }
  assert (map group_name made = map fst dict) as Hn.
  { rewrite <- Hmade, map_map. reflexivity. }
  split; [|split].
  - rewrite (Permutation_map features Hs), Hf.
    exact Hperm.
  - apply (Permutation_NoDup (l := map group_name made)).
    + apply Permutation_map. now symmetry.
    + now rewrite Hn.
  - apply Forall_forall. intros g Hin.
    apply (Permutation_in _ Hs) in Hin.
    assert (In (group_name g, features g) dict) as Hd.
    { rewrite <- Hmade. apply in_map_iff. now exists g. }
    split; [|split].
    + unfold spec.groups_ok in Hok. rewrite Forall_forall in Hok.
      apply (Hok _ Hd).
    + rewrite Forall_forall in Hall. apply (Hall _ Hd).
    + rewrite Forall_forall in Hord. apply (Hord _ Hd).
Qed.

End Groups.

(** X13 on the four features found in the five commits. *)
Lemma group_features_partition_witness :
  exists groups,
    feature_mapper.group_features features_to_group = Py.Return groups /\
    Permutation (List.concat (map feature_mapper.features groups)) features_to_group /\
    NoDup (map feature_mapper.group_name groups) /\
    Forall (fun g => feature_mapper.features g <> [] /\
                     Forall (fun f => feature_mapper._determine_feature_group f
                                      = feature_mapper.group_name g)
                            (feature_mapper.features g) /\
                     feature_mapper.features g
                     = filter (fun f => String.eqb
                                          (feature_mapper._determine_feature_group f)
                                          (feature_mapper.group_name g))
                              features_to_group) groups.
Proof.
  apply (group_features_partition features_to_group).
  vm_compute. repeat constructor.
Defined.

(** The hours of the first group are 3.2 + 1.6 + 0.0, which is
    4.800000000000001 in binary64. *)
Example features_grouped :
  match feature_mapper.group_features features_to_group with
  | Py.Return groups =>
      map (fun g => (feature_mapper.group_name g,
                     map feature_mapper.name (feature_mapper.features g),
                     feature_mapper.total_hours g)) groups
  | Py.Raise _ => []
  end
  = [ ("Core Features", ["login"; "2024"; "Search"],
       S754_finite false 5404319552844596 (-50));
      ("Backend Services", ["payments api"], Py.lit 16 1) ].
Proof. vm_compute. reflexivity. Qed.

(** ** binary64: the sign of sums, products and quotients *)

Section FloatSign.
Import Py.

Lemma nonnegative_finite_nonnegative x :
  spec.nonnegative_finite x = true -> spec.nonnegative x = true.
Proof. destruct x as [[] | [] | | [] m e]; cbn; congruence. Qed.

Lemma nonnegative_number x : spec.nonnegative x = true -> spec.is_number x = true.
Proof. destruct x as [[] | [] | | [] m e]; cbn; congruence. Qed.

Lemma nonnegative_fge x : spec.nonnegative x = true -> fge x (S754_zero false) = true.
Proof. destruct x as [[] | [] | | [] m e]; cbn; congruence. Qed.

(** Rounding keeps the sign. *)
Lemma binary_round_aux_nonnegative mx ex lx :
  0 <= mx -> spec.nonnegative (binary_round_aux prec emax false mx ex lx) = true.
Proof.
  intros Hm. unfold binary_round_aux.
  pose proof (shr_fexp_spec mx ex lx Hm) as H1. cbv zeta in H1.
  destruct (shr_fexp prec emax mx ex lx) as [mrs' e'].
  set (m1 := round_nearest_even (shr_m mrs') (loc_of_shr_record mrs')).
  pose proof (round_nearest_even_bounds (shr_m mrs') (loc_of_shr_record mrs')) as Hr.
  fold m1 in Hr.
  assert (0 <= shr_m mrs') as Hm'.
  { destruct H1 as [(_ & _ & ->) | (Ht & _ & ->)]; [assumption|].
    apply Z.div_pos; [assumption | apply Z.pow_pos_nonneg; lia]. }
  pose proof (shr_fexp_spec m1 e' loc_Exact ltac:(lia)) as H2. cbv zeta in H2.
  destruct (shr_fexp prec emax m1 e' loc_Exact) as [mrs'' e''].
  assert (0 <= shr_m mrs'') as Hm''.
  { destruct H2 as [(_ & _ & ->) | (Ht & _ & ->)]; [lia|].
    apply Z.div_pos; [lia | apply Z.pow_pos_nonneg; lia]. }
  destruct (shr_m mrs'') as [|p|p]; [reflexivity | | lia].
  destruct (_ <=? _); reflexivity.
Qed.

Lemma binary_round_nonnegative m e :
  spec.nonnegative (binary_round prec emax false m e) = true.
Proof.
  unfold binary_round. destruct (shl_align _ _ _) as [mz ez].
  apply binary_round_aux_nonnegative. lia.
Qed.

(** The sum of two non-negative numbers. *)
Lemma fadd_nonnegative x y :
  spec.nonnegative x = true -> spec.nonnegative y = true ->
  spec.nonnegative (fadd x y) = true.
Proof.
  destruct x as [[] | [] | | [] mx ex]; try discriminate;
    destruct y as [[] | [] | | [] my ey]; try discriminate; intros _ _;
    try reflexivity.
  unfold fadd, SFadd. cbn [cond_Zopp].
  change (Z.pos ?a + Z.pos ?b) with (Z.pos (a + b)). cbn [binary_normalize].
  apply binary_round_nonnegative.
Qed.

(** The product of two non-negative finite numbers. *)
Lemma fmul_nonnegative x y :
  spec.nonnegative_finite x = true -> spec.nonnegative_finite y = true ->
  spec.nonnegative (fmul x y) = true.
Proof.
  destruct x as [[] | [] | | [] mx ex]; try discriminate;
    destruct y as [[] | [] | | [] my ey]; try discriminate; intros _ _;
    try reflexivity.
  unfold fmul, SFmul. cbn [xorb]. apply binary_round_aux_nonnegative. lia.
Qed.

(** The quotient of a non-negative int by a positive one. *)
Lemma int_truediv_nonnegative a b q :
  0 <= a -> 0 < b -> int_truediv a b = Return q ->
  spec.nonnegative_finite q = true.
Proof.
  intros Ha Hb. unfold int_truediv.
  destruct (Z.eqb_spec b 0); [lia|].
  destruct (is_finite _) eqn:Hfin; [|discriminate].
  intros [= <-].
  assert (spec.nonnegative (SFdiv prec emax (exact a) (exact b)) = true) as Hn.
  { destruct b as [|pb|pb]; try lia. destruct a as [|pa|pa]; try lia;
      [reflexivity|].
    unfold exact, SFdiv.
    destruct (SFdiv_core_binary prec emax (Z.pos pa) 0 (Z.pos pb) 0)
      as [[mz ez] lz] eqn:Hcore.
    cbn [xorb]. apply binary_round_aux_nonnegative.
    unfold SFdiv_core_binary in Hcore.
    match type of Hcore with
    | (let '(q, r) := Z.div_eucl ?m' _ in _) = _ =>
        assert (0 <= m') as Hm';
        [|pose proof (Z.div_eucl_eq m' (Z.pos pb) ltac:(lia)) as He;
          pose proof (Z.mod_pos_bound m' (Z.pos pb) ltac:(lia)) as Hr;
          unfold Z.modulo in Hr;
          destruct (Z.div_eucl m' (Z.pos pb)) as [q r]]
    end.
    - destruct (_ - _) as [|s|s]; [lia | | lia].
      rewrite Z.shiftl_mul_pow2 by lia.
      apply Z.mul_nonneg_nonneg; [lia | apply Z.pow_nonneg; lia].
    - injection Hcore as <- _ _. nia. }
  destruct (SFdiv prec emax (exact a) (exact b)) as [[] | [] | | [] m e];
    try discriminate; reflexivity.
Qed.

(** [min(x, 1.0)] of a non-negative number is between 0 and 1. *)
Lemma fmin_one_range x :
  spec.nonnegative x = true ->
  spec.nonnegative (fmin x (lit 10 1)) = true /\
  fle (fmin x (lit 10 1)) (lit 10 1) = true.
Proof.
  intros Hx. unfold fmin. destruct (flt (lit 10 1) x) eqn:Hlt.
  - split; vm_compute; reflexivity.
  - split; [assumption|].
    apply (flt_false_fge (lit 10 1) x); [reflexivity | | assumption].
    now apply nonnegative_number.
Qed.

End FloatSign.

Section TimelineRisk.
Import Py feature_mapper risk_assessor.

(** X14. The timeline risk score is a number between 0 and 1, for any
    list of features: the share of high-complexity features, raised by
    0.2 and 0.1, is cut at 1.0. *)
Theorem timeline_risk_range (features : list Feature)
        (commits : list git_analyzer.CommitInfo) :
  exists score,
    _assess_timeline_risks features commits = Return score /\
    fge score (S754_zero false) = true /\ fle score (lit 10 1) = true.
Proof.
  unfold _assess_timeline_risks. destruct features as [|f l].
  - eexists. split; [reflexivity|]. split; vm_compute; reflexivity.
  - set (fs := f :: l).
    assert (0 < len fs) as Hpos by (subst fs; rewrite len_cons;
                                    pose proof (len_nonneg l); lia).
    destruct (Z.eqb_spec (len fs) 0); [lia|].
    destruct (int_truediv_returns
                (len (filter (fun f => String.eqb (complexity f) "high") fs))
                (len fs)) as [q Hq]; [apply len_filter_le | assumption |].
    rewrite Hq. cbn [bind].
    apply int_truediv_nonnegative in Hq; [|apply len_filter_le | assumption].
    apply nonnegative_finite_nonnegative in Hq.
    set (additional := match filter _ fs with [] => _ | _ :: _ => _ end).
    assert (spec.nonnegative additional = true) as Ha.
    { subst additional.
      destruct (filter (fun f => String.eqb (risk_level f) "High") fs);
        destruct (filter _ fs); vm_compute; reflexivity. }
    clearbody additional.
    pose proof (fadd_nonnegative _ _ Hq Ha) as Hsum.
    destruct (fmin_one_range _ Hsum) as [Hn Hle].
    eexists. split; [reflexivity|].
    split; [now apply nonnegative_fge | exact Hle].
Qed.

End TimelineRisk.

(** ** Further properties: architecture patterns and build tools *)

Section Patterns.
Import Py repo_analyzer.

Lemma len_app {A : Type} (l l' : list A) : len (l ++ l') = len l + len l'.
Proof. unfold len. rewrite length_app. lia. Qed.

Lemma len_filter_app {A : Type} (p : A -> bool) (l more : list A) :
  len (filter p l) <= len (filter p (l ++ more)).
Proof.
  rewrite filter_app, len_app. pose proof (len_nonneg (filter p more)). lia.
Qed.

Lemma count_matches_app dirs l more :
  count_matches dirs l <= count_matches dirs (l ++ more).
Proof.
  unfold count_matches. induction dirs as [|d dirs IH]; cbn [flat_map]; [lia|].
  rewrite !len_app. pose proof (len_filter_app
    (fun f => contains (lower (path f)) d) l more). lia.
Qed.

Ltac more_files l more :=
  repeat match goal with
         | |- context [len (filter ?p (l ++ more))] =>
             let H := fresh in
             pose proof (len_filter_app p l more) as H;
             generalize dependent (len (filter p (l ++ more))); intros
         end.

Lemma microservices_more l more :
  _detect_microservices_pattern l = true ->
  _detect_microservices_pattern (l ++ more) = true.
Proof.
  unfold _detect_microservices_pattern. rewrite !orb_true_iff, !Z.gtb_lt.
  more_files l more. lia.
Qed.

Lemma monorepo_more l more :
  _detect_monorepo_pattern l = true -> _detect_monorepo_pattern (l ++ more) = true.
Proof.
  unfold _detect_monorepo_pattern.
  rewrite !orb_true_iff, !andb_true_iff, !Z.gtb_lt.
  more_files l more. lia.
Qed.

Lemma layered_more l more :
  _detect_layered_architecture l = true ->
  _detect_layered_architecture (l ++ more) = true.
Proof.
  unfold _detect_layered_architecture. rewrite !Z.geb_le.
  pose proof (count_matches_app
    ["controllers"; "services"; "repositories"; "models"; "views"] l more). lia.
Qed.

Lemma mvc_more l more :
  _detect_mvc_pattern l = true -> _detect_mvc_pattern (l ++ more) = true.
Proof.
  unfold _detect_mvc_pattern. rewrite !Z.geb_le.
  pose proof (count_matches_app ["models"; "views"; "controllers"] l more). lia.
Qed.

Lemma event_driven_more l more :
  _detect_event_driven_pattern l = true ->
  _detect_event_driven_pattern (l ++ more) = true.
Proof.
  unfold _detect_event_driven_pattern. rewrite !Z.gtb_lt.
  more_files l more. lia.
Qed.

(** X15. More files never remove an architecture pattern: every pattern
    that [_detect_architecture_patterns] reports for a list of files is
    reported for any longer list that starts with it; and no pattern is
    reported when there is no file. *)
Theorem architecture_patterns_monotone
        (files more : list FileInfo) (tech_stack tech_stack' : list TechnologyInfo) :
  incl (_detect_architecture_patterns files tech_stack)
       (_detect_architecture_patterns (files ++ more) tech_stack') /\
  _detect_architecture_patterns [] tech_stack = [].
Proof.
  split; [|reflexivity].
  unfold _detect_architecture_patterns. intros p Hin.
  pose proof (microservices_more files more) as H1.
  pose proof (monorepo_more files more) as H2.
  pose proof (layered_more files more) as H3.
  pose proof (mvc_more files more) as H4.
  pose proof (event_driven_more files more) as H5.
  destruct (_detect_microservices_pattern files);
    [rewrite (H1 eq_refl) | clear H1];
    (destruct (_detect_monorepo_pattern files);
     [rewrite (H2 eq_refl) | clear H2]);
    (destruct (_detect_layered_architecture files);
     [rewrite (H3 eq_refl) | clear H3]);
    (destruct (_detect_mvc_pattern files);
     [rewrite (H4 eq_refl) | clear H4]);
    (destruct (_detect_event_driven_pattern files);
     [rewrite (H5 eq_refl) | clear H5]);
    cbn [app In] in Hin;
    repeat match goal with
           | |- context [if ?b then _ else _] => destruct b
           end;
    cbn [app In]; tauto.
Qed.

End Patterns.

Example web_project_patterns :
  repo_analyzer._detect_architecture_patterns web_project []
  = ["Model-View-Controller (MVC)"; "Event-Driven Architecture"] /\
  repo_analyzer._detect_architecture_patterns (web_project ++ second_service) []
  = ["Microservices"; "Monorepo"; "Model-View-Controller (MVC)";
     "Event-Driven Architecture"].
Proof. split; vm_compute; reflexivity. Qed.

Section BuildTools.
Import Py repo_analyzer.

Lemma substring_all s : substring 0 (String.length s) s = s.
Proof. induction s as [|c s IH]; cbn; congruence. Qed.

Lemma substring_split s i :
  (i <= String.length s)%nat ->
  s = (substring 0 i s ++ substring i (String.length s - i) s)%string.
Proof.
  revert i. induction s as [|c s IH]; intros i Hi.
  - destruct i; [reflexivity | cbn in Hi; lia].
  - destruct i as [|i].
    + cbn [substring String.append String.length Nat.sub].
      now rewrite substring_all.
    + cbn [substring String.append String.length Nat.sub].
      f_equal. apply IH. cbn in Hi. lia.
Qed.

Lemma substring_suffix pre p :
  substring (String.length pre) (String.length p) (pre ++ p)%string = p.
Proof.
  induction pre as [|c pre IH]; cbn [String.length String.append substring].
  - apply substring_all.
  - exact IH.
Qed.

Lemma length_append a b :
  String.length (a ++ b)%string = (String.length a + String.length b)%nat.
Proof. induction a as [|c a IH]; cbn; congruence. Qed.

(** [s.endswith(p)] holds exactly when [s] is some text followed by [p]. *)
Lemma endswith_iff s p :
  endswith s p = true <-> exists pre, s = (pre ++ p)%string.
Proof.
  unfold endswith. split.
  - intros H. apply andb_true_iff in H. destruct H as [Hle Heq].
    apply Nat.leb_le in Hle. apply String.eqb_eq in Heq.
    exists (substring 0 (String.length s - String.length p) s).
    pose proof (substring_split s (String.length s - String.length p)
                  ltac:(lia)) as Hs.
    replace (String.length s - (String.length s - String.length p))%nat
      with (String.length p) in Hs by lia.
    now rewrite Heq in Hs.
  - intros [pre ->]. rewrite length_append. apply andb_true_iff. split.
    + apply Nat.leb_le. lia.
    + replace (String.length pre + String.length p - String.length p)%nat
        with (String.length pre) by lia.
      rewrite substring_suffix. apply String.eqb_refl.
Qed.

Lemma append_eq_cases a x b y :
  (a ++ x)%string = (b ++ y)%string ->
  (exists t, x = (t ++ y)%string) \/ (exists t, y = (t ++ x)%string).
Proof.
  revert b. induction a as [|c a IH]; intros b H.
  - left. exists b. exact H.
  - destruct b as [|c' b].
    + right. exists (String c a). symmetry. exact H.
    + cbn [String.append] in H. injection H as _ H. exact (IH b H).
Qed.

Lemma file_name_suffix p : exists dir, p = (dir ++ file_name p)%string.
Proof.
  induction p as [|c p [dir IH]]; [now exists EmptyString|].
  cbn [file_name]. destruct (contains p "/").
  - exists (String c dir). cbn [String.append]. congruence.
  - destruct (Ascii.eqb c "/").
    + now exists (String c EmptyString).
    + now exists EmptyString.
Qed.

(** A file that [_is_config_file] accepts has no path that ends with
    'Makefile'. *)
Lemma config_file_not_makefile file_path :
  _is_config_file file_path = true -> endswith file_path "Makefile" = false.
Proof.
  intros Hc. destruct (endswith file_path "Makefile") eqn:He; [|reflexivity].
  apply endswith_iff in He. destruct He as [pre Hp].
  destruct (file_name_suffix file_path) as [dir Hd].
  rewrite Hd in Hp at 1.
  assert (endswith (file_name file_path) "Makefile" = true \/
          endswith "Makefile" (file_name file_path) = true) as Hends.
  { apply append_eq_cases in Hp. destruct Hp as [[t Ht] | [t Ht]].
    - left. apply endswith_iff. now exists t.
    - right. apply endswith_iff. now exists t. }
  unfold _is_config_file, str_in in Hc. cbn [existsb] in Hc.
  rewrite !orb_true_iff in Hc. rewrite !String.eqb_eq in Hc.
  repeat (destruct Hc as [Hc | Hc];
          [rewrite Hc in Hends; destruct Hends; discriminate|]).
  discriminate.
Qed.

(** X16. On files whose configuration flag is the one [_is_config_file]
    gives to their path, as [_analyze_file] sets it, [_analyze_build_files]
    reports Webpack and Vite only: the branch for Make is never taken,
    since no configuration file name ends with 'Makefile'. *)
Theorem build_tools_of_flagged_files (files : list FileInfo) :
  Forall (fun f => is_config f = _is_config_file (path f)) files ->
  Forall (fun t => (name t = "Webpack" \/ name t = "Vite") /\
                   category t = "Build Tools" /\ confidence t = lit 9 1)
         (_analyze_build_files files).
Proof.
  unfold _analyze_build_files. induction files as [|f files IH]; intros Hf;
    cbn [flat_map]; [constructor|].
  inversion Hf as [|? ? Hflag Hrest]; subst.
  apply Forall_app. split; [|now apply IH].
  destruct (is_config f) eqn:Hc; cbn [negb]; [|constructor].
  symmetry in Hflag. rewrite (config_file_not_makefile _ Hflag).
  destruct (endswith (path f) "webpack.config.js").
  { constructor; [|constructor].
    split; [left; reflexivity | split; reflexivity]. }
  destruct (endswith (path f) "vite.config.js"); [|constructor].
  constructor; [|constructor].
  split; [right; reflexivity | split; reflexivity].
Qed.

End BuildTools.

(** X16 on the small web project, whose Makefile is no configuration
    file. *)
Lemma build_tools_of_flagged_files_witness :
  Forall (fun t => (repo_analyzer.name t = "Webpack" \/ repo_analyzer.name t = "Vite") /\
                   repo_analyzer.category t = "Build Tools" /\
                   repo_analyzer.confidence t = Py.lit 9 1)
         (repo_analyzer._analyze_build_files web_project).
Proof.
  apply (build_tools_of_flagged_files web_project).
  repeat constructor.
Defined.

Example web_project_build_tools :
  map repo_analyzer.name (repo_analyzer._analyze_build_files web_project)
  = ["Webpack"].
Proof. vm_compute. reflexivity. Qed.

(** ** Further properties: the technologies of the source files *)

Section SourceFiles.
Import Py repo_analyzer.

Lemma count_ext_keys ext counts :
  map fst (count_ext ext counts)
  = if existsb (fun e => String.eqb ext (fst e)) counts
    then map fst counts else (map fst counts ++ [ext])%list.
Proof.
  induction counts as [|[e n] l IH]; cbn [count_ext existsb map fst app];
    [reflexivity|].
  destruct (String.eqb ext e); cbn [orb map fst]; [reflexivity|].
  rewrite IH. destruct (existsb _ l); reflexivity.
Qed.

Lemma key_present ext (counts : list (string * Z)) :
  existsb (fun e => String.eqb ext (fst e)) counts = true <-> In ext (map fst counts).
Proof.
  rewrite existsb_exists. split.
  - intros ([e n] & Hin & Heq). apply String.eqb_eq in Heq. cbn [fst] in Heq.
    subst e. apply in_map_iff. now exists (ext, n).
  - intros Hin. apply in_map_iff in Hin. destruct Hin as ([e n] & He & Hin).
    cbn [fst] in He. subst e. exists (ext, n). split; [assumption|].
    apply String.eqb_refl.
Qed.

Lemma count_ext_In e n ext counts :
  NoDup (map fst counts) -> In (e, n) (count_ext ext counts) ->
  (e = ext /\ ((exists n0, In (ext, n0) counts /\ n = n0 + 1) \/
               (~ In ext (map fst counts) /\ n = 1))) \/
  (e <> ext /\ In (e, n) counts).
Proof.
  induction counts as [|[e' n'] l IH]; intros Hnd; cbn [count_ext].
  - intros [[= <- <-] | []]. left. split; [reflexivity|]. right.
    split; [intros [] | reflexivity].
  - inversion Hnd as [|? ? He' Hl]; subst.
    destruct (String.eqb_spec ext e') as [<- | Hne].
    + intros [[= <- <-] | Hin].
      * left. split; [reflexivity|]. left. exists n'. split; [now left | reflexivity].
      * right. split; [|now right]. intros ->. apply He'.
        apply in_map_iff. now exists (ext, n).
    + intros [[= <- <-] | Hin].
      * right. split; [congruence | now left].
      * destruct (IH Hl Hin) as [[-> [(n0 & Hn0 & ->) | [Hno ->]]] | [Hk Hin']].
        -- left. split; [reflexivity|]. left. exists n0. split; [now right|reflexivity].
        -- left. split; [reflexivity|]. right. split; [|reflexivity].
           cbn [map fst In]. intros [E | H]; [congruence | contradiction].
        -- right. split; [assumption | now right].
Qed.

Lemma source_count_snoc ext seen f :
  spec.source_count ext (seen ++ [f])
  = spec.source_count ext seen
    + (if is_source f && String.eqb (extension f) ext then 1 else 0).
Proof.
  unfold spec.source_count. rewrite filter_app, len_app. cbn [filter].
  destruct (is_source f && String.eqb (extension f) ext); reflexivity.
Qed.

Lemma counted_step seen f counts :
  spec.counted seen counts ->
  spec.counted (seen ++ [f])
               (if is_source f then count_ext (extension f) counts else counts).
Proof.
  intros (Hnd & Hval & Hmiss).
  destruct (is_source f) eqn:Hsrc.
  - split; [|split].
    + rewrite count_ext_keys. destruct (existsb _ counts) eqn:Hk; [assumption|].
      apply NoDup_app; [assumption | repeat constructor; intros [] |].
      intros x Hx [<- | []]. apply key_present in Hx. congruence.
    + intros e n Hin. rewrite source_count_snoc, Hsrc. cbn [andb].
      apply count_ext_In in Hin; [|assumption].
      destruct Hin as [[-> [(n0 & Hn0 & ->) | [Hno ->]]] | [Hk Hin]].
      * rewrite String.eqb_refl. destruct (Hval _ _ Hn0). lia.
      * rewrite String.eqb_refl, (Hmiss _ Hno). lia.
      * destruct (String.eqb_spec (extension f) e); [congruence|].
        destruct (Hval _ _ Hin). lia.
    + intros e He. rewrite source_count_snoc, Hsrc. cbn [andb].
      rewrite count_ext_keys in He.
      destruct (existsb _ counts) eqn:Hk.
      * rewrite (Hmiss e He).
        destruct (String.eqb_spec (extension f) e) as [<- | _]; [|reflexivity].
        apply key_present in Hk. contradiction.
      * rewrite in_app_iff in He. rewrite Hmiss by tauto.
        destruct (String.eqb_spec (extension f) e) as [<- | _]; [|reflexivity].
        exfalso. apply He. right. now left.
  - split; [assumption|]. split.
    + intros e n Hin. rewrite source_count_snoc, Hsrc. cbn [andb].
      rewrite Z.add_0_r. now apply Hval.
    + intros e He. rewrite source_count_snoc, Hsrc. cbn [andb].
      rewrite Z.add_0_r. now apply Hmiss.
Qed.

Lemma counted_all rest seen counts :
  spec.counted seen counts ->
  spec.counted (seen ++ rest)
    (fold_left (fun counts f => if is_source f then count_ext (extension f) counts
                                else counts) rest counts).
Proof.
  revert seen counts. induction rest as [|f rest IH]; intros seen counts Hc;
    cbn [fold_left].
  - now rewrite app_nil_r.
  - replace (seen ++ f :: rest)%list with ((seen ++ [f]) ++ rest)%list
      by (rewrite <- app_assoc; reflexivity).
    apply IH. now apply counted_step.
Qed.

Lemma source_entry_of ext count :
  0 < count ->
  (if String.eqb ext ".py" && (count >? 0)
   then [source_entry "Python" "Backend" "Python" count]
   else if str_in ext [".js"; ".jsx"] && (count >? 0)
   then [source_entry "JavaScript/JSX" "Frontend" "JavaScript/JSX" count]
   else if str_in ext [".ts"; ".tsx"] && (count >? 0)
   then [source_entry "TypeScript" "Frontend" "TypeScript" count]
   else if String.eqb ext ".java" && (count >? 0)
   then [source_entry "Java" "Backend" "Java" count]
   else if String.eqb ext ".go" && (count >? 0)
   then [source_entry "Go" "Backend" "Go" count]
   else [])
  = match spec.source_technology ext with
    | Some (name, category, kind) => [source_entry name category kind count]
    | None => []
    end.
Proof.
  intros Hpos. unfold spec.source_technology.
  assert ((count >? 0) = true) as -> by (apply Z.gtb_lt; lia).
  rewrite !andb_true_r.
  destruct (String.eqb ext ".py"); [reflexivity|].
  destruct (str_in ext [".js"; ".jsx"]); [reflexivity|].
  destruct (str_in ext [".ts"; ".tsx"]); [reflexivity|].
  destruct (String.eqb ext ".java"); [reflexivity|].
  destruct (String.eqb ext ".go"); reflexivity.
Qed.

(** X17. [_analyze_source_files] reports one entry for each of the
    extensions .py, .js, .jsx, .ts, .tsx, .java and .go that at least one
    source file has, and nothing else; the number in its evidence is the
    exact number of source files with that extension. *)
Theorem source_technologies_counted (files : list FileInfo) (t : TechnologyInfo) :
  In t (_analyze_source_files files) <->
  exists ext name category kind,
    spec.source_technology ext = Some (name, category, kind) /\
    0 < spec.source_count ext files /\
    t = source_entry name category kind (spec.source_count ext files).
Proof.
  unfold _analyze_source_files.
  assert (spec.counted [] []) as Hinit.
  { split; [constructor|]. split; [intros e n [] | reflexivity]. }
  pose proof (counted_all files [] [] Hinit) as (Hnd & Hval & Hmiss).
  cbn [app] in Hval, Hmiss.
  set (counts := fold_left _ files []) in *.
  rewrite in_flat_map. split.
  - intros ([ext count] & Hin & Ht).
    destruct (Hval _ _ Hin) as [-> Hpos].
    rewrite source_entry_of in Ht by assumption.
    destruct (spec.source_technology ext) as [[[name category] kind]|] eqn:Hs;
      [|destruct Ht].
    destruct Ht as [<- | []]. exists ext, name, category, kind. auto.
  - intros (ext & name & category & kind & Hs & Hpos & ->).
    exists (ext, spec.source_count ext files).
    assert (In ext (map fst counts)) as Hkey.
    { destruct (in_dec string_dec ext (map fst counts)) as [|Hno]; [assumption|].
      apply Hmiss in Hno. lia. }
    apply in_map_iff in Hkey. destruct Hkey as ([e n] & He & Hin).
    cbn [fst] in He. subst e.
    destruct (Hval _ _ Hin) as [Hn _]. subst n.
    split; [assumption|].
    rewrite source_entry_of, Hs by assumption. now left.
Qed.

End SourceFiles.

Example web_project_sources :
  repo_analyzer._analyze_source_files web_project
  = [ repo_analyzer.source_entry "JavaScript/JSX" "Frontend" "JavaScript/JSX" 1;
      repo_analyzer.source_entry "Python" "Backend" "Python" 3 ].
Proof. vm_compute. reflexivity. Qed.

(** ** binary64: rounding does not pass a number that can be represented *)

Section FloatBounds.
Import Py.

(** Rounding a mantissa of at least 53 bits in the normal range moves it
    up by less than one unit of the result. *)
Lemma binary_round_aux_below s mx ex lx :
  0 < mx -> 53 <= Zdigits2 mx -> -1074 <= Zdigits2 mx + ex - 53 ->
  match binary_round_aux prec emax s mx ex lx with
  | S754_finite s' m e =>
      s' = s /\ 2 ^ 52 <= Z.pos m < 2 ^ 53 /\ ex <= e /\
      Zdigits2 mx + ex - 53 <= e /\
      (Z.pos m - 1) * 2 ^ (e - ex) <= mx
  | S754_infinity s' => 971 <= Zdigits2 mx + ex - 53
  | _ => False
  end.
Proof.
  intros Hm HD HE. unfold binary_round_aux.
  set (D := Zdigits2 mx) in *. set (E := D + ex - 53) in *.
  pose proof (shr_fexp_spec mx ex lx ltac:(lia)) as H1. cbv zeta in H1.
  destruct (shr_fexp prec emax mx ex lx) as [mrs' e'].
  set (m1 := round_nearest_even (shr_m mrs') (loc_of_shr_record mrs')).
  pose proof (round_nearest_even_bounds (shr_m mrs') (loc_of_shr_record mrs')) as Hr.
  fold m1 in Hr. rewrite fexp_eq in H1. fold D in H1.
  assert (e' = E /\ Zdigits2 (shr_m mrs') = 53 /\ 0 <= shr_m mrs' /\
          shr_m mrs' * 2 ^ (E - ex) <= mx) as (-> & Hd' & Hnn & Hlow).
  { destruct H1 as [(Ht & -> & Hs) | (Ht & -> & Hs)].
    - rewrite Hs. fold D. assert (E = ex) as HEx by (subst E; lia).
      rewrite HEx, Z.sub_diag. change (2 ^ 0) with 1. lia.
    - split; [subst E; lia|]. rewrite Hs.
      replace (Z.max (D + ex - 53) (-1074) - ex) with (D - 53) by lia.
      replace (E - ex) with (D - 53) by (subst E; lia).
      assert (0 < 2 ^ (D - 53)) by (apply Z.pow_pos_nonneg; lia).
      split; [subst D; rewrite Zdigits2_div_pow2_eq; lia|].
      split; [apply Z.div_pos; lia|].
      rewrite Z.mul_comm. apply Z.mul_div_le. lia. }
  assert (0 < shr_m mrs') as Hpos'.
  { destruct (shr_m mrs') as [|q|q]; cbn [Zdigits2] in Hd'; lia. }
  destruct (Zdigits2_bounds (shr_m mrs') Hpos') as [Blo Bhi].
  rewrite Hd' in Blo, Bhi. change (53 - 1) with 52 in Blo.
  assert (2 ^ 52 <= m1 <= 2 ^ 53) as Hm1 by lia.
  assert (0 <= E - ex) as Hshift by (subst E; lia).
  assert (0 < 2 ^ (E - ex)) as Hpow by (apply Z.pow_pos_nonneg; lia).
  pose proof (shr_fexp_spec m1 E loc_Exact ltac:(lia)) as H2. cbv zeta in H2.
  destruct (shr_fexp prec emax m1 E loc_Exact) as [mrs'' e''].
  rewrite fexp_eq in H2.
  destruct (Z.eq_dec m1 (2 ^ 53)) as [Htop | Hnot].
  - rewrite Htop in H2. change (Zdigits2 (2 ^ 53)) with 54 in H2.
    destruct H2 as [(Ht & _) | (_ & -> & Hs)]; [lia|].
    replace (Z.max (54 + E - 53) (-1074) - E) with 1 in Hs by lia.
    change (2 ^ 53 / 2 ^ 1) with 4503599627370496 in Hs. rewrite Hs.
    change (emax - prec) with 971.
    destruct (Z.leb_spec (Z.max (54 + E - 53) (-1074)) 971); [|lia].
    replace (Z.max (54 + E - 53) (-1074)) with (E + 1) by lia.
    split; [reflexivity|].
    split; [change (2 ^ 52) with 4503599627370496;
            change (2 ^ 53) with 9007199254740992; lia|].
    split; [lia|]. split; [fold D; lia|].
    replace (E + 1 - ex) with (E - ex + 1) by lia.
    rewrite Z.pow_add_r by lia. change (2 ^ 1) with 2.
    change (2 ^ 53) with 9007199254740992 in Htop. nia.
  - assert (Zdigits2 m1 = 53) as Hd1 by (apply Zdigits2_unique; lia).
    rewrite Hd1 in H2.
    destruct H2 as [(_ & -> & Hs) | (Ht & _)]; [|lia].
    rewrite Hs. destruct m1 as [|q|q]; try lia.
    change (emax - prec) with 971.
    destruct (Z.leb_spec E 971); [|lia].
    split; [reflexivity|]. split; [lia|]. split; [lia|].
    split; [fold D; lia|]. nia.
Qed.

(** A value below the normal number [b * 2^eb] is rounded to a number
    that is at most [b * 2^eb]. *)
Lemma binary_round_aux_up_to mx ex lx b eb :
  0 < mx -> 53 <= Zdigits2 mx -> -1074 <= Zdigits2 mx + ex - 53 ->
  2 ^ 52 <= Z.pos b <= 2 ^ 53 - 2 -> ex <= eb -> eb <= 970 ->
  mx < Z.pos b * 2 ^ (eb - ex) ->
  spec.normal_up_to b eb (binary_round_aux prec emax false mx ex lx).
Proof.
  intros Hm HD HE Hb Hex Heb Hlt.
  pose proof (binary_round_aux_below false mx ex lx Hm HD HE) as H.
  assert (0 < 2 ^ (eb - ex)) as Hpow by (apply Z.pow_pos_nonneg; lia).
  assert (Zdigits2 mx + ex - 53 <= eb) as Htop.
  { assert (Zdigits2 mx <= 53 + (eb - ex)); [|lia].
    apply Zdigits2_le; [lia | lia |].
    rewrite Z.pow_add_r by lia. nia. }
  destruct (binary_round_aux prec emax false mx ex lx) as [[] | [] | | s m e];
    try contradiction; try lia.
  destruct H as (-> & Hmant & Hle & Hfrom & Hlow). cbn [spec.normal_up_to].
  split; [assumption|]. split; [lia|].
  destruct (Z_lt_le_dec e eb) as [|Hge]; [now left | right].
  destruct (Z.eq_dec e eb) as [-> | Hne].
  - split; [reflexivity|].
    assert (Z.pos m - 1 < Z.pos b) by nia. lia.
  - exfalso.
    assert (0 < 2 ^ (e - eb - 1)) by (apply Z.pow_pos_nonneg; lia).
    assert (2 ^ (e - ex) = 2 * 2 ^ (e - eb - 1) * 2 ^ (eb - ex)) as Hsplit.
    { rewrite <- (Z.pow_1_r 2) at 2. rewrite <- !Z.pow_add_r by lia.
      f_equal. lia. }
    rewrite Hsplit in Hlow.
    assert (Z.pos b * 2 ^ (eb - ex)
            <= (Z.pos m - 1) * (2 * 2 ^ (e - eb - 1) * 2 ^ (eb - ex))); [|lia].
    assert (Z.pos b <= (Z.pos m - 1) * (2 * 2 ^ (e - eb - 1))) by nia.
    nia.
Qed.

Lemma Zdigits2_from m k : 0 <= k -> 2 ^ k <= m -> k + 1 <= Zdigits2 m.
Proof.
  intros Hk Hm.
  assert (0 < 2 ^ k) by (apply Z.pow_pos_nonneg; lia).
  destruct (Zdigits2_bounds m ltac:(lia)) as [_ Hhi].
  destruct (Z_lt_le_dec (Zdigits2 m) (k + 1)) as [Hlt|]; [|assumption].
  pose proof (Zdigits2_nonneg m).
  assert (2 ^ Zdigits2 m <= 2 ^ k) by (apply Z.pow_le_mono_r; lia). lia.
Qed.

(** The quotient of two ints [0 < a < b <= sys.maxsize] is a normal number
    of at most 1. *)
Lemma SFdiv_below_one a b :
  (a < b)%positive -> Z.pos b <= maxsize ->
  spec.normal_up_to 4503599627370496 (-52)
                    (SFdiv prec emax (S754_finite false a 0) (S754_finite false b 0)).
Proof.
  intros Hab Hb. unfold SFdiv, SFdiv_core_binary.
  cbn [Zdigits2 xorb]. rewrite !Z.add_0_r, Z.sub_0_r. rewrite fexp_eq.
  set (d1 := Z.pos (digits2_pos a)) in *. set (d2 := Z.pos (digits2_pos b)) in *.
  destruct (Zdigits2_bounds (Z.pos a)) as [Halo Hahi]; [lia|].
  destruct (Zdigits2_bounds (Z.pos b)) as [Hblo Hbhi]; [lia|].
  cbn [Zdigits2] in Halo, Hahi, Hblo, Hbhi.
  fold d1 in Halo, Hahi. fold d2 in Hblo, Hbhi.
  assert (0 < d1 /\ 0 < d2) as [Hd1 Hd2] by (subst d1 d2; lia).
  assert (d1 <= d2) as Hd12.
  { pose proof (Zdigits2_mono (Z.pos a) (Z.pos b) ltac:(lia)) as H.
    cbn [Zdigits2] in H. exact H. }
  assert (d2 <= 63) as Hd63.
  { pose proof (Zdigits2_le (Z.pos b) 63 ltac:(lia) ltac:(lia)
                            ltac:(unfold maxsize in Hb; lia)) as H.
    cbn [Zdigits2] in H. exact H. }
  clearbody d1 d2.
  replace (Z.min (Z.max (d1 - d2 - 53) (-1074)) 0) with (d1 - d2 - 53) by lia.
  set (sh := 53 + d2 - d1).
  replace (0 - (d1 - d2 - 53)) with sh by (subst sh; lia).
  replace (d1 - d2 - 53) with (- sh) by (subst sh; lia).
  assert (53 <= sh <= 115) as Hsh by (subst sh; lia).
  assert (sh = 53 + d2 - d1) as Hshd by reflexivity.
  clearbody sh.
  assert (0 < 2 ^ sh) as Hpow by (apply Z.pow_pos_nonneg; lia).
  destruct sh as [|psh|psh] eqn:Hshape; try lia.
  rewrite Z.shiftl_mul_pow2 by lia. rewrite <- Hshape in *. clear Hshape psh.
  pose proof (Z.div_eucl_eq (Z.pos a * 2 ^ sh) (Z.pos b) ltac:(lia)) as Heucl.
  pose proof (Z.mod_pos_bound (Z.pos a * 2 ^ sh) (Z.pos b) ltac:(lia)) as Hmod.
  unfold Z.modulo in Hmod.
  destruct (Z.div_eucl (Z.pos a * 2 ^ sh) (Z.pos b)) as [q r].
  assert (2 ^ sh = 2 ^ 52 * 2 ^ (d2 - d1 + 1)) as Hsplit.
  { rewrite <- Z.pow_add_r by lia. f_equal. lia. }
  assert (2 ^ (d2 - d1 + 1) * 2 ^ (d1 - 1) = 2 ^ d2) as Hd.
  { rewrite <- Z.pow_add_r by lia. f_equal. lia. }
  assert (0 < 2 ^ (d2 - d1 + 1)) by (apply Z.pow_pos_nonneg; lia).
  assert (0 < 2 ^ (d1 - 1)) by (apply Z.pow_pos_nonneg; lia).
  assert (2 ^ 52 <= q) as Hq.
  { destruct (Z_lt_le_dec q (2 ^ 52)) as [Hlt|]; [exfalso | assumption].
    assert (Z.pos a * 2 ^ sh < 2 ^ 52 * Z.pos b) by nia.
    assert (2 ^ 52 * 2 ^ d2 <= Z.pos a * 2 ^ sh).
    { rewrite Hsplit, <- Hd. nia. }
    change (2 ^ 52) with 4503599627370496 in *. nia. }
  assert (q < 2 ^ sh) as Hqs.
  { destruct (Z_lt_le_dec q (2 ^ sh)) as [|Hge]; [assumption | exfalso]. nia. }
  pose proof (Zdigits2_from q 52 ltac:(lia) Hq) as Hdq.
  apply binary_round_aux_up_to; try lia.
  replace (-52 - - sh) with (sh - 52) by lia.
  assert (2 ^ sh = 2 ^ 52 * 2 ^ (sh - 52)) as Hs52.
  { rewrite <- Z.pow_add_r by lia. f_equal. lia. }
  rewrite Hs52 in Hqs. change (2 ^ 52) with 4503599627370496 in Hqs. exact Hqs.
Qed.

(** [n / n] is 1.0. *)
Lemma SFdiv_self a :
  SFdiv prec emax (S754_finite false a 0) (S754_finite false a 0)
  = S754_finite false 4503599627370496 (-52).
Proof.
  unfold SFdiv, SFdiv_core_binary. cbn [Zdigits2 xorb].
  rewrite !Z.add_0_r, Z.sub_0_r, Z.sub_diag.
  change (Z.min (fexp prec emax 0) 0) with (-53).
  change (0 - -53) with 53. cbn match.
  rewrite Z.shiftl_mul_pow2 by lia.
  pose proof (Z.div_eucl_eq (Z.pos a * 2 ^ 53) (Z.pos a) ltac:(lia)) as Heucl.
  pose proof (Z.mod_pos_bound (Z.pos a * 2 ^ 53) (Z.pos a) ltac:(lia)) as Hmod.
  unfold Z.modulo in Hmod.
  destruct (Z.div_eucl (Z.pos a * 2 ^ 53) (Z.pos a)) as [q r].
  assert (q = 2 ^ 53 /\ r = 0) as [-> ->].
  { change (2 ^ 53) with 9007199254740992 in *.
    destruct (Z.lt_trichotomy q 9007199254740992) as [Hq | [Hq | Hq]];
      [exfalso | split; [assumption|] | exfalso].
    - assert (Z.pos a * (q + 1) <= Z.pos a * 9007199254740992)
        by (apply Z.mul_le_mono_nonneg_l; lia). lia.
    - subst q. lia.
    - assert (Z.pos a * (9007199254740992 + 1) <= Z.pos a * q)
        by (apply Z.mul_le_mono_nonneg_l; lia). lia. }
  unfold new_location. destruct (Z.even (Z.pos a)); reflexivity.
Qed.

(** The quotient of two ints [0 <= a <= b] with [0 < b <= sys.maxsize]. *)
Lemma int_truediv_share a b :
  0 <= a <= b -> 0 < b <= maxsize ->
  exists q, int_truediv a b = Return q /\ spec.share q.
Proof.
  intros Ha Hb. unfold int_truediv.
  destruct (Z.eqb_spec b 0); [lia|].
  destruct b as [|pb|pb]; try lia.
  destruct a as [|pa|pa]; try lia.
  - eexists. split; [reflexivity | now left].
  - cbn [exact]. destruct (Z.eq_dec (Z.pos pa) (Z.pos pb)) as [[= ->] | Hne].
    + rewrite SFdiv_self. eexists. split; [reflexivity|]. right.
      cbn [spec.normal_up_to]. change (2 ^ 52) with 4503599627370496.
      change (2 ^ 53) with 9007199254740992. lia.
    + pose proof (SFdiv_below_one pa pb ltac:(lia) ltac:(lia)) as H.
      destruct (SFdiv prec emax _ _) as [[] | [] | | [] m e]; try contradiction.
      eexists. split; [reflexivity|]. now right.
Qed.

(** A share as a percentage: at most 100.0. *)
Lemma percentage_of_share q :
  spec.share q ->
  spec.nonnegative (fmul q (float_of_int 100)) = true /\
  fle (fmul q (float_of_int 100)) (float_of_int 100) = true.
Proof.
  intros [-> | Hq]; [split; reflexivity|].
  destruct q as [[] | [] | | [] m e]; try contradiction.
  destruct Hq as (Hm & Hlow & Hle).
  destruct (Z.eq_dec e (-52)) as [-> | Hne].
  - assert (m = 4503599627370496%positive) as ->
        by (change (2 ^ 52) with 4503599627370496 in Hm; lia).
    split; reflexivity.
  - assert (e <= -53) as He by lia.
    change (float_of_int 100) with (S754_finite false 7036874417766400 (-46)).
    unfold fmul, SFmul. cbn [xorb].
    assert (0 < 2 ^ (- e - 53)) by (apply Z.pow_pos_nonneg; lia).
    assert (2 ^ (- e) = 2 ^ 53 * 2 ^ (- e - 53)) as Hsplit.
    { rewrite <- Z.pow_add_r by lia. f_equal. lia. }
    pose proof (binary_round_aux_up_to
                  (Z.pos (m * 7036874417766400)) (e + -46) loc_Exact
                  7036874417766400 (-46)) as Hround.
    assert (104 + 1 <= Zdigits2 (Z.pos (m * 7036874417766400))) as Hd.
    { apply Zdigits2_from; [lia|].
      change (2 ^ 104) with (2 ^ 52 * 4503599627370496).
      rewrite Pos2Z.inj_mul. nia. }
    specialize (Hround ltac:(lia) ltac:(lia) ltac:(lia)
                  ltac:(change (2 ^ 52) with 4503599627370496;
                        change (2 ^ 53) with 9007199254740992; lia)
                  ltac:(lia) ltac:(lia)).
    replace (-46 - (e + -46)) with (- e) in Hround by lia.
    rewrite Hsplit, Pos2Z.inj_mul in Hround.
    specialize (Hround ltac:(change (2 ^ 53) with 9007199254740992 in *; nia)).
    destruct (binary_round_aux prec emax false _ _ _) as [[] | [] | | [] m' e'];
      try contradiction.
    split; [reflexivity|].
    destruct Hround as (_ & _ & Hcmp).
    unfold fle. apply SFleb_rank; [reflexivity | reflexivity|].
    cbn [spec.rank spec.le3]. lia.
Qed.

End FloatBounds.

(** ** Further properties: the statistics of the authors *)

Section Authors.
Import Py git_analyzer.

Lemma update_author_keys a f d :
  map fst (update_author a f d)
  = if existsb (fun e => String.eqb a (fst e)) d
    then map fst d else (map fst d ++ [a])%list.
Proof.
  induction d as [|[k e] d IH]; cbn [update_author existsb map fst app];
    [reflexivity|].
  destruct (String.eqb a k); cbn [orb map fst]; [reflexivity|].
  rewrite IH. destruct (existsb _ d); reflexivity.
Qed.

Lemma author_present a (d : list (string * AuthorEntry)) :
  existsb (fun e => String.eqb a (fst e)) d = true <-> In a (map fst d).
Proof.
  rewrite existsb_exists. split.
  - intros ([k e] & Hin & Heq). apply String.eqb_eq in Heq. cbn [fst] in Heq.
    subst k. apply in_map_iff. now exists (a, e).
  - intros Hin. apply in_map_iff in Hin. destruct Hin as ([k e] & Hk & Hin).
    cbn [fst] in Hk. subst k. exists (a, e). split; [assumption|].
    apply String.eqb_refl.
Qed.

Lemma update_author_In a e k f d :
  NoDup (map fst d) -> In (a, e) (update_author k f d) ->
  (a = k /\ ((exists e0, In (k, e0) d /\ e = f e0) \/
             (~ In k (map fst d) /\ e = f new_entry))) \/
  (a <> k /\ In (a, e) d).
Proof.
  induction d as [|[k' e'] d IH]; intros Hnd; cbn [update_author].
  - intros [[= <- <-] | []]. left. split; [reflexivity|]. right.
    split; [intros [] | reflexivity].
  - inversion Hnd as [|? ? Hk' Hd]; subst.
    destruct (String.eqb_spec k k') as [<- | Hne].
    + intros [[= <- <-] | Hin].
      * left. split; [reflexivity|]. left. exists e'. split; [now left | reflexivity].
      * right. split; [|now right]. intros ->. apply Hk'.
        apply in_map_iff. now exists (k, e).
    + intros [[= <- <-] | Hin].
      * right. split; [congruence | now left].
      * destruct (IH Hd Hin) as [[-> [(e0 & He0 & ->) | [Hno ->]]] | [Hk Hin']].
        -- left. split; [reflexivity|]. left. exists e0. split; [now right|reflexivity].
        -- left. split; [reflexivity|]. right. split; [|reflexivity].
           cbn [map fst In]. intros [E | H]; [congruence | contradiction].
        -- right. split; [assumption | now right].
Qed.

Lemma commits_of_snoc a seen c :
  spec.commits_of a (seen ++ [c])
  = (spec.commits_of a seen ++ if String.eqb (author c) a then [c] else [])%list.
Proof.
  unfold spec.commits_of. rewrite filter_app. cbn [filter].
  destruct (String.eqb _ _); reflexivity.
Qed.

Lemma commits_of_In a commits c :
  In c (spec.commits_of a commits) <-> In c commits /\ author c = a.
Proof. unfold spec.commits_of. now rewrite filter_In, String.eqb_eq. Qed.

Lemma entry_of_snoc mine c :
  spec.entry_of (mine ++ [c]) = add_commit c (spec.entry_of mine).
Proof. unfold spec.entry_of. now rewrite fold_left_app. Qed.

Lemma filed_step seen c d :
  spec.filed seen d ->
  spec.filed (seen ++ [c]) (update_author (author c) (add_commit c) d).
Proof.
  intros (Hnd & Hent & Hkeys).
  assert (forall a, ~ In a (map fst d) -> spec.commits_of a seen = []) as Hmiss.
  { intros a Ha. destruct (spec.commits_of a seen) as [|c' l] eqn:Hc; [reflexivity|].
    exfalso. apply Ha.
    assert (In c' (spec.commits_of a seen)) as Hin by (rewrite Hc; now left).
    apply commits_of_In in Hin. destruct Hin as [Hin <-]. now apply Hkeys. }
  split; [|split].
  - rewrite update_author_keys. destruct (existsb _ d) eqn:Hk; [assumption|].
    apply NoDup_app; [assumption | repeat constructor; intros [] |].
    intros x Hx [<- | []]. apply author_present in Hx. congruence.
  - intros a e Hin. rewrite commits_of_snoc.
    apply update_author_In in Hin; [|assumption].
    destruct Hin as [[-> [(e0 & He0 & ->) | [Hno ->]]] | [Hk Hin]].
    + rewrite String.eqb_refl. destruct (Hent _ _ He0) as [_ ->].
      split; [|now rewrite entry_of_snoc].
      intros H. now apply app_eq_nil in H.
    + rewrite String.eqb_refl, (Hmiss _ Hno). split; [discriminate | reflexivity].
    + destruct (String.eqb_spec (author c) a); [congruence|].
      rewrite app_nil_r. now apply Hent.
  - intros c' Hin. rewrite update_author_keys.
    apply in_app_iff in Hin.
    destruct (existsb _ d) eqn:Hk.
    + destruct Hin as [Hin | [<- | []]]; [now apply Hkeys|].
      now apply author_present.
    + apply in_app_iff. destruct Hin as [Hin | [<- | []]];
        [left; now apply Hkeys | right; now left].
Qed.

Lemma filed_all commits : spec.filed commits (group_by_author commits).
Proof.
  unfold group_by_author.
  assert (forall rest seen d,
             spec.filed seen d ->
             spec.filed (seen ++ rest)
               (fold_left (fun author_stats commit =>
                             update_author (author commit) (add_commit commit)
                                           author_stats) rest d)) as H.
  { induction rest as [|c rest IH]; intros seen d Hf; cbn [fold_left].
    - now rewrite app_nil_r.
    - replace (seen ++ c :: rest)%list with ((seen ++ [c]) ++ rest)%list
        by (rewrite <- app_assoc; reflexivity).
      apply IH. now apply filed_step. }
  apply (H commits [] []).
  split; [constructor|]. split; [intros a e [] | intros c []].
Qed.

Lemma sum_Z_snoc l x : sum_Z (l ++ [x]) = sum_Z l + x.
Proof. unfold sum_Z. now rewrite fold_left_app. Qed.

Lemma sum_Z_cons x l : sum_Z (x :: l) = x + sum_Z l.
Proof.
  unfold sum_Z. cbn [fold_left].
  assert (forall l a b, fold_left Z.add l (a + b) = a + fold_left Z.add l b) as H.
  { clear. induction l as [|y l IH]; intros a b; cbn [fold_left]; [reflexivity|].
    rewrite <- Z.add_assoc. apply IH. }
  rewrite <- (H l x 0). f_equal. lia.
Qed.

Lemma sum_Z_perm l l' : Permutation l l' -> sum_Z l = sum_Z l'.
Proof.
  induction 1; rewrite ?sum_Z_cons; lia.
Qed.

Lemma sum_Z_bounded M l :
  Forall (fun x => 0 <= x <= M) l -> 0 <= sum_Z l <= len l * M.
Proof.
  induction 1 as [|x l Hx Hl IH]; [cbn; lia|].
  rewrite sum_Z_cons, len_cons. lia.
Qed.

(** The counters of an entry are those of the commits it was built from. *)
Lemma entry_of_counters mine :
  stat_commits (spec.entry_of mine) = mine /\
  stat_lines_added (spec.entry_of mine) = sum_Z (map lines_added mine) /\
  stat_lines_deleted (spec.entry_of mine) = sum_Z (map lines_deleted mine).
Proof.
  induction mine as [|c mine IH] using rev_ind; [repeat split|].
  rewrite entry_of_snoc, !map_app. cbn [map]. rewrite !sum_Z_snoc.
  destruct IH as (H1 & H2 & H3). cbn [add_commit stat_commits stat_lines_added
    stat_lines_deleted map]. rewrite H1, H2, H3. auto.
Qed.

Ltac date_order :=
  unfold dt_gt, dt_lt in *;
  repeat match goal with
         | H : (_ <? _) = true |- _ => apply Z.ltb_lt in H
         | H : (_ <? _) = false |- _ => apply Z.ltb_ge in H
         | |- (_ <? _) = false => apply Z.ltb_ge
         end;
  try lia.

(** The dates of an entry are the earliest and the latest of its commits. *)
Lemma entry_of_period mine :
  mine <> [] ->
  exists first last,
    stat_first_commit (spec.entry_of mine) = Some first /\
    stat_last_commit (spec.entry_of mine) = Some last /\
    spec.period_of mine first last.
Proof.
  induction mine as [|c mine IH] using rev_ind; [congruence|]. intros _.
  rewrite entry_of_snoc. cbn [add_commit stat_first_commit stat_last_commit].
  destruct mine as [|c0 mine0].
  - cbn. exists (date c), (date c). split; [reflexivity|]. split; [reflexivity|].
    split; [now left|]. split; [now left|].
    constructor; [|constructor]. split; date_order.
  - destruct (IH ltac:(discriminate)) as (first & last & -> & -> & Hf & Hl & Hall).
    set (mine := c0 :: mine0) in *. clearbody mine.
    exists (if dt_lt (date c) first then date c else first),
           (if dt_gt (date c) last then date c else last).
    split; [destruct (dt_lt _ _); reflexivity|].
    split; [destruct (dt_gt _ _); reflexivity|].
    unfold spec.period_of. rewrite map_app, Forall_app. cbn [map].
    split; [|split; [|split]].
    + apply in_app_iff. destruct (dt_lt _ _); [right; now left | now left].
    + apply in_app_iff. destruct (dt_gt _ _); [right; now left | now left].
    + rewrite Forall_forall in Hall |- *. intros x Hx.
      destruct (Hall x Hx) as [H1 H2].
      destruct (dt_lt (date c) first) eqn:E1, (dt_gt (date c) last) eqn:E2;
        split; date_order.
    + constructor; [|constructor].
      destruct (dt_lt (date c) first) eqn:E1, (dt_gt (date c) last) eqn:E2;
        split; date_order.
Qed.

Lemma int_truediv_returns_small a b :
  0 <= a < 2 ^ 1022 -> 0 < b -> exists q, int_truediv a b = Return q.
Proof.
  intros Ha Hb. unfold int_truediv.
  destruct (Z.eqb_spec b 0); [lia|].
  destruct b as [|pb|pb]; try lia.
  destruct a as [|pa|pa]; try lia.
  - eexists. reflexivity.
  - cbn [exact]. rewrite SFdiv_pos_finite; [eexists; reflexivity|].
    pose proof (Zdigits2_le (Z.pos pa) 1022 ltac:(lia) ltac:(lia) ltac:(lia)) as H.
    cbn [Zdigits2] in H. lia.
Qed.

(** The second loop on the entry of one author. *)
Lemma author_statistics_of total a mine :
  mine <> [] -> len mine <= total <= maxsize -> spec.lines_bounded mine ->
  exists s,
    author_statistics total (a, spec.entry_of mine) = Return s /\
    name s = a /\
    spec.totals_of mine s /\
    (exists first last,
        first_commit s = Some first /\ last_commit s = Some last /\
        spec.period_of mine first last) /\
    spec.nonnegative (contribution_percentage s) = true /\
    fle (contribution_percentage s) (float_of_int 100) = true.
Proof.
  intros Hne Hlen Hb.
  assert (0 < len mine) as Hpos.
  { destruct mine; [congruence|]. rewrite len_cons. pose proof (len_nonneg mine). lia. }
  destruct (entry_of_counters mine) as (Hc & Ha & Hd).
  destruct (entry_of_period mine Hne) as (first & last & Hf & Hl & Hper).
  unfold author_statistics. rewrite Hc, Hf, Hl, Ha, Hd.
  destruct (int_truediv_share (len mine) total ltac:(lia) ltac:(lia))
    as (ratio & Hr & Hratio).
  rewrite Hr. cbn [bind].
  apply percentage_of_share in Hratio.
  unfold float_mul_int. rewrite (to_float_returns 100) by (apply Z.ltb_lt; reflexivity). cbn [bind].
  assert (len mine < 2 ^ 1022) as Hsmall.
  { assert (maxsize < 2 ^ 1022) by (unfold maxsize; apply Z.ltb_lt; reflexivity). lia. }
  destruct (int_truediv_returns_small (len mine) (Z.max (diff_days last first) 1)
              ltac:(lia) ltac:(lia)) as [freq Hfreq].
  rewrite Hfreq. cbn [bind].
  assert ((len mine >? 0) = true) as -> by (apply Z.gtb_lt; lia).
  assert (0 <= sum_Z (map lines_added mine) <= len mine * maxsize) as Hsa.
  { pose proof (sum_Z_bounded maxsize (map lines_added mine)) as H.
    unfold len in H |- *. rewrite length_map in H. apply H.
    apply Forall_map. revert Hb. apply Forall_impl. tauto. }
  assert (0 <= sum_Z (map lines_deleted mine) <= len mine * maxsize) as Hsd.
  { pose proof (sum_Z_bounded maxsize (map lines_deleted mine)) as H.
    unfold len in H |- *. rewrite length_map in H. apply H.
    apply Forall_map. revert Hb. apply Forall_impl. tauto. }
  assert (sum_Z (map lines_added mine) + sum_Z (map lines_deleted mine) < 2 ^ 1022)
    as Htot.
  { assert (2 * (maxsize * maxsize) < 2 ^ 1022)
      by (unfold maxsize; apply Z.ltb_lt; reflexivity).
    assert (0 <= maxsize) by (unfold maxsize; lia). nia. }
  destruct (int_truediv_returns_small
              (sum_Z (map lines_added mine) + sum_Z (map lines_deleted mine))
              (len mine) ltac:(lia) ltac:(lia)) as [avg Havg].
  rewrite Havg. cbn [bind].
  eexists. split; [reflexivity|].
  cbn [name commit_count total_lines_added total_lines_deleted email
       first_commit last_commit contribution_percentage].
  split; [reflexivity|]. split; [|split].
  - unfold spec.totals_of.
    cbn [name commit_count total_lines_added total_lines_deleted email].
    repeat split; try assumption. destruct mine; [congruence | reflexivity].
  - exists first, last. auto.
  - exact Hratio.
Qed.

Lemma for_each_collect {A B : Type} (F : A -> result B) (Q : A -> B -> Prop) l :
  (forall x, In x l -> exists y, F x = Return y /\ Q x y) ->
  forall acc,
  exists out,
    for_each (fun acc x => y <- F x ;; Return (acc ++ [y])%list) l acc
    = Return (acc ++ out)%list /\
    Forall2 Q l out.
Proof.
  induction l as [|x l IH]; intros HF acc; cbn [for_each].
  - exists []. rewrite app_nil_r. split; [reflexivity | constructor].
  - destruct (HF x (or_introl eq_refl)) as (y & Hy & Hq). rewrite Hy. cbn [bind].
    destruct (IH (fun z Hz => HF z (or_intror Hz)) (acc ++ [y])%list)
      as (out & Hout & Hall).
    exists (y :: out). rewrite Hout, <- app_assoc. split; [reflexivity|].
    now constructor.
Qed.

(** Each commit is counted for one key of a dict whose keys are distinct
    and include its author. *)
Lemma counted_once keys commits :
  NoDup keys -> (forall c, In c commits -> In (author c) keys) ->
  sum_Z (map (fun a => len (spec.commits_of a commits)) keys) = len commits.
Proof.
  intros Hnd. induction commits as [|c commits IH]; intros Hk.
  - clear. induction keys as [|k keys IH]; [reflexivity|].
    cbn [map]. rewrite sum_Z_cons, IH. reflexivity.
  - rewrite len_cons, <- IH by (intros c' Hc'; apply Hk; now right).
    assert (In (author c) keys) as Hin by (apply Hk; now left).
    clear IH Hk. induction keys as [|k keys IH]; [destruct Hin|].
    inversion Hnd as [|? ? Hnk Hnd']; subst.
    cbn [map]. rewrite !sum_Z_cons. unfold spec.commits_of at 1. cbn [filter].
    fold (spec.commits_of k commits).
    destruct (String.eqb_spec (author c) k) as [E | Hne].
    + rewrite len_cons.
      assert (map (fun a => len (spec.commits_of a (c :: commits))) keys
              = map (fun a => len (spec.commits_of a commits)) keys) as ->; [|lia].
      apply map_ext_in. intros a Ha. unfold spec.commits_of. cbn [filter].
      destruct (String.eqb_spec (author c) a); [|reflexivity]. congruence.
    + destruct Hin as [E | Hin]; [congruence|].
      rewrite (IH Hnd' Hin). lia.
Qed.

(** What [analyze_developers] returns, before the properties are read off. *)
Lemma developers_analysed commits :
  spec.lines_bounded commits -> len commits <= maxsize ->
  exists author_list,
    analyze_developers commits
    = Return (sorted_desc flt contribution_percentage author_list) /\
    Forall2 (fun entry s =>
               name s = fst entry /\
               spec.totals_of (spec.commits_of (fst entry) commits) s /\
               (exists first last,
                   first_commit s = Some first /\ last_commit s = Some last /\
                   spec.period_of (spec.commits_of (fst entry) commits) first last) /\
               spec.nonnegative (contribution_percentage s) = true /\
               fle (contribution_percentage s) (float_of_int 100) = true)
            (group_by_author commits) author_list /\
    spec.filed commits (group_by_author commits).
Proof.
  intros Hb Hlen. pose proof (filed_all commits) as Hfiled.
  destruct Hfiled as (Hnd & Hent & Hkeys).
  unfold analyze_developers.
  destruct (for_each_collect
              (author_statistics (len commits))
              (fun entry s =>
                 name s = fst entry /\
                 spec.totals_of (spec.commits_of (fst entry) commits) s /\
                 (exists first last,
                     first_commit s = Some first /\ last_commit s = Some last /\
                     spec.period_of (spec.commits_of (fst entry) commits) first last) /\
                 spec.nonnegative (contribution_percentage s) = true /\
                 fle (contribution_percentage s) (float_of_int 100) = true)
              (group_by_author commits)) with (acc := @nil AuthorStats)
    as (out & Hout & Hall).
  - intros [a e] Hin. destruct (Hent a e Hin) as [Hne ->]. cbn [fst].
    apply author_statistics_of; [assumption | |].
    + pose proof (len_filter_le (fun c => String.eqb (author c) a) commits) as H.
      fold (spec.commits_of a commits) in H. lia.
    + unfold spec.lines_bounded in *. rewrite Forall_forall in *.
      intros c Hc. apply commits_of_In in Hc. apply Hb, Hc.
  - rewrite Hout. cbn [bind app]. exists out.
    split; [reflexivity|]. split; [assumption|]. split; [assumption|]. split; assumption.
Qed.

Lemma Forall2_names (Q : string * AuthorEntry -> AuthorStats -> Prop) d out :
  Forall2 Q d out -> (forall e s, Q e s -> name s = fst e) ->
  map name out = map fst d.
Proof.
  induction 1 as [|e s d out Hq _ IH]; intros HQ; [reflexivity|].
  cbn [map]. f_equal; [now apply HQ | now apply IH].
Qed.

Lemma Forall2_right {A B : Type} (Q : A -> B -> Prop) (P : B -> Prop) l out :
  Forall2 Q l out -> (forall x y, Q x y -> P y) -> Forall P out.
Proof.
  induction 1; intros HQ; constructor; eauto.
Qed.

(** X18. [analyze_developers] returns one entry per author: the names are
    distinct and are exactly the authors of the commits; each entry counts
    the commits of its author (at least one), totals their added and
    deleted lines and carries the e-mail address of the first of them; the
    commit counts of all entries add up to the number of commits. *)
Theorem analyze_developers_by_author (commits : list CommitInfo) :
  spec.lines_bounded commits -> len commits <= maxsize ->
  exists stats,
    analyze_developers commits = Return stats /\
    NoDup (map name stats) /\
    (forall a, In a (map name stats) <-> In a (map author commits)) /\
    Forall (fun s => spec.totals_of (spec.commits_of (name s) commits) s) stats /\
    sum_Z (map commit_count stats) = len commits.
Proof.
  intros Hb Hlen.
  destruct (developers_analysed commits Hb Hlen)
    as (out & Hret & Hall & Hnd & Hent & Hkeys).
  exists (sorted_desc flt contribution_percentage out).
  pose proof (sorted_desc_perm flt contribution_percentage out) as Hperm.
  assert (map name out = map fst (group_by_author commits)) as Hnames.
  { apply (Forall2_names _ _ _ Hall). tauto. }
  assert (Forall (fun s => spec.totals_of (spec.commits_of (name s) commits) s) out)
    as Htot.
  { apply (Forall2_right _ _ _ _ Hall). intros e s (-> & H & _). exact H. }
  split; [assumption|]. split; [|split; [|split]].
  - apply (Permutation_NoDup (l := map name out)).
    + apply Permutation_map. now symmetry.
    + now rewrite Hnames.
  - intros a.
    assert (In a (map name (sorted_desc flt contribution_percentage out))
            <-> In a (map fst (group_by_author commits))) as ->.
    { rewrite <- Hnames. split; apply Permutation_in, Permutation_map;
        [assumption | now symmetry]. }
    split.
    + intros Hin. apply in_map_iff in Hin. destruct Hin as ([k e] & Hk & Hin).
      cbn [fst] in Hk. subst k. destruct (Hent a e Hin) as [Hne _].
      destruct (spec.commits_of a commits) as [|c l] eqn:Hc; [congruence|].
      assert (In c (spec.commits_of a commits)) as Hc' by (rewrite Hc; now left).
      apply commits_of_In in Hc'. destruct Hc' as [Hc' <-]. now apply in_map.
    + intros Hin. apply in_map_iff in Hin. destruct Hin as (c & <- & Hc).
      now apply Hkeys.
  - rewrite Forall_forall in Htot |- *. intros s Hs. apply Htot.
    now apply (Permutation_in _ Hperm).
  - rewrite (sum_Z_perm _ (map commit_count out))
      by (now apply Permutation_map).
    rewrite <- (counted_once (map fst (group_by_author commits)) commits Hnd Hkeys).
    rewrite <- Hnames, map_map. f_equal. apply map_ext_in. intros s Hs.
    rewrite Forall_forall in Htot. destruct (Htot s Hs) as (_ & -> & _). reflexivity.
Qed.

(** X19. Every entry of [analyze_developers] has both dates set, to the
    dates of two commits of its author: none of the author's commits is
    earlier than [first_commit] or later than [last_commit]. *)
Theorem analyze_developers_period (commits : list CommitInfo) :
  spec.lines_bounded commits -> len commits <= maxsize ->
  exists stats,
    analyze_developers commits = Return stats /\
    Forall (fun s => exists first last,
                first_commit s = Some first /\ last_commit s = Some last /\
                spec.period_of (spec.commits_of (name s) commits) first last) stats.
Proof.
  intros Hb Hlen.
  destruct (developers_analysed commits Hb Hlen) as (out & Hret & Hall & _).
  exists (sorted_desc flt contribution_percentage out).
  split; [assumption|].
  apply Forall_forall. intros s Hs. apply In_sorted_desc in Hs. revert s Hs.
  apply Forall_forall. apply (Forall2_right _ _ _ _ Hall).
  intros e s (-> & _ & H & _). exact H.
Qed.

(** X20. [analyze_developers] lists the authors by descending
    contribution percentage: no author is followed, at any distance, by
    one with a greater percentage; and every percentage is between 0 and
    100. *)
Theorem analyze_developers_descending (commits : list CommitInfo) :
  spec.lines_bounded commits -> len commits <= maxsize ->
  exists stats,
    analyze_developers commits = Return stats /\
    StronglySorted (fun a b => fge (contribution_percentage a)
                                   (contribution_percentage b) = true) stats /\
    Forall (fun s => fge (contribution_percentage s) (S754_zero false) = true /\
                     fle (contribution_percentage s) (float_of_int 100) = true) stats.
Proof.
  intros Hb Hlen.
  destruct (developers_analysed commits Hb Hlen) as (out & Hret & Hall & _).
  exists (sorted_desc flt contribution_percentage out).
  assert (Forall (fun s => spec.nonnegative (contribution_percentage s) = true /\
                           fle (contribution_percentage s) (float_of_int 100) = true)
                 out) as Hnn.
  { apply (Forall2_right _ _ _ _ Hall). intros e s (_ & _ & _ & H). exact H. }
  split; [assumption|]. split.
  - apply sorted_desc_by_float. revert Hnn. apply Forall_impl.
    intros s [H _]. now apply nonnegative_number.
  - apply Forall_forall. intros s Hs. apply In_sorted_desc in Hs.
    rewrite Forall_forall in Hnn. destruct (Hnn s Hs) as [H0 H100].
    split; [now apply nonnegative_fge | assumption].
Qed.

End Authors.

(** ** The author statistics of the five commits *)

(** ana has three of the five commits and ben two, all of 10 added and 2
    deleted lines. *)
Example developers_found :
  match git_analyzer.analyze_developers feature_commits with
  | Py.Return stats =>
      map (fun s => (git_analyzer.name s, git_analyzer.email s,
                     git_analyzer.commit_count s, git_analyzer.total_lines_added s,
                     git_analyzer.first_commit s, git_analyzer.last_commit s,
                     git_analyzer.average_commit_size s,
                     git_analyzer.contribution_percentage s)) stats
  | Py.Raise _ => []
  end
  = [ ("ana", "ana@example.com", 3, 30, Some (monday_noon 1), Some (monday_noon 4),
       Py.lit 120 1, Py.lit 600 1);
      ("ben", "ben@example.com", 2, 20, Some (monday_noon 2), Some (monday_noon 5),
       Py.lit 120 1, Py.lit 400 1) ].
Proof. vm_compute. reflexivity. Qed.

(** X18 on the five commits. *)
Lemma analyze_developers_by_author_witness :
  exists stats,
    git_analyzer.analyze_developers feature_commits = Py.Return stats /\
    NoDup (map git_analyzer.name stats) /\
    (forall a, In a (map git_analyzer.name stats)
               <-> In a (map git_analyzer.author feature_commits)) /\
    Forall (fun s => spec.totals_of (spec.commits_of (git_analyzer.name s) feature_commits) s)
           stats /\
    git_analyzer.sum_Z (map git_analyzer.commit_count stats) = Py.len feature_commits.
Proof.
  apply (analyze_developers_by_author feature_commits).
  - repeat constructor; vm_compute; discriminate.
  - vm_compute. discriminate.
Defined.

(** X19 on the five commits. *)
Lemma analyze_developers_period_witness :
  exists stats,
    git_analyzer.analyze_developers feature_commits = Py.Return stats /\
    Forall (fun s => exists first last,
                git_analyzer.first_commit s = Some first /\
                git_analyzer.last_commit s = Some last /\
                spec.period_of (spec.commits_of (git_analyzer.name s) feature_commits)
                               first last) stats.
Proof.
  apply (analyze_developers_period feature_commits).
  - repeat constructor; vm_compute; discriminate.
  - vm_compute. discriminate.
Defined.

(** X20 on the five commits. *)
Lemma analyze_developers_descending_witness :
  exists stats,
    git_analyzer.analyze_developers feature_commits = Py.Return stats /\
    StronglySorted
      (fun a b => Py.fge (git_analyzer.contribution_percentage a)
                         (git_analyzer.contribution_percentage b) = true) stats /\
    Forall (fun s => Py.fge (git_analyzer.contribution_percentage s)
                            (S754_zero false) = true /\
                     Py.fle (git_analyzer.contribution_percentage s)
                            (Py.float_of_int 100) = true) stats.
Proof.
  apply (analyze_developers_descending feature_commits).
  - repeat constructor; vm_compute; discriminate.
  - vm_compute. discriminate.
Defined.

(** ** Further properties: the most active days of the week *)

Section ActiveDays.
Import Py git_analyzer.

Lemma incr_In d n k counts :
  NoDup (map fst counts) -> In (d, n) (incr k counts) ->
  (d = k /\ ((exists n0, In (k, n0) counts /\ n = n0 + 1) \/
             (~ In k (map fst counts) /\ n = 1))) \/
  (d <> k /\ In (d, n) counts).
Proof.
  induction counts as [|[k' n'] l IH]; intros Hnd; cbn [incr].
  - intros [[= <- <-] | []]. left. split; [reflexivity|]. right.
    split; [intros [] | reflexivity].
  - inversion Hnd as [|? ? Hk' Hl]; subst.
    destruct (String.eqb_spec k k') as [<- | Hne].
    + intros [[= <- <-] | Hin].
      * left. split; [reflexivity|]. left. exists n'. split; [now left | reflexivity].
      * right. split; [|now right]. intros ->. apply Hk'.
        apply in_map_iff. now exists (k, n).
    + intros [[= <- <-] | Hin].
      * right. split; [congruence | now left].
      * destruct (IH Hl Hin) as [[-> [(n0 & Hn0 & ->) | [Hno ->]]] | [Hk Hin']].
        -- left. split; [reflexivity|]. left. exists n0. split; [now right|reflexivity].
        -- left. split; [reflexivity|]. right. split; [|reflexivity].
           cbn [map fst In]. intros [E | H]; [congruence | contradiction].
        -- right. split; [assumption | now right].
Qed.

Lemma commits_on_snoc day seen c :
  spec.commits_on day (seen ++ [c])
  = spec.commits_on day seen
    + (if String.eqb (strftime_A (date c)) day then 1 else 0).
Proof.
  unfold spec.commits_on. rewrite filter_app, len_app. cbn [filter].
  destruct (String.eqb _ _); reflexivity.
Qed.

Lemma tallied_step seen c counts :
  spec.tallied seen counts ->
  spec.tallied (seen ++ [c]) (incr (strftime_A (date c)) counts).
Proof.
  intros (Hnd & Hval & Hmiss). set (k := strftime_A (date c)).
  split; [|split].
  - rewrite incr_keys. destruct (str_in k (map fst counts)) eqn:Hk; [assumption|].
    apply NoDup_app; [assumption | repeat constructor; intros [] |].
    intros x Hx [<- | []]. apply str_in_In in Hx. congruence.
  - intros d n Hin. rewrite commits_on_snoc. fold k.
    apply incr_In in Hin; [|assumption].
    destruct Hin as [[-> [(n0 & Hn0 & ->) | [Hno ->]]] | [Hk Hin]].
    + rewrite String.eqb_refl. destruct (Hval _ _ Hn0). lia.
    + rewrite String.eqb_refl, (Hmiss _ Hno). lia.
    + destruct (String.eqb_spec k d); [congruence|].
      destruct (Hval _ _ Hin). lia.
  - intros d Hd. rewrite commits_on_snoc. fold k. rewrite incr_keys in Hd.
    destruct (str_in k (map fst counts)) eqn:Hk.
    + rewrite (Hmiss d Hd).
      destruct (String.eqb_spec k d) as [<- | _]; [|reflexivity].
      apply str_in_In in Hk. contradiction.
    + rewrite in_app_iff in Hd. rewrite Hmiss by tauto.
      destruct (String.eqb_spec k d) as [<- | _]; [|reflexivity].
      exfalso. apply Hd. right. now left.
Qed.

Lemma tallied_all commits :
  spec.tallied commits
    (fold_left (fun day_counts commit => incr (strftime_A (date commit)) day_counts)
               commits []).
Proof.
  assert (forall rest seen counts,
             spec.tallied seen counts ->
             spec.tallied (seen ++ rest)
               (fold_left (fun day_counts commit =>
                             incr (strftime_A (date commit)) day_counts)
                          rest counts)) as H.
  { induction rest as [|c rest IH]; intros seen counts Ht; cbn [fold_left].
    - now rewrite app_nil_r.
    - replace (seen ++ c :: rest)%list with ((seen ++ [c]) ++ rest)%list
        by (rewrite <- app_assoc; reflexivity).
      apply IH. now apply tallied_step. }
  apply (H commits [] []).
  split; [constructor|]. split; [intros d n [] | reflexivity].
Qed.

(** [sorted(..., reverse=True)] on int keys. *)
Lemma insert_desc_by_count {A : Type} (key : A -> Z) x l :
  StronglySorted (fun a b => key b <= key a) l ->
  StronglySorted (fun a b => key b <= key a) (insert_desc Z.ltb key x l).
Proof.
  induction l as [|y l IH]; intros Hs; cbn [insert_desc].
  - repeat constructor.
  - apply StronglySorted_inv in Hs. destruct Hs as [Hs Hall].
    destruct (Z.ltb_spec (key x) (key y)) as [Hlt | Hge].
    + constructor; [now apply IH|].
      apply Forall_forall. intros z Hz. apply In_insert_desc in Hz.
      destruct Hz as [-> | Hz]; [lia|].
      rewrite Forall_forall in Hall. now apply Hall.
    + constructor; [now constructor|].
      constructor; [assumption|].
      rewrite Forall_forall in Hall |- *. intros z Hz.
      specialize (Hall z Hz). cbn beta in Hall. lia.
Qed.

Lemma sorted_desc_by_count {A : Type} (key : A -> Z) l :
  StronglySorted (fun a b => key b <= key a) (sorted_desc Z.ltb key l).
Proof.
  induction l as [|x l IH]; [constructor|].
  unfold sorted_desc in *. cbn [fold_right]. now apply insert_desc_by_count.
Qed.

Lemma sorted_split {A : Type} (R : A -> A -> Prop) l1 l2 :
  StronglySorted R (l1 ++ l2) ->
  StronglySorted R l1 /\ (forall x y, In x l1 -> In y l2 -> R x y).
Proof.
  induction l1 as [|a l1 IH]; cbn [app]; intros Hs.
  - split; [constructor | intros x y []].
  - apply StronglySorted_inv in Hs. destruct Hs as [Hs Hall].
    destruct (IH Hs) as [H1 H2]. rewrite Forall_app in Hall.
    destruct Hall as [Ha1 Ha2]. split; [now constructor|].
    intros x y [<- | Hx] Hy; [|now apply H2].
    rewrite Forall_forall in Ha2. now apply Ha2.
Qed.

Lemma sorted_map {A B : Type} (R : A -> A -> Prop) (R' : B -> B -> Prop)
      (f : A -> B) l :
  StronglySorted R l ->
  (forall x y, In x l -> In y l -> R x y -> R' (f x) (f y)) ->
  StronglySorted R' (map f l).
Proof.
  induction 1 as [|x l Hl IH Hall]; intros HR; cbn [map]; constructor.
  - apply IH. intros a b Ha Hb. apply HR; now right.
  - apply Forall_forall. intros b Hb. apply in_map_iff in Hb.
    destruct Hb as (y & <- & Hy). rewrite Forall_forall in Hall.
    apply HR; [now left | now right | now apply Hall].
Qed.

(** X21. [_find_most_active_days] lists at most three distinct days of the
    week, at least one when there is a commit; every listed day has a
    commit, the days are listed by descending number of commits, and no
    day that is left out has more commits than a listed one. *)
Theorem most_active_days_ranked (commits : list CommitInfo) :
  let days := _find_most_active_days commits in
  NoDup days /\ len days <= 3 /\ (commits <> [] -> days <> []) /\
  Forall (fun d => 0 < spec.commits_on d commits) days /\
  StronglySorted
    (fun a b => spec.commits_on b commits <= spec.commits_on a commits) days /\
  (forall d d', In d days -> ~ In d' days ->
                spec.commits_on d' commits <= spec.commits_on d commits).
Proof.
  cbv zeta. unfold _find_most_active_days, most_common.
  pose proof (tallied_all commits) as (Hnd & Hval & Hmiss).
  set (counts := fold_left _ commits []) in *.
  pose proof (sorted_desc_perm Z.ltb snd counts) as Hperm.
  pose proof (sorted_desc_by_count snd counts) as Hsorted.
  set (sorted := sorted_desc Z.ltb snd counts) in *.
  rewrite <- (firstn_skipn 3 sorted) in Hsorted.
  destruct (sorted_split _ _ _ Hsorted) as [Htop Hrest].
  assert (forall e, In e sorted -> snd e = spec.commits_on (fst e) commits /\ 0 < snd e)
    as Hcount.
  { intros [d n] Hin. apply (Permutation_in _ Hperm) in Hin. now apply Hval. }
  assert (forall e, In e (firstn 3 sorted) -> In e sorted) as Hsub.
  { intros e He. rewrite <- (firstn_skipn 3 sorted). apply in_app_iff. now left. }
  assert (NoDup (map fst sorted)) as Hnds.
  { apply (Permutation_NoDup (l := map fst counts)); [|assumption].
    apply Permutation_map. now symmetry. }
  split; [|split; [|split; [|split; [|split]]]].
  - rewrite <- (firstn_skipn 3 sorted), map_app in Hnds.
    now apply NoDup_app_remove_r in Hnds.
  - unfold len. rewrite length_map.
    pose proof (firstn_le_length 3 sorted). lia.
  - intros Hne Hnil.
    assert (sorted = []) as Hs.
    { destruct sorted as [|e l]; [reflexivity | discriminate]. }
    assert (counts = []) as Hc.
    { apply Permutation_nil. rewrite <- Hs. now symmetry. }
    destruct commits as [|c l]; [congruence|].
    assert (spec.commits_on (strftime_A (date c)) (c :: l) = 0) as H0.
    { apply Hmiss. rewrite Hc. intros []. }
    unfold spec.commits_on in H0. cbn [filter] in H0.
    rewrite String.eqb_refl, len_cons in H0.
    pose proof (len_nonneg
                  (filter (fun c0 => String.eqb (strftime_A (date c0))
                                                (strftime_A (date c))) l)).
    lia.
  - apply Forall_forall. intros d Hd. apply in_map_iff in Hd.
    destruct Hd as (e & <- & He). destruct (Hcount e (Hsub e He)). lia.
  - apply (sorted_map _ _ fst _ Htop). intros e e' He He' Hle.
    destruct (Hcount e (Hsub e He)) as [<- _].
    destruct (Hcount e' (Hsub e' He')) as [<- _]. exact Hle.
  - intros d d' Hd Hd'. apply in_map_iff in Hd. destruct Hd as (e & <- & He).
    destruct (Hcount e (Hsub e He)) as [He1 He2].
    destruct (in_dec string_dec d' (map fst counts)) as [Hk | Hk];
      [|rewrite (Hmiss d' Hk); lia].
    apply (Permutation_in _ (Permutation_map fst (Permutation_sym Hperm))) in Hk.
    apply in_map_iff in Hk. destruct Hk as (e' & <- & He').
    rewrite <- (firstn_skipn 3 sorted) in He'. apply in_app_iff in He'.
    destruct He' as [He' | He'].
    + exfalso. apply Hd'. now apply in_map.
    + assert (In e' sorted) as Hin'
          by (rewrite <- (firstn_skipn 3 sorted); apply in_app_iff; now right).
      destruct (Hcount e' Hin') as [<- _]. rewrite <- He1.
      now apply Hrest.
Qed.

End ActiveDays.


(** The five commits were made from a Monday to a Friday, one a day: the
    first three days are listed, in the order of their first commit. *)
Example active_days_found :
  git_analyzer._find_most_active_days feature_commits
  = ["Monday"; "Tuesday"; "Wednesday"].
Proof. vm_compute. reflexivity. Qed.

(** ** Further properties: the skill level of a developer *)

Section SkillLevel.
Import Py git_analyzer developer_analyzer.

Ltac compare_both :=
  match goal with
  | |- match ?a ?= ?b with _ => _ end = true -> match ?c ?= ?d with _ => _ end = true =>
      destruct (Z.compare_spec a b); intros Hfirst; try discriminate Hfirst;
      destruct (Z.compare_spec c d); try reflexivity; exfalso;
      repeat match goal with
             | |- context [2 ^ ?k] =>
                 let p := fresh "p" in
                 let Hp := fresh "Hp" in
                 assert (0 < 2 ^ k) as Hp by (apply Z.pow_pos_nonneg; lia);
                 set (p := 2 ^ k) in *; clearbody p
             | H : context [2 ^ ?k] |- _ =>
                 let p := fresh "p" in
                 let Hp := fresh "Hp" in
                 assert (0 < 2 ^ k) as Hp by (apply Z.pow_pos_nonneg; lia);
                 set (p := 2 ^ k) in *; clearbody p
             end;
      nia
  end.

(** X22. [_assess_skill_level] calls a developer "Expert" only with at
    least 50 commits, a contribution of at least 20 % and an average
    commit of at most 100 lines. *)
Theorem skill_level_expert (author_stat : AuthorStats) (commits : list CommitInfo) :
  fst (_assess_skill_level author_stat commits) = "Expert" ->
  50 <= git_analyzer.commit_count author_stat /\
  float_ge_int (git_analyzer.contribution_percentage author_stat) 20 = true /\
  float_le_int (git_analyzer.average_commit_size author_stat) 100 = true.
Proof.
  unfold _assess_skill_level.
  assert (forall x, float_ge_int x 50 = true -> float_ge_int x 20 = true) as Hge.
  { intros x. unfold float_ge_int, int_float_compare.
    destruct x as [[] | [] | | [] m e]; try discriminate; try reflexivity;
      destruct (0 <=? e); compare_both. }
  assert (forall x, float_le_int x 50 = true -> float_le_int x 100 = true) as Hle.
  { intros x. unfold float_le_int, int_float_compare.
    destruct x as [[] | [] | | [] m e]; try discriminate; try reflexivity;
      destruct (0 <=? e); compare_both. }
  destruct (Z.geb_spec (git_analyzer.commit_count author_stat) 100);
    [|destruct (Z.geb_spec (git_analyzer.commit_count author_stat) 50);
      [|destruct (Z.geb_spec (git_analyzer.commit_count author_stat) 20)]];
    (destruct (float_ge_int (git_analyzer.contribution_percentage author_stat) 50)
       eqn:Hp50;
     [apply Hge in Hp50
     |destruct (float_ge_int (git_analyzer.contribution_percentage author_stat) 20)
        eqn:Hp20]);
    (destruct (float_le_int (git_analyzer.average_commit_size author_stat) 50)
       eqn:Ha50;
     [apply Hle in Ha50
     |destruct (float_le_int (git_analyzer.average_commit_size author_stat) 100)
        eqn:Ha100]);
    cbn; intros Hlevel; try discriminate Hlevel;
    (split; [lia | split; assumption || reflexivity]).
Qed.

End SkillLevel.

(** X22 on an author with 120 commits of 12 lines on average, 60 % of all
    commits. *)
Lemma skill_level_expert_witness :
  50 <= git_analyzer.commit_count lead_author /\
  Py.float_ge_int (git_analyzer.contribution_percentage lead_author) 20 = true /\
  Py.float_le_int (git_analyzer.average_commit_size lead_author) 100 = true.
Proof.
  apply (skill_level_expert lead_author []). vm_compute. reflexivity.
Defined.

Example lead_author_level :
  developer_analyzer._assess_skill_level lead_author []
  = ("Expert",
     "Highly experienced developer with deep technical knowledge and excellent practices").
Proof. vm_compute. reflexivity. Qed.

(** ** Further properties: the technical risks *)

Section Technical.
Import Py git_analyzer feature_mapper risk_assessor.










End Technical.

(** The five commits mention no test and the structure is deep: three
    technical risks. *)
Example technical_risks_found :
  match risk_assessor._identify_technical_risks
          (monday_noon 8) feature_commits risky_features deep_structure with
  | Py.Return risks =>
      map (fun r => (risk_assessor.id r, risk_assessor.risk_description r,
                     risk_assessor.risk_score r)) risks
  | Py.Raise _ => []
  end
  = [ ("TECH_001",
       "Project contains 1 high-complexity features that may cause delays and quality issues",
       Py.lit 2 1);
      ("TECH_003",
       "Project architecture shows high complexity that may impact maintainability",
       Py.lit 10 1);
      ("TECH_004", "Testing coverage of 0.00 indicates insufficient testing",
       Py.lit 10 1) ].
Proof. vm_compute. reflexivity. Qed.


(** ** Further properties: the timelines of the features *)

Section SortedByDate.
Import Py.
Context {A : Type} (key : A -> datetime).

Lemma insert_asc_perm x l : Permutation (insert_asc dt_lt key x l) (x :: l).
Proof.
  induction l as [|y l IH]; cbn [insert_asc]; [reflexivity|].
  destruct (dt_lt _ _); [|reflexivity].
  rewrite IH. apply perm_swap.
Qed.

Lemma sorted_asc_perm l : Permutation (sorted_asc dt_lt key l) l.
Proof.
  induction l as [|x l IH]; [reflexivity|].
  unfold sorted_asc in *. cbn [fold_right].
  rewrite insert_asc_perm. now constructor.
Qed.

Lemma insert_asc_by_date x l :
  StronglySorted (fun a b => dt_lt (key b) (key a) = false) l ->
  StronglySorted (fun a b => dt_lt (key b) (key a) = false) (insert_asc dt_lt key x l).
Proof.
  induction l as [|y l IH]; intros Hs; cbn [insert_asc].
  - repeat constructor.
  - apply StronglySorted_inv in Hs. destruct Hs as [Hs Hall].
    destruct (dt_lt (key y) (key x)) eqn:Hlt.
    + constructor; [now apply IH|].
      apply Forall_forall. intros z Hz.
      apply (Permutation_in _ (insert_asc_perm x l)) in Hz.
      destruct Hz as [<- | Hz].
      * unfold dt_lt in *. apply Z.ltb_lt in Hlt. apply Z.ltb_ge. lia.
      * rewrite Forall_forall in Hall. now apply Hall.
    + constructor; [now constructor|].
      constructor; [assumption|].
      rewrite Forall_forall in Hall |- *. intros z Hz.
      specialize (Hall z Hz). cbn beta in Hall.
      unfold dt_lt in *. apply Z.ltb_ge in Hlt, Hall. apply Z.ltb_ge. lia.
Qed.

Lemma sorted_asc_by_date l :
  StronglySorted (fun a b => dt_lt (key b) (key a) = false) (sorted_asc dt_lt key l).
Proof.
  induction l as [|x l IH]; [constructor|].
  unfold sorted_asc in *. cbn [fold_right]. now apply insert_asc_by_date.
Qed.

(** The first element of a sorted list is the earliest and the last one
    the latest. *)
Lemma sorted_ends s d :
  s <> [] ->
  StronglySorted (fun a b => dt_lt (key b) (key a) = false) s ->
  In (hd d s) s /\ In (last s d) s /\
  Forall (fun c => dt_lt (key c) (key (hd d s)) = false /\
                   dt_lt (key (last s d)) (key c) = false) s.
Proof.
  intros Hne Hs. induction Hs as [|x l Hl IH Hall]; [congruence|].
  cbn [hd]. destruct l as [|y l'].
  - cbn. split; [now left|]. split; [now left|].
    constructor; [|constructor]. unfold dt_lt. rewrite Z.ltb_irrefl. auto.
  - destruct (IH ltac:(discriminate)) as (_ & Hlast & Hends).
    change (last (x :: y :: l') d) with (last (y :: l') d).
    split; [now left|]. split; [now right|].
    rewrite Forall_forall in Hall, Hends.
    pose proof (Hall _ Hlast) as Hxl. cbn beta in Hxl.
    constructor.
    + split; [unfold dt_lt; apply Z.ltb_irrefl | exact Hxl].
    + apply Forall_forall. intros c Hc. split; [now apply Hall|].
      now apply Hends.
Qed.

End SortedByDate.

Section Timelines.
Import Py git_analyzer.

Lemma append_commit_keys k c d :
  map fst (append_commit k c d)
  = if existsb (fun e => String.eqb k (fst e)) d
    then map fst d else (map fst d ++ [k])%list.
Proof.
  induction d as [|[k' l] d IH]; cbn [append_commit existsb map fst app];
    [reflexivity|].
  destruct (String.eqb k k'); cbn [orb map fst]; [reflexivity|].
  rewrite IH. destruct (existsb _ d); reflexivity.
Qed.

Lemma feature_present k (d : list (string * list CommitInfo)) :
  existsb (fun e => String.eqb k (fst e)) d = true <-> In k (map fst d).
Proof.
  rewrite existsb_exists. split.
  - intros ([k' l] & Hin & Heq). apply String.eqb_eq in Heq. cbn [fst] in Heq.
    subst k'. apply in_map_iff. now exists (k, l).
  - intros Hin. apply in_map_iff in Hin. destruct Hin as ([k' l] & Hk & Hin).
    cbn [fst] in Hk. subst k'. exists (k, l). split; [assumption|].
    apply String.eqb_refl.
Qed.

Lemma append_commit_In a l k c d :
  NoDup (map fst d) -> In (a, l) (append_commit k c d) ->
  (a = k /\ ((exists l0, In (k, l0) d /\ l = (l0 ++ [c])%list) \/
             (~ In k (map fst d) /\ l = [c]))) \/
  (a <> k /\ In (a, l) d).
Proof.
  induction d as [|[k' l'] d IH]; intros Hnd; cbn [append_commit].
  - intros [[= <- <-] | []]. left. split; [reflexivity|]. right.
    split; [intros [] | reflexivity].
  - inversion Hnd as [|? ? Hk' Hd]; subst.
    destruct (String.eqb_spec k k') as [<- | Hne].
    + intros [[= <- <-] | Hin].
      * left. split; [reflexivity|]. left. exists l'. split; [now left | reflexivity].
      * right. split; [|now right]. intros ->. apply Hk'.
        apply in_map_iff. now exists (k, l).
    + intros [[= <- <-] | Hin].
      * right. split; [congruence | now left].
      * destruct (IH Hd Hin) as [[-> [(l0 & Hl0 & ->) | [Hno ->]]] | [Hk Hin']].
        -- left. split; [reflexivity|]. left. exists l0. split; [now right|reflexivity].
        -- left. split; [reflexivity|]. right. split; [|reflexivity].
           cbn [map fst In]. intros [E | H]; [congruence | contradiction].
        -- right. split; [assumption | now right].
Qed.

Lemma timeline_commits_snoc k seen c :
  spec.timeline_commits k (seen ++ [c])
  = (spec.timeline_commits k seen
     ++ match spec.timeline_feature c with
        | Some k' => if String.eqb k' k then [c] else []
        | None => []
        end)%list.
Proof.
  unfold spec.timeline_commits. rewrite filter_app. cbn [filter].
  destruct (spec.timeline_feature c) as [k'|]; [|reflexivity].
  destruct (String.eqb k' k); reflexivity.
Qed.

Lemma timeline_commits_In k commits c :
  In c (spec.timeline_commits k commits)
  <-> In c commits /\ spec.timeline_feature c = Some k.
Proof.
  unfold spec.timeline_commits. rewrite filter_In.
  destruct (spec.timeline_feature c) as [k'|].
  - rewrite String.eqb_eq. intuition congruence.
  - intuition discriminate.
Qed.

Lemma listed_missing seen d k :
  spec.listed seen d -> ~ In k (map fst d) -> spec.timeline_commits k seen = [].
Proof.
  intros (_ & _ & Hkeys) Hk.
  destruct (spec.timeline_commits k seen) as [|c l] eqn:Hc; [reflexivity|].
  exfalso. apply Hk.
  assert (In c (spec.timeline_commits k seen)) as Hin by (rewrite Hc; now left).
  apply timeline_commits_In in Hin. destruct Hin as [Hin Hf]. now apply (Hkeys c).
Qed.

Lemma listed_step seen c d :
  spec.listed seen d ->
  spec.listed (seen ++ [c])
    (match _extract_feature_from_commit c with
     | Some (String a feature) => append_commit (String a feature) c d
     | _ => d
     end).
Proof.
  intros Hl. pose proof (listed_missing seen d) as Hmiss.
  specialize (fun k => Hmiss k Hl). destruct Hl as (Hnd & Hent & Hkeys).
  assert (spec.timeline_feature c = None ->
          spec.listed (seen ++ [c]) d) as Hskip.
  { intros Hnone. split; [assumption|]. split.
    - intros k l Hin. rewrite timeline_commits_snoc, Hnone, app_nil_r.
      now apply Hent.
    - intros c' k Hin Hf. apply in_app_iff in Hin.
      destruct Hin as [Hin | [<- | []]]; [now apply (Hkeys c')|]. congruence. }
  unfold spec.timeline_feature in Hskip.
  destruct (_extract_feature_from_commit c) as [[|a feature]|] eqn:Hx;
    try (now apply Hskip).
  clear Hskip. set (k := String a feature) in *.
  assert (spec.timeline_feature c = Some k) as Hf
      by (unfold spec.timeline_feature; now rewrite Hx).
  split; [|split].
  - rewrite append_commit_keys. destruct (existsb _ d) eqn:Hk; [assumption|].
    apply NoDup_app; [assumption | repeat constructor; intros [] |].
    intros x Hx' [<- | []]. apply feature_present in Hx'. congruence.
  - intros k' l Hin. rewrite timeline_commits_snoc, Hf.
    apply append_commit_In in Hin; [|assumption].
    destruct Hin as [[-> [(l0 & Hl0 & ->) | [Hno ->]]] | [Hk Hin]].
    + rewrite String.eqb_refl. destruct (Hent _ _ Hl0) as [_ <-].
      split; [|reflexivity]. intros H. now apply app_eq_nil in H.
    + rewrite String.eqb_refl, (Hmiss _ Hno). split; [discriminate | reflexivity].
    + destruct (String.eqb_spec k k'); [congruence|].
      rewrite app_nil_r. now apply Hent.
  - intros c' k' Hin Hf'. rewrite append_commit_keys.
    apply in_app_iff in Hin.
    destruct (existsb _ d) eqn:Hk.
    + destruct Hin as [Hin | [<- | []]]; [now apply (Hkeys c')|].
      assert (k' = k) as -> by congruence. now apply feature_present.
    + apply in_app_iff. destruct Hin as [Hin | [<- | []]];
        [left; now apply (Hkeys c') | right; left; congruence].
Qed.

Lemma listed_all commits :
  spec.listed commits
    (fold_left (fun feature_commits commit =>
                  match _extract_feature_from_commit commit with
                  | Some (String c feature) =>
                      append_commit (String c feature) commit feature_commits
                  | _ => feature_commits
                  end) commits []).
Proof.
  assert (forall rest seen d,
             spec.listed seen d ->
             spec.listed (seen ++ rest)
               (fold_left (fun feature_commits commit =>
                             match _extract_feature_from_commit commit with
                             | Some (String c feature) =>
                                 append_commit (String c feature) commit
                                               feature_commits
                             | _ => feature_commits
                             end) rest d)) as H.
  { induction rest as [|c rest IH]; intros seen d Hl; cbn [fold_left].
    - now rewrite app_nil_r.
    - replace (seen ++ c :: rest)%list with ((seen ++ [c]) ++ rest)%list
        by (rewrite <- app_assoc; reflexivity).
      apply IH. now apply listed_step. }
  apply (H commits [] []).
  split; [constructor|]. split; [intros k l [] | intros c k []].
Qed.

(** The second loop on one entry of the dict. *)
Lemma add_timeline_of acc k mine :
  spec.lines_bounded mine -> len mine <= maxsize ->
  (len mine < 2 /\ add_timeline acc (k, mine) = Return acc) \/
  (2 <= len mine /\
   exists t, add_timeline acc (k, mine) = Return (acc ++ [t])%list /\
             feature_name t = k /\ spec.timeline_of mine t).
Proof.
  intros Hb Hlen. unfold add_timeline.
  destruct mine as [|c0 [|c1 rest]]; [left; split; [cbn; lia | reflexivity]
                                     |left; split; [cbn; lia | reflexivity]|].
  right. set (mine := c0 :: c1 :: rest) in *.
  assert (2 <= len mine) as H2.
  { subst mine. rewrite !len_cons. pose proof (len_nonneg rest). lia. }
  split; [assumption|].
  pose proof (sorted_asc_perm date mine) as Hperm.
  pose proof (sorted_asc_by_date date mine) as Hsorted.
  set (sorted := sorted_asc dt_lt date mine) in *.
  assert (sorted <> []) as Hne.
  { intros Hnil. rewrite Hnil in Hperm. apply Permutation_nil in Hperm.
    subst mine. discriminate. }
  destruct (sorted_ends date sorted c0 Hne Hsorted) as (Hhd & Hlast & Hends).
  set (first := hd c0 sorted) in *. set (final := last sorted c0) in *.
  assert (0 <= sum_Z (map (fun c => lines_added c + lines_deleted c) mine)
          <= len mine * (2 * maxsize)) as Hsum.
  { pose proof (sum_Z_bounded (2 * maxsize)
                              (map (fun c => lines_added c + lines_deleted c) mine)) as H.
    unfold len in H |- *. rewrite length_map in H. apply H.
    apply Forall_map. revert Hb. apply Forall_impl. intros c. cbn beta. lia. }
  assert (sum_Z (map (fun c => lines_added c + lines_deleted c) mine) < 2 ^ 1022)
    as Hsmall.
  { assert (maxsize * (2 * maxsize) < 2 ^ 1022)
      by (unfold maxsize; apply Z.ltb_lt; reflexivity).
    assert (0 <= maxsize) by (unfold maxsize; lia). nia. }
  destruct (int_truediv_returns_small
              (sum_Z (map (fun c => lines_added c + lines_deleted c) mine))
              (Z.max ((to_microseconds (date final) - to_microseconds (date first))
                      / 86400000000) 1)
              ltac:(lia) ltac:(lia)) as [intensity Hi].
  rewrite Hi. cbn [bind]. eexists. split; [reflexivity|].
  split; [reflexivity|].
  unfold spec.timeline_of.
  cbn [timeline_commit_count total_lines_changed start_date end_date
       development_duration].
  split; [reflexivity|]. split; [reflexivity|].
  split; [apply in_map; now apply (Permutation_in _ Hperm)|].
  split; [apply in_map; now apply (Permutation_in _ Hperm)|].
  split; [|reflexivity].
  rewrite Forall_forall in Hends |- *. intros c Hc. apply Hends.
  apply (Permutation_in _ (Permutation_sym Hperm)). exact Hc.
Qed.

(** The second loop on a dict whose entries hold the commits of their
    features. *)
Lemma timelines_collected commits d acc :
  spec.lines_bounded commits -> len commits <= maxsize ->
  (forall k l, In (k, l) d -> l = spec.timeline_commits k commits) ->
  exists out,
    for_each add_timeline d acc = Return (acc ++ out)%list /\
    map feature_name out = map fst (filter (fun e => 2 <=? len (snd e)) d) /\
    Forall (fun t => spec.timeline_of (spec.timeline_commits (feature_name t) commits) t)
           out.
Proof.
  intros Hb Hlen. revert acc. induction d as [|[k l] d IH]; intros acc Hd.
  - exists []. rewrite app_nil_r. repeat split; constructor.
  - assert (l = spec.timeline_commits k commits) as Hl by (apply Hd; now left).
    assert (spec.lines_bounded l) as Hbl.
    { unfold spec.lines_bounded in *. rewrite Forall_forall in *. intros c Hc.
      rewrite Hl in Hc. apply timeline_commits_In in Hc. apply Hb, Hc. }
    assert (len l <= maxsize) as Hll.
    { rewrite Hl. unfold spec.timeline_commits.
      pose proof (len_filter_le
                    (fun c => match spec.timeline_feature c with
                              | Some k0 => String.eqb k0 k
                              | None => false
                              end) commits). lia. }
    cbn [for_each filter snd].
    destruct (add_timeline_of acc k l Hbl Hll) as [[Hfew ->] | [Hmany (t & -> & Hn & Ht)]];
      cbn [bind].
    + destruct (IH acc (fun k' l' H => Hd k' l' (or_intror H)))
        as (out & Hout & Hnames & Hall).
      exists out. destruct (Z.leb_spec 2 (len l)); [lia|]. auto.
    + destruct (IH (acc ++ [t])%list (fun k' l' H => Hd k' l' (or_intror H)))
        as (out & Hout & Hnames & Hall).
      exists (t :: out). rewrite Hout, <- app_assoc.
      destruct (Z.leb_spec 2 (len l)); [|lia].
      split; [reflexivity|]. cbn [map fst]. split; [now rewrite Hn, Hnames|].
      constructor; [|assumption]. now rewrite Hn, <- Hl.
Qed.

Lemma NoDup_filter_keys {V : Type} (p : string * V -> bool) (d : list (string * V)) :
  NoDup (map fst d) -> NoDup (map fst (filter p d)).
Proof.
  induction d as [|e d IH]; cbn [map filter]; intros Hnd; [constructor|].
  inversion Hnd as [|? ? Hx Hd]; subst.
  destruct (p e); [|now apply IH].
  cbn [map]. constructor; [|now apply IH].
  intros Hin. apply Hx. apply in_map_iff in Hin. destruct Hin as (e' & He & Hin).
  apply filter_In in Hin. apply in_map_iff. exists e'. tauto.
Qed.

(** X24. For commits with non-negative line counts up to [sys.maxsize],
    [analyze_feature_timeline] returns one timeline for each feature name
    that at least two commits carry and none for any other; a timeline
    counts the commits of its feature, totals their changed lines, and
    starts and ends with the earliest and the latest of their dates; the
    timelines are listed by ascending start date. *)
Theorem feature_timelines (commits : list CommitInfo) :
  spec.lines_bounded commits -> len commits <= maxsize ->
  exists timelines,
    analyze_feature_timeline commits = Return timelines /\
    NoDup (map feature_name timelines) /\
    (forall feature, In feature (map feature_name timelines)
                     <-> 2 <= len (spec.timeline_commits feature commits)) /\
    Forall (fun t => spec.timeline_of (spec.timeline_commits (feature_name t) commits) t)
           timelines /\
    StronglySorted (fun a b => dt_lt (start_date b) (start_date a) = false) timelines.
Proof.
  intros Hb Hlen. unfold analyze_feature_timeline.
  pose proof (listed_all commits) as Hl.
  set (d := fold_left _ commits []) in *.
  pose proof (fun k => listed_missing commits d k Hl) as Hmiss.
  destruct Hl as (Hnd & Hent & Hkeys).
  destruct (timelines_collected commits d [] Hb Hlen
              (fun k l H => proj2 (Hent k l H))) as (out & -> & Hnames & Hall).
  cbn [bind app].
  pose proof (sorted_asc_perm start_date out) as Hperm.
  exists (sorted_asc dt_lt start_date out).
  split; [reflexivity|]. split; [|split; [|split]].
  - apply (Permutation_NoDup (l := map feature_name out)).
    + apply Permutation_map. now symmetry.
    + rewrite Hnames. now apply NoDup_filter_keys.
  - intros feature.
    assert (In feature (map feature_name (sorted_asc dt_lt start_date out))
            <-> In feature (map fst (filter (fun e => 2 <=? len (snd e)) d))) as ->.
    { rewrite <- Hnames. split; apply Permutation_in, Permutation_map;
        [assumption | now symmetry]. }
    rewrite in_map_iff. split.
    + intros ([k l] & Hk & Hin). cbn [fst] in Hk. subst k.
      apply filter_In in Hin. destruct Hin as [Hin Hle]. cbn [snd] in Hle.
      destruct (Hent _ _ Hin) as [_ <-]. now apply Z.leb_le.
    + intros Hle.
      destruct (in_dec string_dec feature (map fst d)) as [Hin | Hno].
      * apply in_map_iff in Hin. destruct Hin as ([k l] & Hk & Hin).
        cbn [fst] in Hk. subst k. exists (feature, l). split; [reflexivity|].
        apply filter_In. split; [assumption|]. cbn [snd].
        destruct (Hent _ _ Hin) as [_ ->]. now apply Z.leb_le.
      * rewrite (Hmiss _ Hno) in Hle. cbn in Hle. lia.
  - rewrite Forall_forall in Hall |- *. intros t Ht. apply Hall.
    now apply (Permutation_in _ Hperm).
  - apply sorted_asc_by_date.
Qed.

End Timelines.

(** The login form comes first although its first commit is second in
    the list. *)
Example timelines_found :
  match git_analyzer.analyze_feature_timeline timeline_sample with
  | Py.Return timelines =>
      map (fun t => (git_analyzer.feature_name t, git_analyzer.start_date t,
                     git_analyzer.end_date t, git_analyzer.timeline_commit_count t,
                     git_analyzer.total_lines_changed t,
                     git_analyzer.development_intensity t)) timelines
  | Py.Raise _ => []
  end
  = [ ("login form", monday_noon 1, monday_noon 9, 2, 24, Py.lit 30 1);
      ("search", monday_noon 2, monday_noon 3, 2, 24, Py.lit 240 1) ].
Proof. vm_compute. reflexivity. Qed.

(** X24 on these five commits. *)
Lemma feature_timelines_witness :
  exists timelines,
    git_analyzer.analyze_feature_timeline timeline_sample = Py.Return timelines /\
    NoDup (map git_analyzer.feature_name timelines) /\
    (forall feature, In feature (map git_analyzer.feature_name timelines)
                     <-> 2 <= Py.len (spec.timeline_commits feature timeline_sample)) /\
    Forall (fun t => spec.timeline_of
                       (spec.timeline_commits (git_analyzer.feature_name t)
                                              timeline_sample) t)
           timelines /\
    StronglySorted
      (fun a b => Py.dt_lt (git_analyzer.start_date b) (git_analyzer.start_date a) = false)
      timelines.
Proof.
  apply (feature_timelines timeline_sample).
  - repeat constructor; vm_compute; discriminate.
  - vm_compute. discriminate.
Defined.

(** ** Further properties: the knowledge areas of a developer *)

Section KnowledgeAreas.
Import Py git_analyzer developer_analyzer.

Lemma note_area_cases area keywords commits known :
  note_area area keywords commits known
  = if spec.mentions keywords commits && negb (str_in area known)
    then (known ++ [area])%list else known.
Proof.
  unfold spec.mentions.
  induction commits as [|c commits IH]; cbn [note_area existsb]; [reflexivity|].
  destruct (any_in keywords (lower (message c))); cbn [orb andb]; [reflexivity|].
  exact IH.
Qed.

(** The areas noted for a part of the table, after the areas [known]. *)
Lemma noted_areas commits table known :
  NoDup (map fst table) ->
  (forall a, In a known -> ~ In a (map fst table)) ->
  fold_left (fun knowledge_areas '(area, keywords) =>
               note_area area keywords commits knowledge_areas) table known
  = (known ++ map fst (filter (fun e => spec.mentions (snd e) commits) table))%list.
Proof.
  revert known. induction table as [|[area keywords] table IH]; intros known Hnd Hk.
  - cbn. now rewrite app_nil_r.
  - inversion Hnd as [|? ? Hx Ht]; subst. cbn [fold_left filter snd].
    rewrite note_area_cases.
    assert (str_in area known = false) as ->.
    { destruct (str_in area known) eqn:E; [|reflexivity].
      apply str_in_In in E. exfalso. apply (Hk area E). now left. }
    cbn [negb]. rewrite andb_true_r.
    destruct (spec.mentions keywords commits).
    + rewrite IH; [cbn [map fst]; now rewrite <- app_assoc | assumption |].
      intros a Ha. apply in_app_iff in Ha. destruct Ha as [Ha | [<- | []]].
      * intros Hin. apply (Hk a Ha). now right.
      * exact Hx.
    + apply IH; [assumption|]. intros a Ha Hin. apply (Hk a Ha). now right.
Qed.

Lemma mentions_more keywords commits more :
  spec.mentions keywords commits = true ->
  spec.mentions keywords (commits ++ more) = true.
Proof.
  unfold spec.mentions. rewrite existsb_app. intros ->. reflexivity.
Qed.

Lemma knowledge_areas_found commits :
  _identify_knowledge_areas commits
  = match map fst (filter (fun e => spec.mentions (snd e) commits) tech_keywords) with
    | [] => ["General Software Development"]
    | areas => areas
    end.
Proof.
  unfold _identify_knowledge_areas.
  rewrite (noted_areas commits tech_keywords []);
    [cbn [app]; destruct (map fst _); reflexivity | | intros a []].
  cbn. repeat (constructor; [cbn; intuition discriminate|]). constructor.
Qed.

(** X25. [_identify_knowledge_areas] never returns an empty list or the
    same area twice, whatever the commits (none, or none that names a
    keyword, included), and more commits never remove an area: an area
    found in some commits, other than the fallback 'General Software
    Development', is still found when commits are added. *)
Theorem knowledge_areas_monotone (commits : list CommitInfo) :
  _identify_knowledge_areas commits <> [] /\
  NoDup (_identify_knowledge_areas commits) /\
  forall (more : list CommitInfo) (area : string),
    In area (_identify_knowledge_areas commits) ->
    area <> "General Software Development" ->
    In area (_identify_knowledge_areas (commits ++ more)).
Proof.
  assert (forall l, NoDup (map fst (filter (fun e => spec.mentions (snd e) l)
                                           tech_keywords))) as Hnd.
  { intros l. apply NoDup_filter_keys.
    cbn. repeat (constructor; [cbn; intuition discriminate|]). constructor. }
  split; [|split].
  - rewrite knowledge_areas_found. destruct (map fst _); discriminate.
  - rewrite knowledge_areas_found. specialize (Hnd commits).
    destruct (map fst _) as [|a l]; [|exact Hnd].
    constructor; [intros [] | constructor].
  - intros more area Hin Hne. rewrite knowledge_areas_found in *.
    assert (In area (map fst (filter (fun e => spec.mentions (snd e) commits)
                                     tech_keywords))) as Hfound.
    { revert Hin. destruct (map fst _) as [|a l]; intros Hin; [|exact Hin].
      destruct Hin as [<- | []]. congruence. }
    clear Hin.
    assert (In area (map fst (filter (fun e => spec.mentions (snd e) (commits ++ more))
                                     tech_keywords))) as Hmore.
    { apply in_map_iff in Hfound.
      destruct Hfound as (e & <- & He). apply filter_In in He.
      apply in_map, filter_In. split; [tauto|]. apply mentions_more. tauto. }
    clear Hfound.
    set (areas := map fst (filter (fun e => spec.mentions (snd e) (commits ++ more))
                                  tech_keywords)) in *.
    destruct areas as [|a l]; [destruct Hmore | assumption].
Qed.

End KnowledgeAreas.

(** ** Further properties: the contribution pattern of a developer *)

Section ContributionPattern.
Import Py git_analyzer developer_analyzer.

Lemma sorted_unique (l1 l2 : list Z) :
  StronglySorted Z.le l1 -> StronglySorted Z.le l2 -> Permutation l1 l2 -> l1 = l2.
Proof.
  revert l2. induction l1 as [|a l1 IH]; intros l2 H1 H2 Hp.
  - apply Permutation_nil in Hp. now subst.
  - destruct l2 as [|b l2]; [apply Permutation_sym, Permutation_nil in Hp; discriminate|].
    apply StronglySorted_inv in H1, H2.
    destruct H1 as [H1 Ha], H2 as [H2 Hb]. rewrite Forall_forall in Ha, Hb.
    assert (a = b) as ->.
    { assert (In a (b :: l2)) as Hina by (apply (Permutation_in _ Hp); now left).
      assert (In b (a :: l1)) as Hinb
          by (apply (Permutation_in _ (Permutation_sym Hp)); now left).
      destruct Hina as [-> | Hina]; [reflexivity|].
      destruct Hinb as [-> | Hinb]; [reflexivity|].
      specialize (Ha _ Hinb). specialize (Hb _ Hina). lia. }
    f_equal. apply IH; [assumption | assumption |].
    now apply Permutation_cons_inv in Hp.
Qed.

Lemma gaps_between_times dates :
  gaps_between dates = spec.day_gaps (map to_microseconds dates).
Proof.
  induction dates as [|a [|b rest] IH]; [reflexivity | reflexivity|].
  cbn [gaps_between map spec.day_gaps] in *. now rewrite IH.
Qed.

(** The sorted dates of two lists with the same dates are the same
    instants. *)
Lemma sorted_times dates dates' :
  Permutation dates dates' ->
  map to_microseconds (sorted_asc dt_lt (fun d => d) dates)
  = map to_microseconds (sorted_asc dt_lt (fun d => d) dates').
Proof.
  intros Hp.
  assert (forall l, StronglySorted Z.le
                      (map to_microseconds (sorted_asc dt_lt (fun d => d) l))) as Hs.
  { intros l. apply (sorted_map _ _ to_microseconds _
                                (sorted_asc_by_date (fun d => d) l)).
    intros x y _ _ H. unfold dt_lt in H. now apply Z.ltb_ge in H. }
  apply sorted_unique; [apply Hs | apply Hs|].
  apply Permutation_map.
  rewrite (sorted_asc_perm (fun d => d) dates), (sorted_asc_perm (fun d => d) dates').
  exact Hp.
Qed.

(** X26. [_determine_contribution_pattern] does not depend on the order of
    the commits: two lists with the same commits give the same pattern, or
    raise the same exception. *)
Theorem contribution_pattern_any_order (author_stat : AuthorStats)
        (commits commits' : list CommitInfo) :
  Permutation commits commits' ->
  _determine_contribution_pattern author_stat commits
  = _determine_contribution_pattern author_stat commits'.
Proof.
  intros Hp. unfold _determine_contribution_pattern.
  destruct commits as [|c commits], commits' as [|c' commits'];
    [reflexivity
    |apply Permutation_nil in Hp; discriminate
    |apply Permutation_sym, Permutation_nil in Hp; discriminate|].
  pose proof (sorted_times _ _ (Permutation_map date Hp)) as Ht.
  set (dates := sorted_asc dt_lt (fun d => d) (map date (c :: commits))) in *.
  set (dates' := sorted_asc dt_lt (fun d => d) (map date (c' :: commits'))) in *.
  assert (len dates = len dates') as ->.
  { unfold len. f_equal.
    rewrite <- (length_map to_microseconds dates), Ht. apply length_map. }
  rewrite !gaps_between_times, Ht. reflexivity.
Qed.

End ContributionPattern.

(** The five commits of the timeline sample, made within nine days, and
    the same commits in reverse order. *)
Example contribution_pattern_found :
  developer_analyzer._determine_contribution_pattern lead_author timeline_sample
  = Py.Return "High frequency, consistent contributor".
Proof. vm_compute. reflexivity. Qed.

(** X26 on these commits. *)
Lemma contribution_pattern_any_order_witness :
  developer_analyzer._determine_contribution_pattern lead_author timeline_sample
  = developer_analyzer._determine_contribution_pattern lead_author (rev timeline_sample).
Proof.
  apply (contribution_pattern_any_order lead_author timeline_sample (rev timeline_sample)).
  apply Permutation_rev.
Defined.

(** X25 on the five commits of the features, one of which names an API,
    and the commits of the timeline sample added to them. *)
Lemma knowledge_areas_monotone_witness :
  developer_analyzer._identify_knowledge_areas feature_commits <> [] /\
  NoDup (developer_analyzer._identify_knowledge_areas feature_commits) /\
  In "backend" (developer_analyzer._identify_knowledge_areas
                  (feature_commits ++ timeline_sample)).
Proof.
  destruct (knowledge_areas_monotone feature_commits) as (Hne & Hnd & Hmore).
  split; [exact Hne|]. split; [exact Hnd|].
  apply (Hmore timeline_sample "backend").
  - vm_compute. now left.
  - discriminate.
Defined.

(** X25 on no commit at all and on commits that name no keyword: the
    fallback is the one area. *)
Example knowledge_areas_fallback :
  developer_analyzer._identify_knowledge_areas [] = ["General Software Development"] /\
  developer_analyzer._identify_knowledge_areas timeline_sample
  = ["General Software Development"].
Proof. vm_compute. split; reflexivity. Qed.

(** ** Further properties: the coverage of the mitigation strategies *)

Section Coverage.
Import Py risk_assessor.

Lemma share_range q :
  spec.share q ->
  fge q (S754_zero false) = true /\ fle q (lit 10 1) = true.
Proof.
  intros [-> | Hq]; [split; reflexivity|].
  destruct q as [[] | [] | | [] m e]; try contradiction.
  destruct Hq as (Hm & Hlow & Hle). split; [reflexivity|].
  change (lit 10 1) with (S754_finite false 4503599627370496 (-52)).
  unfold fle. apply SFleb_rank; [reflexivity | reflexivity|].
  cbn [spec.rank spec.le3]. lia.
Qed.

(** X27. For a list of a length a list can have,
    [_calculate_mitigation_coverage] returns a number between 0 and 1, and
    exactly 1.0 when every risk has a mitigation strategy. *)
Theorem mitigation_coverage_range (risks : list Risk) :
  len risks <= maxsize ->
  exists coverage,
    _calculate_mitigation_coverage risks = Return coverage /\
    fge coverage (S754_zero false) = true /\
    fle coverage (lit 10 1) = true /\
    (Forall (fun r => mitigation_strategy r <> "") risks -> coverage = lit 10 1).
Proof.
  intros Hlen. unfold _calculate_mitigation_coverage.
  destruct risks as [|r0 rest].
  { eexists. split; [reflexivity|]. repeat split; reflexivity. }
  set (risks := r0 :: rest) in *.
  set (covered := fun r => match mitigation_strategy r with
                           | EmptyString => false
                           | _ => true
                           end).
  assert (0 < len risks) as Hpos.
  { subst risks. rewrite len_cons. pose proof (len_nonneg rest). lia. }
  clearbody risks.
  pose proof (len_filter_le covered risks) as Hle.
  destruct (int_truediv_share (len (filter covered risks)) (len risks)
                              ltac:(lia) ltac:(lia)) as (q & Hq & Hshare).
  exists q. split; [exact Hq|].
  destruct (share_range q Hshare) as [H0 H1].
  split; [assumption|]. split; [assumption|].
  intros Hall.
  assert (filter covered risks = risks) as Hsame.
  { clear - Hall. induction Hall as [|r l Hr _ IH]; [reflexivity|].
    cbn [filter]. unfold covered at 1.
    destruct (mitigation_strategy r); [congruence|]. now rewrite IH. }
  rewrite Hsame in Hq. unfold int_truediv in Hq.
  destruct (Z.eqb_spec (len risks) 0); [lia|].
  destruct (len risks) as [|p|p]; try lia.
  cbn [exact] in Hq. rewrite SFdiv_self in Hq. cbn in Hq. now injection Hq as <-.
Qed.

End Coverage.

(** Every technical risk of the five commits has a strategy; without the
    strategy of the first one, two of the three are covered. *)
Example coverage_found :
  risk_assessor._calculate_mitigation_coverage risks_found = Py.Return (Py.lit 10 1) /\
  risk_assessor._calculate_mitigation_coverage risks_partly_covered
  = Py.int_truediv 2 3.
Proof. split; vm_compute; reflexivity. Qed.

(** X27 on the partly covered risks. *)
Lemma mitigation_coverage_range_witness :
  exists coverage,
    risk_assessor._calculate_mitigation_coverage risks_partly_covered
    = Py.Return coverage /\
    Py.fge coverage (S754_zero false) = true /\
    Py.fle coverage (Py.lit 10 1) = true /\
    (Forall (fun r => risk_assessor.mitigation_strategy r <> "") risks_partly_covered ->
     coverage = Py.lit 10 1).
Proof.
  apply (mitigation_coverage_range risks_partly_covered).
  vm_compute. discriminate.
Defined.
